(* ===== verification/_CoqProject ===== *)
-Q . S2P
Prelude.v
GoStrings.v
Utf8.v
JsonText.v
GoScan.v
GoFlag.v
GoCache.v
Monad.v
Rely.v
Threads.v
DnsTypes.v
Float64.v
GoNet.v
ZoneIndex.v
Zone.v
OrderIps.v
GeoIp.v
Limiter.v
LimiterThreads.v
Server.v
Deps.v
World.v
Answers.v
Sample.v
Dnssec.v
Upstream.v
Health.v
HealthPipeline.v
Request.v
Loader.v
Updater.v
Handler.v
HandlerFacts.v
Serve.v
Resolve.v
Config.v
NoPanic.v
Concurrent.v
LogFormat.v
LogList.v
Boot.v
Process.v
Verify.v
TestHelpers.v
PerfGen.v
PerfBulk.v
QueryTool.v
CommandLine.v
