(* ===== verification/Prelude.v ===== *)
(** * Redins: a verification development for the redins DNS server

    Redins (package arvancloud/redins) is an authoritative DNS server written in
    Go.  It serves zones stored in Redis, filters the addresses it hands out by
    health and by the client's location, follows CNAME and ANAME records, signs
    its replies, and limits the rate of its clients.  This development models the
    program function by function and proves what makes the parts and the whole
    correct.

    ** The program and where it is modelled

    - redins.go, the process.  [handleRequest] makes a request context, asks the
      rate limiter and calls the handler or refuses: Handler.v ([handleRequest]),
      Serve.v (sequences of requests), NoPanic.v (requests on sane data),
      Concurrent.v (requests in goroutines of their own).  The configuration with
      its struct tags, [LoadConfig] and the template of -g: Config.v, on the JSON
      texts of JsonText.v.  [Start], [Stop] and [main]
      with its signals: Process.v.  [Verify], the check of -t: Verify.v.  The
      command lines of [main] and of the tools: CommandLine.v.
    - handler/server.go, the listeners: Server.v.
    - handler/limiter.go, a leaky bucket per client: Limiter.v, and with calls that
      interleave LimiterThreads.v.
    - handler/request.go, the context of a request and its reply: Request.v.
    - handler/handler.go, the core.  [HandleRequest] finds the zone by the
      longest suffix in a radix tree (ZoneIndex.v: [reverseZone], [FindZone]),
      loads the zone and the records (Loader.v: [LoadZones], [LoadZone],
      [loadKey], [LoadZoneKeys], [LoadLocation], [SetLocation]), walks the CNAME
      chain, and builds the answer (Handler.v: [resolveLoop], [answerFor],
      [FindCAA], [FindANAME], [Filter], [secure], [HandleRequest]; Answers.v:
      one builder per record type, [getTtl], [split255]; OrderIps.v:
      [OrderIps]).  [NewHandler] and [ShutDown] are in Boot.v, the latter as a
      transition system with the goroutines it waits for; the goroutine that
      reloads the zone tree is a transition system in Updater.v.
    - handler/zone.go: [NewZone] in Loader.v, [FindLocation] in Zone.v.
    - handler/dns_types.go, the stored data and [UnmarshalJSON]: DnsTypes.v.
    - handler/dnssec.go, signing: Dnssec.v.
    - handler/geoip.go, the geo filters, on IEEE floats (Float64.v): GeoIp.v.
    - handler/healthcheck.go, probing, storing and filtering: Health.v, from a
      probe to the filter HealthPipeline.v; its part of the shutdown: Boot.v.
    - handler/upstream.go, resolving through other servers: Upstream.v.
    - handler/logformat/, the capnp form of a log entry: LogFormat.v; its lists,
      promises and schema: LogList.v.
    - test/, the helpers of the tests: TestHelpers.v (Module [Test]).
    - tools/perf/gen/ and tools/perf/bulk/, which fill a database and query the
      server for it: PerfGen.v and PerfBulk.v.
    - tools/query/, which measures or compares servers: QueryTool.v.

    ** How it is modelled

    Pure Go functions are Gallina functions.  Integers are [Z] with the
    wrap-around of their width written out ([i64], [u32]); durations and times
    are nanoseconds.  Strings are byte strings (GoStrings.v, Utf8.v), addresses
    byte lists with nil as [None] (GoNet.v has [net.IP.String] and
    [net.ParseIP]); GoScan.v has [fmt.Sscan] and the readers of lines, GoFlag.v
    the package flag.  A Go
    panic is the outcome [Panic]; a loop whose bound would be exhausted is
    [Diverge], and theorems that something terminates exclude it.

    The state the components share is the record [World] of World.v, threaded
    through the monad of Monad.v, whose weakest preconditions [wp] carry the
    proofs.  Records live in a heap because the record cache hands out pointers
    and [HandleRequest] writes the TTL of an ANAME answer through one; zones and
    health items are not written after they are shared and are kept by value, and
    so are the answers in the cache of the upstream resolver, whose TTLs are
    written anew by each call that takes them from there.
    Every look outside (the clock, Redis, caches that may evict, the network,
    the order of a Go map) goes through [Env], indexed by a tick that each look
    advances; [env_redis], [env_status] and [env_zones] let other clients and the
    zone updater change the shared data between any two looks.

    A program of the monad is a tree of atomic steps, so it can run by itself
    ([run]) or as one of many threads: Threads.v has pools of threads whose steps
    interleave in any order, with calls on a singleflight group that share the
    result of a call in flight, as that package documents.  Rely.v has a
    rely-guarantee judgement on programs, which accounts for the events of the
    thread itself; it is sound for pools ([pool_sound]).  The lemmas that the
    properties of one request rest on are proved in that judgement, so the
    sequential theorems and the concurrent one share them.  A step is one access
    to the shared state, one look outside, or what happens under one lock.

    Libraries the repository does not contain are type classes: [Radix],
    [GoCache], [MaxMind], [MathFns] with the components that use them, [Redis],
    [DnsLib], [CoreDns] and [Json] in Deps.v, bundled as [Libs].  What a theorem
    needs of one is a class of laws ([RadixLaws], [GoCacheLaws], [RedisLaws],
    [DnsLibLaws], [JsonLaws]); Sample.v gives instances that satisfy the laws,
    on which the model runs ([sample_replies] in Serve.v runs five requests).
    Capnproto ([Capnp], [CapnpLaws] in LogFormat.v), the JSON codec of the
    configuration ([ConfigJson] in Config.v; its laws [ConfigJsonLaws] say that
    it writes and reads JSON texts by the struct tags), the file system of -g,
    what [Verify] probes ([Probes] in Verify.v), whether calls of the worker pool
    and the end of the subscription return ([returns] in Boot.v), the text of records and [sort.Sort] ([DnsTest], [GoSort] in
    TestHelpers.v) and the random sources of the tools follow the same pattern.

    ** Bounds

    The CNAME and ANAME chains stop after 11 steps in the code and recurse on the
    steps left.  The bounds of the other loops are proved large enough:
    [findLoop] (one round per byte of the name and two), [caaLoop] (one round per
    dot of the location), [splitLoop] (one round per byte), [swapLoop] (one round
    per rune), the line readers of GoScan.v (one round per byte).  The JSON parser
    of JsonText.v, a specification and not part of the program, may nest one call
    per byte of the text, each of which consumes a byte.
    [RandomString] runs as long as its source delivers no letter; it gets fuel,
    and the theorems say that enough fuel gives the result if the source keeps
    delivering letters.  Infinite loops of goroutines (the updater, [Start],
    [Transfer]) are modelled by their rounds, the shutdown by an executable step
    function and the query tool by a step relation, with measures that bound their
    runs.  A pool of threads needs
    no bound: that its schedules are finite is proved ([poolStep_acc]).

    ** What the theorems show

    - The whole server, in every environment (Serve.v): each request of any
      sequence is answered exactly once and in order, unless the process panics;
      the codes, ids, TTLs and types of a reply; negative answers with DNSSEC.
      It does not panic if the stored data and the configuration are sane
      (NoPanic.v), from [NewHandler] on (Boot.v).  Served concurrently, in any
      interleaving with each other, the zone updater and the health check,
      requests do not panic, wait for ever or run for ever, and each is answered
      exactly once (Concurrent.v).
    - The process: which run a command line leads to (CommandLine.v, on the
      specification of [Parse] in GoFlag.v); [Verify] accepts exactly the valid
      configurations as far as it looks at them, if no logger writes to a file
      (Verify.v); the template reads back by the struct tags (Config.v), listeners
      and handlers are started and shut down in pairs (Process.v), [ShutDown]
      returns if the calls it makes into other packages do (Boot.v).
    - Logging: what [Format] encodes is read back, and every entry that serving
      makes can be formatted (LogFormat.v).
    - Resolution (Resolve.v): against an abstract account of the stored data, a
      CNAME chain and what stands at its end, the reply is that chain and the
      stored records; long chains end in a server failure.
    - Lookup: [FindZone] is the longest-suffix match at label boundaries
      (ZoneIndex.v); [FindLocation] gives the answer of RFC 4592, specified by the
      existing names, the closest encloser and the source of synthesis, except for
      names that match inside a label and for empty non-terminals below a wildcard,
      where the code deviates (Zone.v).
    - Address selection: rotation, which address comes first how often in the
      weighted and round-robin orders (OrderIps.v), what exactly the country, AS
      and distance filters (GeoIp.v) and the health filter (Health.v) keep.
    - Health state: bounded and convergent status, a probe's effect, storage
      round trip, settings copied without disturbing the state (Health.v); an
      outage takes an address out of the answers (HealthPipeline.v).
    - Signing: complete RRsets, nothing lost (Dnssec.v).
    - Loading: well-formed zones, refresh and fallback (HandlerFacts.v), the
      updater picks up changes it is told of while it idles (Updater.v), upstream
      answers are reused for as long as their smallest TTL says and no longer
      (Upstream.v), JSON entries (DnsTypes.v), TXT texts (Answers.v), rate and
      burst of the limiter (Limiter.v), listeners (Server.v).
    - Concurrent calls of the limiter for clients it knows decide as in some
      sequential order, so the rate bound holds for them (LimiterThreads.v).
    - Tests and tools: what [SortAndCheck] accepts, the order of CNAMEs
      (TestHelpers.v), the comparison of two servers and the result of a
      measurement (QueryTool.v); the queries of [gen] find in Redis, after all its
      commands, the A record or the absence they expect (PerfGen.v), and when
      [bulk] has complaints (PerfBulk.v).
    - Defects of the code, stated as theorems without a claim number: misaligned
      names and empty non-terminals in [FindLocation], addresses that all vanish when
      a health check has no counts, answers of TTL 0 that are kept, a log path that
      is not checked, a panic of the distance filter, a lost upstream, a
      status reset with positive down counts, a lost notification, a forgetful
      limiter, a leak of the AS filter, a panic on a null SOA, shutdowns that
      hang, a crash on reload, settings that survive a reload, nil log entries,
      first requests that race past the limiter,
      the id of a ping, and small ones of the tools.

    ** What is not modelled

    Logging to the default logger and progress output, the event loggers behind
    the log queue, sockets and TLS files beyond the results of opening them, the
    worker pool beyond handing each job to one worker, the profiling endpoint of
    [main].  Interleaving is sequentially consistent and by whole steps: a torn or
    reordered access, as the unsynchronised write of a TTL into a cached record
    allows in Go, is not modelled.  In Concurrent.v the decision of the limiter is
    an input of each request, and the theorems about DNSSEC, resolution and the
    order of replies are about requests handled one after the other, with
    interference through Redis, the zone tree and evictions.  The sizes of the
    caches appear only in that a cache may evict anything.  [strings.ToLower] is
    modelled on ASCII, the only bytes of a question name in presentation form. *)
From stdpp Require Export base list gmap strings.
From Stdlib Require Export ZArith Lia.
From Stdlib Require Import Ascii.

#[global] Set Default Goal Selector "!".
#[global] Open Scope string_scope.
#[global] Open Scope list_scope.
#[global] Open Scope Z_scope.

(** ** Proof automation of the development *)

Create HintDb redins.
Create Rewrite HintDb redins.

(** Destruct the scrutinee of a [match] or [if], innermost first, keeping
    the equation. *)
Ltac case_innermost t :=
  lazymatch t with
  | context [match ?x with _ => _ end] => case_innermost x
  | _ => let E := fresh "E" in destruct t eqn:E
  end.

Ltac split_match :=
  match goal with
  | |- context [match ?x with _ => _ end] => case_innermost x
  end.

Ltac split_match_in H :=
  match type of H with
  | context [match ?x with _ => _ end] => case_innermost x
  end.

(** Turn the boolean tests of the code into propositions. *)
Ltac bool_to_prop :=
  repeat match goal with
  | H : (_ && _)%bool = true |- _ => apply andb_true_iff in H; destruct H
  | H : (_ || _)%bool = false |- _ => apply orb_false_iff in H; destruct H
  | H : negb _ = true |- _ => apply negb_true_iff in H
  | H : negb _ = false |- _ => apply negb_false_iff in H
  | H : (_ =? _) = true |- _ => apply Z.eqb_eq in H
  | H : (_ =? _) = false |- _ => apply Z.eqb_neq in H
  | H : (_ <? _) = true |- _ => apply Z.ltb_lt in H
  | H : (_ <? _) = false |- _ => apply Z.ltb_ge in H
  | H : (_ <=? _) = true |- _ => apply Z.leb_le in H
  | H : (_ <=? _) = false |- _ => apply Z.leb_gt in H
  | H : String.eqb _ _ = true |- _ => apply String.eqb_eq in H
  | H : String.eqb _ _ = false |- _ => apply String.eqb_neq in H
  | H : bool_decide _ = true |- _ => apply bool_decide_eq_true_1 in H
  | H : bool_decide _ = false |- _ => apply bool_decide_eq_false_1 in H
  end.

(** ** Machine integers *)

(** Go's [int], [int64] and [time.Duration] are 64-bit two's complement. *)
Definition i64 (z : Z) : Z := (z + 2^63) mod 2^64 - 2^63.
Definition u16 (z : Z) : Z := z mod 2^16.
Definition u32 (z : Z) : Z := z mod 2^32.
Definition in_i64 (z : Z) : Prop := - 2^63 <= z < 2^63.
Definition in_u32 (z : Z) : Prop := 0 <= z < 2^32.

Lemma i64_id z : in_i64 z -> i64 z = z.
Proof. unfold in_i64, i64. intros. rewrite Z.mod_small; lia. Qed.

Lemma i64_range z : in_i64 (i64 z).
Proof.
  unfold in_i64, i64. pose proof (Z.mod_pos_bound (z + 2^63) (2^64)). lia.
Qed.

(** Wrapping early or late is the same. *)
Lemma i64_add_l a b : i64 (i64 a + b) = i64 (a + b).
Proof.
  unfold i64. replace ((a + 2^63) mod 2^64 - 2^63 + b + 2^63) with ((a + 2^63) mod 2^64 + b) by lia.
  rewrite Zplus_mod_idemp_l. do 2 f_equal. lia.
Qed.

Lemma u32_id z : in_u32 z -> u32 z = z.
Proof. unfold in_u32, u32. intros. by rewrite Z.mod_small. Qed.

Lemma u32_range z : in_u32 (u32 z).
Proof. unfold in_u32, u32. apply Z.mod_pos_bound. lia. Qed.

(** [time.Time.Sub] and [time.Since] saturate instead of wrapping. *)
Definition sat64 (z : Z) : Z := Z.max (- 2^63) (Z.min z (2^63 - 1)).

Lemma sat64_id z : in_i64 z -> sat64 z = z.
Proof. unfold in_i64, sat64. lia. Qed.

(** Durations in nanoseconds (package time). *)
Definition Millisecond : Z := 1000000.
Definition Second : Z := 1000000000.
Definition Minute : Z := 60 * Second.

(** The zero [time.Time], 1 January of year 1, in nanoseconds since the epoch. *)
Definition zeroTime : Z := -62135596800 * Second.

#[export] Hint Resolve i64_range u32_range : redins.
#[export] Hint Rewrite i64_id u32_id using (unfold in_i64, in_u32 in *; lia) : redins.

(** ** Results of Go code

    [Panic] is a run-time panic (nil dereference, index out of range, failed
    type assertion, division by zero), which ends the process; [Diverge] is a
    loop whose bound was exhausted. *)
Inductive Outcome (A : Type) :=
  | Done (a : A)
  | Panic
  | Diverge.
Arguments Done {A} a.
Arguments Panic {A}.
Arguments Diverge {A}.

#[global] Instance outcome_ret : MRet Outcome := fun _ a => Done a.
#[global] Instance outcome_bind : MBind Outcome := fun _ _ f m =>
  match m with
  | Done a => f a
  | Panic => Panic
  | Diverge => Diverge
  end.

(** ** Lists *)

Lemma length_filter_seqZ_interval (P : Z -> Prop) `{!forall x, Decision (P x)} a n b c :
  (forall s, a <= s < a + n -> P s <-> b <= s < c) ->
  a <= b -> b <= c -> c <= a + n ->
  Z.of_nat (length (filter P (seqZ a n))) = c - b.
Proof.
  intros HP Hab Hbc Hcn.
  replace n with ((b - a) + ((c - b) + (a + n - c))) by lia.
  rewrite seqZ_app by lia. rewrite seqZ_app by lia. rewrite !filter_app.
  assert (forall l, Forall (fun s => a <= s < a + n /\ ~ (b <= s < c)) l -> filter P l = []) as Hout.
  { induction 1 as [|x l [Hx Hn] _ IH]; [done|]. rewrite filter_cons_False; [done|].
    rewrite HP by lia. done. }
  assert (forall l, Forall (fun s => b <= s < c) l -> filter P l = l) as Hin.
  { induction 1 as [|x l Hx _ IH]; [done|]. rewrite filter_cons_True; [by rewrite IH|].
    apply HP; lia. }
  rewrite (Hout (seqZ a (b - a))), (Hin (seqZ (a + (b - a)) (c - b))), (Hout (seqZ (_ + _) (a + n - c))).
  - rewrite app_nil_l, app_nil_r, length_seqZ. lia.
  - apply Forall_forall. intros x Hx%elem_of_seqZ. lia.
  - apply Forall_forall. intros x Hx%elem_of_seqZ. lia.
  - apply Forall_forall. intros x Hx%elem_of_seqZ. lia.
Qed.

(** The numbers of a window as long as the modulus whose residue lies in an
    interval. *)
Lemma length_filter_seqZ_residue (P : Z -> Prop) `{!forall x, Decision (P x)} a n b w :
  0 < n -> 0 <= b -> 0 <= w -> b + w <= n ->
  (forall s, a <= s < a + n -> P s <-> b <= s mod n < b + w) ->
  Z.of_nat (length (filter P (seqZ a n))) = w.
Proof.
  intros Hn Hb Hw Hbw HP. pose proof (Z.mod_pos_bound a n Hn) as Hr. set (r := a mod n) in *.
  pose proof (Z.div_mod a n ltac:(lia)) as Ha. fold r in Ha. set (q := n * (a / n)) in *.
  assert (forall s, a <= s < a + (n - r) -> s mod n = s - q) as H1.
  { intros s Hs. symmetry. apply (Z.mod_unique _ _ (a / n)); lia. }
  assert (forall s, a + (n - r) <= s < a + n -> s mod n = s - q - n) as H2.
  { intros s Hs. symmetry. apply (Z.mod_unique _ _ (a / n + 1)); lia. }
  replace n with ((n - r) + r) by lia. rewrite seqZ_app, filter_app, length_app, Nat2Z.inj_add by lia.
  rewrite (length_filter_seqZ_interval P a (n - r) (Z.min (Z.max a (q + b)) (a + (n - r))) (Z.max a (Z.min (q + b + w) (a + (n - r))))),
    (length_filter_seqZ_interval P (a + (n - r)) r (Z.min (q + n + b) (a + n)) (Z.min (q + n + b + w) (a + n))).
  all: try lia.
  - intros s Hs. rewrite HP by lia. rewrite H2 by lia. lia.
  - intros s Hs. rewrite HP by lia. rewrite H1 by lia. lia.
Qed.
