(* ===== verification/GoStrings.v ===== *)
(** Go strings: the functions of packages [strings] and [unicode/utf8] that
    redins uses, on byte strings, with the lemmas the components share. *)
From S2P Require Import Prelude.
From Stdlib Require Import Ascii.

(** ** Slicing and concatenation *)

(** [s[n:]] and [s[:n]]. *)
Fixpoint sdrop (n : nat) (s : string) : string :=
  match n, s with
  | O, _ => s
  | S n', String _ s' => sdrop n' s'
  | S _, EmptyString => EmptyString
  end.

Fixpoint stake (n : nat) (s : string) : string :=
  match n, s with
  | O, _ => EmptyString
  | S n', String c s' => String c (stake n' s')
  | S _, EmptyString => EmptyString
  end.

#[global] Arguments String.append !_ _ / : simpl nomatch.
Abbreviation slen := String.length.

Lemma slen_app s t : slen (s +:+ t) = (slen s + slen t)%nat.
Proof. induction s; simpl; congruence. Qed.

Lemma sapp_nil_r s : s +:+ "" = s.
Proof. induction s; simpl; congruence. Qed.

Lemma sapp_assoc s t u : (s +:+ t) +:+ u = s +:+ (t +:+ u).
Proof. induction s; simpl; congruence. Qed.

Lemma stake_sdrop n s : stake n s +:+ sdrop n s = s.
Proof. revert s. induction n; destruct s; simpl; congruence. Qed.

Lemma sdrop_sdrop n m s : sdrop m (sdrop n s) = sdrop (n + m) s.
Proof. revert s. induction n; destruct s; simpl; auto. by destruct m. Qed.

Lemma slen_sdrop n s : slen (sdrop n s) = (slen s - n)%nat.
Proof. revert s. induction n; destruct s; simpl; auto. Qed.

Lemma slen_stake n s : slen (stake n s) = (n `min` slen s)%nat.
Proof. revert s. induction n; destruct s; simpl; auto. Qed.

Lemma sdrop_app s t : sdrop (slen s) (s +:+ t) = t.
Proof. induction s; simpl; auto. Qed.

Lemma stake_app s t : stake (slen s) (s +:+ t) = s.
Proof. induction s; simpl; congruence. Qed.

Lemma sapp_inj_len s1 s2 t1 t2 :
  slen s1 = slen s2 -> s1 +:+ t1 = s2 +:+ t2 -> s1 = s2 /\ t1 = t2.
Proof.
  intros Hl He. split.
  - rewrite <- (stake_app s1 t1), <- (stake_app s2 t2). by rewrite Hl, He.
  - rewrite <- (sdrop_app s1 t1), <- (sdrop_app s2 t2). by rewrite Hl, He.
Qed.

Lemma sapp_inj_r s1 s2 t : s1 +:+ t = s2 +:+ t -> s1 = s2.
Proof.
  intros He. apply (sapp_inj_len _ _ t t); [|done].
  apply (f_equal slen) in He. rewrite !slen_app in He. lia.
Qed.

Lemma slen_0 s : slen s = 0%nat <-> s = "".
Proof. destruct s; split; simpl; intros; simplify_eq; auto. Qed.

(** ** [strings.HasPrefix], [strings.HasSuffix], [strings.TrimSuffix],
    [strings.TrimPrefix] *)

Definition HasPrefix (s pre : string) : bool := String.eqb (stake (slen pre) s) pre.

Definition HasSuffix (s suf : string) : bool :=
  (slen suf <=? slen s)%nat && String.eqb (sdrop (slen s - slen suf) s) suf.

Definition TrimSuffix (s suf : string) : string :=
  if HasSuffix s suf then stake (slen s - slen suf) s else s.

Definition TrimPrefix (s pre : string) : string :=
  if HasPrefix s pre then sdrop (slen pre) s else s.

Lemma HasPrefix_spec s pre : HasPrefix s pre = true <-> exists t, s = pre +:+ t.
Proof.
  unfold HasPrefix. rewrite String.eqb_eq. split.
  - intros H. exists (sdrop (slen pre) s). by rewrite <- H at 1; rewrite stake_sdrop.
  - intros [t ->]. apply stake_app.
Qed.

Lemma HasSuffix_spec s suf : HasSuffix s suf = true <-> exists p, s = p +:+ suf.
Proof.
  unfold HasSuffix. rewrite andb_true_iff, Nat.leb_le, String.eqb_eq. split.
  - intros [_ H]. exists (stake (slen s - slen suf) s). by rewrite <- H at 2; rewrite stake_sdrop.
  - intros [p ->]. rewrite slen_app. split; [lia|].
    replace (slen p + slen suf - slen suf)%nat with (slen p) by lia. apply sdrop_app.
Qed.

Lemma HasSuffix_empty s : HasSuffix s "" = true.
Proof. apply HasSuffix_spec. exists s. by rewrite sapp_nil_r. Qed.

Lemma TrimSuffix_app p suf : TrimSuffix (p +:+ suf) suf = p.
Proof.
  unfold TrimSuffix. replace (HasSuffix _ _) with true.
  - rewrite slen_app. replace (slen p + slen suf - slen suf)%nat with (slen p) by lia.
    apply stake_app.
  - symmetry. apply HasSuffix_spec. eauto.
Qed.

Lemma TrimSuffix_other s suf : HasSuffix s suf = false -> TrimSuffix s suf = s.
Proof. unfold TrimSuffix. by intros ->. Qed.

Lemma TrimSuffix_cases s suf :
  (exists p, s = p +:+ suf /\ TrimSuffix s suf = p) \/
  (HasSuffix s suf = false /\ TrimSuffix s suf = s).
Proof.
  destruct (HasSuffix s suf) eqn:E.
  - left. apply HasSuffix_spec in E as [p ->]. eauto using TrimSuffix_app.
  - right. eauto using TrimSuffix_other.
Qed.

(** ** [strings.SplitAfterN(s, sep, 2)] for a one-byte separator *)

(** The text up to and including the first [sep], and what follows it. *)
Fixpoint cut_after (sep : ascii) (s : string) : option (string * string) :=
  match s with
  | EmptyString => None
  | String c s' =>
      if Ascii.eqb c sep then Some (String c EmptyString, s')
      else match cut_after sep s' with
           | Some (a, b) => Some (String c a, b)
           | None => None
           end
  end.

Definition SplitAfterN2 (s : string) (sep : ascii) : list string :=
  match cut_after sep s with
  | Some (a, b) => [a; b]
  | None => [s]
  end.

Fixpoint count_byte (c : ascii) (s : string) : nat :=
  match s with
  | EmptyString => O
  | String d s' => ((if Ascii.eqb d c then 1 else 0) + count_byte c s')%nat
  end.

Lemma count_byte_app c s t :
  count_byte c (s +:+ t) = (count_byte c s + count_byte c t)%nat.
Proof. induction s; simpl; lia. Qed.

Lemma cut_after_Some sep s a b :
  cut_after sep s = Some (a, b) ->
  exists l, s = l +:+ String sep b /\ a = l +:+ String sep "" /\ count_byte sep l = 0%nat.
Proof.
  revert a b. induction s as [|c s IH]; simpl; intros a b H; [done|].
  destruct (Ascii.eqb_spec c sep) as [->|Hne].
  - injection H as <- <-. by exists "".
  - destruct (cut_after sep s) as [[a' b']|]; [|done]. injection H as <- <-.
    destruct (IH _ _ eq_refl) as (l & -> & -> & Hl).
    exists (String c l). simpl. apply Ascii.eqb_neq in Hne. rewrite Hne. auto.
Qed.

Lemma cut_after_app sep l b :
  count_byte sep l = 0%nat ->
  cut_after sep (l +:+ String sep b) = Some (l +:+ String sep "", b).
Proof.
  induction l as [|c l IH]; simpl; intros H.
  - by rewrite Ascii.eqb_refl.
  - destruct (Ascii.eqb c sep); [done|]. simpl in H. by rewrite IH.
Qed.

Lemma cut_after_None sep s : cut_after sep s = None <-> count_byte sep s = 0%nat.
Proof.
  induction s as [|c s IH]; simpl; [done|].
  destruct (Ascii.eqb c sep); [done|]. simpl. rewrite <- IH.
  destruct (cut_after sep s) as [[]|]; split; congruence.
Qed.

Lemma cut_after_count sep s a b :
  cut_after sep s = Some (a, b) -> count_byte sep s = S (count_byte sep b).
Proof.
  intros H. apply cut_after_Some in H as (l & -> & _ & Hl).
  rewrite count_byte_app. simpl. rewrite Ascii.eqb_refl. lia.
Qed.

(** ** [strings.ToLower] on ASCII letters

    A byte outside [A]-[Z] is kept; a question name in presentation form is
    printable ASCII, for which this is [strings.ToLower]. *)
Definition lower_byte (c : ascii) : ascii :=
  let n := N_of_ascii c in
  if ((65 <=? n) && (n <=? 90))%N then ascii_of_N (n + 32) else c.

Fixpoint ToLower (s : string) : string :=
  match s with
  | EmptyString => EmptyString
  | String c s' => String (lower_byte c) (ToLower s')
  end.

Lemma lower_byte_idem c : lower_byte (lower_byte c) = lower_byte c.
Proof. by destruct c as [[] [] [] [] [] [] [] []]. Qed.

Lemma ToLower_idem s : ToLower (ToLower s) = ToLower s.
Proof. induction s; simpl; [done|]. by rewrite lower_byte_idem, IHs. Qed.
