(* ===== verification/Utf8.v ===== *)
(** Go's conversions between strings and runes: [[]rune(s)] and
    [string(runes)], on bytes. *)
From S2P Require Import Prelude GoStrings.
From Stdlib Require Import Ascii.

Fixpoint bytes_of (s : string) : list Z :=
  match s with
  | EmptyString => []
  | String c s' => Z.of_N (N_of_ascii c) :: bytes_of s'
  end.

Fixpoint of_bytes (bs : list Z) : string :=
  match bs with
  | [] => EmptyString
  | b :: bs' => String (ascii_of_N (Z.to_N b)) (of_bytes bs')
  end.

Definition RuneError : Z := 65533.

Definition cont (b : Z) : bool := (128 <=? b) && (b <=? 191).

(** The second byte of a three or four byte sequence has a narrower range after
    some lead bytes. *)
Definition second3 (b0 b1 : Z) : bool :=
  (224 <=? b0) && (b0 <=? 239) &&
  ((if b0 =? 224 then 160 else 128) <=? b1) && (b1 <=? (if b0 =? 237 then 159 else 191)).

Definition second4 (b0 b1 : Z) : bool :=
  (240 <=? b0) && (b0 <=? 244) &&
  ((if b0 =? 240 then 144 else 128) <=? b1) && (b1 <=? (if b0 =? 244 then 143 else 191)).

(** [[]rune(s)]: a byte that starts no valid sequence is one [RuneError]. *)
Fixpoint runes_of (bs : list Z) : list Z :=
  match bs with
  | [] => []
  | b0 :: t =>
      if b0 <? 128 then b0 :: runes_of t
      else match t with
      | [] => RuneError :: runes_of t
      | b1 :: t1 =>
          if (194 <=? b0) && (b0 <=? 223) && cont b1
          then ((b0 - 192) * 64 + (b1 - 128)) :: runes_of t1
          else match t1 with
          | [] => RuneError :: runes_of t
          | b2 :: t2 =>
              if second3 b0 b1 && cont b2
              then ((b0 - 224) * 4096 + (b1 - 128) * 64 + (b2 - 128)) :: runes_of t2
              else match t2 with
              | [] => RuneError :: runes_of t
              | b3 :: t3 =>
                  if second4 b0 b1 && cont b2 && cont b3
                  then ((b0 - 240) * 262144 + (b1 - 128) * 4096 + (b2 - 128) * 64 + (b3 - 128))
                       :: runes_of t3
                  else RuneError :: runes_of t
              end
          end
      end
  end.

(** Surrogates and numbers past the last code point are encoded as [RuneError]. *)
Definition valid_rune (r : Z) : Z :=
  if (r <? 0) || (1114111 <? r) || ((55296 <=? r) && (r <=? 57343)) then RuneError else r.

(** [string(r)] for one rune. *)
Definition encode_rune (r : Z) : list Z :=
  let r := valid_rune r in
  if r <? 128 then [r]
  else if r <? 2048 then [192 + r / 64; 128 + r mod 64]
  else if r <? 65536 then [224 + r / 4096; 128 + (r / 64) mod 64; 128 + r mod 64]
  else [240 + r / 262144; 128 + (r / 4096) mod 64; 128 + (r / 64) mod 64; 128 + r mod 64].

Definition encode_runes (rs : list Z) : list Z := rs ≫= encode_rune.

(** ** ASCII text *)

Definition ascii_bytes (bs : list Z) : Prop := Forall (fun b => 0 <= b < 128) bs.
Definition ascii_string (s : string) : Prop := ascii_bytes (bytes_of s).

Lemma of_bytes_of s : of_bytes (bytes_of s) = s.
Proof.
  induction s as [|c s IH]; simpl; [done|]. rewrite IH, N2Z.id, ascii_N_embedding. done.
Qed.

Lemma bytes_of_range s : Forall (fun b => 0 <= b < 256) (bytes_of s).
Proof.
  induction s as [|c s IH]; simpl; constructor; [|done].
  pose proof (N_ascii_bounded c). lia.
Qed.

Lemma bytes_of_of bs : Forall (fun b => 0 <= b < 256) bs -> bytes_of (of_bytes bs) = bs.
Proof.
  induction 1 as [|b bs Hb _ IH]; simpl; [done|]. rewrite IH, N_ascii_embedding by lia. f_equal. lia.
Qed.

Lemma bytes_of_inj s t : bytes_of s = bytes_of t -> s = t.
Proof. intros H. by rewrite <- (of_bytes_of s), <- (of_bytes_of t), H. Qed.

Lemma bytes_of_app s t : bytes_of (s +:+ t) = bytes_of s ++ bytes_of t.
Proof. induction s as [|c s IH]; simpl; [done|]. by rewrite IH. Qed.

Lemma length_bytes_of s : length (bytes_of s) = slen s.
Proof. induction s; simpl; auto. Qed.

Lemma runes_of_ascii bs : ascii_bytes bs -> runes_of bs = bs.
Proof.
  induction 1 as [|b bs Hb _ IH]; simpl; [done|].
  replace (b <? 128) with true by (symmetry; apply Z.ltb_lt; lia). by rewrite IH.
Qed.

Lemma encode_rune_ascii r : 0 <= r < 128 -> encode_rune r = [r].
Proof.
  intros Hr. unfold encode_rune, valid_rune. destruct (Z.ltb_spec r 0), (Z.ltb_spec 1114111 r),
    (Z.leb_spec 55296 r); simpl; try lia. destruct (Z.ltb_spec r 128); [done|lia].
Qed.

Lemma encode_runes_ascii rs : ascii_bytes rs -> encode_runes rs = rs.
Proof.
  unfold encode_runes. induction 1 as [|r rs Hr _ IH]; [done|].
  rewrite bind_cons, IH, encode_rune_ascii by done. done.
Qed.

(** The encoding of a rune starts below 128 only for an ASCII rune, which it
    keeps. *)
Lemma encode_rune_head r :
  (0 <= r < 128 /\ encode_rune r = [r]) \/ exists b bs, encode_rune r = b :: bs /\ 128 <= b.
Proof.
  unfold encode_rune. set (r' := valid_rune r).
  assert (0 <= r' <= 1114111 /\ (r' < 128 -> r' = r)) as [Hr' Hid].
  { unfold r', valid_rune, RuneError. destruct (Z.ltb_spec r 0), (Z.ltb_spec 1114111 r); simpl; try lia.
    destruct ((55296 <=? r) && (r <=? 57343)); lia. }
  clearbody r'. destruct (Z.ltb_spec r' 128) as [Hlt|Hge].
  { left. rewrite <- (Hid Hlt). split; [lia|done]. }
  right.
  assert (0 <= r' / 64 /\ 0 <= r' / 4096 /\ 0 <= r' / 262144) by (repeat split; apply Z.div_pos; lia).
  repeat case_match; do 2 eexists; (split; [done|]); lia.
Qed.

(** A byte above 127 decodes to a rune above 127. *)
Lemma runes_of_head b0 t : 128 <= b0 -> exists r rest, runes_of (b0 :: t) = r :: rest /\ 128 <= r.
Proof.
  intros Hb. assert (128 <= RuneError) by (unfold RuneError; lia).
  destruct t as [|b1 [|b2 [|b3 t3]]]; cbn [runes_of];
    repeat match goal with
    | |- exists r rest, (if ?c then _ else _) = _ /\ _ => destruct c eqn:?
    | |- exists r rest, _ :: _ = _ /\ _ => do 2 eexists; split; [reflexivity|]
    end; try done; unfold second3, second4, cont in *; bool_to_prop; try lia.
  all: repeat case_match; bool_to_prop; lia.
Qed.

Lemma runes_of_ascii_inv bs :
  Forall (fun b => 0 <= b) bs -> Forall (fun r => r < 128) (runes_of bs) -> ascii_bytes bs.
Proof.
  intros Hb H. induction bs as [|b0 t IH]; [constructor|]. apply Forall_cons in Hb as [Hb0 Ht].
  destruct (Z.lt_ge_cases b0 128) as [Hlt|Hge].
  - cbn [runes_of] in H. replace (b0 <? 128) with true in H by (symmetry; by apply Z.ltb_lt).
    apply Forall_cons in H as [_ H]. constructor; [lia|]. by apply IH.
  - destruct (runes_of_head b0 t Hge) as (r & rest & E & Hr). rewrite E in H.
    apply Forall_cons in H as [H _]. lia.
Qed.

Lemma encode_rune_range r : Forall (fun b => 0 <= b < 256) (encode_rune r).
Proof.
  unfold encode_rune. set (r' := valid_rune r).
  assert (0 <= r' <= 1114111) as Hr'.
  { unfold r', valid_rune, RuneError. destruct (Z.ltb_spec r 0), (Z.ltb_spec 1114111 r); simpl; try lia.
    destruct ((55296 <=? r) && (r <=? 57343)); lia. }
  clearbody r'. pose proof (Z.mod_pos_bound r' 64). pose proof (Z.mod_pos_bound (r' / 64) 64).
  pose proof (Z.mod_pos_bound (r' / 4096) 64).
  assert (0 <= r' / 262144 <= 4) by (split; [apply Z.div_pos; lia|apply Z.lt_succ_r, Z.div_lt_upper_bound; lia]).
  repeat case_match; bool_to_prop; repeat constructor; try lia.
  all: try (apply Z.add_nonneg_nonneg; [lia|apply Z.div_pos; lia]).
  - enough (r' / 64 < 32) by lia. apply Z.div_lt_upper_bound; lia.
  - enough (r' / 4096 < 16) by lia. apply Z.div_lt_upper_bound; lia.
Qed.

Lemma bytes_of_encode rs : bytes_of (of_bytes (encode_runes rs)) = encode_runes rs.
Proof.
  apply bytes_of_of. unfold encode_runes. induction rs as [|r rs IH]; [constructor|].
  rewrite bind_cons. apply Forall_app. auto using encode_rune_range.
Qed.
