(* ===== verification/JsonText.v ===== *)
(** JSON texts: the values of RFC 8259 and a parser for their texts, and how the
    members of an object are assigned to the fields of a Go struct by its tags, the
    rules encoding/json documents and jsoniter follows.

    The parser is independent of the program: it says what the texts that the
    program writes mean. *)
From S2P Require Import Prelude GoStrings Utf8.
From Stdlib Require Import Ascii.

(** A number without fraction and exponent is kept as an integer, any other as it
    is written. *)
Inductive JsonValue :=
  | JsNull
  | JsBool (b : bool)
  | JsInt (n : Z)
  | JsReal (literal : string)
  | JsStr (s : string)
  | JsArr (vs : list JsonValue)
  | JsObj (ms : list (string * JsonValue)).

(** ** The parser *)

Definition quotation : ascii := "034"%char.
Definition backslash : ascii := "092"%char.
Definition code (c : ascii) : Z := Z.of_N (N_of_ascii c).

Definition is_ws (c : ascii) : bool := existsb (Z.eqb (code c)) [32; 9; 10; 13].
Fixpoint skip_ws (s : string) : string :=
  match s with
  | String c s' => if is_ws c then skip_ws s' else s
  | "" => ""
  end.

(** [s] after the byte [c]. *)
Definition expect (c : ascii) (s : string) : option string :=
  match s with String c' s' => if Ascii.eqb c' c then Some s' else None | "" => None end.

(** The text after the prefix [p]. *)
Fixpoint expect_all (p s : string) : option string :=
  match p with "" => Some s | String c p' => expect c s ≫= expect_all p' end.

Definition hex (c : ascii) : option Z :=
  let n := code c in
  if (48 <=? n) && (n <=? 57) then Some (n - 48)
  else if (97 <=? n) && (n <=? 102) then Some (n - 87)
  else if (65 <=? n) && (n <=? 70) then Some (n - 55) else None.
Definition hex4 (a b c d : ascii) : option Z :=
  a ← hex a; b ← hex b; c ← hex c; d ← hex d; Some (((a * 16 + b) * 16 + c) * 16 + d).

(** The escapes of one letter. *)
Definition unescape (c : ascii) : option ascii :=
  if Ascii.eqb c quotation then Some quotation else if Ascii.eqb c backslash then Some backslash
  else if Ascii.eqb c "/" then Some "/"%char else if Ascii.eqb c "b" then Some "008"%char
  else if Ascii.eqb c "f" then Some "012"%char else if Ascii.eqb c "n" then Some "010"%char
  else if Ascii.eqb c "r" then Some "013"%char else if Ascii.eqb c "t" then Some "009"%char else None.

Definition utf8_of (r : Z) : string := of_bytes (encode_rune r).
Definition prepend (p : string) (o : option (string * string)) : option (string * string) :=
  '(t, rest) ← o; Some (p +:+ t, rest).

(** The characters of a string up to the closing quotation mark, and what follows.
    Code points beyond the first plane are written as surrogate pairs. *)
Fixpoint str_body (s : string) : option (string * string) :=
  match s with
  | "" => None
  | String c s' =>
      if Ascii.eqb c quotation then Some ("", s')
      else if Ascii.eqb c backslash then
        match s' with
        | "" => None
        | String e s1 =>
            match unescape e with
            | Some b => prepend (String b "") (str_body s1)
            | None =>
                if negb (Ascii.eqb e "u") then None
                else match s1 with
                | String a (String b (String c (String d s2))) =>
                    match hex4 a b c d with
                    | None => None
                    | Some r =>
                        if negb ((55296 <=? r) && (r <=? 57343)) then prepend (utf8_of r) (str_body s2)
                        else match s2 with
                        | String bs (String u (String a (String b (String c (String d s3))))) =>
                            if negb (Ascii.eqb bs backslash && Ascii.eqb u "u") then None
                            else match hex4 a b c d with
                            | None => None
                            | Some r2 =>
                                if (r <=? 56319) && (56320 <=? r2) && (r2 <=? 57343)
                                then prepend (utf8_of (65536 + (r - 55296) * 1024 + (r2 - 56320))) (str_body s3)
                                else None
                            end
                        | _ => None
                        end
                    end
                | _ => None
                end
            end
        end
      else if code c <? 32 then None else prepend (String c "") (str_body s')
  end.

Definition is_digit (c : ascii) : bool := (48 <=? code c) && (code c <=? 57).
Fixpoint digits (s : string) : string * string :=
  match s with
  | String c s' => if is_digit c then let '(d, rest) := digits s' in (String c d, rest) else ("", s)
  | "" => ("", "")
  end.
Fixpoint decimal (acc : Z) (s : string) : Z :=
  match s with String c s' => decimal (acc * 10 + (code c - 48)) s' | "" => acc end.

(** Digits without a leading zero. *)
Definition int_part (s : string) : option (string * string) :=
  match digits s with
  | (String c d, rest) => if Ascii.eqb c "0" && negb (String.eqb d "") then None else Some (String c d, rest)
  | ("", _) => None
  end.
Definition some_digits (s : string) : option (string * string) :=
  match digits s with ("", _) => None | (d, rest) => Some (d, rest) end.
Definition frac_part (s : string) : option (string * string) :=
  match expect "." s with
  | Some s' => '(d, rest) ← some_digits s'; Some (String "." d, rest)
  | None => Some ("", s)
  end.
Definition exp_part (s : string) : option (string * string) :=
  match s with
  | String c s' =>
      if Ascii.eqb c "e" || Ascii.eqb c "E" then
        let '(sign, s2) := match s' with
          | String g s2 => if Ascii.eqb g "+" || Ascii.eqb g "-" then (String g "", s2) else ("", s')
          | "" => ("", "")
          end in
        '(d, rest) ← some_digits s2; Some (String c (sign +:+ d), rest)
      else Some ("", s)
  | "" => Some ("", "")
  end.
Definition number (s : string) : option (JsonValue * string) :=
  let '(minus, s1) := match expect "-" s with Some s1 => (true, s1) | None => (false, s) end in
  '(i, s2) ← int_part s1;
  '(f, s3) ← frac_part s2;
  '(e, s4) ← exp_part s3;
  Some (if String.eqb (f +:+ e) "" then JsInt (if minus then - decimal 0 i else decimal 0 i)
        else JsReal ((if minus : bool then "-" else "") +:+ i +:+ f +:+ e), s4).

(** A value at the start of [s]; the members of an object, at a name; the elements
    of an array, at a value.  [n] bounds the depth of the calls, each of which
    consumes a byte before the next. *)
Fixpoint value (n : nat) (s : string) : option (JsonValue * string) :=
  match n with
  | O => None
  | S n =>
      match s with
      | "" => None
      | String c s' =>
          if Ascii.eqb c "{" then
            match expect "}" (skip_ws s') with
            | Some rest => Some (JsObj [], rest)
            | None => '(ms, rest) ← members n (skip_ws s'); Some (JsObj ms, rest)
            end
          else if Ascii.eqb c "[" then
            match expect "]" (skip_ws s') with
            | Some rest => Some (JsArr [], rest)
            | None => '(vs, rest) ← elements n (skip_ws s'); Some (JsArr vs, rest)
            end
          else if Ascii.eqb c quotation then '(t, rest) ← str_body s'; Some (JsStr t, rest)
          else if Ascii.eqb c "t" then rest ← expect_all "rue" s'; Some (JsBool true, rest)
          else if Ascii.eqb c "f" then rest ← expect_all "alse" s'; Some (JsBool false, rest)
          else if Ascii.eqb c "n" then rest ← expect_all "ull" s'; Some (JsNull, rest)
          else number s
      end
  end
with members (n : nat) (s : string) : option (list (string * JsonValue) * string) :=
  match n with
  | O => None
  | S n =>
      s1 ← expect quotation s; '(k, s2) ← str_body s1;
      s3 ← expect ":" (skip_ws s2); '(v, s4) ← value n (skip_ws s3);
      match expect "," (skip_ws s4) with
      | Some s5 => '(ms, rest) ← members n (skip_ws s5); Some ((k, v) :: ms, rest)
      | None => rest ← expect "}" (skip_ws s4); Some ([(k, v)], rest)
      end
  end
with elements (n : nat) (s : string) : option (list JsonValue * string) :=
  match n with
  | O => None
  | S n =>
      '(v, s1) ← value n s;
      match expect "," (skip_ws s1) with
      | Some s2 => '(vs, rest) ← elements n (skip_ws s2); Some (v :: vs, rest)
      | None => rest ← expect "]" (skip_ws s1); Some ([v], rest)
      end
  end.

Definition parse (s : string) : option JsonValue :=
  '(v, rest) ← value (S (slen s)) (skip_ws s);
  if String.eqb (skip_ws rest) "" then Some v else None.

(** Apostrophes as quotation marks, to write texts down. *)
Fixpoint quoted (s : string) : string :=
  match s with String c s' => String (if Ascii.eqb c "'" then quotation else c) (quoted s') | "" => "" end.

Example parse_text :
  parse (quoted " {'a' : [1, -20, true, null, {}, []], 'b\u00e9' : '\ud83d\ude00\n', 'c':1.5e-3} ") =
  Some (JsObj [("a", JsArr [JsInt 1; JsInt (-20); JsBool true; JsNull; JsObj []; JsArr []]);
    ("b" +:+ of_bytes [195; 169], JsStr (of_bytes [240; 159; 152; 128; 10])); ("c", JsReal "1.5e-3")]).
Proof. vm_compute. reflexivity. Qed.
Example parse_rejects : Forall (fun s => parse (quoted s) = None)
  [""; "{"; "{'a':1,}"; "[1 2]"; "01"; "1."; "'a"; "{'a' 1}"; "{a:1}"; "tru"; "{} {}"; "'\ud83d'"; "-"].
Proof. repeat constructor. Qed.

(** A string without bytes that must be escaped is read as it is. *)
Definition plain (s : string) : Prop :=
  Forall (fun b => 32 <= b /\ b <> 34 /\ b <> 92) (bytes_of s).

Lemma str_body_plain s rest : plain s -> str_body (s +:+ String quotation rest) = Some (s, rest).
Proof.
  induction s as [|c s IH]; [done|]. intros [Hc Hs]%Forall_cons. cbn [String.append str_body].
  destruct (Ascii.eqb_spec c quotation) as [->|_]; [by destruct Hc as (_ & ? & _)|].
  destruct (Ascii.eqb_spec c backslash) as [->|_]; [by destruct Hc as (_ & _ & ?)|].
  assert ((code c <? 32) = false) as -> by (apply Z.ltb_ge; unfold code; lia). by rewrite IH.
Qed.

(** The parser by the shape of the text. *)
Lemma value_string n s t rest : str_body s = Some (t, rest) -> value (S n) (String quotation s) = Some (JsStr t, rest).
Proof. intros H. cbn [value]. cbn -[str_body]. by rewrite H. Qed.

Lemma value_object n s ms rest : expect "}" (skip_ws s) = None -> members n (skip_ws s) = Some (ms, rest) ->
  value (S n) (String "{" s) = Some (JsObj ms, rest).
Proof. intros H1 H2. cbn [value]. cbn -[expect skip_ws members]. by rewrite H1, H2. Qed.

Lemma value_array1 n s v s1 rest : expect "]" (skip_ws s) = None -> value n (skip_ws s) = Some (v, s1) ->
  expect "," (skip_ws s1) = None -> expect "]" (skip_ws s1) = Some rest -> value (S (S n)) (String "[" s) = Some (JsArr [v], rest).
Proof.
  intros H1 H2 H3 H4. cbn [value elements]. cbn -[expect skip_ws elements value]. rewrite H1.
  change (elements (S n) (skip_ws s)) with ('(v, s1) ← value n (skip_ws s);
      match expect "," (skip_ws s1) with
      | Some s2 => '(vs, rest) ← elements n (skip_ws s2); Some (v :: vs, rest)
      | None => rest ← expect "]" (skip_ws s1); Some ([v], rest)
      end). rewrite H2. cbn -[expect skip_ws]. by rewrite H3, H4.
Qed.

(** One step of the reading of a member. *)
Ltac read_with H := cbn -[expect skip_ws value members str_body]; rewrite H.

Lemma members_last n s1 k s2 s3 v s4 rest : str_body s1 = Some (k, s2) -> expect ":" (skip_ws s2) = Some s3 ->
  value n (skip_ws s3) = Some (v, s4) -> expect "," (skip_ws s4) = None -> expect "}" (skip_ws s4) = Some rest ->
  members (S n) (String quotation s1) = Some ([(k, v)], rest).
Proof.
  intros H1 H2 H3 H4 H5. cbn [members]. change (expect quotation (String quotation s1)) with (Some s1).
  read_with H1. read_with H2. read_with H3. read_with H4. by read_with H5.
Qed.

Lemma members_more n s1 k s2 s3 v s4 s5 ms rest : str_body s1 = Some (k, s2) -> expect ":" (skip_ws s2) = Some s3 ->
  value n (skip_ws s3) = Some (v, s4) -> expect "," (skip_ws s4) = Some s5 -> members n (skip_ws s5) = Some (ms, rest) ->
  members (S n) (String quotation s1) = Some ((k, v) :: ms, rest).
Proof.
  intros H1 H2 H3 H4 H5. cbn [members]. change (expect quotation (String quotation s1)) with (Some s1).
  read_with H1. read_with H2. read_with H3. read_with H4. by read_with H5.
Qed.

(** ** Go structs *)

(** How a Go type is written and read: [dec v old] is the value after [v] was decoded
    into a variable that held [old]; it is [None] for what is left open here (errors,
    null, names that differ in case).  [full v] says that [v] sets every field, so that
    what the variable held before does not matter. *)
Record Codec (T : Type) := mkCodec { enc : T -> JsonValue; dec : JsonValue -> T -> option T; full : JsonValue -> bool }.
Arguments mkCodec {T}.
Arguments enc {T}.
Arguments dec {T}.
Arguments full {T}.

Definition in_int (n : Z) : bool := (- 2^63 <=? n) && (n <? 2^63).
Definition c_int : Codec Z :=
  mkCodec JsInt (fun v _ => match v with JsInt n => if in_int n then Some n else None | _ => None end) (fun _ => true).
Definition c_string : Codec string :=
  mkCodec JsStr (fun v _ => match v with JsStr s => Some s | _ => None end) (fun _ => true).
Definition c_bool : Codec bool :=
  mkCodec JsBool (fun v _ => match v with JsBool b => Some b | _ => None end) (fun _ => true).

(** A slice that is not nil.  The elements are decoded into storage that may hold old
    ones, so only complete elements are described. *)
Definition c_slice {T} (c : Codec T) (zero : T) : Codec (list T) :=
  mkCodec (fun l => JsArr (map (enc c) l))
    (fun v _ => match v with
                | JsArr vs => mapM (fun v => if full c v then dec c v zero else None) vs
                | _ => None
                end)
    (fun _ => true).

(** A field with its tag. *)
Record Field (T : Type) := mkField {
  f_tag : string; f_enc : T -> JsonValue; f_dec : JsonValue -> T -> option T; f_full : JsonValue -> bool }.
Arguments mkField {T}.
Arguments f_tag {T}.
Arguments f_enc {T}.
Arguments f_dec {T}.
Arguments f_full {T}.

Definition field {T A} (tag : string) (c : Codec A) (get : T -> A) (set : A -> T -> T) : Field T :=
  mkField tag (fun t => enc c (get t)) (fun v t => a ← dec c v (get t); Some (set a t)) (full c).

Definition by_tag {T} (fs : list (Field T)) (k : string) : option (Field T) :=
  List.find (fun f => String.eqb (f_tag f) k) fs.

(** The members in the order of the text, each into the field of its name. *)
Fixpoint assign {T} (fs : list (Field T)) (ms : list (string * JsonValue)) (t : T) : option T :=
  match ms with
  | [] => Some t
  | (k, v) :: ms' => f ← by_tag fs k; t' ← f_dec f v t; assign fs ms' t'
  end.

Definition c_struct {T} (fs : list (Field T)) : Codec T :=
  mkCodec (fun t => JsObj (map (fun f => (f_tag f, f_enc f t)) fs))
    (fun v t => match v with JsObj ms => assign fs ms t | _ => None end)
    (fun v => match v with
              | JsObj ms => forallb (fun f => existsb (fun m => String.eqb (m.1) (f_tag f)) ms) fs &&
                            forallb (fun m => match by_tag fs (m.1) with Some f => f_full f (m.2) | None => false end) ms
              | _ => false
              end).

(** What is written for [t] is complete and reads as [t], over any old value. *)
Definition lawful {T} (c : Codec T) (t : T) : Prop := (forall old, dec c (enc c t) old = Some t) /\ full c (enc c t) = true.

Lemma lawful_int n : in_int n = true -> lawful c_int n.
Proof. intros H. split; [|done]. intros old. cbn. by rewrite H. Qed.
Lemma lawful_string s : lawful c_string s.
Proof. done. Qed.
Lemma lawful_bool b : lawful c_bool b.
Proof. done. Qed.
Lemma lawful_slice {T} (c : Codec T) zero l : Forall (lawful c) l -> lawful (c_slice c zero) l.
Proof.
  intros Hl. split; [|done]. intros old. cbn. clear old. induction Hl as [|t l [Hd Hf] Hl IH]; [done|]. cbn.
  rewrite Hf, Hd. cbn. by rewrite IH.
Qed.
Lemma lawful_strings l : lawful (c_slice c_string "") l.
Proof. apply lawful_slice. induction l; by constructor. Qed.

Lemma lawful_full {T} (c : Codec T) t : lawful c t -> full c (enc c t) = true.
Proof. by intros [_ H]. Qed.

Create HintDb json.
#[export] Hint Resolve lawful_int lawful_string lawful_bool lawful_strings : json.

(** A member that is the encoding of a field's value. *)
Lemma assign_field {T A} (fs : list (Field T)) k ms t (c : Codec A) get set a :
  by_tag fs k = Some (field k c get set) -> lawful c a -> assign fs ((k, enc c a) :: ms) t = assign fs ms (set a t).
Proof. intros Hk [Hd _]. cbn. rewrite Hk. cbn. by rewrite Hd. Qed.

Lemma full_struct {T} (fs : list (Field T)) t :
  Forall (fun f => exists g, by_tag fs (f_tag f) = Some g /\ f_full g (f_enc f t) = true) fs ->
  full (c_struct fs) (enc (c_struct fs) t) = true.
Proof.
  intros Hf. cbn. apply andb_true_iff. rewrite !forallb_forall. split.
  - intros f Hin. apply existsb_exists. exists (f_tag f, f_enc f t). split; [by apply (in_map (fun f => (f_tag f, f_enc f t)))|apply String.eqb_refl].
  - intros [k v] (f & [= <- <-] & Hin)%in_map_iff. rewrite Forall_forall in Hf.
    destruct (Hf f ltac:(by apply list_elem_of_In)) as (g & Hg & Hv). cbn. by rewrite Hg.
Qed.

(** Every field of a struct is read back: its members one by one. *)
Ltac struct_lawful :=
  match goal with |- lawful ?c _ => unfold c end;
  split;
  [intros old; cbn [c_struct enc dec map field f_tag f_enc];
   repeat (erewrite assign_field; [|reflexivity|solve [eauto with json]]); destruct old; reflexivity
  |apply full_struct; repeat (apply Forall_cons; split);
   [eexists; split; [reflexivity|cbn [field f_full f_enc]; apply lawful_full; solve [eauto with json]]..|by apply Forall_nil]].
