(* ===== verification/GoScan.v ===== *)
(** The scanning functions of the Go library the tools use: [fmt.Sscan],
    [fmt.Sscanf] with two strings, and the lines of a [bufio.Scanner] and of
    [Reader.ReadString].  They work on runes. *)
From Stdlib Require Import Ascii.
From S2P Require Import Prelude GoStrings Utf8.

(** ** Tokens *)

(** [fmt.isSpace] *)
Definition isSpace (r : Z) : bool :=
  ((9 <=? r) && (r <=? 13)) || (r =? 32) || (r =? 0x85) || (r =? 0xa0) || (r =? 0x1680) ||
  ((0x2000 <=? r) && (r <=? 0x200a)) || (r =? 0x2028) || (r =? 0x2029) || (r =? 0x202f) ||
  (r =? 0x205f) || (r =? 0x3000).

(** The longest prefix whose runes satisfy [p], and the rest. *)
Fixpoint span (p : Z -> bool) (rs : list Z) : list Z * list Z :=
  match rs with
  | [] => ([], [])
  | r :: rs' => if p r then let (a, b) := span p rs' in (r :: a, b) else ([], rs)
  end.

Definition runes (s : string) : list Z := runes_of (bytes_of s).
Definition string_of_runes (rs : list Z) : string := of_bytes (encode_runes rs).

(** [SkipSpace]: in [Sscan] a newline is a space. *)
Definition SkipSpace (rs : list Z) : list Z := snd (span isSpace rs).

(** [convertString]: a word; [None] at the end of the input. *)
Definition scanString (rs : list Z) : option (string * list Z) :=
  match SkipSpace rs with
  | [] => None
  | rs => let (tok, rest) := span (fun r => negb (isSpace r)) rs in Some (string_of_runes tok, rest)
  end.

(** ** Integers *)

(** [strconv.ParseInt(tok, 0, 64)] *)
Definition lower_rune (r : Z) : Z := if (65 <=? r) && (r <=? 90) then r + 32 else r.
Definition digit_val (r : Z) : option Z :=
  let c := lower_rune r in
  if (48 <=? c) && (c <=? 57) then Some (c - 48)
  else if (97 <=? c) && (c <=? 122) then Some (c - 97 + 10) else None.

Fixpoint digits_val (base acc : Z) (s : list Z) : option Z :=
  match s with
  | [] => Some acc
  | c :: s' =>
      if c =? 95 then digits_val base acc s'
      else match digit_val c with
           | Some d => if base <=? d then None else digits_val base (acc * base + d) s'
           | None => None
           end
  end.

(** The base a prefix announces, and the digits after it. *)
Definition base_of (s : list Z) : Z * list Z :=
  match s with
  | 48 :: c :: d :: s' =>
      if lower_rune c =? 98 then (2, d :: s') else if lower_rune c =? 111 then (8, d :: s')
      else if lower_rune c =? 120 then (16, d :: s') else (8, c :: d :: s')
  | 48 :: s' => (8, s')
  | _ => (10, s)
  end.

(** [underscoreOK]: underscores only between digits; a base prefix counts as one. *)
Inductive saw := SawStart | SawDigit | SawUnder | SawOther.
Fixpoint underscores (hex : bool) (last : saw) (s : list Z) : bool :=
  match s with
  | [] => match last with SawUnder => false | _ => true end
  | c :: s' =>
      if ((48 <=? c) && (c <=? 57)) || (hex && (97 <=? lower_rune c) && (lower_rune c <=? 102))
      then underscores hex SawDigit s'
      else if c =? 95 then match last with SawDigit => underscores hex SawUnder s' | _ => false end
      else match last with SawUnder => false | _ => underscores hex SawOther s' end
  end.
Definition underscoreOK (s : list Z) : bool :=
  match s with
  | 48 :: c :: s' =>
      if (lower_rune c =? 98) || (lower_rune c =? 111) || (lower_rune c =? 120)
      then underscores (lower_rune c =? 120) SawDigit s' else underscores false SawStart s
  | _ => underscores false SawStart s
  end.

(** The value of an unsigned token; [None] is a syntax error. *)
Definition ParseUint0 (s : list Z) : option Z :=
  match s with
  | [] => None
  | _ => let (base, ds) := base_of s in
         match digits_val base 0 ds with
         | Some n => if existsb (Z.eqb 95) s && negb (underscoreOK s) then None else Some n
         | None => None
         end
  end.

Definition ParseInt0 (neg : bool) (s : list Z) : option Z :=
  match ParseUint0 s with
  | Some n => if neg then if 2^63 <? n then None else Some (- n)
              else if 2^63 <=? n then None else Some n
  | None => None
  end.

(** [scanInt] with the verb [v]: sign, base prefix and digits; [None] is an error. *)
Definition in_set (l : list Z) (r : Z) : bool := existsb (Z.eqb r) l.
Definition binaryDigits : list Z := [48; 49; 95].
Definition octalDigits : list Z := [48; 49; 50; 51; 52; 53; 54; 55; 95].
Definition decimalDigits : list Z := octalDigits ++ [56; 57].
Definition hexDigits : list Z := decimalDigits ++ [97; 98; 99; 100; 101; 102; 65; 66; 67; 68; 69; 70].

Definition scanDigits (neg : bool) (buf set rs : list Z) : option (Z * list Z) :=
  let (ds, rest) := span (in_set set) rs in
  match buf, ds with
  | [], [] => None
  | _, _ => match ParseInt0 neg (buf ++ ds) with Some n => Some (n, rest) | None => None end
  end.

Definition scanInt (rs : list Z) : option (Z * list Z) :=
  match SkipSpace rs with
  | [] => None
  | r :: rs' =>
      let neg := r =? 45 in
      let rs := if (r =? 43) || (r =? 45) then rs' else r :: rs' in
      match rs with
      | 48 :: c :: rs'' =>
          if lower_rune c =? 98 then scanDigits neg [48; c] binaryDigits rs''
          else if lower_rune c =? 111 then scanDigits neg [48; c] octalDigits rs''
          else if lower_rune c =? 120 then scanDigits neg [48; c] hexDigits rs''
          else scanDigits neg [48] octalDigits (c :: rs'')
      | 48 :: [] => scanDigits neg [48] octalDigits []
      | _ => scanDigits neg [] decimalDigits rs
      end
  end.

(** ** [Sscan] *)

Inductive Dest := DstString | DstInt.
Inductive Scanned := ScString (s : string) | ScInt (n : Z).

(** The values stored before the input ends or an error stops the scan. *)
Fixpoint SscanRunes (dests : list Dest) (rs : list Z) : list Scanned :=
  match dests with
  | [] => []
  | DstString :: dests' =>
      match scanString rs with Some (s, rest) => ScString s :: SscanRunes dests' rest | None => [] end
  | DstInt :: dests' =>
      match scanInt rs with Some (n, rest) => ScInt n :: SscanRunes dests' rest | None => [] end
  end.
Definition Sscan (s : string) (dests : list Dest) : list Scanned := SscanRunes dests (runes s).

(** [Sscanf(line, "%s%s", &a, &b)]: a newline is an error here. *)
Definition scanWord (rs : list Z) : option (string * list Z) :=
  let (sp, rs') := span isSpace rs in
  if existsb (Z.eqb 10) sp then None else scanString rs'.
Definition Sscanf_ss (line : string) : string * string * bool :=
  match scanWord (runes line) with
  | None => ("", "", false)
  | Some (a, rest) =>
      match scanWord rest with
      | None => (a, "", false)
      | Some (b, _) => (a, b, true)
      end
  end.

(** ** Lines *)

Definition NL : ascii := "010"%char.
Definition dropCR (s : string) : string := TrimSuffix s (String "013"%char "").

(** The lines [ReadString] returns without an error: those that end in a newline,
    which they keep.  Each takes at least one byte. *)
Fixpoint fullLines (fuel : nat) (s : string) : list string :=
  match fuel, cut_after NL s with
  | S fuel', Some (line, rest) => line :: fullLines fuel' rest
  | _, _ => []
  end.
Definition ReadStrings (s : string) : list string := fullLines (slen s) s.

(** [bufio.ScanLines]: lines without their end; a last line needs no newline.  The
    scanner gives up at a line that does not fit its buffer. *)
Definition MaxScanTokenSize : nat := 64 * 1024.
Fixpoint scanLines (fuel : nat) (s : string) : list string :=
  match fuel with
  | O => []
  | S fuel' =>
      match cut_after NL s with
      | Some (line, rest) =>
          if (MaxScanTokenSize <? slen line)%nat then []
          else dropCR (TrimSuffix line (String NL "")) :: scanLines fuel' rest
      | None => if (slen s =? 0)%nat || (MaxScanTokenSize <=? slen s)%nat then [] else [dropCR s]
      end
  end.
Definition ScanLines (s : string) : list string := scanLines (S (slen s)) s.

(** ** Reading back *)

(** Printable ASCII without space. *)
Definition word_byte (b : Z) : bool := (33 <=? b) && (b <=? 126).
Definition word (s : string) : Prop := s <> "" /\ Forall (fun b => word_byte b = true) (bytes_of s).

Lemma word_no_space b : word_byte b = true -> isSpace b = false.
Proof. unfold word_byte, isSpace. bool_to_prop. intros. repeat (apply orb_false_iff; split); bool_to_prop; lia. Qed.

Lemma span_all p l rest : Forall (fun r => p r = true) l ->
  match rest with [] => True | r :: _ => p r = false end -> span p (l ++ rest) = (l, rest).
Proof.
  intros Hl Hr. induction Hl as [|r l H _ IH]; simpl; [|by rewrite H, IH].
  destruct rest as [|r rest]; [done|]. simpl. by rewrite Hr.
Qed.

Lemma scanString_word s rest : word s -> match rest with [] => True | r :: _ => isSpace r = true end ->
  scanString (bytes_of s ++ rest) = Some (s, rest).
Proof.
  intros [Hne Hw] Hr. unfold scanString, SkipSpace.
  destruct s as [|c s]; [done|]. cbn [bytes_of app] in *. set (b := Z.of_N (N_of_ascii c)) in *.
  assert (isSpace b = false) as Hb by (inversion Hw; by apply word_no_space).
  cbn [span]. rewrite Hb. cbn [snd].
  change (b :: bytes_of s ++ rest) with ((b :: bytes_of s) ++ rest). rewrite span_all.
  - unfold string_of_runes. rewrite Hb. cbn [negb]. rewrite encode_runes_ascii; [by rewrite (of_bytes_of (String c s) : of_bytes (b :: bytes_of s) = _)|].
    eapply Forall_impl; [exact Hw|]. unfold word_byte. intros x Hx. bool_to_prop. lia.
  - eapply Forall_impl; [apply (Forall_cons_1 _ _ _ Hw)|]. intros x Hx. by rewrite word_no_space.
  - destruct rest as [|r rest]; [done|]. by rewrite Hr.
Qed.

Lemma SkipSpace_space rs : SkipSpace (32 :: rs) = SkipSpace rs.
Proof. unfold SkipSpace. simpl. by destruct (span isSpace rs). Qed.

Lemma scanString_space rs : scanString (32 :: rs) = scanString rs.
Proof. unfold scanString. by rewrite SkipSpace_space. Qed.

(** ** Files of lines *)

Definition one_line (l : string) : Prop := exists w, l = w +:+ String NL "" /\ count_byte NL w = 0%nat.
(** The lines one after the other, then [p]. *)
Definition unlines (lines : list string) (p : string) : string := foldr String.append p lines.

Lemma unlines_app lines l p : unlines (lines ++ [l]) p = unlines lines (l +:+ p).
Proof. unfold unlines. by rewrite foldr_app. Qed.

Lemma unlines_end lines l p : unlines lines (l +:+ p) = unlines lines l +:+ p.
Proof. induction lines as [|x lines IH]; simpl; [done|]. by rewrite IH, sapp_assoc. Qed.

Lemma ReadStrings_unlines lines p :
  Forall one_line lines -> count_byte NL p = 0%nat -> ReadStrings (unlines lines p) = lines.
Proof.
  intros Hl Hp. unfold ReadStrings.
  assert (length lines <= slen (unlines lines p))%nat as Hlen.
  { induction Hl as [|l lines (w & -> & _) _ IH]; simpl; [lia|]. rewrite !slen_app. simpl. lia. }
  revert Hlen. generalize (slen (unlines lines p)). induction Hl as [|l lines (w & -> & Hw) _ IH]; intros fuel Hf; simpl.
  - destruct fuel as [|fuel]; [done|]. cbn [fullLines]. by rewrite (proj2 (cut_after_None NL p) Hp).
  - destruct fuel as [|fuel]; simpl in Hf; [lia|]. cbn [fullLines].
    rewrite sapp_assoc. simpl. rewrite cut_after_app by done. by rewrite IH by lia.
Qed.

Lemma stake_append n s t : stake n (s +:+ t) = if (n <=? slen s)%nat then stake n s else s +:+ stake (n - slen s) t.
Proof.
  revert n. induction s as [|c s IH]; intros [|n]; simpl; [by destruct t|done|done|]. rewrite IH. by destruct (n <=? slen s)%nat.
Qed.

Lemma count_byte_stake c n s : (count_byte c (stake n s) <= count_byte c s)%nat.
Proof. revert n. induction s as [|d s IH]; intros [|n]; simpl; try lia. specialize (IH n). lia. Qed.

(** The first bytes of a file of lines: some of the lines, and a piece of the next. *)
Lemma stake_unlines n lines : Forall one_line lines ->
  exists k p, stake n (unlines lines "") = unlines (take k lines) p /\ count_byte NL p = 0%nat.
Proof.
  intros Hl. revert n. induction Hl as [|l lines (w & -> & Hw) _ IH]; intros n; simpl; [by exists 0%nat, ""; destruct n|].
  rewrite stake_append. destruct (Nat.leb_spec n (slen (w +:+ String NL ""))) as [Hle|Hgt].
  - rewrite stake_append. destruct (Nat.leb_spec n (slen w)) as [Hle'|Hgt].
    + exists 0%nat, (stake n w). split; [done|]. pose proof (count_byte_stake NL n w). lia.
    + exists 1%nat, "". split; [|done]. simpl. rewrite sapp_nil_r. f_equal.
      rewrite slen_app in Hle. simpl in Hle. by replace (n - slen w)%nat with 1%nat by lia.
  - destruct (IH (n - slen (w +:+ String NL ""))%nat) as (k & p & -> & Hp). by exists (S k), p.
Qed.
