(* ===== verification/GoFlag.v ===== *)
(** Go's package flag, as the four main programs use it: [FlagSet.Parse] with the
    values of [String], [Bool], [Int] and [Int64].  The theorems say that [Parse]
    reads exactly the written settings, in any of the spellings, and that for each
    flag the last setting wins. *)
From S2P Require Import Prelude GoStrings Utf8 GoScan.
From Stdlib Require Import Ascii.

Inductive Value := VString (s : string) | VBool (b : bool) | VInt (n : Z).

(** [strconv.ParseBool] *)
Definition ParseBool (s : string) : option bool :=
  if bool_decide (s ∈ ["1"; "t"; "T"; "true"; "TRUE"; "True"]) then Some true
  else if bool_decide (s ∈ ["0"; "f"; "F"; "false"; "FALSE"; "False"]) then Some false
  else None.

(** [strconv.ParseInt(s, 0, 64)], with the sign. *)
Definition ParseInt (s : string) : option Z :=
  match bytes_of s with
  | [] => None
  | c :: bs => if c =? 43 then ParseInt0 false bs else if c =? 45 then ParseInt0 true bs else ParseInt0 false (c :: bs)
  end.

(** The method [Set] of a value; [None] is its error. *)
Definition Value_Set (v : Value) (text : string) : option Value :=
  match v with
  | VString _ => Some (VString text)
  | VBool _ => VBool <$> ParseBool text
  | VInt _ => VInt <$> ParseInt text
  end.

Definition IsBoolFlag (v : Value) : bool := match v with VBool _ => true | _ => false end.

(** The flags with their values, and those that were set. *)
Record FlagSet := mkFlagSet { formal : gmap string Value; actual : gset string }.
Definition NewFlagSet (flags : list (string * Value)) : FlagSet := mkFlagSet (list_to_map flags) ∅.
Definition setFlag (f : FlagSet) (name : string) (v : Value) : FlagSet :=
  mkFlagSet (<[name := v]> (formal f)) ({[name]} ∪ actual f).

Inductive FlagError :=
  | ErrBadSyntax (arg : string)
  | ErrHelp
  | ErrUndefined (name : string)
  | ErrNeedsArgument (name : string)
  | ErrInvalidValue (name value : string).

(** The name and the value of an argument after its dashes: [name=value]. *)
Fixpoint splitEq (s : string) : string * option string :=
  match s with
  | "" => ("", None)
  | String c s' => if Ascii.eqb c "=" then ("", Some s') else let (n, v) := splitEq s' in (String c n, v)
  end.

(** What an argument is: no flag, the terminator, an error, or a flag. *)
Inductive Token := TArgument | TTerminator | TBad | TFlag (name : string) (value : option string).
Definition flagToken (name : string) : Token :=
  match name with
  | "" => TBad
  | String c _ => if Ascii.eqb c "-" || Ascii.eqb c "=" then TBad else let (n, v) := splitEq name in TFlag n v
  end.
Definition token (s : string) : Token :=
  match s with
  | String c1 (String c2 s') =>
      if negb (Ascii.eqb c1 "-") then TArgument
      else if Ascii.eqb c2 "-" then if String.eqb s' "" then TTerminator else flagToken s'
      else flagToken (String c2 s')
  | _ => TArgument
  end.

(** [FlagSet.Parse]: the flags after all settings and the remaining arguments, or
    the error, on which the program prints the usage and exits. *)
Fixpoint Parse (args : list string) (f : FlagSet) {struct args} : (FlagSet * list string) + FlagError :=
  match args with
  | [] => inl (f, [])
  | s :: args' =>
      match token s with
      | TArgument => inl (f, s :: args')
      | TTerminator => inl (f, args')
      | TBad => inr (ErrBadSyntax s)
      | TFlag name value =>
          match formal f !! name with
          | None => inr (if String.eqb name "help" || String.eqb name "h" then ErrHelp else ErrUndefined name)
          | Some v =>
              if IsBoolFlag v then
                let text := default "true" value in
                match Value_Set v text with
                | Some v' => Parse args' (setFlag f name v')
                | None => inr (ErrInvalidValue name text)
                end
              else
                match value, args' with
                | Some text, _ =>
                    match Value_Set v text with
                    | Some v' => Parse args' (setFlag f name v')
                    | None => inr (ErrInvalidValue name text)
                    end
                | None, text :: args'' =>
                    match Value_Set v text with
                    | Some v' => Parse args'' (setFlag f name v')
                    | None => inr (ErrInvalidValue name text)
                    end
                | None, [] => inr (ErrNeedsArgument name)
                end
          end
      end
  end.

(** Reading a flag through its pointer. *)
Definition stringFlag (f : FlagSet) (name : string) : string :=
  match formal f !! name with Some (VString s) => s | _ => "" end.
Definition boolFlag (f : FlagSet) (name : string) : bool :=
  match formal f !! name with Some (VBool b) => b | _ => false end.
Definition intFlag (f : FlagSet) (name : string) : Z :=
  match formal f !! name with Some (VInt n) => n | _ => 0 end.

(** ** Settings and how they are written *)

(** [-name], [-name=text] and [-name text], with one dash or two. *)
Inductive Spelling := Bare | Equals | Next.
Record Setting := mkSetting { st_dashes : bool; st_name : string; st_spelling : Spelling; st_text : string }.

Definition written (s : Setting) : list string :=
  let flag := (if st_dashes s then "--" else "-") +:+ st_name s in
  match st_spelling s with
  | Bare => [flag]
  | Equals => [flag +:+ "=" +:+ st_text s]
  | Next => [flag; st_text s]
  end.

Definition flag_name (n : string) : Prop :=
  count_byte "=" n = 0%nat /\ match n with "" => False | String c _ => c <> "-"%char end.

(** The flag is defined, the spelling fits its type and the text is a value. *)
Definition legal (f : FlagSet) (s : Setting) : Prop :=
  flag_name (st_name s) /\
  exists v, formal f !! st_name s = Some v /\ Value_Set v (st_text s) <> None /\
    match st_spelling s with
    | Bare => IsBoolFlag v = true /\ st_text s = "true"
    | Equals => True
    | Next => IsBoolFlag v = false
    end.

Definition applySetting (f : FlagSet) (s : Setting) : FlagSet :=
  match formal f !! st_name s ≫= fun v => Value_Set v (st_text s) with
  | Some v => setFlag f (st_name s) v
  | None => f
  end.
Definition applySettings (f : FlagSet) (ss : list Setting) : FlagSet := foldl applySetting f ss.

(** The text of the last setting of a flag. *)
Definition lastText (n : string) (ss : list Setting) : option string :=
  st_text <$> last (filter (fun s => st_name s = n) ss).

(** [args] is [ss] written out, then no further flag. *)
Definition command_line (args : list string) (ss : list Setting) (rest : list string) : Prop :=
  exists sep, args = concat (map written ss) ++ sep ++ rest /\
    (sep = ["--"] \/ sep = [] /\ match rest with [] => True | s :: _ => token s = TArgument end).

(** ** Arguments and tokens *)

Lemma splitEq_None n : count_byte "=" n = 0%nat -> splitEq n = (n, None).
Proof. induction n as [|c n IH]; simpl; [done|]. destruct (Ascii.eqb_spec c "="); simpl; [done|]. intros H. by rewrite IH. Qed.

Lemma splitEq_Some n t : count_byte "=" n = 0%nat -> splitEq (n +:+ String "=" t) = (n, Some t).
Proof. induction n as [|c n IH]; simpl; [done|]. destruct (Ascii.eqb_spec c "="); simpl; [done|]. intros H. by rewrite IH. Qed.

Definition valueText (v : option string) : string := match v with Some t => "=" +:+ t | None => "" end.

Lemma splitEq_spec s : s = (splitEq s).1 +:+ valueText (splitEq s).2 /\ count_byte "=" (splitEq s).1 = 0%nat.
Proof.
  induction s as [|c s [IH1 IH2]]; simpl; [done|]. destruct (Ascii.eqb_spec c "=") as [->|Hc]; simpl; [done|].
  destruct (splitEq s) as [n v]. simpl in *. split; [by rewrite IH1 at 1|]. by destruct (Ascii.eqb_spec c "=").
Qed.

Lemma splitEq_valueText n v : count_byte "=" n = 0%nat -> splitEq (n +:+ valueText v) = (n, v).
Proof. intros H. destruct v; simpl; [by apply splitEq_Some|]. rewrite sapp_nil_r. by apply splitEq_None. Qed.

Definition dashes (two : bool) : string := if two then "--" else "-".

Lemma token_written two n v : flag_name n -> token (dashes two +:+ n +:+ valueText v) = TFlag n v.
Proof.
  intros [Heq Hn]. destruct n as [|c n]; [done|].
  assert (flagToken (String c n +:+ valueText v) = TFlag (String c n) v) as Hf.
  { unfold flagToken. rewrite (splitEq_valueText (String c n) v Heq). simpl in *.
    destruct (Ascii.eqb_spec c "-"), (Ascii.eqb_spec c "="); simpl in *; done. }
  unfold token. destruct two; cbn [dashes String.append]; [exact Hf|]. simpl negb.
  destruct (Ascii.eqb_spec c "-"); [done|exact Hf].
Qed.

Lemma flagToken_inv s n v : flagToken s = TFlag n v -> flag_name n /\ s = n +:+ valueText v.
Proof.
  unfold flagToken. destruct s as [|c s]; [done|]. destruct (splitEq_spec (String c s)) as [E1 E2].
  revert E1 E2. simpl. destruct (Ascii.eqb_spec c "-"), (Ascii.eqb_spec c "="); simpl; try done.
  destruct (splitEq s) as [n' v']. simpl. intros E1 E2 [= <- <-]. done.
Qed.

Lemma token_inv s n v : token s = TFlag n v -> flag_name n /\ exists two, s = dashes two +:+ n +:+ valueText v.
Proof.
  unfold token. destruct s as [|c1 [|c2 s]]; try done. destruct (Ascii.eqb_spec c1 "-") as [->|]; cbn [negb]; [|done].
  destruct (Ascii.eqb_spec c2 "-") as [->|].
  - destruct (String.eqb_spec s ""); [done|]. intros [H ->]%flagToken_inv. split; [done|]. by exists true.
  - intros [H E]%flagToken_inv. split; [done|]. exists false. simpl. by rewrite E.
Qed.

Lemma flagToken_flag s : flagToken s <> TTerminator.
Proof. unfold flagToken. destruct s as [|c s]; [done|]. destruct (_ || _); [done|]. by destruct (splitEq _). Qed.

Lemma token_terminator s : token s = TTerminator -> s = "--".
Proof.
  unfold token. destruct s as [|c1 [|c2 s]]; try done. destruct (Ascii.eqb_spec c1 "-") as [->|]; cbn [negb]; [|done].
  destruct (Ascii.eqb_spec c2 "-") as [->|]; [|by intros ?%flagToken_flag].
  destruct (String.eqb_spec s "") as [->|]; [done|by intros ?%flagToken_flag].
Qed.

(** ** A setting keeps the types of the flags *)

Lemma Value_Set_kind v t v' : Value_Set v t = Some v' ->
  IsBoolFlag v' = IsBoolFlag v /\ forall u, Value_Set v' u = Value_Set v u.
Proof.
  destruct v; simpl; [intros [= <-]; done| |]; intros H.
  - destruct (ParseBool t); simplify_eq/=; done.
  - destruct (ParseInt t); simplify_eq/=; done.
Qed.

Lemma legal_setFlag f n v t v' s : formal f !! n = Some v -> Value_Set v t = Some v' ->
  legal (setFlag f n v') s <-> legal f s.
Proof.
  intros Hn Hv. destruct (Value_Set_kind _ _ _ Hv) as [Hb Hs]. unfold legal, setFlag. simpl.
  destruct (decide (st_name s = n)) as [->|Hne]; [|by rewrite lookup_insert_ne].
  rewrite lookup_insert_eq, Hn. split; intros (Hf & w & [= <-] & H); (split; [done|]); eexists; (split; [done|]).
  - by rewrite <- Hs, <- Hb.
  - by rewrite Hs, Hb.
Qed.

Lemma applySetting_legal f s : legal f s -> exists v v', formal f !! st_name s = Some v /\
  Value_Set v (st_text s) = Some v' /\ applySetting f s = setFlag f (st_name s) v'.
Proof.
  intros (_ & v & Hv & Hs & _). destruct (Value_Set v (st_text s)) as [v'|] eqn:E; [|done].
  exists v, v'. split_and!; [done..|]. unfold applySetting. rewrite Hv. simpl. by rewrite E.
Qed.

Lemma legal_applySetting f s s' : legal f s -> legal (applySetting f s) s' <-> legal f s'.
Proof. intros Hs. destruct (applySetting_legal f s Hs) as (v & v' & Hv & Hv' & ->). by eapply legal_setFlag. Qed.

(** ** Parsing written settings *)

Lemma written_flag s : match written s with [] => False | a :: _ => flag_name (st_name s) ->
  token a = TFlag (st_name s) (match st_spelling s with Equals => Some (st_text s) | _ => None end) end.
Proof.
  unfold written. change (if st_dashes s then "--" else "-") with (dashes (st_dashes s)).
  destruct (st_spelling s); intros H.
  - rewrite <- (token_written (st_dashes s) _ None H). simpl. by rewrite sapp_nil_r.
  - rewrite <- (token_written (st_dashes s) _ (Some (st_text s)) H). simpl. by rewrite sapp_assoc.
  - rewrite <- (token_written (st_dashes s) _ None H). simpl. by rewrite sapp_nil_r.
Qed.

(** One flag: its text is after the equals sign, implied, or the next argument. *)
Lemma Parse_flag f a n v value t v' args : token a = TFlag n value -> formal f !! n = Some v -> Value_Set v t = Some v' ->
  (value = Some t -> Parse (a :: args) f = Parse args (setFlag f n v')) /\
  (value = None -> IsBoolFlag v = true -> t = "true" -> Parse (a :: args) f = Parse args (setFlag f n v')) /\
  (value = None -> IsBoolFlag v = false -> Parse (a :: t :: args) f = Parse args (setFlag f n v')).
Proof.
  intros Ha Hn Hv. cbn [Parse]. rewrite Ha, Hn. split_and!; intros ->.
  - destruct (IsBoolFlag v); simpl; by rewrite Hv.
  - intros -> ->. simpl. by rewrite Hv.
  - intros ->. by rewrite Hv.
Qed.

Lemma Parse_setting f s args : legal f s -> Parse (written s ++ args) f = Parse args (applySetting f s).
Proof.
  intros Hl. destruct (applySetting_legal f s Hl) as (v & v' & Hv & Hv' & ->).
  destruct Hl as (Hn & w & Hw & _ & Hsp). rewrite Hv in Hw. injection Hw as <-.
  pose proof (written_flag s) as Ht. unfold written in *. destruct (st_spelling s); specialize (Ht Hn);
    destruct (Parse_flag _ _ _ _ _ _ _ args Ht Hv Hv') as (H1 & H2 & H3); simpl app; auto.
  destruct Hsp. by apply H2.
Qed.

Lemma Parse_settings ss : forall f args, Forall (legal f) ss ->
  Parse (concat (map written ss) ++ args) f = Parse args (applySettings f ss).
Proof.
  induction ss as [|s ss IH]; intros f args; [done|]. intros [Hs Hss]%Forall_cons. simpl.
  rewrite <- app_assoc, Parse_setting by done. apply IH. eapply Forall_impl; [done|].
  intros s' Hs'. by apply legal_applySetting.
Qed.

Lemma Parse_rest f sep rest : sep = ["--"] \/ sep = [] /\ match rest with [] => True | s :: _ => token s = TArgument end ->
  Parse (sep ++ rest) f = inl (f, rest).
Proof. intros [->|[-> Hr]]; [done|]. destruct rest as [|s rest]; [done|]. simpl. by rewrite Hr. Qed.

(** ** What is parsed was written *)

Definition reads (args : list string) (f f' : FlagSet) (rest : list string) : Prop :=
  exists ss, Forall (legal f) ss /\ command_line args ss rest /\ f' = applySettings f ss.

Lemma reads_rest f sep rest : sep = ["--"] \/ sep = [] /\ match rest with [] => True | s :: _ => token s = TArgument end ->
  reads (sep ++ rest) f f rest.
Proof. intros H. exists []. split_and!; [done| |done]. by exists sep. Qed.

Lemma reads_setting f s args f' rest : legal f s -> reads args (applySetting f s) f' rest -> reads (written s ++ args) f f' rest.
Proof.
  intros Hs (ss & Hss & (sep & -> & Hsep) & ->). exists (s :: ss). split_and!; [|exists sep; simpl; by rewrite <- app_assoc|done].
  constructor; [done|]. eapply Forall_impl; [done|]. intros s'. by apply legal_applySetting.
Qed.

Lemma reads_flag f two name v sp text v' args f' rest : flag_name name -> formal f !! name = Some v -> Value_Set v text = Some v' ->
  match sp with Bare => IsBoolFlag v = true /\ text = "true" | Equals => True | Next => IsBoolFlag v = false end ->
  reads args (setFlag f name v') f' rest -> reads (written (mkSetting two name sp text) ++ args) f f' rest.
Proof.
  intros Hn Hv Hv' Hsp H. apply reads_setting.
  - split; [done|]. exists v. simpl. by rewrite Hv'.
  - unfold applySetting. simpl. rewrite Hv. simpl. by rewrite Hv'.
Qed.

Lemma Parse_reads n : forall args f f' rest, (length args <= n)%nat -> Parse args f = inl (f', rest) -> reads args f f' rest.
Proof.
  induction n as [|n IH]; intros [|a args] f f' rest Hlen HP; simpl in Hlen; try lia.
  1,2: injection HP as <- <-; apply (reads_rest _ []); auto.
  cbn [Parse] in HP. destruct (token a) as [| | |name value] eqn:Ha; [| |done|].
  - injection HP as <- <-. apply (reads_rest _ []). auto.
  - injection HP as <- <-. apply token_terminator in Ha as ->. apply (reads_rest _ ["--"]). auto.
  - destruct (formal f !! name) as [v|] eqn:Hv; [|done]. apply token_inv in Ha as (Hn & two & ->).
    destruct (IsBoolFlag v) eqn:Hb; destruct value as [text|]; [| | |destruct args as [|text args]; [done|]];
      (destruct (Value_Set v _) as [v'|] eqn:Hv'; [|done]); apply IH in HP; try (simpl in *; lia).
    + rewrite <- sapp_assoc. by apply (reads_flag f two name v Equals text v').
    + simpl valueText. rewrite sapp_nil_r. by apply (reads_flag f two name v Bare "true" v').
    + rewrite <- sapp_assoc. by apply (reads_flag f two name v Equals text v').
    + simpl valueText. rewrite sapp_nil_r. by apply (reads_flag f two name v Next text v').
Qed.

(** [Parse] reads exactly what is written. *)
Lemma Parse_spec args f f' rest : Parse args f = inl (f', rest) <-> reads args f f' rest.
Proof.
  split; [by apply (Parse_reads (length args))|]. intros (ss & Hss & (sep & -> & Hsep) & ->).
  rewrite Parse_settings by done. by apply Parse_rest.
Qed.

(** ** The last setting wins *)

Lemma legal_applySettings ss : forall f s, Forall (legal f) ss -> legal f s -> legal (applySettings f ss) s.
Proof.
  induction ss as [|s' ss IH]; intros f s; [done|]. intros [H1 H2]%Forall_cons Hs. simpl.
  apply IH; [|by apply legal_applySetting]. eapply Forall_impl; [done|]. intros x. by apply legal_applySetting.
Qed.

Lemma applySettings_last ss f n v : Forall (legal f) ss -> formal f !! n = Some v ->
  formal (applySettings f ss) !! n = match lastText n ss with Some t => Value_Set v t | None => Some v end /\
  (n ∈ actual (applySettings f ss) <-> n ∈ actual f \/ lastText n ss <> None).
Proof.
  induction ss as [|s ss IH] using rev_ind; intros Hss Hn; [unfold lastText; simpl; naive_solver|].
  apply Forall_app in Hss as [Hss [Hs _]%Forall_cons]. destruct (IH Hss Hn) as [IH1 IH2].
  destruct (applySetting_legal _ _ (legal_applySettings ss f s Hss Hs)) as (w & w' & Hw & Hw' & E).
  unfold applySettings, lastText in *. rewrite foldl_app, filter_app. cbn [foldl]. rewrite E. unfold setFlag. cbn [formal actual].
  rewrite filter_cons, filter_nil. destruct (decide (st_name s = n)) as [<-|Hne].
  - rewrite lookup_insert_eq, last_snoc. cbn [fmap option_fmap option_map]. split; [|set_solver].
    rewrite IH1 in Hw. rewrite <- Hw'. destruct (st_text <$> last _) as [t|]; [|by simplify_eq].
    by apply Value_Set_kind in Hw as [_ Hk].
  - rewrite lookup_insert_ne, app_nil_r by done. rewrite IH1. split; [done|]. rewrite elem_of_union, elem_of_singleton. naive_solver.
Qed.

(** The values of the flags after a command line. *)
Definition textOf (n d : string) (ss : list Setting) : string := default d (lastText n ss).

Section Values.
Context (f : FlagSet) (ss : list Setting) (Hss : Forall (legal f) ss).

Lemma stringFlag_last n d : formal f !! n = Some (VString d) -> stringFlag (applySettings f ss) n = textOf n d ss.
Proof.
  intros Hn. unfold stringFlag, textOf. destruct (applySettings_last ss f n _ Hss Hn) as [-> _].
  by destruct (lastText n ss).
Qed.

Lemma boolFlag_last n d : formal f !! n = Some (VBool d) ->
  boolFlag (applySettings f ss) n = match lastText n ss with Some t => default false (ParseBool t) | None => d end.
Proof.
  intros Hn. unfold boolFlag. destruct (applySettings_last ss f n _ Hss Hn) as [-> _].
  destruct (lastText n ss) as [t|]; [|done]. simpl. by destruct (ParseBool t).
Qed.

Lemma intFlag_last n d : formal f !! n = Some (VInt d) ->
  intFlag (applySettings f ss) n = match lastText n ss with Some t => default 0 (ParseInt t) | None => d end.
Proof.
  intros Hn. unfold intFlag. destruct (applySettings_last ss f n _ Hss Hn) as [-> _].
  destruct (lastText n ss) as [t|]; [|done]. simpl. by destruct (ParseInt t).
Qed.

Lemma actual_last n v : formal f !! n = Some v -> actual f = ∅ -> n ∈ actual (applySettings f ss) <-> lastText n ss <> None.
Proof. intros Hn He. destruct (applySettings_last ss f n v Hss Hn) as [_ ->]. rewrite He. set_solver. Qed.
End Values.

Example parse_run :
  let f := NewFlagSet [("c", VString "config.json"); ("t", VBool false); ("n", VInt 10)] in
  (match Parse ["-c"; "-x"; "--t"; "-n=-0x10"; "--"; "-c=y"] f with
   | inl (f, rest) => (stringFlag f "c", boolFlag f "t", intFlag f "n", rest) = ("-x", true, -16, ["-c=y"])
   | inr _ => False
   end) /\
  Parse ["-t=maybe"] f = inr (ErrInvalidValue "t" "maybe") /\ Parse ["-c"] f = inr (ErrNeedsArgument "c") /\
  Parse ["---c"] f = inr (ErrBadSyntax "---c") /\ Parse ["-n=9223372036854775808"] f = inr (ErrInvalidValue "n" "9223372036854775808").
Proof. by vm_compute. Qed.
