(* ===== verification/GoCache.v ===== *)
(** The interface of github.com/patrickmn/go-cache that the rate limiter, the
    upstream resolver and the health checker use: its operations, its documented
    laws, and an implementation of them by a finite map.

    Times and durations are in nanoseconds; the clock is an argument. *)
From S2P Require Import Prelude.

Class GoCache := {
  gcache : Type -> Type;
  (** [cache.New(defaultExpiration, cleanupInterval)] *)
  gc_new : forall {V}, Z -> gcache V;
  (** [c.GetWithExpiration(k)] at time [now]: the value and when it expires *)
  gc_get : forall {V}, Z -> gcache V -> string -> option (V * Z);
  (** [c.Set(k, v, d)] at time [now] *)
  gc_set : forall {V}, Z -> gcache V -> string -> V -> Z -> gcache V
}.

(** The duration an item lives: 0 ([DefaultExpiration]) selects the default of
    the cache. *)
Definition gc_lifetime (default d : Z) : Z := if d =? 0 then default else d.

Class GoCacheLaws (C : GoCache) := {
  gc_default : forall {V}, gcache V -> Z;
  gc_default_new : forall V d, gc_default (gc_new d : gcache V) = d;
  gc_default_set : forall V now (c : gcache V) k v d, gc_default (gc_set now c k v d) = gc_default c;
  gc_get_new : forall V now d k, gc_get now (gc_new d : gcache V) k = None;
  gc_get_set_live : forall V now now' (c : gcache V) k v d,
    0 < gc_lifetime (gc_default c) d -> now' < now + gc_lifetime (gc_default c) d ->
    gc_get now' (gc_set now c k v d) k = Some (v, now + gc_lifetime (gc_default c) d);
  gc_get_set_expired : forall V now now' (c : gcache V) k v d,
    0 < gc_lifetime (gc_default c) d -> now + gc_lifetime (gc_default c) d < now' ->
    gc_get now' (gc_set now c k v d) k = None;
  gc_get_set_some : forall V now now' (c : gcache V) k v d v' e,
    gc_get now' (gc_set now c k v d) k = Some (v', e) -> v' = v;
  gc_get_set_ne : forall V now now' (c : gcache V) k k' v d,
    k <> k' -> gc_get now' (gc_set now c k v d) k' = gc_get now' c k'
}.

(** ** An implementation *)

Record map_cache (V : Type) := mkMapCache {
  mc_default : Z;
  mc_items : gmap string (V * Z)
}.
Arguments mkMapCache {V}.
Arguments mc_default {V}.
Arguments mc_items {V}.

Definition MapCache : GoCache := {|
  gcache := map_cache;
  gc_new V d := mkMapCache d ∅;
  gc_get V now c k :=
    match mc_items c !! k with
    | Some (v, e) => if now <=? e then Some (v, e) else None
    | None => None
    end;
  gc_set V now c k v d :=
    mkMapCache (mc_default c) (<[k := (v, now + gc_lifetime (mc_default c) d)]> (mc_items c))
|}.

#[global] Instance MapCacheLaws : GoCacheLaws MapCache.
Proof.
  refine (Build_GoCacheLaws MapCache (fun V => @mc_default V) _ _ _ _ _ _ _); simpl; try done.
  - intros V now now' c k v d _ Hn. rewrite lookup_insert_eq. by case_match; bool_to_prop; try lia.
  - intros V now now' c k v d _ Hn. rewrite lookup_insert_eq. by case_match; bool_to_prop; try lia.
  - intros V now now' c k v d v' e. rewrite lookup_insert_eq. case_match; by intros [= <- _].
  - intros V now now' c k k' v d Hk. by rewrite lookup_insert_ne.
Defined.
