(* ===== verification/Monad.v ===== *)
(** The monad of the stateful code: programs that act on a shared state one
    atomic step at a time and may panic, and a weakest-precondition calculus for
    them.

    A program is a tree of atomic actions, so that [run] executes it from start to
    end and the threads of [Concurrent] can be interleaved between two actions. *)
From S2P Require Import Prelude.

(** The groups of golang.org/x/sync/singleflight a program uses, and what a call
    on each of them returns. *)
Record Flights := mkFlights { Group : Type; Val : Group -> Type }.
Definition noFlights : Flights := mkFlights Empty_set (fun _ => unit).

(** [Flight g key body k] is [g.Do(key, body)]: it returns what [body] returns,
    or what the call with the same key returns that another goroutine has in
    flight. *)
Inductive ST (F : Flights) (S A : Type) : Type :=
  | Ret (a : A)
  | Act {B : Type} (f : S -> Outcome (B * S)) (k : B -> ST F S A)
  | Flight (g : Group F) (key : string) (body : ST F S (Val F g)) (k : Val F g -> ST F S A).
Arguments Ret {F S A} a.
Arguments Act {F S A B} f k.
Arguments Flight {F S A} g key body k.

Section Monad.
Context {F : Flights} {S : Type}.

#[global] Instance st_ret : MRet (ST F S) := fun _ a => Ret a.
#[global] Instance st_bind : MBind (ST F S) := fun A B f =>
  fix bind (m : ST F S A) : ST F S B :=
    match m with
    | Ret a => f a
    | Act g k => Act g (fun b => bind (k b))
    | Flight g key body k => Flight g key body (fun v => bind (k v))
    end.

(** Run a program on its own; no call is in flight when it makes one. *)
Fixpoint run {A} (m : ST F S A) (s : S) : Outcome (A * S) :=
  match m with
  | Ret a => Done (a, s)
  | Act f k =>
      match f s with
      | Done (b, s') => run (k b) s'
      | Panic => Panic
      | Diverge => Diverge
      end
  | Flight _ _ body k =>
      match run body s with
      | Done (v, s') => run (k v) s'
      | Panic => Panic
      | Diverge => Diverge
      end
  end.

(** A program that makes no shared calls: such a function may run under one. *)
Fixpoint flat {A} (m : ST F S A) : Prop :=
  match m with
  | Ret _ => True
  | Act _ k => forall b, flat (k b)
  | Flight _ _ _ _ => False
  end.

Definition atom {A} (f : S -> Outcome (A * S)) : ST F S A := Act f Ret.
Definition flight (g : Group F) (key : string) (body : ST F S (Val F g)) : ST F S (Val F g) :=
  Flight g key body Ret.

Definition st_get : ST F S S := atom (fun s => Done (s, s)).
Definition st_modify (f : S -> S) : ST F S unit := atom (fun s => Done (tt, f s)).
Definition st_panic {A} : ST F S A := atom (fun _ => Panic).
Definition st_diverge {A} : ST F S A := atom (fun _ => Diverge).
(** Run a computation that does not touch the state. *)
Definition st_lift {A} (o : Outcome A) : ST F S A := atom (fun s =>
  match o with
  | Done a => Done (a, s)
  | Panic => Panic
  | Diverge => Diverge
  end).

Lemma flat_ret {A} (a : A) : flat (mret a).
Proof. done. Qed.
Lemma flat_atom {A} (f : S -> Outcome (A * S)) : flat (atom f).
Proof. done. Qed.
Lemma flat_bind {A B} (m : ST F S A) (f : A -> ST F S B) : flat m -> (forall a, flat (f a)) -> flat (m ≫= f).
Proof. unfold mbind. intros Hm Hf. induction m; simpl in *; auto. Qed.

Lemma run_bind {A B} (m : ST F S A) (f : A -> ST F S B) s :
  run (m ≫= f) s = match run m s with
                   | Done (a, s') => run (f a) s'
                   | Panic => Panic
                   | Diverge => Diverge
                   end.
Proof.
  unfold mbind. revert s. induction m as [A a|A C g k IH|A g key body _ k IH]; intros s; simpl; [done| |].
  - destruct (g s) as [[c s']| |]; [apply IH|done|done].
  - destruct (run body s) as [[v s']| |]; [apply IH|done|done].
Qed.

Lemma run_atom {A} (f : S -> Outcome (A * S)) s : run (atom f) s = f s.
Proof. simpl. by destruct (f s) as [[a s']| |]. Qed.

(** [wp P m Q s]: from [s], [m] terminates; it ends in a result and a state
    that satisfy [Q], or, if [P] allows it, panics. *)
Definition wp (P : Prop) {A} (m : ST F S A) (Q : A -> S -> Prop) (s : S) : Prop :=
  match run m s with
  | Done (a, s') => Q a s'
  | Panic => P
  | Diverge => False
  end.

Lemma wp_done {A} (m : ST F S A) a s s' :
  wp False m (fun a' s'' => a' = a /\ s'' = s') s -> run m s = Done (a, s').
Proof. unfold wp. by destruct (run m s) as [[? ?]| |]; [intros [-> ->]| |]. Qed.

Section Wp.
Context (P : Prop).

Lemma wp_ret {A} (a : A) Q s : wp P (mret a) Q s <-> Q a s.
Proof. done. Qed.

Lemma wp_bind {A B} (m : ST F S A) (f : A -> ST F S B) Q s :
  wp P (m ≫= f) Q s <-> wp P m (fun a s' => wp P (f a) Q s') s.
Proof. unfold wp. rewrite run_bind. by destruct (run m s) as [[a s']| |]. Qed.

Lemma wp_atom {A} (f : S -> Outcome (A * S)) Q s :
  wp P (atom f) Q s <-> match f s with Done (a, s') => Q a s' | Panic => P | Diverge => False end.
Proof. unfold wp. by rewrite run_atom. Qed.

Lemma wp_flight g key body Q s : wp P (flight g key body) Q s <-> wp P body Q s.
Proof. unfold wp, flight. simpl. by destruct (run body s) as [[a s']| |]. Qed.

Lemma wp_mono {A} (m : ST F S A) (Q Q' : A -> S -> Prop) s :
  (forall a s', Q a s' -> Q' a s') -> wp P m Q s -> wp P m Q' s.
Proof. unfold wp. destruct (run m s) as [[a s']| |]; auto. Qed.

Lemma wp_lift {A} (o : Outcome A) Q s :
  wp P (st_lift o) Q s <-> match o with Done a => Q a s | Panic => P | Diverge => False end.
Proof. unfold st_lift. rewrite wp_atom. by destruct o. Qed.

Lemma wp_mapM {A B} (f : A -> ST F S B) (I : list B -> S -> Prop) l s :
  I [] s ->
  (forall done a s', a ∈ l -> I done s' -> wp P (f a) (fun b s'' => I (done ++ [b]) s'') s') ->
  wp P (mapM f l) I s.
Proof.
  intros H0 Hf. enough (forall done l' s', l' ⊆ l -> I done s' ->
    wp P (mapM f l') (fun r s'' => I (done ++ r) s'') s') as H by (by apply (H [] l s)).
  intros done l' . revert done. induction l' as [|a l' IH]; intros d s' Hsub Hd; simpl.
  - rewrite wp_ret. by rewrite app_nil_r.
  - rewrite wp_bind. eapply wp_mono; [|apply (Hf d a); [set_solver|done]]. intros b s'' Hb. simpl.
    rewrite wp_bind. eapply wp_mono; [|apply (IH (d ++ [b])); [set_solver|done]].
    intros r s3 Hr. apply wp_ret. by rewrite cons_middle, app_assoc.
Qed.
End Wp.

Lemma wp_weaken (P P' : Prop) {A} (m : ST F S A) Q s : (P -> P') -> wp P m Q s -> wp P' m Q s.
Proof. unfold wp. destruct (run m s) as [[a s']| |]; auto. Qed.
End Monad.

#[global] Coercion run : ST >-> Funclass.

(** Peel one monadic step of the goal. *)
Ltac wp_step :=
  match goal with
  | |- wp _ (mret _) _ _ => apply wp_ret
  | |- wp _ (_ ≫= _) _ _ => apply wp_bind
  | |- wp _ (st_lift _) _ _ => apply wp_lift
  | |- wp _ (flight _ _ _) _ _ => apply wp_flight
  end.
