(* ===== verification/Rely.v ===== *)
(** Rely-guarantee reasoning about the programs of [Monad]: what holds of a
    program when other threads take steps between its own.

    A [Discipline] says what all threads keep true, what a thread may expect of
    the others' steps and promises of its own, and what a shared call returns.
    [rg] judges a program under a discipline by recursion on its tree, keeping
    account of the events the program itself has emitted. *)
From S2P Require Import Prelude Monad.

Section Rely.
Context {F : Flights} {S E : Type} (evs : S -> list E).

Record Discipline := mkDiscipline {
  d_inv : S -> Prop;                                 (* holds between any two steps *)
  d_rely : S -> S -> Prop;                           (* what the others may do *)
  d_guar : S -> S -> Prop;                           (* what a step of this thread does *)
  d_flight : forall g, string -> Val F g -> S -> Prop;  (* what a shared call returns *)
  d_panic : Prop                                     (* whether a step may panic *)
}.

(** The events that a step emitted. *)
Definition emitted (s s' : S) : list E := drop (length (evs s)) (evs s').

Fixpoint rg (d : Discipline) {A} (m : ST F S A) (Q : A -> list E -> S -> Prop) (τ : list E) (s : S) : Prop :=
  match m with
  | Ret a => forall s', d_rely d s s' -> d_inv d s' -> Q a τ s'
  | Act f k => forall s', d_rely d s s' -> d_inv d s' ->
      match f s' with
      | Done (b, s'') => d_inv d s'' /\ d_guar d s' s'' /\ rg d (k b) Q (τ ++ emitted s' s'') s''
      | Panic => d_panic d
      | Diverge => False
      end
  | Flight g key body k =>
      (forall s', d_rely d s s' -> d_inv d s' -> flat body) /\
      rg d body (fun v τ' s' => τ' = τ /\ d_flight d g key v s') τ s /\
      forall v s', d_rely d s s' -> d_inv d s' -> d_flight d g key v s' -> rg d (k v) Q τ s'
  end.

(** The laws of a discipline: relations compose, what one thread promises is
    what the others expect, and the result of a shared call stays good. *)
Class Lawful (d : Discipline) : Prop := {
  rely_preorder :: PreOrder (d_rely d);
  guar_preorder :: PreOrder (d_guar d);
  guar_rely s s' : d_guar d s s' -> d_rely d s s';
  flight_stable g key v s s' : d_rely d s s' -> d_flight d g key v s -> d_flight d g key v s'
}.

(** A step that satisfies the guarantee is silent. *)
Class Silent (d : Discipline) : Prop :=
  guar_silent s s' : d_guar d s s' -> evs s' = evs s.

Lemma emitted_silent s s' : evs s' = evs s -> emitted s s' = [].
Proof. intros H. unfold emitted. rewrite H. apply drop_ge. lia. Qed.

Section Rules.
Context (d : Discipline) `{!Lawful d}.

Lemma rg_mono {A} (m : ST F S A) (Q Q' : A -> list E -> S -> Prop) τ s :
  (forall a τ' s', Q a τ' s' -> Q' a τ' s') -> rg d m Q τ s -> rg d m Q' τ s.
Proof.
  intros HQ. revert τ s. induction m as [A a|A B f k IH|A g key body _ k IH]; intros τ s; simpl; [auto| |].
  - intros H s' Hs Hi. specialize (H s' Hs Hi). destruct (f s') as [[b s'']| |]; try done.
    destruct H as (? & ? & ?). split_and!; eauto.
  - intros (Hf & Hb & Hk). split_and!; [done..|]. intros v s' Hs Hi Hv. eauto.
Qed.

(** The judgement may start later, and only states in the invariant matter. *)
Lemma rg_start {A} (m : ST F S A) Q τ s :
  (forall s', d_rely d s s' -> d_inv d s' -> rg d m Q τ s') -> rg d m Q τ s.
Proof.
  revert Q τ s. induction m as [A a|A B f k _|A g key body IHb k _]; intros Q τ s H; simpl.
  - intros s' Hs Hi. by apply (H s' Hs Hi).
  - intros s' Hs Hi. by apply (H s' Hs Hi).
  - split_and!.
    + intros s' Hs Hi. by apply (proj1 (H s' Hs Hi) s').
    + apply IHb. intros s' Hs Hi. by apply (H s' Hs Hi).
    + intros v s' Hs Hi Hv. by apply (H s' Hs Hi).
Qed.

Lemma rg_later {A} (m : ST F S A) Q τ s s' : d_rely d s s' -> rg d m Q τ s -> rg d m Q τ s'.
Proof.
  revert Q τ. induction m as [A a|A B f k _|A g key body IHb k _]; intros Q τ Hs; simpl.
  - intros H s2 Hs2. apply H. by trans s'.
  - intros H s2 Hs2. apply H. by trans s'.
  - intros (Hf & Hb & Hk). split_and!; [intros s2 Hs2; apply Hf; by trans s'|by apply IHb|]. intros v s2 Hs2. apply Hk. by trans s'.
Qed.

(** A program ends in a state that it and the others have led to. *)
Lemma rg_reach {A} (m : ST F S A) Q τ s :
  rg d m Q τ s -> rg d m (fun a τ' s' => d_rely d s s' /\ Q a τ' s') τ s.
Proof.
  enough (forall s0, d_rely d s0 s -> rg d m Q τ s -> rg d m (fun a τ' s' => d_rely d s0 s' /\ Q a τ' s') τ s)
    as H by (by apply H).
  intros s0. revert τ s. induction m as [A a|A B f k IH|A g key body _ k IH]; intros τ s H0; simpl.
  - intros H s' Hs Hi. split; [by trans s|auto].
  - intros H s' Hs Hi. specialize (H s' Hs Hi). destruct (f s') as [[b s'']| |]; try done.
    destruct H as (? & Hg & ?). split_and!; [done..|]. apply IH; [|done]. trans s'; [by trans s|by apply guar_rely].
  - intros (Hf & Hb & Hk). split_and!; [done..|]. intros v s' Hs Hi Hv. apply IH; [by trans s|auto].
Qed.

Lemma rg_bind {A B} (m : ST F S A) (f : A -> ST F S B) Q τ s :
  rg d m (fun a τ' s' => rg d (f a) Q τ' s') τ s -> rg d (m ≫= f) Q τ s.
Proof.
  unfold mbind. revert τ s. induction m as [A a|A C g k IH|A g key body _ k IH]; intros τ s; simpl.
  - apply rg_start.
  - intros H s' Hs Hi. specialize (H s' Hs Hi). destruct (g s') as [[b s'']| |]; try done.
    destruct H as (? & ? & ?). split_and!; eauto.
  - intros (Hf & Hb & Hk). split_and!; [done..|]. intros v s' Hs Hi Hv. eauto.
Qed.

Lemma rg_atom {A} (f : S -> Outcome (A * S)) (Q : A -> list E -> S -> Prop) τ s :
  (forall s', d_rely d s s' -> d_inv d s' ->
     match f s' with
     | Done (a, s'') => d_inv d s'' /\ d_guar d s' s'' /\
                        forall s3, d_rely d s'' s3 -> d_inv d s3 -> Q a (τ ++ emitted s' s'') s3
     | Panic => d_panic d
     | Diverge => False
     end) -> rg d (atom f) Q τ s.
Proof. done. Qed.

(** Alone, a program that satisfies the judgement returns. *)
Lemma rg_run {A} (m : ST F S A) Q τ s :
  rg d m Q τ s -> d_inv d s ->
  match m s with
  | Done (a, s') => d_inv d s' /\ d_guar d s s' /\ exists τ', Q a τ' s'
  | Panic => d_panic d
  | Diverge => False
  end.
Proof.
  revert Q τ s. induction m as [A a|A B f k IH|A g key body IHb k IH]; intros Q τ s; simpl.
  - intros H Hi. split_and!; [done..|]. exists τ. by apply H.
  - intros H Hi. specialize (H s (reflexivity s) Hi). destruct (f s) as [[b s']| |]; try done.
    destruct H as (Hi' & Hg & Hk). specialize (IH b Q _ s' Hk Hi'). destruct (run (k b) s') as [[a s'']| |]; try done.
    destruct IH as (? & ? & ?). split_and!; [done|by trans s'|done].
  - intros (_ & Hb & Hk) Hi. specialize (IHb _ _ _ Hb Hi). destruct (run body s) as [[v s']| |]; try done.
    destruct IHb as (Hi' & Hg & _ & _ & Hv). specialize (Hk v s' (guar_rely _ _ Hg) Hi' Hv).
    specialize (IH v Q _ s' Hk Hi'). destruct (run (k v) s') as [[a s'']| |]; try done.
    destruct IH as (? & ? & ?). split_and!; [done|by trans s'|done].
Qed.
End Rules.

(** ** Changing the discipline *)

Definition both (d1 d2 : Discipline) : Discipline := mkDiscipline
  (fun s => d_inv d1 s /\ d_inv d2 s)
  (fun s s' => d_rely d1 s s' /\ d_rely d2 s s')
  (fun s s' => d_guar d1 s s' /\ d_guar d2 s s')
  (fun g key v s => d_flight d1 g key v s /\ d_flight d2 g key v s)
  (d_panic d1 /\ d_panic d2).

Lemma rg_both d1 d2 {A} (m : ST F S A) Q1 Q2 τ s :
  rg d1 m Q1 τ s -> rg d2 m Q2 τ s -> rg (both d1 d2) m (fun a τ' s' => Q1 a τ' s' /\ Q2 a τ' s') τ s.
Proof.
  revert Q1 Q2 τ s. induction m as [A a|A B f k IH|A g key body IHb k IH]; intros Q1 Q2 τ s; simpl.
  - intros H1 H2 s' [??] [??]. auto.
  - intros H1 H2 s' [Hs1 Hs2] [Hi1 Hi2]. specialize (H1 s' Hs1 Hi1). specialize (H2 s' Hs2 Hi2).
    destruct (f s') as [[b s'']| |]; try done. destruct H1 as (? & ? & ?), H2 as (? & ? & ?). split_and!; auto.
  - intros (Hf & Hb1 & Hk1) (_ & Hb2 & Hk2). split_and!; [intros s' [? _] [? _]; by apply (Hf s')| |].
    + eapply rg_mono; [|by apply IHb]. by intros v τ' s' [[-> ?] [_ ?]].
    + intros v s' [??] [??] [??]. apply IH; auto.
Qed.

(** Under [d'] the others do less, more is known, and less is promised. *)
Record weaker (d d' : Discipline) : Prop := mkWeaker {
  weaker_inv s : d_inv d' s -> d_inv d s;
  weaker_rely s s' : d_rely d' s s' -> d_rely d s s';
  weaker_guar s s' : d_inv d' s -> d_guar d s s' -> d_inv d s' -> d_inv d' s' /\ d_guar d' s s';
  weaker_flight g key v s : d_flight d' g key v s <-> d_flight d g key v s;
  weaker_panic : d_panic d -> d_panic d'
}.

Lemma rg_weaken d d' {A} (m : ST F S A) Q τ s : weaker d d' -> rg d m Q τ s -> rg d' m Q τ s.
Proof.
  intros [Wi Wr Wg Wf Wp]. revert Q τ s. induction m as [A a|A B f k IH|A g key body IHb k IH]; intros Q τ s; simpl.
  - auto.
  - intros H s' Hs Hi. specialize (H s' (Wr _ _ Hs) (Wi _ Hi)). destruct (f s') as [[b s'']| |]; try auto.
    destruct H as (Hi' & Hg & ?). destruct (Wg _ _ Hi Hg Hi'). split_and!; auto.
  - intros (Hf & Hb & Hk). split_and!; [intros s' Hs Hi; apply (Hf s'); auto| |].
    + eapply rg_mono; [|by apply IHb]. intros v τ' s' [-> ?]. split; [done|by apply Wf].
    + intros v s' Hs Hi Hv. apply IH, Hk; [by apply Wr|by apply Wi|by apply Wf].
Qed.

(** ** Silent programs *)

(** [m] emits nothing and ends in [Q]. *)
Definition silently (d : Discipline) {A} (m : ST F S A) (Q : A -> S -> Prop) (s : S) : Prop :=
  forall τ, rg d m (fun a τ' s' => τ' = τ /\ Q a s') τ s.

Section SilentRules.
Context (d : Discipline) `{!Lawful d}.

Lemma silently_ret {A} (a : A) (Q : A -> S -> Prop) s :
  (forall s', d_rely d s s' -> d_inv d s' -> Q a s') -> silently d (mret a) Q s.
Proof. intros H τ s' Hs Hi. auto. Qed.

Lemma silently_mono {A} (m : ST F S A) (Q Q' : A -> S -> Prop) s :
  (forall a s', Q a s' -> Q' a s') -> silently d m Q s -> silently d m Q' s.
Proof. intros HQ H τ. eapply rg_mono; [|apply H]. by intros a τ' s' [-> ?%HQ]. Qed.

Lemma silently_bind {A B} (m : ST F S A) (f : A -> ST F S B) Q R s :
  silently d m Q s -> (forall a s', d_rely d s s' -> Q a s' -> silently d (f a) R s') ->
  silently d (m ≫= f) R s.
Proof.
  intros Hm Hf τ. apply rg_bind; [done|]. eapply rg_mono; [|apply rg_reach; [done|apply Hm]].
  intros a τ' s' (Hs & -> & Ha). by apply Hf.
Qed.

Lemma silently_atom {A} `{!Silent d} (f : S -> Outcome (A * S)) (Q : A -> S -> Prop) s :
  (forall s', d_rely d s s' -> d_inv d s' ->
     match f s' with
     | Done (a, s'') => d_inv d s'' /\ d_guar d s' s'' /\ forall s3, d_rely d s'' s3 -> d_inv d s3 -> Q a s3
     | Panic => d_panic d
     | Diverge => False
     end) -> silently d (atom f) Q s.
Proof.
  intros H τ. apply rg_atom. intros s' Hs Hi. specialize (H s' Hs Hi). destruct (f s') as [[a s'']| |]; try done.
  destruct H as (? & Hg & HQ). split_and!; [done..|]. intros s3 Hs3 Hi3.
  rewrite emitted_silent, app_nil_r by (by apply guar_silent). auto.
Qed.

Lemma silently_lift {A} `{!Silent d} (o : Outcome A) (Q : A -> S -> Prop) s :
  match o with
  | Done a => forall s', d_rely d s s' -> d_inv d s' -> Q a s'
  | Panic => d_panic d
  | Diverge => False
  end -> silently d (st_lift o) Q s.
Proof.
  intros Ho. apply silently_atom. intros s' Hs Hi. destruct o; try done. split_and!; [done..|].
  intros s3 Hs3. apply Ho. by trans s'.
Qed.

Lemma silently_flight g key body s :
  flat body -> silently d body (d_flight d g key) s -> silently d (flight g key body) (d_flight d g key) s.
Proof.
  intros Hf Hb τ. split_and!; [done|apply Hb|]. intros v s' Hs Hi Hv s'' Hs' Hi'. split; [done|]. by eapply flight_stable.
Qed.

Lemma silently_mapM {A B} (f : A -> ST F S B) (Q : B -> Prop) l s :
  (forall a s, silently d (f a) (fun b _ => Q b) s) -> silently d (mapM f l) (fun r _ => Forall Q r) s.
Proof.
  intros Hf. revert s. induction l as [|a l IH]; intros s; simpl; [by apply silently_ret|].
  eapply silently_bind; [apply Hf|]. intros b s1 _ Hb. eapply silently_bind; [apply IH|]. intros r s2 _ Hr.
  apply silently_ret. by constructor.
Qed.
End SilentRules.

Lemma silently_both d1 d2 {A} (m : ST F S A) Q1 Q2 s :
  silently d1 m Q1 s -> silently d2 m Q2 s -> silently (both d1 d2) m (fun a s' => Q1 a s' /\ Q2 a s') s.
Proof. intros H1 H2 τ. eapply rg_mono; [|by apply rg_both]. by intros a τ' s' [[-> ?] [_ ?]]. Qed.

Lemma silently_weaken d d' {A} (m : ST F S A) Q s : weaker d d' -> silently d m Q s -> silently d' m Q s.
Proof. intros Hw Hm τ. by eapply rg_weaken. Qed.
End Rely.
#[global] Arguments Discipline : clear implicits.
#[global] Arguments mkDiscipline {F S} _ _ _ _ _.

(** Keep the binds of a program visible when it is simplified. *)
#[global] Opaque atom flight.
