(* ===== verification/Threads.v ===== *)
(** Threads that run programs of [Monad] on one shared state: in each step some
    thread takes its next action.

    Calls under singleflight are as golang.org/x/sync/singleflight documents
    them: only one execution is in flight for a key at a time; a duplicate waits
    for the original and gets its result.  No function run under a call makes
    another one here ([flat]), so the rules have none for it. *)
From S2P Require Import Prelude Monad Rely.

Section Threads.
Context {F : Flights} {S A : Type}.

(** A thread that runs on its own; that executes the function of call [c]; that
    has its result but is still registered for its key; that waits for it. *)
Inductive Thread :=
  | Running (m : ST F S A)
  | Leading (g : Group F) (key : string) (c : nat) (body : ST F S (Val F g)) (k : Val F g -> ST F S A)
  | Leaving (g : Group F) (key : string) (c : nat) (v : Val F g) (k : Val F g -> ST F S A)
  | Waiting (g : Group F) (key : string) (c : nat) (k : Val F g -> ST F S A).

Record Pool := mkPool {
  p_state : S;
  p_threads : list Thread;
  p_calls : nat;                                       (* calls made so far *)
  p_results : list (nat * string * {g : Group F & Val F g})  (* of the calls that are done *)
}.

(** [t] has the call [c] for [key] in flight. *)
Definition leads (g : Group F) (key : string) (c : nat) (t : Thread) : Prop :=
  match t with
  | Leading g' key' c' _ _ | Leaving g' key' c' _ _ => g' = g /\ key' = key /\ c' = c
  | _ => False
  end.

Inductive poolStep : Pool -> Pool -> Prop :=
  | step_act i s ts n rs B (f : S -> Outcome (B * S)) k b s' :
      ts !! i = Some (Running (Act f k)) -> f s = Done (b, s') ->
      poolStep (mkPool s ts n rs) (mkPool s' (<[i := Running (k b)]> ts) n rs)
  | step_lead i s ts n rs g key body k :
      ts !! i = Some (Running (Flight g key body k)) -> (forall c t, t ∈ ts -> ~ leads g key c t) ->
      poolStep (mkPool s ts n rs) (mkPool s (<[i := Leading g key n body k]> ts) (Datatypes.S n) rs)
  | step_join i s ts n rs g key body k c t :
      ts !! i = Some (Running (Flight g key body k)) -> t ∈ ts -> leads g key c t ->
      poolStep (mkPool s ts n rs) (mkPool s (<[i := Waiting g key c k]> ts) n rs)
  | step_lead_act i s ts n rs g key c B (f : S -> Outcome (B * S)) k' k b s' :
      ts !! i = Some (Leading g key c (Act f k') k) -> f s = Done (b, s') ->
      poolStep (mkPool s ts n rs) (mkPool s' (<[i := Leading g key c (k' b) k]> ts) n rs)
  | step_publish i s ts n rs g key c v k :
      ts !! i = Some (Leading g key c (Ret v) k) ->
      poolStep (mkPool s ts n rs) (mkPool s (<[i := Leaving g key c v k]> ts) n (rs ++ [(c, key, existT g v)]))
  | step_leave i s ts n rs g key c v k :
      ts !! i = Some (Leaving g key c v k) ->
      poolStep (mkPool s ts n rs) (mkPool s (<[i := Running (k v)]> ts) n rs)
  | step_wake i s ts n rs g key c v k :
      ts !! i = Some (Waiting g key c k) -> (c, key, existT g v) ∈ rs ->
      poolStep (mkPool s ts n rs) (mkPool s (<[i := Running (k v)]> ts) n rs).

(** The next action of a thread panics, which ends the process. *)
Definition panics (t : Thread) (s : S) : Prop :=
  match t with
  | Running (Act f _) => f s = Panic
  | Leading _ _ _ (Act f _) _ => f s = Panic
  | _ => False
  end.
Definition crashes (p : Pool) : Prop := exists t, t ∈ p_threads p /\ panics t (p_state p).

Definition returned (t : Thread) : Prop := match t with Running (Ret _) => True | _ => False end.
Definition finished (p : Pool) : Prop := Forall returned (p_threads p).

#[global] Instance returned_dec t : Decision (returned t).
Proof. destruct t as [[]| | |]; simpl; apply _. Defined.

Definition start (s : S) (ms : list (ST F S A)) : Pool := mkPool s (Running <$> ms) 0 [].

(** ** Every schedule is finite *)

(** The thread [t] can become [t'], for all it knows of the others. *)
Definition tnext (t' t : Thread) : Prop :=
  match t with
  | Running (Ret _) => False
  | Running (Act f k) => exists b, t' = Running (k b)
  | Running (Flight g key body k) => exists c, t' = Leading g key c body k \/ t' = Waiting g key c k
  | Leading g key c (Ret v) k => t' = Leaving g key c v k
  | Leading g key c (Act f k') k => exists b, t' = Leading g key c (k' b) k
  | Leading g key c (Flight _ _ _ _) k => False
  | Leaving g key c v k => t' = Running (k v)
  | Waiting g key c k => exists v, t' = Running (k v)
  end.

Lemma tnext_leading g key c (k : Val F g -> ST F S A) :
  (forall v, Acc tnext (Running (k v))) -> forall body, Acc tnext (Leading g key c body k).
Proof.
  intros Hk. fix IH 1. intros body. constructor. intros t'. destruct body as [v|B f k'|g' key' body' k']; simpl.
  - intros ->. constructor. intros t'' ->. apply Hk.
  - intros [b ->]. apply IH.
  - done.
Qed.

Lemma tnext_running : forall m, Acc tnext (Running m).
Proof.
  fix IH 1. intros m. constructor. intros t'. destruct m as [a|B f k|g key body k]; simpl.
  - done.
  - intros [b ->]. apply IH.
  - intros [c [-> | ->]].
    + apply tnext_leading. intros v. apply IH.
    + constructor. intros t'' [v ->]. apply IH.
Qed.

Lemma tnext_acc t : Acc tnext t.
Proof.
  destruct t as [m|g key c body k|g key c v k|g key c k].
  - apply tnext_running.
  - apply tnext_leading. intros v. apply tnext_running.
  - constructor. intros t' ->. apply tnext_running.
  - constructor. intros t' [v ->]. apply tnext_running.
Qed.

(** One thread of the list moves. *)
Definition lnext (ts' ts : list Thread) : Prop :=
  exists i t t', ts !! i = Some t /\ tnext t' t /\ ts' = <[i := t']> ts.

Lemma lnext_acc ts : Acc lnext ts.
Proof.
  induction ts as [|t ts IH]; [constructor; by intros ts' (i & t & t' & ? & _)|].
  revert ts IH. induction (tnext_acc t) as [t _ IHt]. intros ts Hts. induction Hts as [ts Hts IHts].
  constructor. intros ts' (i & t0 & t' & Hi & Ht & ->). destruct i as [|i]; simpl in *.
  - injection Hi as ->. by apply IHt.
  - apply IHts. by exists i, t0, t'.
Qed.

Lemma poolStep_lnext p p' : poolStep p p' -> lnext (p_threads p') (p_threads p).
Proof. destruct 1; simpl; do 3 eexists; (split; [eassumption|]); (split; [|reflexivity]); simpl; eauto. Qed.

Lemma poolStep_acc p : Acc (flip poolStep) p.
Proof.
  remember (p_threads p) as ts eqn:Ets. revert p Ets. induction (lnext_acc ts) as [ts _ IH]. intros p ->.
  constructor. intros p' Hp. eapply IH; [by apply poolStep_lnext|done].
Qed.
End Threads.
#[global] Arguments Thread : clear implicits.
#[global] Arguments Pool : clear implicits.

Lemma concat_insert_app {E} (ls : list (list E)) i l es :
  ls !! i = Some l -> concat (<[i := l ++ es]> ls) ≡ₚ concat ls ++ es.
Proof.
  revert i. induction ls as [|l' ls IH]; intros [|i] Hi; simpl in *; try done.
  - injection Hi as ->. rewrite <- !app_assoc. f_equiv. apply Permutation_app_comm.
  - rewrite IH by done. by rewrite app_assoc.
Qed.

(** ** Soundness of the rely-guarantee judgement *)

Section Soundness.
Context {F : Flights} {S A E : Type} (evs : S -> list E) (d : Discipline F S) `{!Lawful d}.
Context (Hpanic : ~ d_panic d) (Happend : forall s s', d_guar d s s' -> exists es, evs s' = evs s ++ es).

Definition goes_on {g} (key : string) (k : Val F g -> ST F S A) (Q : A -> list E -> S -> Prop) (τ : list E) (s : S) : Prop :=
  forall v s', d_rely d s s' -> d_inv d s' -> d_flight d g key v s' -> rg evs d (k v) Q τ s'.

(** The thread, which has emitted [τ], will end in [Q]. *)
Definition good (Q : A -> list E -> S -> Prop) (t : Thread F S A) (τ : list E) (s : S) : Prop :=
  match t with
  | Running m => rg evs d m Q τ s
  | Leading g key _ body k =>
      flat body /\ exists τ0,
        rg evs d body (fun v τ' s' => τ' = τ0 /\ d_flight d g key v s') τ s /\ goes_on key k Q τ0 s
  | Leaving g key _ v k => d_flight d g key v s /\ goes_on key k Q τ s
  | Waiting g key _ k => goes_on key k Q τ s
  end.

Lemma goes_on_later {g} key (k : Val F g -> ST F S A) Q τ s s' :
  d_rely d s s' -> goes_on key k Q τ s -> goes_on key k Q τ s'.
Proof. intros Hs H v s2 Hs2. apply H. by trans s'. Qed.

Lemma good_later Q t τ s s' : d_rely d s s' -> good Q t τ s -> good Q t τ s'.
Proof.
  intros Hs. destruct t; simpl; [by apply rg_later| | |by apply goes_on_later].
  - intros (? & τ0 & ? & ?). split; [done|]. exists τ0. split; [by eapply rg_later|by eapply goes_on_later].
  - intros []. split; [by eapply flight_stable|by eapply goes_on_later].
Qed.

(** What holds of a pool whose threads have emitted [τs]. *)
Record pool_ok (Q : nat -> A -> list E -> S -> Prop) (e0 : list E) (p : Pool F S A) (τs : list (list E)) : Prop := mkPoolOk {
  ok_inv : d_inv d (p_state p);
  ok_length : length τs = length (p_threads p);
  ok_threads i t τ : p_threads p !! i = Some t -> τs !! i = Some τ -> good (Q i) t τ (p_state p);
  ok_results c key x : (c, key, x) ∈ p_results p -> d_flight d (projT1 x) key (projT2 x) (p_state p);
  ok_waiting i g key c k : p_threads p !! i = Some (Waiting g key c k) ->
    (exists v, (c, key, existT g v) ∈ p_results p) \/ exists j body k', p_threads p !! j = Some (Leading g key c body k');
  ok_leaving i g key c v k : p_threads p !! i = Some (Leaving g key c v k) -> (c, key, existT g v) ∈ p_results p;
  ok_events : evs (p_state p) ≡ₚ e0 ++ concat τs
}.

(** Thread [i] moves from [t] to [t'], having emitted [es]. *)
Lemma ok_update Q e0 s ts n rs τs i t τ t' s' n' rs' es :
  pool_ok Q e0 (mkPool s ts n rs) τs -> ts !! i = Some t -> τs !! i = Some τ ->
  d_inv d s' -> d_rely d s s' -> evs s' = evs s ++ es -> good (Q i) t' (τ ++ es) s' ->
  rs ⊆ rs' -> (forall c key x, (c, key, x) ∈ rs' -> (c, key, x) ∈ rs \/ d_flight d (projT1 x) key (projT2 x) s') ->
  (forall g key c body k, t = Leading g key c body k ->
     (exists v, (c, key, existT g v) ∈ rs') \/ exists body' k', t' = Leading g key c body' k') ->
  (forall g key c k, t' = Waiting g key c k ->
     (exists v, (c, key, existT g v) ∈ rs) \/ exists j body k', ts !! j = Some (Leading g key c body k')) ->
  (forall g key c v k, t' = Leaving g key c v k -> (c, key, existT g v) ∈ rs') ->
  pool_ok Q e0 (mkPool s' (<[i := t']> ts) n' rs') (<[i := τ ++ es]> τs).
Proof.
  intros [Oi Ol Ot Or Ow Ov Oe] Ht Hτ Hi Hs He Hg Hsub Hnew Hlead Hwait Hleave. simpl in *.
  assert (i < length ts)%nat as Hlt by (by eapply lookup_lt_Some).
  assert (forall g key c, (exists v, (c, key, existT g v) ∈ rs) \/ (exists j body k', ts !! j = Some (Leading g key c body k')) ->
    (exists v, (c, key, existT g v) ∈ rs') \/ exists j body k', <[i := t']> ts !! j = Some (Leading g key c body k')) as Hkeep.
  { intros g key c [[v Hv]|(j & body & k & Hj)]; [left; exists v; by apply Hsub|].
    destruct (decide (j = i)) as [->|Hne]; [|right; exists j, body, k; by rewrite list_lookup_insert_ne].
    rewrite Ht in Hj. injection Hj as ->. destruct (Hlead _ _ _ _ _ eq_refl) as [?|(body' & k' & ->)]; [by left|].
    right. exists i, body', k'. by apply list_lookup_insert_eq. }
  split; simpl.
  - done.
  - by rewrite !length_insert.
  - intros j t0 τ0. destruct (decide (j = i)) as [->|Hne].
    + rewrite !list_lookup_insert_eq by lia. by intros [= <-] [= <-].
    + rewrite !list_lookup_insert_ne by done. intros H1 H2. eapply good_later; [done|by apply Ot].
  - intros c key x [Hin|?]%Hnew; [|done]. eapply flight_stable; [done|by apply (Or c)].
  - intros j g key c k. destruct (decide (j = i)) as [->|Hne].
    + rewrite list_lookup_insert_eq by done. intros [= ->]. by apply Hkeep, Hwait with k.
    + rewrite list_lookup_insert_ne by done. intros Hj. by eapply Hkeep, Ow.
  - intros j g key c v k. destruct (decide (j = i)) as [->|Hne].
    + rewrite list_lookup_insert_eq by done. intros [= ->]. by eapply Hleave.
    + rewrite list_lookup_insert_ne by done. intros Hj. by eapply Hsub, Ov.
  - rewrite (concat_insert_app _ _ _ _ Hτ), He, Oe. by rewrite app_assoc.
Qed.

Lemma ok_trace Q e0 p τs i t : pool_ok Q e0 p τs -> p_threads p !! i = Some t ->
  exists τ, τs !! i = Some τ /\ good (Q i) t τ (p_state p).
Proof.
  intros Hp Hi. destruct (lookup_lt_is_Some_2 τs i) as [τ Hτ].
  - rewrite (ok_length _ _ _ _ Hp). by eapply lookup_lt_Some.
  - exists τ. split; [done|]. by eapply ok_threads.
Qed.

(** A step that changes only the thread. *)
Lemma ok_move Q e0 s ts n rs τs i t τ t' n' :
  pool_ok Q e0 (mkPool s ts n rs) τs -> ts !! i = Some t -> τs !! i = Some τ -> good (Q i) t' τ s ->
  (forall g key c body k, t <> Leading g key c body k) ->
  (forall g key c k, t' = Waiting g key c k ->
     (exists v, (c, key, existT g v) ∈ rs) \/ exists j body k', ts !! j = Some (Leading g key c body k')) ->
  (forall g key c v k, t' <> Leaving g key c v k) ->
  exists τs', pool_ok Q e0 (mkPool s (<[i := t']> ts) n' rs) τs'.
Proof.
  intros Hp Ht Hτ Hg Hl Hw Hv. exists (<[i := τ ++ []]> τs).
  apply (ok_update Q e0 s ts n rs τs i t τ t' s n' rs []); try done.
  - apply (ok_inv _ _ _ _ Hp).
  - by rewrite app_nil_r.
  - by rewrite app_nil_r.
  - auto.
  - intros g key c body k ->. by destruct (Hl g key c body k).
  - intros g key c v k ->. by destruct (Hv g key c v k).
Qed.

(** An action of a thread. *)
Lemma rg_act {B C} (f : S -> Outcome (B * S)) (k : B -> ST F S C) Q τ s :
  rg evs d (Act f k) Q τ s -> d_inv d s ->
  exists b s' es, f s = Done (b, s') /\ d_inv d s' /\ d_rely d s s' /\ evs s' = evs s ++ es /\ rg evs d (k b) Q (τ ++ es) s'.
Proof.
  intros H Hi. specialize (H s (reflexivity s) Hi). destruct (f s) as [[b s']| |]; [|done|done].
  destruct H as (Hi' & Hg & Hk). destruct (Happend s s' Hg) as [es He]. exists b, s', es.
  split_and!; [done..|by apply guar_rely|done|]. unfold emitted in Hk. by rewrite He, drop_app_length in Hk.
Qed.

Lemma pool_step Q e0 p p' τs : pool_ok Q e0 p τs -> poolStep p p' -> exists τs', pool_ok Q e0 p' τs'.
Proof.
  intros Hp Hs. pose proof (ok_inv _ _ _ _ Hp) as Hi.
  destruct Hs as [i s ts n rs B f k b s' Ht Ef|i s ts n rs g key body k Ht Hno|i s ts n rs g key body k c t Ht Hin Hl
    |i s ts n rs g key c B f k' k b s' Ht Ef|i s ts n rs g key c v k Ht|i s ts n rs g key c v k Ht|i s ts n rs g key c v k Ht Hin];
    destruct (ok_trace _ _ _ _ i _ Hp Ht) as (τ & Hτ & Hg); simpl in *.
  - destruct (rg_act _ _ _ _ _ Hg Hi) as (b' & s'' & es & Ef' & Hi' & Hr & He & Hk). rewrite Ef in Ef'. injection Ef' as <- <-.
    eexists. by eapply (ok_update _ _ s ts n rs); eauto.
  - destruct Hg as (Hf & Hb & Hk). eapply ok_move; try done. simpl. split; [by eapply Hf|]. by exists τ.
  - destruct Hg as (_ & _ & Hk). eapply ok_move; try done. intros g' key' c' k' [= <- <- <-].
    apply list_elem_of_lookup in Hin as [j Hj]. destruct t; simpl in Hl; try done; destruct Hl as (-> & -> & ->).
    + right. eauto.
    + left. eexists. by eapply (ok_leaving _ _ _ _ Hp).
  - destruct Hg as (Hf & τ0 & Hb & Hk). destruct (rg_act _ _ _ _ _ Hb Hi) as (b' & s'' & es & Ef' & Hi' & Hr & He & Hk'').
    rewrite Ef in Ef'. injection Ef' as <- <-. eexists.
    eapply (ok_update _ _ s ts n rs _ i _ τ _ s' n rs es); try done; [|by auto|].
    + simpl. split; [apply Hf|]. exists τ0. split; [done|by eapply goes_on_later].
    + intros g' key' c' body' k'' [= <- <- <-]. right. eauto.
  - destruct Hg as (_ & τ0 & Hb & Hk). destruct (Hb s (reflexivity s) Hi) as [<- Hv].
    eexists. eapply (ok_update _ _ s ts n rs _ i _ τ _ s n _ []); rewrite ?app_nil_r; try done.
    + intros x Hx. apply elem_of_app. by left.
    + intros c' key' x [?|Hx%list_elem_of_singleton]%elem_of_app; [by left|]. injection Hx as -> -> ->. by right.
    + intros g' key' c' body' k' [= <- <- <-]. left. exists v. apply elem_of_app. right. by apply list_elem_of_singleton.
    + intros g' key' c' v' k' H. injection H as <- <- <- H1 H2. apply elem_of_app. right.
      apply list_elem_of_singleton. f_equal. symmetry. exact H1.
  - destruct Hg as [Hv Hk]. eapply ok_move; try done. simpl. by apply Hk.
  - eapply ok_move; try done. simpl. apply Hg; [done..|]. by apply (ok_results _ _ _ _ Hp) in Hin.
Qed.

Lemma pool_steps Q e0 p p' τs : pool_ok Q e0 p τs -> rtc poolStep p p' -> exists τs', pool_ok Q e0 p' τs'.
Proof.
  intros Hp Hs. revert τs Hp. induction Hs as [p|p1 p2 p3 Hs _ IH]; intros τs Hp; [eauto|].
  destruct (pool_step _ _ _ _ _ Hp Hs) as [τs' Hp']. eauto.
Qed.

Lemma pool_no_crash Q e0 p τs : pool_ok Q e0 p τs -> ~ crashes p.
Proof.
  intros Hp (t & [i Hi]%list_elem_of_lookup & Hpan). destruct (ok_trace _ _ _ _ _ _ Hp Hi) as (τ & _ & Hg).
  pose proof (ok_inv _ _ _ _ Hp) as Hinv.
  destruct t as [[]|g key c [] k| |]; simpl in *; try done.
  - destruct (rg_act _ _ _ _ _ Hg Hinv) as (? & ? & ? & ? & _). congruence.
  - destruct Hg as (_ & τ0 & Hb & _). destruct (rg_act _ _ _ _ _ Hb Hinv) as (? & ? & ? & ? & _). congruence.
Qed.

(** The thread that executes a call can go on. *)
Lemma leader_steps Q e0 p τs i g key c body k :
  pool_ok Q e0 p τs -> p_threads p !! i = Some (Leading g key c body k) -> exists p', poolStep p p'.
Proof.
  intros Hp Hi. destruct (ok_trace _ _ _ _ _ _ Hp Hi) as (τ & _ & Hf & τ0 & Hb & _).
  pose proof (ok_inv _ _ _ _ Hp) as Hinv. destruct p as [s ts n rs]. simpl in *.
  destruct body as [v|B f k'|g' key' body' k']; [|destruct (rg_act _ _ _ _ _ Hb Hinv) as (b & s' & es & Ef & _)|done].
  - eexists. by eapply step_publish.
  - eexists. by eapply step_lead_act.
Qed.

Context `{!EqDecision (Group F)}.

#[local] Instance leads_dec g key (t : Thread F S A) : Decision (exists c, leads g key c t).
Proof.
  refine (match t with
          | Leading g' key' c _ _ | Leaving g' key' c _ _ => cast_if_and (decide (g' = g)) (decide (key' = key))
          | _ => right _
          end); simpl; naive_solver.
Defined.

(** Some thread can always go on, until all have finished. *)
Lemma pool_progress Q e0 p τs : pool_ok Q e0 p τs -> finished p \/ exists p', poolStep p p'.
Proof.
  intros Hp. destruct (decide (Forall returned (p_threads p))) as [?|Hn]; [by left|right].
  apply not_Forall_Exists, Exists_exists in Hn as (t & [i Hi]%list_elem_of_lookup & Ht); [|apply _].
  destruct (ok_trace _ _ _ _ _ _ Hp Hi) as (τ & _ & Hg). pose proof (ok_inv _ _ _ _ Hp) as Hinv.
  destruct t as [[a|B f k|g key body k]|g key c body k|g key c v k|g key c k].
  - by destruct Ht.
  - destruct (rg_act _ _ _ _ _ Hg Hinv) as (b & s' & es & Ef & _). destruct p as [s ts n rs]. eexists. by eapply step_act.
  - destruct p as [s ts n rs]. simpl in *. destruct (decide (Exists (fun t => exists c, leads g key c t) ts)) as [Hl|Hl].
    + apply Exists_exists in Hl as (t & Hin & c & Hc). eexists. by eapply step_join.
    + eexists. eapply step_lead; [done|]. intros c t Hin Hc. apply Hl, Exists_exists. eauto.
  - by eapply leader_steps.
  - destruct p as [s ts n rs]. eexists. by eapply step_leave.
  - destruct (ok_waiting _ _ _ _ Hp _ _ _ _ _ Hi) as [[v Hv]|(j & body & k' & Hj)]; [|by eapply leader_steps].
    destruct p as [s ts n rs]. eexists. by eapply step_wake.
Qed.

Lemma start_ok Q s (ms : list (ST F S A)) :
  d_inv d s -> (forall i m, ms !! i = Some m -> rg evs d m (Q i) [] s) ->
  pool_ok Q (evs s) (start s ms) (replicate (length ms) []).
Proof.
  intros Hi Hm. split; simpl; try done.
  - by rewrite length_replicate, length_fmap.
  - intros i t τ Ht [-> _]%lookup_replicate. apply list_lookup_fmap_Some in Ht as (m & -> & Hi'). by apply Hm.
  - by intros c key x ?%elem_of_nil.
  - intros i g key c k Ht. apply list_lookup_fmap_Some in Ht as (m & Heq & _). done.
  - intros i g key c v k Ht. apply list_lookup_fmap_Some in Ht as (m & Heq & _). done.
  - assert (forall n, concat (replicate n ([] : list E)) = []) as H by (intros n; induction n; done).
    by rewrite H, app_nil_r.
Qed.

(** Threads that satisfy the judgement run under every schedule without a panic
    and without getting stuck, and end as they promise. *)
Lemma pool_sound Q s (ms : list (ST F S A)) p :
  d_inv d s -> (forall i m, ms !! i = Some m -> rg evs d m (Q i) [] s) -> rtc poolStep (start s ms) p ->
  ~ crashes p /\ d_inv d (p_state p) /\ (finished p \/ exists p', poolStep p p') /\
  (finished p -> exists τs, length τs = length (p_threads p) /\ evs (p_state p) ≡ₚ evs s ++ concat τs /\
     forall i τ, τs !! i = Some τ -> exists a, p_threads p !! i = Some (Running (Ret a)) /\ Q i a τ (p_state p)).
Proof.
  intros Hi Hm Hs. destruct (pool_steps _ _ _ _ _ (start_ok Q s ms Hi Hm) Hs) as [τs Hp].
  split_and!; [by eapply pool_no_crash|by eapply ok_inv|by eapply pool_progress|]. intros Hf.
  exists τs. split_and!; [by eapply ok_length|by eapply ok_events|]. intros i τ Hτ.
  destruct (lookup_lt_is_Some_2 (p_threads p) i) as [t Ht].
  { rewrite <- (ok_length _ _ _ _ Hp). by eapply lookup_lt_Some. }
  pose proof (ok_threads _ _ _ _ Hp _ _ _ Ht Hτ) as Hg. unfold finished in Hf. rewrite Forall_lookup in Hf.
  specialize (Hf i t Ht). destruct t as [[a| |]| | |]; try done. exists a. split; [done|].
  apply Hg; [done|]. by eapply ok_inv.
Qed.
End Soundness.

Lemma poolStep_length {F S A} (p p' : Pool F S A) : poolStep p p' -> length (p_threads p') = length (p_threads p).
Proof. destruct 1; simpl; apply length_insert. Qed.
Lemma rtc_threads {F S A} (p p' : Pool F S A) : rtc poolStep p p' -> length (p_threads p') = length (p_threads p).
Proof. induction 1 as [|p1 p2 p3 Hs _ IH]; [done|]. by rewrite IH, (poolStep_length _ _ Hs). Qed.

(** ** Running a schedule *)

Section Exec.
Context {F : Flights} {S A : Type} `{!EqDecision (Group F)}.

(** The call that is in flight for [key]. *)
Definition leader (g : Group F) (key : string) (t : Thread F S A) : option nat :=
  match t with
  | Leading g' key' c _ _ | Leaving g' key' c _ _ =>
      if bool_decide (g' = g) && bool_decide (key' = key) then Some c else None
  | _ => None
  end.
Definition inFlight (g : Group F) (key : string) (ts : list (Thread F S A)) : option nat := head (omap (leader g key) ts).

Fixpoint find_result (g : Group F) (key : string) (c : nat) (rs : list (nat * string * {g : Group F & Val F g}))
  : option (Val F g) :=
  match rs with
  | [] => None
  | (c', key', existT g' v) :: rs' =>
      match decide (g' = g) with
      | left Eg => if bool_decide (c' = c /\ key' = key) then Some (eq_rect g' (Val F) v g Eg) else find_result g key c rs'
      | right _ => find_result g key c rs'
      end
  end.

(** The next step of thread [i], unless it has returned, waits or panics. *)
Definition advance (i : nat) (p : Pool F S A) : option (Pool F S A) :=
  let '(mkPool s ts n rs) := p in
  t ← ts !! i;
  match t with
  | Running (Ret _) => None
  | Running (Act f k) =>
      match f s with Done (b, s') => Some (mkPool s' (<[i := Running (k b)]> ts) n rs) | _ => None end
  | Running (Flight g key body k) =>
      match inFlight g key ts with
      | Some c => Some (mkPool s (<[i := Waiting g key c k]> ts) n rs)
      | None => Some (mkPool s (<[i := Leading g key n body k]> ts) (Datatypes.S n) rs)
      end
  | Leading g key c body k =>
      match body with
      | Ret v => Some (mkPool s (<[i := Leaving g key c v k]> ts) n (rs ++ [(c, key, existT g v)]))
      | Act f k' =>
          match f s with Done (b, s') => Some (mkPool s' (<[i := Leading g key c (k' b) k]> ts) n rs) | _ => None end
      | Flight _ _ _ _ => None
      end
  | Leaving g key c v k => Some (mkPool s (<[i := Running (k v)]> ts) n rs)
  | Waiting g key c k =>
      v ← find_result g key c rs; Some (mkPool s (<[i := Running (k v)]> ts) n rs)
  end.

Definition runSchedule (is_ : list nat) (p : Pool F S A) : Pool F S A :=
  foldl (fun p i => default p (advance i p)) p is_.

Lemma leader_leads g key (t : Thread F S A) c : leader g key t = Some c <-> leads g key c t.
Proof.
  destruct t; simpl; [done| | |done]; (case_bool_decide; [case_bool_decide|]); simpl; naive_solver.
Qed.

Lemma find_result_elem g key c rs v : find_result g key c rs = Some v -> (c, key, existT g v) ∈ rs.
Proof.
  induction rs as [|[[c' key'] [g' v']] rs IH]; simpl; [done|].
  destruct (decide (g' = g)) as [<-|]; [|intros H; right; auto].
  case_bool_decide as Hc; [|intros H; right; auto]. destruct Hc as [-> ->]. intros [= <-]. left.
Qed.

Lemma advance_step i p p' : advance i p = Some p' -> poolStep p p'.
Proof.
  destruct p as [s ts n rs]. simpl. destruct (ts !! i) as [t|] eqn:Ht; [|done]. simpl.
  destruct t as [[a|B f k|g key body k]|g key c [v|B f k'|] k|g key c v k|g key c k]; try done.
  - destruct (f s) as [[b s']| |] eqn:Ef; try done. intros [= <-]. by eapply step_act.
  - unfold inFlight. destruct (omap (leader g key) ts) as [|c cs] eqn:Eo; simpl; intros [= <-].
    + eapply step_lead; [done|]. intros c t Hin Hl%leader_leads.
      assert (c ∈ omap (leader g key) ts) as Hc by (apply list_elem_of_omap; eauto). rewrite Eo in Hc. by apply elem_of_nil in Hc.
    + assert (c ∈ omap (leader g key) ts) as (t & Hin & Hl)%list_elem_of_omap by (rewrite Eo; left).
      eapply step_join; [done|done|]. by apply leader_leads.
  - intros [= <-]. by eapply step_publish.
  - destruct (f s) as [[b s']| |] eqn:Ef; try done. intros [= <-]. by eapply step_lead_act.
  - intros [= <-]. by eapply step_leave.
  - destruct (find_result g key c rs) as [v|] eqn:Ev; [|done]. intros [= <-]. eapply step_wake; [done|]. by apply find_result_elem.
Qed.

Lemma runSchedule_steps is_ p : rtc poolStep p (runSchedule is_ p).
Proof.
  unfold runSchedule. revert p. induction is_ as [|i is_ IH]; intros p; simpl; [done|].
  destruct (advance i p) as [p'|] eqn:Ea; simpl; [|apply IH]. eapply rtc_l; [by eapply advance_step|apply IH].
Qed.
End Exec.
