(* ===== verification/DnsTypes.v ===== *)
(** The data model: handler/dns_types.go, the [Zone] and [ZoneConfig] structs
    of handler/zone.go, and the resource records of github.com/miekg/dns in
    the fields redins sets or reads.  Also [IP_RR.UnmarshalJSON], the one
    decoder redins writes itself. *)
From S2P Require Import Prelude GoStrings.
From Stdlib Require Import SpecFloat.

(** [net.IP]: [None] is the nil slice. *)
Abbreviation IP := (option (list Z)).

(** ** Protocol numbers (IANA registries, package dns constants) *)

Definition TypeA : Z := 1.
Definition TypeNS : Z := 2.
Definition TypeCNAME : Z := 5.
Definition TypeSOA : Z := 6.
Definition TypePTR : Z := 12.
Definition TypeHINFO : Z := 13.
Definition TypeMX : Z := 15.
Definition TypeTXT : Z := 16.
Definition TypeAAAA : Z := 28.
Definition TypeSRV : Z := 33.
Definition TypeDNAME : Z := 39.
Definition TypeOPT : Z := 41.
Definition TypeDS : Z := 43.
Definition TypeRRSIG : Z := 46.
Definition TypeNSEC : Z := 47.
Definition TypeDNSKEY : Z := 48.
Definition TypeTLSA : Z := 52.
Definition TypeCAA : Z := 257.

Definition ClassINET : Z := 1.
Definition ClassNONE : Z := 254.

Definition RcodeSuccess : Z := 0.
Definition RcodeServerFailure : Z := 2.
Definition RcodeNameError : Z := 3.
Definition RcodeNotImplemented : Z := 4.
Definition RcodeRefused : Z := 5.
Definition RcodeNotAuth : Z := 9.

(** ** Resource records *)

Record RR_Header := mkHdr {
  hName : string;
  hRrtype : Z;
  hClass : Z;
  hTtl : Z
}.

Record SOAData := mkSOA {
  soa_Ns : string; soa_Mbox : string; soa_Serial : Z; soa_Refresh : Z;
  soa_Retry : Z; soa_Expire : Z; soa_Minttl : Z
}.

Record DNSKEYData := mkDNSKEY {
  dk_Flags : Z; dk_Protocol : Z; dk_Algorithm : Z; dk_PublicKey : string
}.

Record RRSIGData := mkRRSIG {
  sig_TypeCovered : Z; sig_Algorithm : Z; sig_Labels : Z; sig_OrigTtl : Z;
  sig_Expiration : Z; sig_Inception : Z; sig_KeyTag : Z; sig_SignerName : string;
  sig_Signature : string
}.

(** [dns.EDNS0]: an option of an OPT record; [text] is what String() returns. *)
Inductive EDNS0 :=
  | EDNS0_SUBNET (address : IP) (text : string)
  | EDNS0_Other.

(** The record data of each type; [DOther] is a record of a type redins neither
    builds nor inspects (it can come back from an upstream).  The size and the DO
    bit of an OPT record are in its header. *)
Inductive RRData :=
  | DA (ip : IP)
  | DAAAA (ip : IP)
  | DCNAME (target : string)
  | DTXT (txt : list string)
  | DNS (ns : string)
  | DMX (preference : Z) (mx : string)
  | DSRV (priority weight port : Z) (target : string)
  | DCAA (flag : Z) (tag value : string)
  | DPTR (ptr : string)
  | DTLSA (usage selector matchingType : Z) (certificate : string)
  | DSOA (soa : SOAData)
  | DDNSKEY (key : DNSKEYData)
  | DNSEC (nextDomain : string) (typeBitMap : list Z)
  | DRRSIG (sig : RRSIGData)
  | DDNAME (target : string)
  | DHINFO (cpu os : string)
  | DDS (keyTag algorithm digestType : Z) (digest : string)
  | DOPT (options : list EDNS0)
  | DOther (rdata : string).

Record RR := mkRR { rrHdr : RR_Header; rrData : RRData }.

(** [rr.Header().Ttl = ttl] on the record a pointer refers to. *)
Definition set_rr_ttl (ttl : Z) (r : RR) : RR :=
  mkRR (mkHdr (hName (rrHdr r)) (hRrtype (rrHdr r)) (hClass (rrHdr r)) ttl) (rrData r).

#[global] Instance RR_Header_eq_dec : EqDecision RR_Header.
Proof. solve_decision. Defined.
#[global] Instance SOAData_eq_dec : EqDecision SOAData.
Proof. solve_decision. Defined.
#[global] Instance DNSKEYData_eq_dec : EqDecision DNSKEYData.
Proof. solve_decision. Defined.
#[global] Instance RRSIGData_eq_dec : EqDecision RRSIGData.
Proof. solve_decision. Defined.
#[global] Instance EDNS0_eq_dec : EqDecision EDNS0.
Proof. solve_decision. Defined.
#[global] Instance RRData_eq_dec : EqDecision RRData.
Proof. solve_decision. Defined.
#[global] Instance RR_eq_dec : EqDecision RR.
Proof. solve_decision. Defined.

(** ** Record sets as stored in Redis *)

Record IpHealthCheckConfig := mkIpHealthCheckConfig {
  hc_Protocol : string; hc_Uri : string; hc_Port : Z; hc_Timeout : Z;
  hc_UpCount : Z; hc_DownCount : Z; hc_Enable : bool
}.

Record IpFilterConfig := mkIpFilterConfig {
  fc_Count : string;      (* "multi", "single" *)
  fc_Order : string;      (* "weighted", "rr", "none" *)
  fc_GeoFilter : string   (* "country", "location", "asn", "asn+country", "none" *)
}.

Record IP_RR := mkIP_RR {
  ip_Weight : Z;
  ip_Ip : IP;
  ip_Country : list string;
  ip_ASN : list Z
}.

Record IP_RRSet := mkIP_RRSet {
  FilterConfig : IpFilterConfig;
  HealthCheckConfig : IpHealthCheckConfig;
  ip_Ttl : Z;
  ip_Data : list IP_RR
}.

Record CNAME_RRSet := mkCNAME_RRSet { cname_Host : string; cname_Ttl : Z }.
Record TXT_RRSet := mkTXT_RRSet { txt_Ttl : Z; txt_Data : list string }.
Record NS_RRSet := mkNS_RRSet { ns_Ttl : Z; ns_Data : list string }.
Record MX_RR := mkMX_RR { mx_Host : string; mx_Preference : Z }.
Record MX_RRSet := mkMX_RRSet { mx_Ttl : Z; mx_Data : list MX_RR }.
Record SRV_RR := mkSRV_RR {
  srv_Target : string; srv_Priority : Z; srv_Weight : Z; srv_Port : Z }.
Record SRV_RRSet := mkSRV_RRSet { srv_Ttl : Z; srv_Data : list SRV_RR }.
Record CAA_RR := mkCAA_RR { caa_Tag : string; caa_Value : string; caa_Flag : Z }.
Record CAA_RRSet := mkCAA_RRSet { caa_Ttl : Z; caa_Data : list CAA_RR }.
Record PTR_RRSet := mkPTR_RRSet { ptr_Domain : string; ptr_Ttl : Z }.
Record TLSA_RR := mkTLSA_RR {
  tlsa_Usage : Z; tlsa_Selector : Z; tlsa_MatchingType : Z; tlsa_Certificate : string }.
Record TLSA_RRSet := mkTLSA_RRSet { tlsa_Ttl : Z; tlsa_Data : list TLSA_RR }.
Record ANAME_Record := mkANAME { aname_Location : string }.

(** [Data *dns.SOA] is nil until NewZone fills it in. *)
Record SOA_RRSet := mkSOA_RRSet {
  ss_Ns : string; ss_MBox : string; ss_Data : option RR; ss_Ttl : Z;
  ss_Refresh : Z; ss_Retry : Z; ss_Expire : Z; ss_MinTtl : Z; ss_Serial : Z
}.

Record RRSets := mkRRSets {
  rs_A : IP_RRSet;
  rs_AAAA : IP_RRSet;
  rs_TXT : TXT_RRSet;
  rs_CNAME : option CNAME_RRSet;
  rs_NS : NS_RRSet;
  rs_MX : MX_RRSet;
  rs_SRV : SRV_RRSet;
  rs_CAA : CAA_RRSet;
  rs_PTR : option PTR_RRSet;
  rs_TLSA : TLSA_RRSet;
  rs_ANAME : option ANAME_Record
}.

(** [crypto.PrivateKey] is an interface: the dynamic type is what the type
    assertions of [sign] look at; the payload is opaque. *)
Inductive PrivateKey :=
  | RsaPrivateKey (k : string)
  | EcdsaPrivateKey (k : string)
  | OtherPrivateKey (k : string).

Record ZoneKey := mkZoneKey {
  zk_Hdr : RR_Header;
  zk_DnsKey : DNSKEYData;
  zk_PrivateKey : PrivateKey;
  zk_KeyInception : Z;
  zk_KeyExpiration : Z
}.

(** [key.DnsKey] as a resource record. *)
Definition dnskey_rr (k : ZoneKey) : RR := mkRR (zk_Hdr k) (DDNSKEY (zk_DnsKey k)).

Record ZoneConfig := mkZoneConfig {
  DomainId : string;
  cfg_SOA : option SOA_RRSet;
  DnsSec : bool;
  CnameFlattening : bool
}.

Record Zone := mkZone {
  z_Name : string;
  z_Config : ZoneConfig;
  z_Locations : gset string;
  z_ZSK : option ZoneKey;
  z_KSK : option ZoneKey;
  z_DnsKeySig : option RR;
  z_CacheTimeout : Z
}.

Record Record_ := mkRecord {
  r_RRSets : RRSets;
  r_Zone : option Zone;
  r_Name : string;
  r_CacheTimeout : Z
}.

(** ** [IP_RR.UnmarshalJSON] *)

(** What [encoding/json] style decoders store in an [interface{}]. *)
Inductive JsonVal :=
  | JNull
  | JBool (b : bool)
  | JNumber (f : spec_float)
  | JString (s : string)
  | JArray (l : list JsonVal)
  | JObject (m : list (string * JsonVal)).

Record _IP_RR := mk_IP_RR {
  _Country : JsonVal; _ASN : JsonVal; _Weight : Z; _Ip : IP }.

Inductive UnmarshalError :=
  | ErrDecode
  | ErrStringExpected (x : JsonVal)
  | ErrCountryValue (v : JsonVal)
  | ErrInvalidType (x : JsonVal)
  | ErrAsnValue (v : JsonVal).

(** Go truncates a float64 towards zero when it converts it to an integer. *)
Definition SF_trunc (f : spec_float) : option Z :=
  match f with
  | S754_zero _ => Some 0
  | S754_finite s m e =>
      let a := if 0 <=? e then Zpos m * 2 ^ e else Zpos m / 2 ^ (- e) in
      Some (if s then - a else a)
  | _ => None
  end.

Section Unmarshal.
(** jsoniter.Unmarshal into an [_IP_RR]; [None] is a decoding error. *)
Variable decode_ip_rr : string -> option _IP_RR.
(** The conversion uint(f) is implementation-specific out of range. *)
Variable uint_out_of_range : spec_float -> Z.

Definition uint_of_float64 (f : spec_float) : Z :=
  match SF_trunc f with
  | Some z => if (0 <=? z) && (z <? 2 ^ 64) then z else uint_out_of_range f
  | None => uint_out_of_range f
  end.

(** The [for _, x := range v] loops append until an element has another type;
    what was appended so far stays in the receiver. *)
Fixpoint append_countries (acc : list string) (v : list JsonVal)
  : list string * option UnmarshalError :=
  match v with
  | [] => (acc, None)
  | JString s :: v' => append_countries (acc ++ [s]) v'
  | x :: _ => (acc, Some (ErrStringExpected x))
  end.

Fixpoint append_asns (acc : list Z) (v : list JsonVal)
  : list Z * option UnmarshalError :=
  match v with
  | [] => (acc, None)
  | JNumber f :: v' => append_asns (acc ++ [uint_of_float64 f]) v'
  | x :: _ => (acc, Some (ErrInvalidType x))
  end.

Definition unmarshal_country (iprr : IP_RR) (v : JsonVal) : IP_RR * option UnmarshalError :=
  let set c := mkIP_RR (ip_Weight iprr) (ip_Ip iprr) c (ip_ASN iprr) in
  match v with
  | JNull => (iprr, None)
  | JString s => (set [s], None)
  | JArray l => let '(c, e) := append_countries (ip_Country iprr) l in (set c, e)
  | _ => (iprr, Some (ErrCountryValue v))
  end.

Definition unmarshal_asn (iprr : IP_RR) (v : JsonVal) : IP_RR * option UnmarshalError :=
  let set a := mkIP_RR (ip_Weight iprr) (ip_Ip iprr) (ip_Country iprr) a in
  match v with
  | JNull => (iprr, None)
  | JNumber f => (set [uint_of_float64 f], None)
  | JArray l => let '(a, e) := append_asns (ip_ASN iprr) l in (set a, e)
  | _ => (iprr, Some (ErrAsnValue v))
  end.

Definition UnmarshalJSON (iprr : IP_RR) (data : string) : IP_RR * option UnmarshalError :=
  match decode_ip_rr data with
  | None => (iprr, Some ErrDecode)
  | Some ip =>
      let iprr1 := mkIP_RR (_Weight ip) (_Ip ip) (ip_Country iprr) (ip_ASN iprr) in
      match unmarshal_country iprr1 (_Country ip) with
      | (iprr2, Some e) => (iprr2, Some e)
      | (iprr2, None) => unmarshal_asn iprr2 (_ASN ip)
      end
  end.
End Unmarshal.

(** ** Properties of the decoder *)

(** The values a JSON value denotes as a country list (resp. an ASN list), the
    abstract reading of the [country] and [asn] keys. *)
Definition json_strings (v : JsonVal) : option (list string) :=
  match v with
  | JNull => Some []
  | JString s => Some [s]
  | JArray l => mapM (fun x => match x with JString s => Some s | _ => None end) l
  | _ => None
  end.

Definition json_numbers (conv : spec_float -> Z) (v : JsonVal) : option (list Z) :=
  match v with
  | JNull => Some []
  | JNumber f => Some [conv f]
  | JArray l => mapM (fun x => match x with JNumber f => Some (conv f) | _ => None end) l
  | _ => None
  end.

Lemma append_countries_spec acc l :
  match mapM (fun x => match x with JString s => Some s | _ => None end) l with
  | Some ss => append_countries acc l = (acc ++ ss, None)
  | None => exists acc' e, append_countries acc l = (acc', Some e)
  end.
Proof.
  revert acc. induction l as [|x l IH]; intros acc; simpl.
  - by rewrite app_nil_r.
  - destruct x; simpl; eauto. specialize (IH (acc ++ [s])).
    destruct (mapM _ l); simpl; [|done]. by rewrite IH, <- app_assoc.
Qed.

Lemma append_asns_spec oob acc l :
  match mapM (fun x => match x with JNumber f => Some (uint_of_float64 oob f) | _ => None end) l with
  | Some ss => append_asns oob acc l = (acc ++ ss, None)
  | None => exists acc' e, append_asns oob acc l = (acc', Some e)
  end.
Proof.
  revert acc. induction l as [|x l IH]; intros acc; simpl.
  - by rewrite app_nil_r.
  - destruct x; simpl; eauto. specialize (IH (acc ++ [uint_of_float64 oob f])).
    destruct (mapM _ l); simpl; [|done]. by rewrite IH, <- app_assoc.
Qed.

Lemma unmarshal_country_spec iprr v :
  ip_Country iprr = [] ->
  match json_strings v with
  | Some c => unmarshal_country iprr v = (mkIP_RR (ip_Weight iprr) (ip_Ip iprr) c (ip_ASN iprr), None)
  | None => exists iprr' e, unmarshal_country iprr v = (iprr', Some e)
  end.
Proof.
  destruct iprr as [w i c a]; simpl; intros ->. destruct v as [| | | |l|]; simpl; eauto.
  pose proof (append_countries_spec [] l) as H. destruct (mapM _ l).
  - by rewrite H.
  - destruct H as (? & ? & ->). eauto.
Qed.

Lemma unmarshal_asn_spec oob iprr v :
  ip_ASN iprr = [] ->
  match json_numbers (uint_of_float64 oob) v with
  | Some a => unmarshal_asn oob iprr v = (mkIP_RR (ip_Weight iprr) (ip_Ip iprr) (ip_Country iprr) a, None)
  | None => exists iprr' e, unmarshal_asn oob iprr v = (iprr', Some e)
  end.
Proof.
  destruct iprr as [w i c a]; simpl; intros ->. destruct v as [| | | |l|]; simpl; eauto.
  pose proof (append_asns_spec oob [] l) as H. destruct (mapM _ l).
  - by rewrite H.
  - destruct H as (? & ? & ->). eauto.
Qed.

(** C31: decoding an A/AAAA entry into a zero [IP_RR] accepts exactly the
    documents whose [country] is absent, a string or a list of strings and
    whose [asn] is absent, a number or a list of numbers; an accepted entry has
    the decoded weight and address and the listed countries and AS numbers in
    order, and every other document is reported as an error. *)
Theorem UnmarshalJSON_spec decode oob data ip :
  decode data = Some ip ->
  match json_strings (_Country ip), json_numbers (uint_of_float64 oob) (_ASN ip) with
  | Some c, Some a =>
      UnmarshalJSON decode oob (mkIP_RR 0 None [] []) data
      = (mkIP_RR (_Weight ip) (_Ip ip) c a, None)
  | _, _ => exists e, snd (UnmarshalJSON decode oob (mkIP_RR 0 None [] []) data) = Some e
  end.
Proof.
  intros Hd. unfold UnmarshalJSON. rewrite Hd.
  pose proof (unmarshal_country_spec (mkIP_RR (_Weight ip) (_Ip ip) [] []) (_Country ip) eq_refl) as Hc.
  simpl in *. destruct (json_strings (_Country ip)) as [c|].
  - rewrite Hc.
    pose proof (unmarshal_asn_spec oob (mkIP_RR (_Weight ip) (_Ip ip) c []) (_ASN ip) eq_refl) as Ha.
    simpl in *. destruct (json_numbers _ _); [done|]. destruct Ha as (? & e & ->). by exists e.
  - destruct Hc as (i & e & ->). by exists e.
Qed.

Lemma UnmarshalJSON_spec_witness :
  let decode := fun _ : string =>
    Some (mk_IP_RR (JArray [JString "ES"; JString "FR"]) (JNumber (S754_finite false 444 0)) 10 (Some [1;2;3;4])) in
  UnmarshalJSON decode (fun _ => 0) (mkIP_RR 0 None [] []) "doc"
  = (mkIP_RR 10 (Some [1;2;3;4]) ["ES"; "FR"] [444], None).
Proof.
  intros decode.
  exact (UnmarshalJSON_spec decode (fun _ => 0) "doc" _ eq_refl).
Defined.
