(* ===== verification/Float64.v ===== *)
(** Go's float64: the IEEE 754 binary64 operations of the Standard Library's
    [SpecFloat], with the order lemmas of the comparison operators. *)
From S2P Require Import Prelude.
From Stdlib Require Export SpecFloat.

Abbreviation float64 := spec_float.

Definition fadd : float64 -> float64 -> float64 := SFadd 53 1024.
Definition fsub : float64 -> float64 -> float64 := SFsub 53 1024.
Definition fmul : float64 -> float64 -> float64 := SFmul 53 1024.
Definition fdiv : float64 -> float64 -> float64 := SFdiv 53 1024.
Definition fsqrt : float64 -> float64 := SFsqrt 53 1024.
(** The float64 nearest to [m * 2^e]. *)
Definition fof (m e : Z) : float64 := binary_normalize 53 1024 m e false.
Definition fltb : float64 -> float64 -> bool := SFltb.
Definition feqb : float64 -> float64 -> bool := SFeqb.

(** ** Order *)

(** Position of a number in the order, compared lexicographically. *)
Definition frank (f : float64) : option (Z * Z * Z) :=
  match f with
  | S754_nan => None
  | S754_infinity s => Some (if s then -2 else 2, 0, 0)
  | S754_zero _ => Some (0, 0, 0)
  | S754_finite true m e => Some (-1, - e, - Zpos m)
  | S754_finite false m e => Some (1, e, Zpos m)
  end.

Definition lex_lt (a b : Z * Z * Z) : Prop :=
  let '(a1, a2, a3) := a in let '(b1, b2, b3) := b in
  a1 < b1 \/ (a1 = b1 /\ (a2 < b2 \/ (a2 = b2 /\ a3 < b3))).

Lemma fltb_rank x y :
  fltb x y = true <-> exists a b, frank x = Some a /\ frank y = Some b /\ lex_lt a b.
Proof.
  unfold fltb, SFltb. split.
  - destruct x as [s1|s1| |s1 m1 e1], y as [s2|s2| |s2 m2 e2]; simpl; try done;
      try destruct s1; try destruct s2; simpl; try done; intros H;
      do 2 eexists; (split; [done|]); (split; [done|]); simpl; try lia.
    all: destruct (Z.compare_spec e1 e2); try done; try lia.
    all: change (Pos.compare_cont Eq m1 m2) with (Pos.compare m1 m2) in H;
      destruct (Pos.compare_spec m1 m2); try done; lia.
  - intros (a & b & Ha & Hb & Hlt).
    destruct x as [s1|s1| |s1 m1 e1], y as [s2|s2| |s2 m2 e2]; simpl in *;
      try destruct s1; try destruct s2; simplify_eq/=; try done; try lia.
    all: destruct (Z.compare_spec e1 e2); try done; try lia.
    all: change (Pos.compare_cont Eq m1 m2) with (Pos.compare m1 m2);
      destruct (Pos.compare_spec m1 m2); try done; lia.
Qed.

Lemma feqb_rank x y :
  feqb x y = true <-> exists a, frank x = Some a /\ frank y = Some a.
Proof.
  unfold feqb, SFeqb. split.
  - destruct x as [s1|s1| |s1 m1 e1], y as [s2|s2| |s2 m2 e2]; simpl; try done;
      try destruct s1; try destruct s2; simpl; try done; intros H;
      try (eexists; split; reflexivity).
    all: destruct (Z.compare_spec e1 e2); try done.
    all: change (Pos.compare_cont Eq m1 m2) with (Pos.compare m1 m2) in H;
      destruct (Pos.compare_spec m1 m2); try done; subst;
      eexists; split; reflexivity.
  - intros (a & Ha & Hb).
    destruct x as [s1|s1| |s1 m1 e1], y as [s2|s2| |s2 m2 e2]; simpl in *;
      try destruct s1; try destruct s2; simplify_eq/=; try done.
    all: try (assert (e1 = e2) as -> by lia); rewrite Z.compare_refl; fold (Pos.compare m2 m2); by rewrite Pos.compare_refl.
Qed.

Lemma lex_lt_trans a b c : lex_lt a b -> lex_lt b c -> lex_lt a c.
Proof. destruct a as [[] ?], b as [[] ?], c as [[] ?]; simpl; lia. Qed.

Lemma lex_lt_irrefl a : ~ lex_lt a a.
Proof. destruct a as [[] ?]; simpl; lia. Qed.

Lemma fltb_trans x y z : fltb x y = true -> fltb y z = true -> fltb x z = true.
Proof.
  rewrite !fltb_rank. intros (a & b & ? & ? & ?) (b' & c & ? & ? & ?); simplify_eq.
  eauto 6 using lex_lt_trans.
Qed.

Lemma fltb_irrefl x : fltb x x = false.
Proof.
  apply not_true_iff_false. rewrite fltb_rank. intros (a & b & ? & ? & H); simplify_eq.
  by apply lex_lt_irrefl in H.
Qed.

Lemma fltb_feqb_r x y z : feqb y z = true -> fltb x y = fltb x z.
Proof.
  rewrite feqb_rank. intros (a & Hy & Hz). apply eq_bool_prop_intro.
  rewrite !Is_true_true, !fltb_rank. split; intros (b & c & ? & ? & ?); simplify_eq; eauto 6.
Qed.

Lemma feqb_of_fltb x y : fltb x y = true -> feqb x x = true.
Proof. rewrite fltb_rank, feqb_rank. intros (a & b & ? & _). eauto. Qed.

Lemma lex_total a b : lex_lt a b \/ a = b \/ lex_lt b a.
Proof.
  destruct a as [[a1 a2] a3], b as [[b1 b2] b3]. simpl.
  destruct (Z.lt_total a1 b1) as [|[->|]], (Z.lt_total a2 b2) as [|[->|]], (Z.lt_total a3 b3) as [|[->|]]; auto; lia.
Qed.

(** Equality holds between numbers only, and numbers neither of which is below the
    other are equal. *)
Lemma feqb_number x y : feqb x y = true -> feqb x x = true.
Proof. rewrite !feqb_rank. intros (a & Hx & _). eauto. Qed.

Lemma feqb_antisym x y : feqb x x = true -> feqb y y = true -> fltb x y = false -> fltb y x = false -> feqb x y = true.
Proof.
  rewrite !feqb_rank, <- !not_true_iff_false, !fltb_rank. intros (a & Ha & _) (b & Hb & _) Hxy Hyx.
  destruct (lex_total a b) as [H|[->|H]]; [destruct Hxy; eauto 6|eauto|destruct Hyx; eauto 6].
Qed.

Lemma fltb_not_ge x y z : fltb x y = true -> feqb z z = true -> fltb z y = false -> fltb x z = true.
Proof.
  rewrite <- not_true_iff_false, feqb_rank, !fltb_rank. intros (a & b & Ha & Hb & Hab) (c & Hc & _) Hzy.
  destruct (lex_total c b) as [H|[->|H]]; [destruct Hzy; eauto 6|eauto 6|]. eauto 8 using lex_lt_trans.
Qed.
