(* ===== verification/GoNet.v ===== *)
(** [net.IP.String] and [net.ParseIP] of the Go standard library, on the byte
    representation of addresses. *)
From S2P Require Import Prelude GoStrings DnsTypes.
From stdpp Require Import pretty.
From Stdlib Require Import Ascii.
#[local] Open Scope string_scope.
#[local] Open Scope list_scope.
#[local] Open Scope Z_scope.

(** [strconv.Itoa] *)
Definition Itoa (z : Z) : string := pretty z.

Definition hex_digit (n : Z) : string :=
  String (ascii_of_N (Z.to_N (if n <? 10 then 48 + n else 87 + n))) "".

(** Lower-case hexadecimal without leading zeros, for a 16-bit group. *)
Definition hex_group (n : Z) : string :=
  let d3 := n / 4096 in let d2 := (n / 256) mod 16 in
  let d1 := (n / 16) mod 16 in let d0 := n mod 16 in
  (if n <? 4096 then "" else hex_digit d3) +:+
  (if n <? 256 then "" else hex_digit d2) +:+
  (if n <? 16 then "" else hex_digit d1) +:+ hex_digit d0.

Definition hex_byte (n : Z) : string := hex_digit (n / 16) +:+ hex_digit (n mod 16).

(** [ip.To4()] on the bytes of an address. *)
Definition To4 (bs : list Z) : option (list Z) :=
  match bs with
  | [_; _; _; _] => Some bs
  | [0; 0; 0; 0; 0; 0; 0; 0; 0; 0; 255; 255; a; b; c; d] => Some [a; b; c; d]
  | _ => None
  end.

Fixpoint groups (bs : list Z) : list Z :=
  match bs with
  | a :: b :: bs' => a * 256 + b :: groups bs'
  | _ => []
  end.

(** Number of zero groups at the head. *)
Fixpoint zero_run (gs : list Z) : nat :=
  match gs with
  | 0 :: gs' => S (zero_run gs')
  | _ => O
  end.

(** Start and length of the first longest run of zero groups. *)
Fixpoint longest_run (i : nat) (gs : list Z) (best : nat * nat) : nat * nat :=
  match gs with
  | [] => best
  | _ :: gs' =>
      let r := zero_run gs in
      longest_run (S i) gs' (if (snd best <? r)%nat then (i, r) else best)
  end.

Definition print_groups (gs : list Z) : string :=
  match gs with
  | [] => ""
  | g :: gs' => foldl (fun acc x => acc +:+ ":" +:+ hex_group x) (hex_group g) gs'
  end.

(** "::" replaces the run unless it is a single group. *)
Definition ipv6_string (bs : list Z) : string :=
  let gs := groups bs in
  let '(start, len) := longest_run 0 gs (0, 0)%nat in
  if (len <=? 1)%nat then print_groups gs
  else print_groups (take start gs) +:+ "::" +:+ print_groups (drop (start + len) gs).

Definition IP_String (ip : IP) : string :=
  match ip with
  | None | Some [] => "<nil>"
  | Some bs =>
      match To4 bs with
      | Some [a; b; c; d] => Itoa a +:+ "." +:+ Itoa b +:+ "." +:+ Itoa c +:+ "." +:+ Itoa d
      | _ => if (length bs =? 16)%nat then ipv6_string bs
             else "?" +:+ foldr (fun b s => hex_byte b +:+ s) "" bs
      end
  end.

Example IP_String_v4 : IP_String (Some [172; 217; 17; 78]) = "172.217.17.78".
Proof. vm_compute. reflexivity. Qed.

Example IP_String_v6 :
  IP_String (Some [32;1;13;184;0;0;0;0;0;1;0;0;0;0;0;1]) = "2001:db8::1:0:0:1".
Proof. vm_compute. reflexivity. Qed.

Example IP_String_v6_loopback :
  IP_String (Some [0;0;0;0;0;0;0;0;0;0;0;0;0;0;0;1]) = "::1".
Proof. vm_compute. reflexivity. Qed.

(** ** [net.ParseIP] *)

Definition digit_of (hex : bool) (c : ascii) : option Z :=
  let n := Z.of_N (N_of_ascii c) in
  if (48 <=? n) && (n <=? 57) then Some (n - 48)
  else if hex && (97 <=? n) && (n <=? 102) then Some (n - 87)
  else if hex && (65 <=? n) && (n <=? 70) then Some (n - 55)
  else None.

(** [dtoi] and [xtoi]: the value of the leading digits and what follows; [None]
    without a digit or from [0xFFFFFF] on. *)
Fixpoint digits (hex : bool) (n : Z) (s : string) : option (Z * string) :=
  match s with
  | "" => Some (n, "")
  | String c s' =>
      match digit_of hex c with
      | Some d =>
          let n' := n * (if hex then 16 else 10) + d in
          if 16777215 <=? n' then None else digits hex n' s'
      | None => Some (n, s)
      end
  end.

Definition toi (hex : bool) (s : string) : option (Z * string) :=
  match s with
  | "" => None
  | String c _ => match digit_of hex c with Some _ => digits hex 0 s | None => None end
  end.

(** [k] more octets, each after a dot except the first. *)
Fixpoint octets (k : nat) (first : bool) (s : string) : option (list Z) :=
  match k with
  | O => match s with "" => Some [] | _ => None end
  | S k' =>
      let s1 := if first then Some s
                else match s with String "."%char s' => Some s' | _ => None end in
      match s1 with
      | None => None
      | Some s1 =>
          match toi false s1 with
          | Some (n, s2) =>
              if 255 <? n then None
              else match octets k' false s2 with Some l => Some (n :: l) | None => None end
          | None => None
          end
      end
  end.

Definition parseIPv4 (s : string) : option (list Z) := octets 4 true s.

(** [IPv4(a,b,c,d)] is the 16-byte form. *)
Definition v4InV6 (q : list Z) : list Z := [0;0;0;0;0;0;0;0;0;0;255;255] ++ q.

(** The groups of an IPv6 address; [ip] holds the bytes read so far and
    [ellipsis] their number where [::] stood. *)
Fixpoint ipv6Loop (k : nat) (ip : list Z) (ellipsis : option nat) (s : string)
  : option (list Z * option nat * string) :=
  match k with
  | O => Some (ip, ellipsis, s)
  | S k' =>
      match toi true s with
      | None => None
      | Some (n, rest) =>
          if 65535 <? n then None
          else match rest with
          | String "."%char _ =>
              if (match ellipsis with None => negb (length ip =? 12)%nat | _ => false end)
                 || (12 <? length ip)%nat then None
              else match parseIPv4 s with
                   | Some q => Some (ip ++ q, ellipsis, "")
                   | None => None
                   end
          | _ =>
              let ip := ip ++ [n / 256; n mod 256] in
              match rest with
              | "" => Some (ip, ellipsis, "")
              | String ":"%char "" => None
              | String ":"%char (String ":"%char s2) =>
                  match ellipsis with
                  | Some _ => None
                  | None => match s2 with
                            | "" => Some (ip, Some (length ip), "")
                            | _ => ipv6Loop k' ip (Some (length ip)) s2
                            end
                  end
              | String ":"%char s1 => ipv6Loop k' ip ellipsis s1
              | _ => None
              end
          end
      end
  end.

Definition parseIPv6 (s : string) : option (list Z) :=
  let '(ellipsis, s1) :=
    match s with
    | String ":"%char (String ":"%char s') => (Some 0%nat, s')
    | _ => (None, s)
    end in
  match ellipsis, s1 with
  | Some _, "" => Some (replicate 16 0)
  | _, _ =>
      match ipv6Loop 8 [] ellipsis s1 with
      | Some (ip, ellipsis, "") =>
          if (length ip <? 16)%nat then
            match ellipsis with
            | None => None
            | Some e => Some (take e ip ++ replicate (16 - length ip) 0 ++ drop e ip)
            end
          else match ellipsis with Some _ => None | None => Some ip end
      | _ => None
      end
  end.

(** The first dot or colon decides. *)
Fixpoint ParseIP_from (s : string) (t : string) : IP :=
  match t with
  | "" => None
  | String "."%char _ => match parseIPv4 s with Some q => Some (v4InV6 q) | None => None end
  | String ":"%char _ => parseIPv6 s
  | String _ t' => ParseIP_from s t'
  end.

Definition ParseIP (s : string) : IP := ParseIP_from s s.

Example ParseIP_v6 : ParseIP "2001:db8::1:0:0:1" = Some [32;1;13;184;0;0;0;0;0;1;0;0;0;0;0;1].
Proof. vm_compute. reflexivity. Qed.

Example ParseIP_v6_mapped : ParseIP "::ffff:10.0.0.1" = Some (v4InV6 [10;0;0;1]).
Proof. vm_compute. reflexivity. Qed.

Example ParseIP_bad : map ParseIP ["10.0.0"; "10.0.0.256"; "1.2.3.4.5"; ":1"; "1:2"; ""; "host"]
                      = replicate 7 None.
Proof. vm_compute. reflexivity. Qed.

(** ** Dotted quads survive printing and parsing *)

Definition no_digit (s : string) : Prop :=
  match s with "" => True | String c _ => digit_of false c = None end.

Lemma digits_app hex n s t :
  no_digit t -> hex = false ->
  match digits hex n s with
  | Some (m, "") => digits hex n (s +:+ t) = Some (m, t)
  | _ => True
  end.
Proof.
  intros Ht ->. revert n. induction s as [|c s IH]; intros n; simpl.
  - destruct t as [|c t]; [done|]. simpl in *. by rewrite Ht.
  - destruct (digit_of false c) as [d|]; [|done]. destruct (16777215 <=? n * 10 + d); [done|]. apply IH.
Qed.

(** Every octet prints to digits that read back. *)
Definition octet_ok (n : Z) : bool :=
  match Itoa n with
  | "" => false
  | String c _ => (match digit_of false c with Some _ => true | None => false end)
                  && match digits false 0 (Itoa n) with
                     | Some (m, "") => m =? n
                     | _ => false
                     end
  end.

Lemma octets_ok : forallb octet_ok (seqZ 0 256) = true.
Proof. vm_compute. reflexivity. Qed.

Lemma toi_Itoa n t : 0 <= n < 256 -> no_digit t -> toi false (Itoa n +:+ t) = Some (n, t).
Proof.
  intros Hn Ht. pose proof octets_ok as Hall. rewrite forallb_forall in Hall.
  assert (octet_ok n = true) as Hok by (apply Hall, list_elem_of_In, elem_of_seqZ; lia).
  unfold octet_ok in Hok. pose proof (digits_app false 0 (Itoa n) t Ht eq_refl) as Hd.
  destruct (digits false 0 (Itoa n)) as [[m [|]]|]; [| |].
  - destruct (Itoa n) as [|c s]; [done|]. apply andb_true_iff in Hok as [Hc Hm].
    apply Z.eqb_eq in Hm as ->. unfold toi. change (String c s +:+ t) with (String c (s +:+ t)) in *. cbv beta iota.
    destruct (digit_of false c); [exact Hd|done].
  - destruct (Itoa n); [done|]. by rewrite andb_false_r in Hok.
  - destruct (Itoa n); [done|]. by rewrite andb_false_r in Hok.
Qed.

Lemma ParseIP_from_skip s n t :
  0 <= n < 256 -> ParseIP_from s (Itoa n +:+ String "."%char t)
                  = match parseIPv4 s with Some q => Some (v4InV6 q) | None => None end.
Proof.
  intros Hn. assert (forallb (fun n => forallb (fun c => bool_decide (c <> "."%char) && bool_decide (c <> ":"%char))
                                       (String.list_ascii_of_string (Itoa n))) (seqZ 0 256) = true) as Hall
    by (vm_compute; reflexivity).
  rewrite forallb_forall in Hall. specialize (Hall n ltac:(apply list_elem_of_In, elem_of_seqZ; lia)).
  simpl in Hall. induction (Itoa n) as [|c u IH]; [done|].
  simpl in Hall. bool_to_prop. rewrite <- IH by done.
  change (String c u +:+ ?x) with (String c (u +:+ x)). simpl.
  destruct c as [[] [] [] [] [] [] [] []]; done.
Qed.

Lemma To4_quad a b c d : To4 [a; b; c; d] = Some [a; b; c; d].
Proof. unfold To4. destruct a, b, c, d; reflexivity. Qed.

(** [ParseIP] reads back what [String] prints for an IPv4 address, in the
    16-byte form. *)
Lemma ParseIP_String_v4 a b c d :
  0 <= a < 256 -> 0 <= b < 256 -> 0 <= c < 256 -> 0 <= d < 256 ->
  ParseIP (IP_String (Some [a; b; c; d])) = Some (v4InV6 [a; b; c; d]).
Proof.
  intros Ha Hb Hc Hd. unfold ParseIP.
  assert (IP_String (Some [a; b; c; d]) =
    (Itoa a +:+ String "."%char (Itoa b +:+ String "."%char (Itoa c +:+ String "."%char (Itoa d))))) as ->
    by (unfold IP_String; rewrite To4_quad; reflexivity).
  rewrite ParseIP_from_skip by done.
  unfold parseIPv4, octets. rewrite toi_Itoa by done.
  rewrite (proj2 (Z.ltb_ge 255 a)) by lia. rewrite toi_Itoa by done.
  rewrite (proj2 (Z.ltb_ge 255 b)) by lia. rewrite toi_Itoa by done.
  rewrite (proj2 (Z.ltb_ge 255 c)) by lia. rewrite <- (sapp_nil_r (Itoa d)), toi_Itoa by done.
  by rewrite (proj2 (Z.ltb_ge 255 d)) by lia.
Qed.
