(* ===== verification/ZoneIndex.v ===== *)
(** The zone index of handler/handler.go: [reverseZone], the radix tree that
    [LoadZones] fills and the longest-suffix search of [FindZone]. *)
From S2P Require Import Prelude GoStrings Utf8.

(** ** github.com/hashicorp/go-immutable-radix *)

(** An immutable radix tree with string values; keys are byte strings. *)
Class Radix := {
  rtree : Type;
  radix_New : rtree;
  radix_Insert : rtree -> string -> string -> rtree;
  (** [Root().LongestPrefix(k)] *)
  radix_LongestPrefix : rtree -> string -> option (string * string)
}.

(** Its documented behaviour: a map from keys to values in which [Insert]
    replaces, and [LongestPrefix] finds the longest stored key that is a prefix
    of the argument. *)
Class RadixLaws (R : Radix) := {
  radix_map : rtree -> gmap string string;
  radix_map_New : radix_map radix_New = ∅;
  radix_map_Insert : forall t k v, radix_map (radix_Insert t k v) = <[k := v]> (radix_map t);
  radix_Longest_Some : forall t q k v, radix_LongestPrefix t q = Some (k, v) ->
    radix_map t !! k = Some v /\ HasPrefix q k = true /\
    forall k' v', radix_map t !! k' = Some v' -> HasPrefix q k' = true -> (slen k' <= slen k)%nat;
  radix_Longest_None : forall t q, radix_LongestPrefix t q = None ->
    forall k v, radix_map t !! k = Some v -> HasPrefix q k = false
}.

(** ** [reverseZone] *)

(** [for i, j := 0, len(runes)-1; i < j; i, j = i+1, j-1 { swap }]; every round
    moves [i] and [j] one closer, so [length runes] rounds are enough. *)
Fixpoint swapLoop (n i j : nat) (runes : list Z) : list Z :=
  match n with
  | O => runes
  | S n' =>
      if (i <? j)%nat then
        match runes !! i, runes !! j with
        | Some a, Some b => swapLoop n' (S i) (pred j) (<[j := a]> (<[i := b]> runes))
        | _, _ => runes
        end
      else runes
  end.

Definition reverseZone (zone : string) : string :=
  let runes := runes_of (bytes_of ("." +:+ zone)) in
  of_bytes (encode_runes (swapLoop (length runes) 0 (pred (length runes)) runes)).

Lemma swapLoop_lookup n i j l k :
  (j < i + n)%nat -> (j < length l)%nat ->
  swapLoop n i j l !! k
  = if ((i <=? k)%nat && (k <=? j)%nat)%bool then l !! (i + j - k)%nat else l !! k.
Proof.
  revert i j l. induction n as [|n IH]; intros i j l Hn Hj; simpl.
  { destruct (Nat.leb_spec i k), (Nat.leb_spec k j); simpl; try done; lia. }
  destruct (Nat.ltb_spec i j) as [Hij|Hij].
  - destruct (lookup_lt_is_Some_2 l i) as [a Ha]; [lia|].
    destruct (lookup_lt_is_Some_2 l j) as [b Hb]; [lia|]. rewrite Ha, Hb.
    rewrite IH by (rewrite ?length_insert; lia).
    assert (forall m, <[j := a]> (<[i := b]> l) !! m
                      = if decide (m = j) then Some a else if decide (m = i) then Some b else l !! m) as Hm.
    { intros m. repeat case_decide; subst.
      - rewrite list_lookup_insert_eq; [done|]. rewrite length_insert. lia.
      - rewrite list_lookup_insert_ne, list_lookup_insert_eq by lia. done.
      - rewrite !list_lookup_insert_ne by lia. done. }
    rewrite !Hm.
    destruct (Nat.leb_spec (S i) k), (Nat.leb_spec k (pred j)), (Nat.leb_spec i k), (Nat.leb_spec k j);
      simpl; repeat case_decide; try lia; try done; try (f_equal; lia).
    all: first [replace (i + j - k)%nat with j by lia | replace (i + j - k)%nat with i by lia]; done.
  - destruct (Nat.leb_spec i k), (Nat.leb_spec k j); simpl; try done. f_equal. lia.
Qed.

(** The swap loop reverses. *)
Lemma swapLoop_reverse l : swapLoop (length l) 0 (pred (length l)) l = reverse l.
Proof.
  destruct l as [|x l]; [done|]. apply list_eq. intros k.
  rewrite swapLoop_lookup by (rewrite ?length_cons; lia). simpl pred. rewrite (proj2 (Nat.leb_le 0 k)) by lia.
  destruct (Nat.leb_spec k (length l)); simpl andb.
  - rewrite reverse_lookup by (simpl; lia). simpl length. f_equal; lia.
  - trans (@None Z); [|symmetry]; apply lookup_ge_None_2; rewrite ?length_reverse; simpl; lia.
Qed.

(** ** [LoadZones] and [FindZone] *)

Section ZoneIndex.
Context {R : Radix}.

(** The tree [LoadZones] builds from the members of the set redins:zones. *)
Definition buildZones (zones : list string) : rtree :=
  foldl (fun t zone => radix_Insert t (reverseZone zone) zone) radix_New zones.

Definition FindZone (Zones : rtree) (qname : string) : string :=
  let rname := reverseZone qname in
  match radix_LongestPrefix Zones rname with
  | Some (_, zname) => zname
  | None => ""
  end.
End ZoneIndex.

(** ** Correctness of the index *)

Lemma reverseZone_ascii s :
  ascii_string s -> reverseZone s = of_bytes (reverse (bytes_of ("." +:+ s))).
Proof.
  intros Hs. unfold reverseZone. assert (ascii_bytes (bytes_of ("." +:+ s))) as Ha.
  { simpl. constructor; [done|exact Hs]. }
  rewrite runes_of_ascii by done. rewrite swapLoop_reverse, encode_runes_ascii; [done|].
  unfold ascii_bytes. by rewrite reverse_Permutation.
Qed.

(** Only an ASCII zone has an ASCII key. *)
Lemma reverseZone_ascii_inv s : ascii_string (reverseZone s) -> ascii_string s.
Proof.
  intros H. unfold ascii_string, reverseZone in H. rewrite swapLoop_reverse, bytes_of_encode in H.
  set (rs := runes_of (bytes_of ("." +:+ s))) in H.
  assert (Forall (fun r => r < 128) (reverse rs)) as Hr.
  { clearbody rs. induction (reverse rs) as [|r l IH]; [constructor|].
    change (encode_runes (r :: l)) with (encode_rune r ++ encode_runes l) in H.
    destruct (encode_rune_head r) as [[Hr E]|(b & bs & E & Hb)]; rewrite E in H;
      apply Forall_cons in H as [Hh H]; [|simpl in Hh; lia].
    constructor; [lia|]. by apply IH. }
  rewrite reverse_Permutation in Hr. apply runes_of_ascii_inv in Hr.
  - unfold ascii_string. simpl in Hr. by apply Forall_cons in Hr as [_ Hr].
  - eapply Forall_impl; [apply bytes_of_range|]. simpl. lia.
Qed.

Lemma HasPrefix_bytes q k : HasPrefix q k = true <-> bytes_of k `prefix_of` bytes_of q.
Proof.
  rewrite HasPrefix_spec. split.
  - intros [t ->]. rewrite bytes_of_app. by exists (bytes_of t).
  - intros [l Hl]. exists (of_bytes l). apply bytes_of_inj. rewrite bytes_of_app, bytes_of_of; [done|].
    pose proof (bytes_of_range q) as Hr. rewrite Hl in Hr. by apply Forall_app in Hr as [_ ?].
Qed.

Lemma HasSuffix_bytes q k : HasSuffix q k = true <-> bytes_of k `suffix_of` bytes_of q.
Proof.
  rewrite HasSuffix_spec. split.
  - intros [t ->]. rewrite bytes_of_app. by exists (bytes_of t).
  - intros [l Hl]. exists (of_bytes l). apply bytes_of_inj. rewrite bytes_of_app, bytes_of_of; [done|].
    pose proof (bytes_of_range q) as Hr. rewrite Hl in Hr. by apply Forall_app in Hr as [? _].
Qed.

Lemma bytes_of_reverse s :
  bytes_of (of_bytes (reverse (bytes_of s))) = reverse (bytes_of s).
Proof. apply bytes_of_of. rewrite reverse_Permutation. apply bytes_of_range. Qed.

(** For an ASCII query, a zone's key is a prefix of the query's key exactly when
    the zone is a suffix of the query at a label boundary. *)
Lemma reverseZone_prefix q z :
  ascii_string q ->
  HasPrefix (reverseZone q) (reverseZone z) = true <-> HasSuffix ("." +:+ q) ("." +:+ z) = true.
Proof.
  intros Hq. split; intros H.
  - assert (ascii_string z) as Hz.
    { apply reverseZone_ascii_inv. apply HasPrefix_bytes in H as [l Hl].
      assert (ascii_bytes (bytes_of (reverseZone q))) as Ha.
      { rewrite reverseZone_ascii, bytes_of_reverse by done. unfold ascii_bytes.
        rewrite reverse_Permutation. simpl. by constructor. }
      rewrite Hl in Ha. by apply Forall_app in Ha as [Ha _]. }
    rewrite !reverseZone_ascii, HasPrefix_bytes, !bytes_of_reverse in H by done.
    apply HasSuffix_bytes. by apply suffix_prefix_reverse.
  - apply HasSuffix_bytes in H. assert (ascii_string z) as Hz.
    { destruct H as [l Hl]. assert (ascii_bytes (bytes_of ("." +:+ q))) as Ha by (simpl; by constructor).
      rewrite Hl in Ha. apply Forall_app in Ha as [_ Ha]. simpl in Ha. by apply Forall_cons in Ha as [_ ?]. }
    rewrite !reverseZone_ascii, HasPrefix_bytes, !bytes_of_reverse by done.
    by apply suffix_prefix_reverse.
Qed.

Section IndexFacts.
Context {R : Radix} {RL : RadixLaws R}.

(** What the tree built from a list of zones maps. *)
Lemma buildZones_map zones :
  (forall k z, radix_map (buildZones zones) !! k = Some z -> k = reverseZone z /\ z ∈ zones) /\
  (forall z, z ∈ zones -> is_Some (radix_map (buildZones zones) !! reverseZone z)).
Proof.
  unfold buildZones. induction zones as [|z zones [IH1 IH2]] using rev_ind; simpl.
  - rewrite radix_map_New. split; [intros k z; by rewrite lookup_empty|]. by intros z ?%elem_of_nil.
  - rewrite foldl_snoc, radix_map_Insert. split.
    + intros k z'. rewrite lookup_insert. case_decide as Hk.
      * intros [= <-]. split; [done|]. set_solver.
      * intros [-> Hin]%IH1. set_solver.
    + intros z' Hz'. rewrite lookup_insert. case_decide; [done|]. apply IH2. set_solver.
Qed.

(** C6: [FindZone] after [LoadZones]: for an ASCII query name it returns the
    longest zone that is a suffix of the name at a label boundary, and the
    empty string when the name is in no zone. *)
Theorem FindZone_longest zones q :
  ascii_string q ->
  let z := FindZone (buildZones zones) q in
  (z ∈ zones /\ HasSuffix ("." +:+ q) ("." +:+ z) = true /\
   forall z', z' ∈ zones -> HasSuffix ("." +:+ q) ("." +:+ z') = true -> (slen z' <= slen z)%nat)
  \/ (z = "" /\ forall z', z' ∈ zones -> HasSuffix ("." +:+ q) ("." +:+ z') = false).
Proof.
  intros Hq z. destruct (buildZones_map zones) as [Hm1 Hm2]. unfold z, FindZone.
  destruct (radix_LongestPrefix (buildZones zones) (reverseZone q)) as [[k z0]|] eqn:E.
  - left. apply radix_Longest_Some in E as (Hk & Hp & Hmax). apply Hm1 in Hk as [-> Hin].
    apply reverseZone_prefix in Hp; [|done]. split; [done|]. split; [done|]. intros z' Hz' Hs.
    destruct (Hm2 z' Hz') as [v Hv]. apply (Hmax _ v) in Hv; [|by apply reverseZone_prefix].
    assert (forall s, HasSuffix ("." +:+ q) ("." +:+ s) = true -> slen (reverseZone s) = S (slen s)) as Hlen.
    { intros s Hs'. rewrite reverseZone_ascii.
      - rewrite <- length_bytes_of, bytes_of_reverse, length_reverse. simpl. by rewrite length_bytes_of.
      - apply HasSuffix_bytes in Hs' as [l Hl].
        assert (ascii_bytes (bytes_of ("." +:+ q))) as Ha by (simpl; by constructor).
        rewrite Hl in Ha. apply Forall_app in Ha as [_ Ha]. simpl in Ha. by apply Forall_cons in Ha as [_ ?]. }
    rewrite !Hlen in Hv by done. lia.
  - right. split; [done|]. intros z' Hz'. destruct (Hm2 z' Hz') as [v Hv].
    pose proof (radix_Longest_None _ _ E _ _ Hv) as Hn.
    destruct (HasSuffix _ _) eqn:Hs; [|done]. apply reverseZone_prefix in Hs; [|done]. congruence.
Qed.
End IndexFacts.

(** ** An implementation of the tree by a finite map *)

Fixpoint longest_prefix (m : gmap string string) (q : string) (n : nat) : option (string * string) :=
  match m !! stake n q with
  | Some v => Some (stake n q, v)
  | None => match n with O => None | S n' => longest_prefix m q n' end
  end.

Definition MapRadix : Radix := {|
  rtree := gmap string string;
  radix_New := ∅;
  radix_Insert t k v := <[k := v]> t;
  radix_LongestPrefix t q := longest_prefix t q (slen q)
|}.

Lemma longest_prefix_eq m q n :
  longest_prefix m q n
  = match m !! stake n q with
    | Some v => Some (stake n q, v)
    | None => match n with O => None | S n' => longest_prefix m q n' end
    end.
Proof. by destruct n. Qed.

Lemma longest_prefix_spec m q n :
  (n <= slen q)%nat ->
  match longest_prefix m q n with
  | Some (k, v) => m !! k = Some v /\ HasPrefix q k = true /\
      forall k', is_Some (m !! k') -> HasPrefix q k' = true -> (slen k' <= n)%nat -> (slen k' <= slen k)%nat
  | None => forall k', is_Some (m !! k') -> HasPrefix q k' = true -> (slen k' <= n)%nat -> False
  end.
Proof.
  induction n as [|n IH]; intros Hn; rewrite longest_prefix_eq.
  - destruct (m !! stake 0 q) as [v|] eqn:E.
    + split; [done|]. split; [by apply HasPrefix_spec; exists q|]. done.
    + intros k' [v Hv] _ Hl. destruct k'; [|simpl in Hl; lia]. simpl in E. by rewrite E in Hv.
  - destruct (m !! stake (S n) q) as [v|] eqn:E.
    + split; [done|]. split.
      * apply HasPrefix_spec. exists (sdrop (S n) q). by rewrite stake_sdrop.
      * intros k' _ _ Hl. rewrite slen_stake. lia.
    + assert (forall k', is_Some (m !! k') -> HasPrefix q k' = true -> (slen k' <= S n)%nat -> (slen k' <= n)%nat) as Hlt.
      { intros k' [v Hv] Hp Hl. destruct (decide (slen k' = S n)) as [Hk|]; [|lia].
        unfold HasPrefix in Hp. rewrite Hk in Hp. apply String.eqb_eq in Hp. congruence. }
      specialize (IH ltac:(lia)). destruct (longest_prefix m q n) as [[k v]|].
      * destruct IH as (? & ? & IH). split; [done|]. split; [done|]. eauto.
      * eauto.
Qed.

Lemma HasPrefix_len q k : HasPrefix q k = true -> (slen k <= slen q)%nat.
Proof. intros [t ->]%HasPrefix_spec. rewrite slen_app. lia. Qed.

#[global] Instance MapRadixLaws : RadixLaws MapRadix.
Proof.
  refine (Build_RadixLaws MapRadix (fun t => t) _ _ _ _); try done; simpl.
  - intros t q k v E. pose proof (longest_prefix_spec t q (slen q) (le_n _)) as H. rewrite E in H.
    destruct H as (? & ? & H). repeat split; eauto using HasPrefix_len.
  - intros t q E k v Hk. pose proof (longest_prefix_spec t q (slen q) (le_n _)) as H. rewrite E in H.
    destruct (HasPrefix q k) eqn:Hp; [|done]. exfalso. eauto using HasPrefix_len.
Defined.

#[local] Existing Instance MapRadix.

Lemma FindZone_longest_witness :
  FindZone (buildZones ["example.com."; "sub.example.com."; "com.org."]) "www.sub.example.com."
  = "sub.example.com.".
Proof.
  destruct (FindZone_longest ["example.com."; "sub.example.com."; "com.org."] "www.sub.example.com.")
    as [(Hin & Hs & Hmax)|[_ Hno]].
  - unfold ascii_string, ascii_bytes. simpl. repeat constructor; done.
  - specialize (Hmax "sub.example.com." ltac:(set_solver) ltac:(vm_compute; reflexivity)).
    set (z := FindZone _ _) in *. rewrite !elem_of_cons, elem_of_nil in Hin.
    destruct Hin as [E|[E|[E|[]]]]; [|done|]; rewrite E in Hmax; simpl in Hmax; lia.
  - specialize (Hno "example.com." ltac:(set_solver)). vm_compute in Hno. done.
Defined.
