(* ===== verification/Zone.v ===== *)
(** handler/zone.go: the location lookup of a zone. *)
From S2P Require Import Prelude GoStrings DnsTypes.
From Stdlib Require Import Ascii.

Definition dot : ascii := "."%char.

(** ** [FindLocation] *)

Inductive Match := ExactMatch | WildCardMatch | NoMatch.

#[global] Instance Match_eq_dec : EqDecision Match.
Proof. solve_decision. Defined.

Definition keyExists (z : Zone) (key : string) : bool := bool_decide (key ∈ z_Locations z).

(** The [range] over the map only asks whether some key matches, so its order
    does not matter. *)
Definition keyMatches (z : Zone) (key : string) : bool :=
  existsb (fun value => HasSuffix value key) (elements (z_Locations z)).

Definition splitQuery (query : string) : string * string * bool :=
  if String.eqb query "" then ("", "", false)
  else match SplitAfterN2 query dot with
       | [_; closestEncloser] => (closestEncloser, "*." +:+ closestEncloser, true)
       | _ => ("", "*", true)
       end.

(** The [for ok] loop; [None] is an exhausted bound. *)
Fixpoint findLoop (fuel : nat) (z : Zone) (closestEncloser sourceOfSynthesis : string) (ok : bool)
  : option (string * Match) :=
  match fuel with
  | O => None
  | S fuel' =>
      if ok then
        let ceExists := keyMatches z closestEncloser || keyExists z closestEncloser in
        let ssExists := keyExists z sourceOfSynthesis in
        if ceExists then
          if ssExists then Some (sourceOfSynthesis, WildCardMatch) else Some ("", NoMatch)
        else
          let '(closestEncloser', sourceOfSynthesis', ok') := splitQuery closestEncloser in
          findLoop fuel' z closestEncloser' sourceOfSynthesis' ok'
      else Some ("", NoMatch)
  end.

(** Each round shortens the closest encloser, so one round per byte and one to
    leave the loop are enough ([findLoop_terminates]). *)
Definition FindLocation (z : Zone) (query : string) : string * Match :=
  if String.eqb query (z_Name z) then (query, ExactMatch)
  else
    let query := TrimSuffix query ("." +:+ z_Name z) in
    if keyExists z query then (query, ExactMatch)
    else
      let '(ce, ss, ok) := splitQuery query in
      match findLoop (slen query + 2) z ce ss ok with
      | Some r => r
      | None => ("", NoMatch)
      end.

(** ** Termination and soundness of the search *)

Lemma splitQuery_shorter q ce ss ok :
  splitQuery q = (ce, ss, ok) -> (ok = false /\ ce = "") \/ (slen ce < slen q)%nat.
Proof.
  unfold splitQuery, SplitAfterN2. destruct (String.eqb_spec q "") as [->|Hq]; [by intros [= <- <- <-]; left|].
  right. destruct (cut_after dot q) as [[a b]|] eqn:E; simplify_eq.
  - apply cut_after_Some in E as (l & -> & _). rewrite slen_app. simpl. lia.
  - destruct q; [done|]. simpl. lia.
Qed.

Lemma splitQuery_ok q ce ss : splitQuery q = (ce, ss, true) -> q <> "".
Proof. unfold splitQuery. by destruct (String.eqb_spec q ""). Qed.

Lemma findLoop_fuel fuel z ce ss ok :
  (slen ce + 2 <= fuel)%nat -> findLoop fuel z ce ss ok <> None.
Proof.
  revert ce ss ok. induction fuel as [|fuel IH]; intros ce ss ok Hf; [lia|]. simpl.
  destruct ok; [|done]. repeat case_match; try done.
  destruct ce as [|c ce].
  - injection H0 as <- <- <-. destruct fuel; [simpl in Hf; lia|done].
  - apply IH. apply splitQuery_shorter in H0 as [[_ ->]|]; simpl in *; lia.
Qed.

(** The wildcard search of [FindLocation] terminates on every zone and every
    query: one round per byte of the query, plus two, always reaches a result. *)
Theorem findLoop_terminates z query ce ss ok :
  splitQuery query = (ce, ss, ok) ->
  exists r, findLoop (slen query + 2) z ce ss ok = Some r.
Proof.
  intros H. destruct (findLoop _ z ce ss ok) eqn:E; [eauto|]. exfalso.
  apply findLoop_fuel in E; [done|]. apply splitQuery_shorter in H as [[_ ->]|]; simpl; lia.
Qed.

Lemma findLoop_terminates_witness :
  exists r, findLoop (slen "a.b" + 2)
    (mkZone "example.com." (mkZoneConfig "" None false false) {["*"]} None None None 0)
    "b" "*.b" true = Some r.
Proof. apply (findLoop_terminates _ "a.b"). reflexivity. Defined.

Lemma splitQuery_wild q ce ss :
  splitQuery q = (ce, ss, true) -> HasPrefix ss "*" = true.
Proof.
  unfold splitQuery, SplitAfterN2. intros H. apply HasPrefix_spec.
  repeat case_match; simplify_eq; eauto.
Qed.

Lemma findLoop_sound fuel z ce ss ok s m :
  (ok = true -> HasPrefix ss "*" = true) ->
  findLoop fuel z ce ss ok = Some (s, m) ->
  (m = WildCardMatch /\ s ∈ z_Locations z /\ HasPrefix s "*" = true) \/ (m = NoMatch /\ s = "").
Proof.
  revert ce ss ok. induction fuel as [|fuel IH]; intros ce ss ok Hss H; [done|]. simpl in H.
  destruct ok; [|by simplify_eq; right]. case_match.
  - unfold keyExists in H. case_bool_decide; simplify_eq; auto 6.
  - destruct (splitQuery ce) as [[ce' ss'] ok'] eqn:E. apply IH in H; [done|].
    intros ->. by eapply splitQuery_wild.
Qed.

(** What a match of [FindLocation] guarantees to its callers. *)
Lemma FindLocation_cases z q s m :
  FindLocation z q = (s, m) ->
  match m with
  | ExactMatch => (s = q /\ q = z_Name z) \/ (s = TrimSuffix q ("." +:+ z_Name z) /\ s ∈ z_Locations z)
  | WildCardMatch => s ∈ z_Locations z /\ HasPrefix s "*" = true
  | NoMatch => s = ""
  end.
Proof.
  unfold FindLocation. destruct (String.eqb_spec q (z_Name z)) as [->|Hn].
  { intros [= <- <-]. auto. }
  unfold keyExists. case_bool_decide as Hk; [intros [= <- <-]; auto|].
  destruct (splitQuery _) as [[ce ss] ok] eqn:E.
  destruct (findLoop _ z ce ss ok) as [[s' m']|] eqn:El; intros [= <- <-]; [|done].
  apply findLoop_sound in El as [(-> & ? & ?)|(-> & ->)]; auto.
  intros ->. by eapply splitQuery_wild.
Qed.

(** ** Label lists and the wildcard rule of RFC 4592 *)

(** A relative name as its labels, leaf first. *)
Fixpoint join (ls : list string) : string :=
  match ls with
  | [] => ""
  | [x] => x
  | x :: ls' => x +:+ "." +:+ join ls'
  end.

Definition is_label (x : string) : Prop := x <> "" /\ count_byte dot x = 0%nat.

(** RFC 4592, 2.2.2: a name exists if it or a name below it owns records; the apex
    always does. *)
Definition name_exists (L : gset (list string)) (c : list string) : Prop :=
  c = [] \/ exists l, l ∈ L /\ c `suffix_of` l.
Definition empty_non_terminal (L : gset (list string)) (q : list string) : Prop := name_exists L q /\ q ∉ L.

(** RFC 4592, 3.3.1: the closest encloser is the longest ancestor that exists. *)
Definition closest_encloser (L : gset (list string)) (q c : list string) : Prop :=
  (exists x p, q = (x :: p) ++ c) /\ name_exists L c /\
  forall x p c', q = (x :: p) ++ c' -> name_exists L c' -> c' `suffix_of` c.

(** What a query finds: its own records; nothing if it exists without records; else
    the wildcard below the closest encloser, if that is there. *)
Inductive rfc4592 (L : gset (list string)) (q : list string) : list string -> Match -> Prop :=
  | rfc_exact : q ∈ L -> rfc4592 L q q ExactMatch
  | rfc_no_data : empty_non_terminal L q -> rfc4592 L q [] NoMatch
  | rfc_synthesis c : ~ name_exists L q -> closest_encloser L q c -> "*" :: c ∈ L -> rfc4592 L q ("*" :: c) WildCardMatch
  | rfc_name_error c : ~ name_exists L q -> closest_encloser L q c -> "*" :: c ∉ L -> rfc4592 L q [] NoMatch.

(** A name that exists without records, below an encloser with a wildcard. *)
Definition shadowed (L : gset (list string)) (q : list string) : Prop :=
  empty_non_terminal L q /\ exists c, closest_encloser L q c /\ "*" :: c ∈ L.

(** The search of the code on label lists. *)
Definition encloses (L : gset (list string)) (c : list string) : bool :=
  existsb (fun l => bool_decide (c `suffix_of` l)) (elements L).

Fixpoint synthesis (L : gset (list string)) (q : list string) : option (list string) :=
  match q with
  | [] => None
  | _ :: c =>
      if encloses L c then
        if bool_decide ("*" :: c ∈ L) then Some ("*" :: c) else None
      else synthesis L c
  end.

Definition lookup_name (L : gset (list string)) (q : list string) : list string * Match :=
  if bool_decide (q ∈ L) then (q, ExactMatch)
  else match synthesis L q with
       | Some s => (s, WildCardMatch)
       | None => ([], NoMatch)
       end.

(** The zone stores the names of [L], as label lists without empty labels. *)
Definition stores (z : Zone) (L : gset (list string)) : Prop :=
  z_Locations z = set_map join L /\ forall l, l ∈ L -> l <> [] /\ Forall is_label l.

(** No stored name ends in an ancestor of the query across a label boundary. *)
Definition aligned (L : gset (list string)) (q : list string) : Prop :=
  forall l c, l ∈ L -> c `suffix_of` q -> HasSuffix (join l) (join c) = true -> c `suffix_of` l.

Lemma join_cons x ls : ls <> [] -> join (x :: ls) = x +:+ "." +:+ join ls.
Proof. by destruct ls. Qed.

Lemma join_app c1 c2 :
  c1 <> [] -> c2 <> [] -> join (c1 ++ c2) = join c1 +:+ "." +:+ join c2.
Proof.
  intros H1 H2. induction c1 as [|x c1 IH]; [done|]. destruct c1 as [|y c1].
  - simpl app. by rewrite join_cons.
  - rewrite <- app_comm_cons, (join_cons x (y :: c1)), join_cons by done.
    rewrite IH by done. rewrite !sapp_assoc. done.
Qed.

Lemma join_nonempty ls : ls <> [] -> Forall is_label ls -> join ls <> "".
Proof.
  intros Hn Hl. destruct ls as [|x ls]; [done|]. inversion Hl as [|? ? [Hx _] _]; subst.
  destruct ls; [done|]. rewrite join_cons by done. by destruct x.
Qed.

Lemma join_inj l1 l2 :
  Forall is_label l1 -> Forall is_label l2 -> join l1 = join l2 -> l1 = l2.
Proof.
  revert l2. induction l1 as [|x l1 IH]; intros l2 H1 H2 E.
  { destruct l2; [done|]. by apply join_nonempty in H2. }
  destruct l2 as [|y l2]; [by apply join_nonempty in H1|].
  inversion H1 as [|? ? [Hx Hxd] H1']; inversion H2 as [|? ? [Hy Hyd] H2']; subst.
  apply (f_equal (cut_after dot)) in E as E'.
  destruct l1 as [|x' l1], l2 as [|y' l2]; [simpl in E; congruence|..].
  - rewrite (join_cons y) in E' by done. simpl in E'. rewrite cut_after_app in E' by done.
    apply cut_after_None in Hxd. congruence.
  - rewrite (join_cons x) in E' by done. simpl in E'. rewrite cut_after_app in E' by done.
    apply cut_after_None in Hyd. congruence.
  - rewrite !join_cons in E' by done. simpl in E'. rewrite !cut_after_app in E' by done.
    injection E' as Ex El. apply sapp_inj_r in Ex as ->. f_equal. eauto.
Qed.

Section Rfc4592.
Context (z : Zone) (L : gset (list string)) (HL : stores z L).

Lemma keyExists_join l : Forall is_label l -> keyExists z (join l) = bool_decide (l ∈ L).
Proof.
  intros Hl. destruct HL as [Hz Hs]. unfold keyExists. rewrite Hz. apply bool_decide_ext.
  rewrite elem_of_map. split; [|eauto]. intros (l' & E & Hl').
  apply join_inj in E as ->; [done..|]. by apply Hs.
Qed.

Lemma HasSuffix_join c l : c `suffix_of` l -> HasSuffix (join l) (join c) = true.
Proof.
  intros [p ->]. destruct c as [|x c]; [apply HasSuffix_empty|].
  apply HasSuffix_spec. destruct p as [|y p]; [by exists ""|].
  exists (join (y :: p) +:+ "."). by rewrite join_app, sapp_assoc.
Qed.

Lemma keyMatches_join q c :
  aligned L q -> c `suffix_of` q -> keyMatches z (join c) = encloses L c.
Proof.
  intros Ha Hc. destruct HL as [HzL Hs]. unfold keyMatches, encloses.
  apply eq_bool_prop_intro. rewrite !Is_true_true, !existsb_exists. rewrite HzL.
  setoid_rewrite <- list_elem_of_In. setoid_rewrite elem_of_elements. split.
  - intros (v & Hv & Hsuf). apply elem_of_map in Hv as (l & -> & Hl).
    exists l. split; [done|]. apply bool_decide_eq_true_2. eauto.
  - intros (l & Hl & Hsuf). bool_to_prop. exists (join l). split.
    + apply elem_of_map. eauto.
    + by apply HasSuffix_join.
Qed.

Lemma encloses_exists c : c ∈ L -> encloses L c = true.
Proof.
  intros Hc. unfold encloses. apply existsb_exists. exists c.
  rewrite <- list_elem_of_In, elem_of_elements. split; [done|]. by apply bool_decide_eq_true_2.
Qed.

Lemma ceExists_join q c :
  aligned L q -> Forall is_label q -> c `suffix_of` q ->
  keyMatches z (join c) || keyExists z (join c) = encloses L c.
Proof.
  intros Ha Hq Hc. rewrite (keyMatches_join q) by done.
  rewrite keyExists_join; [|destruct Hc as [p ->]; by apply Forall_app in Hq as [_ ?]].
  case_bool_decide as E; [by rewrite encloses_exists|apply orb_false_r].
Qed.

Lemma splitQuery_join x c :
  is_label x -> splitQuery (join (x :: c)) = (join c, join ("*" :: c), true).
Proof.
  intros [Hx Hd]. unfold splitQuery, SplitAfterN2. destruct c as [|y c].
  - simpl. destruct (String.eqb_spec x ""); [done|].
    apply cut_after_None in Hd. by rewrite Hd.
  - rewrite !join_cons by done. destruct (String.eqb_spec (x +:+ "." +:+ join (y :: c)) "") as [E|_].
    { by destruct x. }
    simpl String.append. by rewrite cut_after_app.
Qed.

Lemma findLoop_join q c fuel :
  aligned L q -> Forall is_label q -> c `suffix_of` q -> (length c + 2 <= fuel)%nat ->
  findLoop fuel z (join c) (join ("*" :: c)) true
  = Some (match (if encloses L c then if bool_decide ("*" :: c ∈ L) then Some ("*" :: c) else None
                 else synthesis L c) with
          | Some s => (join s, WildCardMatch) | None => ("", NoMatch) end).
Proof.
  intros Ha Hq. revert c. induction fuel as [|fuel IH]; intros c Hc Hf; [lia|].
  assert (Forall is_label c) as Hlc by (destruct Hc as [p ->]; by apply Forall_app in Hq as [_ ?]).
  cbn [findLoop]. rewrite (ceExists_join q) by done. rewrite keyExists_join by (by constructor).
  destruct (encloses L c); [by case_bool_decide|].
  destruct c as [|x c]; [simpl; destruct fuel; [simpl in Hf; lia|done]|].
  inversion Hlc; subst. rewrite splitQuery_join by done.
  rewrite IH; [done| |simpl in Hf; lia]. etrans; [|done]. by exists [x].
Qed.

Lemma length_join ls : Forall is_label ls -> (length ls <= slen (join ls))%nat.
Proof.
  induction 1 as [|x ls [Hx _] Hls IH]; simpl; [lia|]. destruct ls as [|y ls].
  - destruct x; simpl; [done|lia].
  - rewrite !slen_app. simpl slen. destruct x; simpl in *; [done|lia].
Qed.
End Rfc4592.

(** [FindLocation] searches label lists, where nothing is misaligned. *)
Lemma FindLocation_labels z L q :
  stores z L -> aligned L q -> Forall is_label q -> q <> [] ->
  FindLocation z (join q +:+ "." +:+ z_Name z)
  = let '(l, m) := lookup_name L q in (join l, m).
Proof.
  intros HL Ha Hq Hn. unfold FindLocation.
  destruct (String.eqb_spec (join q +:+ "." +:+ z_Name z) (z_Name z)) as [E|_].
  { apply (f_equal slen) in E. rewrite !slen_app in E. simpl in E. lia. }
  rewrite TrimSuffix_app. unfold lookup_name. rewrite (keyExists_join z L) by done.
  case_bool_decide; [done|]. destruct q as [|x c]; [done|]. inversion Hq; subst.
  rewrite splitQuery_join by done. rewrite (findLoop_join z L HL (x :: c)); try done.
  - simpl. repeat case_match; simplify_eq; done.
  - by exists [x].
  - pose proof (length_join _ Hq). simpl in *. lia.
Qed.

(** ** The search finds what the RFC asks for *)

Lemma encloses_spec L c : encloses L c = true <-> exists l, l ∈ L /\ c `suffix_of` l.
Proof.
  unfold encloses. rewrite existsb_exists. setoid_rewrite <- list_elem_of_In. setoid_rewrite elem_of_elements.
  by setoid_rewrite bool_decide_eq_true.
Qed.

Lemma closest_encloser_unique L q c c' : closest_encloser L q c -> closest_encloser L q c' -> c = c'.
Proof.
  intros ((x & p & E) & He & Hm) ((x' & p' & E') & He' & Hm').
  pose proof (Hm x' p' c' E' He') as [k ->]. pose proof (Hm' x p _ E He) as [k' Hk]. apply (f_equal length) in Hk as Hl.
  rewrite !length_app in Hl. by destruct k; [|simpl in Hl; lia].
Qed.

(** The closest encloser of a name is its parent if that exists, and else that of
    its parent. *)
Lemma closest_encloser_parent L x c : name_exists L c -> closest_encloser L (x :: c) c.
Proof.
  intros Hc. split; [by exists x, []|]. split; [done|]. intros y p c' [= _ ->] _. by exists p.
Qed.

Lemma closest_encloser_up L x q c : ~ name_exists L q -> closest_encloser L q c -> closest_encloser L (x :: q) c.
Proof.
  intros Hq ((y & p & ->) & Hc & Hm). split; [by exists x, (y :: p)|]. split; [done|].
  intros z p' c' E He. injection E as -> E. destruct p' as [|z' p'].
  - simpl in E. subst c'. done.
  - by apply (Hm z' p').
Qed.

Lemma synthesis_spec L q : L <> ∅ -> q <> [] -> exists c, closest_encloser L q c /\
  synthesis L q = if bool_decide ("*" :: c ∈ L) then Some ("*" :: c) else None.
Proof.
  intros HL. induction q as [|x q IH]; [done|]. intros _. cbn [synthesis].
  destruct (encloses L q) eqn:Hq.
  - exists q. split; [|done]. apply closest_encloser_parent. right. by apply encloses_spec.
  - assert (q <> []) as Hne.
    { intros ->. apply set_choose_L in HL as [l Hl]. enough (encloses L [] = true) by congruence.
      apply encloses_spec. exists l. split; [done|apply suffix_nil]. }
    destruct (IH Hne) as (c & Hc & ->). exists c. split; [|done]. apply closest_encloser_up; [|done].
    intros [->|He]; [done|]. apply encloses_spec in He. congruence.
Qed.

Lemma synthesis_empty q : synthesis ∅ q = None.
Proof. induction q as [|x q IH]; [done|]. cbn [synthesis]. by destruct (encloses ∅ q) eqn:E; [apply encloses_spec in E as (? & ? & _)|]. Qed.

Lemma closest_encloser_empty q : q <> [] -> closest_encloser ∅ q [].
Proof.
  intros Hq. split; [destruct q as [|x q]; [done|]; exists x, q; by rewrite app_nil_r|]. split; [by left|].
  intros x p c _ [->|(l & Hl & _)]; [done|set_solver].
Qed.

Lemma lookup_name_rfc L q : q <> [] -> ~ shadowed L q -> rfc4592 L q (lookup_name L q).1 (lookup_name L q).2.
Proof.
  intros Hn Hsh. unfold lookup_name. case_bool_decide as Hq; [by constructor|].
  assert (exists c, closest_encloser L q c /\ synthesis L q = if bool_decide ("*" :: c ∈ L) then Some ("*" :: c) else None)
    as (c & Hc & ->).
  { destruct (decide (L = ∅)) as [->|HL]; [|by apply synthesis_spec]. exists []. split; [by apply closest_encloser_empty|].
    rewrite synthesis_empty. by rewrite bool_decide_false by set_solver. }
  destruct (decide (encloses L q = true)) as [He|He].
  - assert (empty_non_terminal L q) as Hent by (split; [right; by apply encloses_spec|done]).
    rewrite bool_decide_false; [by constructor|]. intros Hw. apply Hsh. by split; [|exists c].
  - assert (~ name_exists L q) as Hne by (intros [->|Hx]; [done|by apply He, encloses_spec]).
    case_bool_decide; [by apply rfc_synthesis|by apply (rfc_name_error _ _ c)].
Qed.

(** The outcome the RFC prescribes is unique. *)
Lemma rfc4592_unique L q l m l' m' : rfc4592 L q l m -> rfc4592 L q l' m' -> l = l' /\ m = m'.
Proof.
  assert (q ∈ L -> name_exists L q) as Hown by (intros H; right; by exists q).
  intros [H|[H1 H2]|c H Hc Hw|c H Hc Hw] [H'|[H1' H2']|c' H' Hc' Hw'|c' H' Hc' Hw']; try done; try (by destruct H; auto); try (by destruct H'; auto).
  all: pose proof (closest_encloser_unique _ _ _ _ Hc Hc') as ->; done.
Qed.


Definition z_example (locs : gset string) : Zone :=
  mkZone "example.net." (mkZoneConfig "" None false false) locs None None None 0.

(** The zone of RFC 4592, 2.2.1, and the query of 2.2.1 that is synthesized. *)
Definition rfc_names : gset (list string) :=
  {[["*"]; ["sub"; "*"]; ["host1"]; ["_ssh"; "_tcp"; "host1"]; ["_ssh"; "_tcp"; "host2"]; ["subdel"]]}.

Lemma elem_rfc_names l : l ∈ rfc_names -> l ∈ [["*"]; ["sub"; "*"]; ["host1"]; ["_ssh"; "_tcp"; "host1"]; ["_ssh"; "_tcp"; "host2"]; ["subdel"]].
Proof. unfold rfc_names. set_solver. Qed.


(** The suffix test of [keyMatches] is textual, so a stored name that merely
    ends in the bytes of an ancestor of the query hides the wildcard that the
    label rule selects: with locations [*] and [ab], the query [x.b] finds no
    location although [*] is its source of synthesis. *)
Theorem FindLocation_misaligned :
  FindLocation (z_example {["*"; "ab"]}) "x.b.example.net." = ("", NoMatch) /\
  rfc4592 {[["*"]; ["ab"]]} ["x"; "b"] ["*"] WildCardMatch.
Proof.
  split; [vm_compute; reflexivity|]. assert (lookup_name {[["*"]; ["ab"]]} ["x"; "b"] = (["*"], WildCardMatch)) as E by (vm_compute; reflexivity).
  pose proof (lookup_name_rfc {[["*"]; ["ab"]]} ["x"; "b"]) as H. rewrite E in H. apply H; [done|].
  intros [[[|(l & Hl & k & Ek)] _] _]; [done|]. rewrite elem_of_union, !elem_of_singleton in Hl.
  destruct Hl; subst l; (destruct k as [|? [|? ?]]; simplify_eq/=).
Qed.

(** A name that exists without records is not protected from the wildcard: in the
    zone of the RFC, [host2] exists because [_ssh._tcp.host2] does, but the query
    for it is answered from the wildcard. *)
Theorem FindLocation_empty_non_terminal :
  FindLocation (z_example (set_map join rfc_names)) "host2.example.net." = ("*", WildCardMatch) /\
  rfc4592 rfc_names ["host2"] [] NoMatch.
Proof.
  split; [vm_compute; reflexivity|]. apply rfc_no_data. split.
  - right. exists ["_ssh"; "_tcp"; "host2"]. split; [unfold rfc_names; set_solver|]. by exists ["_ssh"; "_tcp"].
  - intros H%elem_rfc_names. rewrite !elem_of_cons, elem_of_nil in H. by destruct_or! H.
Qed.
