(* ===== verification/OrderIps.v ===== *)
(** [OrderIps] of handler/handler.go: the choice and rotation of the addresses
    that the health and geo filters left white. *)
From S2P Require Import Prelude GoStrings DnsTypes.

(** The mask values of handler.go, [IpMaskWhite = iota] and so on. *)
Inductive IpMask := IpMaskWhite | IpMaskGrey | IpMaskBlack.

#[global] Instance IpMask_eq_dec : EqDecision IpMask.
Proof. solve_decision. Defined.

(** The loops of [OrderIps] walk [mask] and [rrset.Data] in step. *)

(** [count] and [sum]; reading [rrset.Data[i]] past the end panics. *)
Fixpoint tally (data : list IP_RR) (mask : list IpMask) (count sum : Z) : Outcome (Z * Z) :=
  match mask, data with
  | [], _ => Done (count, sum)
  | IpMaskWhite :: mask', d :: data' => tally data' mask' (count + 1) (i64 (sum + ip_Weight d))
  | IpMaskWhite :: _, [] => Panic
  | _ :: mask', _ => tally (tail data) mask' count sum
  end.

(** [s -= Weight; if s < 0 { index = i; break }] *)
Fixpoint pickWeighted (data : list IP_RR) (mask : list IpMask) (i : nat) (s : Z) : option nat :=
  match mask, data with
  | IpMaskWhite :: mask', d :: data' =>
      let s' := i64 (s - ip_Weight d) in
      if s' <? 0 then Some i else pickWeighted data' mask' (S i) s'
  | _ :: mask', _ => pickWeighted (tail data) mask' (S i) s
  | [], _ => None
  end.

(** [if r == 0 { index = i; break }; r--] *)
Fixpoint pickNth (mask : list IpMask) (i : nat) (r : Z) : option nat :=
  match mask with
  | IpMaskWhite :: mask' => if r =? 0 then Some i else pickNth mask' (S i) (r - 1)
  | _ :: mask' => pickNth mask' (S i) r
  | [] => None
  end.

Fixpoint pickFirst (mask : list IpMask) (i : nat) : option nat :=
  match mask with
  | IpMaskWhite :: _ => Some i
  | _ :: mask' => pickFirst mask' (S i)
  | [] => None
  end.

(** The addresses of the white positions, in order. *)
Fixpoint collect (data : list IP_RR) (mask : list IpMask) : list IP :=
  match mask, data with
  | IpMaskWhite :: mask', d :: data' => ip_Ip d :: collect data' mask'
  | _ :: mask', _ => collect (tail data) mask'
  | [], _ => []
  end.

(** The index chosen by the [if] chain on [rrset.FilterConfig.Order];
    [ns] is what [time.Now().Nanosecond()] returned. *)
Definition pickIndex (ns : Z) (rrset : IP_RRSet) (mask : list IpMask) (count sum : Z) : option nat :=
  let order := fc_Order (FilterConfig rrset) in
  if String.eqb order "weighted" && (0 <? sum) then
    pickWeighted (ip_Data rrset) mask 0 (Z.rem ns sum)
  else if String.eqb order "rr" || (String.eqb order "weighted" && (sum =? 0)) then
    pickNth mask 0 (Z.rem ns count)
  else pickFirst mask 0.

Definition OrderIps (ns : Z) (rrset : IP_RRSet) (mask : list IpMask) : Outcome (list IP) :=
  '(count, sum) ← tally (ip_Data rrset) mask 0 0;
  if count =? 0 then mret []
  else match pickIndex ns rrset mask count sum with
       | None => mret []
       | Some index =>
           if String.eqb (fc_Count (FilterConfig rrset)) "single" then
             match ip_Data rrset !! index with
             | Some d => mret [ip_Ip d]
             | None => Panic
             end
           else
             mret (collect (drop index (ip_Data rrset)) (drop index mask)
                   ++ collect (take index (ip_Data rrset)) (take index mask))
       end.

(** ** Counting lemmas *)

(** Number of white positions and total weight of the white positions. *)
Fixpoint nwhite (mask : list IpMask) : Z :=
  match mask with
  | [] => 0
  | IpMaskWhite :: mask' => 1 + nwhite mask'
  | _ :: mask' => nwhite mask'
  end.

Fixpoint wsum (data : list IP_RR) (mask : list IpMask) : Z :=
  match mask, data with
  | IpMaskWhite :: mask', d :: data' => ip_Weight d + wsum data' mask'
  | _ :: mask', _ => wsum (tail data) mask'
  | [], _ => 0
  end.

Definition total_weight (data : list IP_RR) : Z := foldr (fun d n => ip_Weight d + n) 0 data.

(** Weights are not negative and their sum fits Go's [int]. *)
Definition weights_ok (data : list IP_RR) : Prop :=
  Forall (fun d => 0 <= ip_Weight d) data /\ total_weight data < 2 ^ 63.

Lemma total_weight_nonneg data : Forall (fun d => 0 <= ip_Weight d) data -> 0 <= total_weight data.
Proof. unfold total_weight. induction 1; simpl; lia. Qed.

Lemma weights_ok_cons d data :
  weights_ok (d :: data) -> 0 <= ip_Weight d < 2 ^ 63 /\ weights_ok data.
Proof.
  intros [H Hs]. apply Forall_cons in H as [Hd H]. pose proof (total_weight_nonneg _ H).
  unfold weights_ok, total_weight in *. simpl in Hs. repeat split; try done; lia.
Qed.

Lemma weights_ok_tail data : weights_ok data -> weights_ok (tail data).
Proof. destruct data; [done|]. by intros [_ ?]%weights_ok_cons. Qed.

Lemma nwhite_nonneg mask : 0 <= nwhite mask.
Proof. induction mask as [|[] mask IH]; simpl; lia. Qed.

Lemma wsum_nonneg data mask : Forall (fun d => 0 <= ip_Weight d) data -> 0 <= wsum data mask.
Proof.
  intros H. revert mask. induction H as [|d data Hd H IH]; intros mask.
  - induction mask as [|[] mask IH]; simpl; [done|apply IH..].
  - destruct mask as [|[] mask]; simpl; [done|specialize (IH mask); lia..].
Qed.

Lemma wsum_bound data mask : weights_ok data -> 0 <= wsum data mask <= total_weight data.
Proof.
  revert data. induction mask as [|x mask IH]; intros data H; simpl.
  - split; [done|]. apply total_weight_nonneg, H.
  - destruct data as [|d data].
    + specialize (IH [] H). by destruct x.
    + apply weights_ok_cons in H as [Hd H]. specialize (IH data H).
      unfold total_weight in *. destruct x; simpl; lia.
Qed.

Lemma tally_spec data mask count sum :
  (length mask <= length data)%nat -> weights_ok data ->
  0 <= sum -> sum + total_weight data < 2 ^ 63 ->
  tally data mask count sum = Done (count + nwhite mask, sum + wsum data mask).
Proof.
  revert data count sum. induction mask as [|x mask IH]; intros data count sum Hl Hw Hs Ht; simpl.
  { by rewrite !Z.add_0_r. }
  destruct data as [|d data]; [simpl in Hl; lia|]. apply weights_ok_cons in Hw as [Hd Hw].
  pose proof (total_weight_nonneg data (proj1 Hw)). unfold total_weight in Ht, IH, H.
  simpl in Ht, Hl. rewrite i64_id by (unfold in_i64; lia).
  destruct x; simpl; rewrite IH by (try done; unfold total_weight; lia); f_equal; f_equal; lia.
Qed.

Lemma collect_nil data mask : nwhite mask = 0 -> collect data mask = [].
Proof.
  revert data. induction mask as [|[] mask IH]; intros data H; simpl in *; auto.
  pose proof (nwhite_nonneg mask). lia.
Qed.

(** Both loops cut at the same position. *)
Lemma collect_split k data mask :
  collect data mask = collect (take k data) (take k mask) ++ collect (drop k data) (drop k mask).
Proof.
  revert data mask. induction k as [|k IH]; intros data mask; [done|].
  destruct mask as [|x mask]; [by destruct data|].
  destruct data as [|d data]; destruct x; simpl; rewrite (IH _ mask); rewrite ?take_nil, ?drop_nil; done.
Qed.

Lemma elem_of_collect data mask k d :
  mask !! k = Some IpMaskWhite -> data !! k = Some d -> ip_Ip d ∈ collect data mask.
Proof.
  revert data mask. induction k as [|k IH]; intros data mask Hm Hd;
    destruct data as [|d0 data], mask as [|x mask]; simplify_eq/=; [left|].
  destruct x; [right|..]; eauto.
Qed.

(** ** The three ways to pick the first address *)

(** Total weight of the white positions before [k]. *)
Definition wbefore (data : list IP_RR) (mask : list IpMask) (k : nat) : Z :=
  wsum (take k data) (take k mask).

Lemma pickWeighted_shift data mask i s :
  pickWeighted data mask (S i) s = S <$> pickWeighted data mask i s.
Proof.
  revert data i s. induction mask as [|[] mask IH]; intros data i s; simpl; auto.
  destruct data; simpl; auto. by case_match.
Qed.

Lemma pickNth_shift mask i r : pickNth mask (S i) r = S <$> pickNth mask i r.
Proof. revert i r. induction mask as [|[] mask IH]; intros i r; simpl; auto. by case_match. Qed.

Lemma pickFirst_shift mask i : pickFirst mask (S i) = S <$> pickFirst mask i.
Proof. revert i. induction mask as [|[] mask IH]; intros i; simpl; auto. Qed.

Lemma fmap_S_Some (o : option nat) k : S <$> o = Some k <-> exists k', k = S k' /\ o = Some k'.
Proof. destruct o; simpl; naive_solver. Qed.

Lemma pickWeighted_iff data mask s k :
  weights_ok data -> (length mask <= length data)%nat -> 0 <= s < 2 ^ 63 ->
  pickWeighted data mask 0 s = Some k <->
  exists d, mask !! k = Some IpMaskWhite /\ data !! k = Some d /\
    wbefore data mask k <= s < wbefore data mask k + ip_Weight d.
Proof.
  revert data s k. unfold wbefore.
  induction mask as [|x mask IH]; intros data s k Hw Hl Hs; simpl.
  { split; [done|]. by intros (? & ? & _). }
  destruct data as [|d data]; [simpl in Hl; lia|]. apply weights_ok_cons in Hw as [Hd Hw].
  assert (length mask <= length data)%nat as Hl' by (simpl in Hl; lia).
  rewrite i64_id by (unfold in_i64; lia). rewrite !pickWeighted_shift.
  assert (forall j, 0 <= wsum (take j data) (take j mask)) as Hpos
    by (intros j; apply wsum_nonneg, Forall_take, Hw).
  destruct x; [destruct (Z.ltb_spec (s - ip_Weight d) 0)|..]; destruct k as [|k]; simpl;
    rewrite ?fmap_S_Some.
  - split; [intros _; exists d; repeat split; lia|done].
  - split; [done|]. intros (d' & _ & _ & H'). specialize (Hpos k). lia.
  - split; [by intros (? & ? & _)|]. intros (d' & _ & [= <-] & H'). lia.
  - transitivity (pickWeighted data mask 0 (s - ip_Weight d) = Some k); [naive_solver|].
    rewrite IH by (done || lia). split; intros (d' & ? & ? & ?); exists d'; repeat split; try done; lia.
  - split; [by intros (? & ? & _)|by intros (? & ? & _)].
  - transitivity (pickWeighted data mask 0 s = Some k); [naive_solver|]. by rewrite IH.
  - split; [by intros (? & ? & _)|by intros (? & ? & _)].
  - transitivity (pickWeighted data mask 0 s = Some k); [naive_solver|]. by rewrite IH.
Qed.

Lemma wbefore_bound data mask k d :
  weights_ok data -> mask !! k = Some IpMaskWhite -> data !! k = Some d ->
  0 <= wbefore data mask k /\ wbefore data mask k + ip_Weight d <= wsum data mask.
Proof.
  unfold wbefore. intros Hw Hm Hd. split; [apply wsum_nonneg, Forall_take, Hw|].
  revert data mask Hw Hm Hd. induction k as [|k IH]; intros data mask Hw Hm Hd;
    destruct data as [|d0 data], mask as [|x mask]; simplify_eq/=;
    apply weights_ok_cons in Hw as [Hd0 Hw].
  - pose proof (wsum_bound data mask Hw). lia.
  - specialize (IH data mask Hw Hm Hd). destruct x; simpl; lia.
Qed.

Lemma pickWeighted_found data mask i s :
  weights_ok data -> (length mask <= length data)%nat -> 0 <= s < wsum data mask ->
  is_Some (pickWeighted data mask i s).
Proof.
  revert data i s. induction mask as [|x mask IH]; intros data i s Hw Hl Hs; simpl in *; [lia|].
  destruct data as [|d data]; simpl in *; [lia|]. apply weights_ok_cons in Hw as [Hd Hw].
  pose proof (wsum_bound data mask Hw). pose proof (proj2 Hw).
  destruct x; simpl in *; [|by apply IH; auto with lia..].
  rewrite i64_id by (unfold in_i64; lia).
  case_match; [eauto|]. bool_to_prop. apply IH; auto with lia.
Qed.

Lemma pickNth_iff mask r k :
  0 <= r ->
  pickNth mask 0 r = Some k <-> mask !! k = Some IpMaskWhite /\ nwhite (take k mask) = r.
Proof.
  revert r k. induction mask as [|x mask IH]; intros r k Hr; simpl.
  { split; [done|]. by intros [? _]. }
  rewrite !pickNth_shift. pose proof (nwhite_nonneg (take (pred k) mask)) as Hp.
  destruct x; [destruct (Z.eqb_spec r 0) as [->|Hr0]|..]; destruct k as [|k]; simpl in *;
    rewrite ?fmap_S_Some.
  - done.
  - split; [done|]. intros [_ H']. lia.
  - split; [by intros (? & ? & _)|]. intros [_ ?]. lia.
  - transitivity (pickNth mask 0 (r - 1) = Some k); [naive_solver|]. rewrite IH by lia.
    split; intros [? ?]; split; try done; lia.
  - split; [by intros (? & ? & _)|by intros (? & _)].
  - transitivity (pickNth mask 0 r = Some k); [naive_solver|]. by rewrite IH.
  - split; [by intros (? & ? & _)|by intros (? & _)].
  - transitivity (pickNth mask 0 r = Some k); [naive_solver|]. by rewrite IH.
Qed.

Lemma pickNth_found mask i r : 0 <= r < nwhite mask -> is_Some (pickNth mask i r).
Proof.
  revert i r. induction mask as [|[] mask IH]; intros i r Hr; simpl in *; [lia| |eauto..].
  case_match; [eauto|]. bool_to_prop. apply IH. lia.
Qed.

Lemma pickFirst_found mask i : 0 < nwhite mask -> is_Some (pickFirst mask i).
Proof. revert i. induction mask as [|[] mask IH]; intros i H; simpl in *; [lia|eauto..]. Qed.

Lemma pickFirst_spec mask k :
  pickFirst mask 0 = Some k -> mask !! k = Some IpMaskWhite /\ nwhite (take k mask) = 0.
Proof.
  revert k. induction mask as [|x mask IH]; intros k H; [done|]. simpl in H.
  rewrite pickFirst_shift in H. destruct x; [by simplify_eq|..];
    apply fmap_S_Some in H as (k' & -> & H); simpl; auto.
Qed.

(** The index chosen is a white position, and there is one when any position is white. *)
Lemma pickIndex_white ns rrset mask k :
  weights_ok (ip_Data rrset) -> (length mask <= length (ip_Data rrset))%nat -> 0 <= ns ->
  0 < nwhite mask ->
  pickIndex ns rrset mask (nwhite mask) (wsum (ip_Data rrset) mask) = Some k ->
  mask !! k = Some IpMaskWhite.
Proof.
  intros Hw Hl Hn Hc. pose proof (wsum_bound (ip_Data rrset) mask Hw). pose proof (proj2 Hw).
  unfold pickIndex. repeat case_match; bool_to_prop; intros E.
  - apply pickWeighted_iff in E as (d & ? & _); try done.
    rewrite Z.rem_mod_nonneg by lia. pose proof (Z.mod_pos_bound ns (wsum (ip_Data rrset) mask)). lia.
  - apply pickNth_iff in E as [? _]; [done|]. rewrite Z.rem_mod_nonneg by lia.
    apply Z.mod_pos_bound. lia.
  - by apply pickFirst_spec in E as [? _].
Qed.

Lemma pickIndex_found ns rrset mask :
  weights_ok (ip_Data rrset) -> (length mask <= length (ip_Data rrset))%nat -> 0 <= ns ->
  0 < nwhite mask ->
  is_Some (pickIndex ns rrset mask (nwhite mask) (wsum (ip_Data rrset) mask)).
Proof.
  intros Hw Hl Hn Hc. unfold pickIndex. repeat case_match; bool_to_prop.
  - apply pickWeighted_found; [done..|]. rewrite Z.rem_mod_nonneg by lia. by apply Z.mod_pos_bound.
  - apply pickNth_found. rewrite Z.rem_mod_nonneg by lia. by apply Z.mod_pos_bound.
  - by apply pickFirst_found.
Qed.

(** ** What [OrderIps] returns *)

Lemma OrderIps_unfold ns rrset mask :
  weights_ok (ip_Data rrset) -> length mask = length (ip_Data rrset) -> 0 <= ns ->
  (nwhite mask = 0 /\ OrderIps ns rrset mask = Done []) \/
  exists k d, mask !! k = Some IpMaskWhite /\ ip_Data rrset !! k = Some d /\
    pickIndex ns rrset mask (nwhite mask) (wsum (ip_Data rrset) mask) = Some k /\
    OrderIps ns rrset mask
    = Done (if String.eqb (fc_Count (FilterConfig rrset)) "single" then [ip_Ip d]
            else collect (drop k (ip_Data rrset)) (drop k mask)
                 ++ collect (take k (ip_Data rrset)) (take k mask)).
Proof.
  intros Hw Hl Hn. unfold OrderIps. rewrite tally_spec; try done; [|lia|apply Hw].
  rewrite !Z.add_0_l. simpl. pose proof (nwhite_nonneg mask).
  destruct (Z.eqb_spec (nwhite mask) 0); [by left|right].
  destruct (pickIndex_found ns rrset mask) as [k Hk]; try done; try lia.
  rewrite Hk. apply pickIndex_white in Hk as Hm; try done; try lia.
  destruct (lookup_lt_is_Some_2 (ip_Data rrset) k) as [d Hd].
  { rewrite <- Hl. by eapply lookup_lt_Some. }
  exists k, d. rewrite Hd. by case_match.
Qed.

(** C9: [OrderIps] returns only addresses the filters left white and loses none.
    With non-negative weights whose sum fits an [int] and one mask entry per
    record it never panics; in "single" mode the answer is one white address
    (none if nothing is white), in every other mode it is a rotation of the
    white addresses in stored order. *)
Theorem OrderIps_rotation ns rrset mask :
  weights_ok (ip_Data rrset) -> length mask = length (ip_Data rrset) -> 0 <= ns ->
  exists ips, OrderIps ns rrset mask = Done ips /\
    if String.eqb (fc_Count (FilterConfig rrset)) "single" then
      (collect (ip_Data rrset) mask = [] /\ ips = []) \/
      (exists ip, ip ∈ collect (ip_Data rrset) mask /\ ips = [ip])
    else exists l1 l2, collect (ip_Data rrset) mask = l1 ++ l2 /\ ips = l2 ++ l1.
Proof.
  intros Hw Hl Hn.
  destruct (OrderIps_unfold ns rrset mask) as [[H0 ->]|(k & d & Hm & Hd & _ & ->)]; try done.
  - eexists; split; [done|]. rewrite (collect_nil _ _ H0). case_match; [by left|by exists [], []].
  - eexists; split; [done|]. case_match.
    + right. eauto using elem_of_collect.
    + rewrite (collect_split k). eauto.
Qed.

Definition example_rrset (order count : string) : IP_RRSet :=
  mkIP_RRSet (mkIpFilterConfig count order "none")
    (mkIpHealthCheckConfig "" "" 0 0 0 0 false) 300
    [mkIP_RR 4 (Some [1;2;3;4]) [] []; mkIP_RR 1 (Some [2;3;4;5]) [] [];
     mkIP_RR 5 (Some [3;4;5;6]) [] []].

Lemma OrderIps_rotation_witness :
  exists ips, OrderIps 123 (example_rrset "weighted" "multi")
    [IpMaskWhite; IpMaskBlack; IpMaskWhite] = Done ips /\
    exists l1 l2, collect (ip_Data (example_rrset "weighted" "multi"))
      [IpMaskWhite; IpMaskBlack; IpMaskWhite] = l1 ++ l2 /\ ips = l2 ++ l1.
Proof.
  apply (OrderIps_rotation 123 (example_rrset "weighted" "multi")
           [IpMaskWhite; IpMaskBlack; IpMaskWhite]).
  - split; [|done]. by repeat constructor.
  - done.
  - done.
Defined.

(** The address that an answer puts first. *)
Definition first_of (o : Outcome (list IP)) : option IP := match o with Done (ip :: _) => Some ip | _ => None end.

(** With different white addresses, the address tells the position. *)
Lemma collect_inj data mask k k' d d' : length mask = length data -> NoDup (collect data mask) ->
  mask !! k = Some IpMaskWhite -> data !! k = Some d -> mask !! k' = Some IpMaskWhite -> data !! k' = Some d' ->
  ip_Ip d = ip_Ip d' -> k = k'.
Proof.
  revert data k k'. induction mask as [|x mask IH]; intros [|d0 data] k k' Hl Hnd Hm Hd Hm' Hd' He; simplify_eq/=.
  assert (NoDup (collect data mask)) as Hnd' by (destruct x; simpl in Hnd; [by apply NoDup_cons in Hnd as [_ ?]|done..]).
  destruct k as [|k], k' as [|k']; simplify_eq/=; [done| | |f_equal; by eapply IH].
  - apply NoDup_cons in Hnd as [Hn _]. destruct Hn. rewrite He. by eapply elem_of_collect.
  - apply NoDup_cons in Hnd as [Hn _]. destruct Hn. rewrite <- He. by eapply elem_of_collect.
Qed.

(** Which record comes first is the choice of [pickIndex], in every mode. *)
Lemma first_of_OrderIps ns rrset mask k d :
  weights_ok (ip_Data rrset) -> length mask = length (ip_Data rrset) -> 0 <= ns -> NoDup (collect (ip_Data rrset) mask) ->
  mask !! k = Some IpMaskWhite -> ip_Data rrset !! k = Some d ->
  first_of (OrderIps ns rrset mask) = Some (ip_Ip d) <->
  pickIndex ns rrset mask (nwhite mask) (wsum (ip_Data rrset) mask) = Some k.
Proof.
  intros Hw Hl Hn Hnd Hm Hd.
  destruct (OrderIps_unfold ns rrset mask) as [[H0 _]|(k' & d' & Hm' & Hd' & -> & ->)]; try done.
  { apply (elem_of_collect (ip_Data rrset) _ k d) in Hm; [|done]. rewrite (collect_nil _ _ H0) in Hm. by apply elem_of_nil in Hm. }
  assert (first_of (Done (if String.eqb (fc_Count (FilterConfig rrset)) "single" then [ip_Ip d']
    else collect (drop k' (ip_Data rrset)) (drop k' mask) ++ collect (take k' (ip_Data rrset)) (take k' mask))) = Some (ip_Ip d')) as ->.
  { case_match; [done|]. by rewrite (drop_S _ _ _ Hd'), (drop_S _ _ _ Hm'). }
  split; [|by intros [= ->]; simplify_eq]. intros [= He]. f_equal. by eapply collect_inj.
Qed.

(** C10: "weighted" order is fair.  Let the addresses left white differ, and let
    [sum] be their total weight.  Of [sum] consecutive values of the clock, starting
    anywhere, [OrderIps] puts each of them first for exactly as many as its weight,
    in the answer of one address and in that of all; so an address of weight zero
    is never first while another has a weight. *)
Theorem OrderIps_weighted_fair rrset mask k d start :
  weights_ok (ip_Data rrset) -> length mask = length (ip_Data rrset) -> NoDup (collect (ip_Data rrset) mask) ->
  fc_Order (FilterConfig rrset) = "weighted" -> 0 < wsum (ip_Data rrset) mask -> 0 <= start ->
  mask !! k = Some IpMaskWhite -> ip_Data rrset !! k = Some d ->
  Z.of_nat (length (filter (fun ns => first_of (OrderIps ns rrset mask) = Some (ip_Ip d))
    (seqZ start (wsum (ip_Data rrset) mask)))) = ip_Weight d.
Proof.
  intros Hw Hl Hnd Ho Hs Hst Hm Hd. pose proof (wsum_bound (ip_Data rrset) mask Hw). pose proof (proj2 Hw).
  destruct (wbefore_bound _ _ _ _ Hw Hm Hd) as [Hb1 Hb2].
  assert (0 <= ip_Weight d) by (eapply (Forall_lookup_1 _ _ _ _ (proj1 Hw)); eauto).
  apply (length_filter_seqZ_residue _ _ _ (wbefore (ip_Data rrset) mask k)); [lia..|].
  intros ns Hns. rewrite (first_of_OrderIps ns rrset mask k d) by (done || lia). unfold pickIndex. rewrite Ho. simpl.
  replace (0 <? wsum (ip_Data rrset) mask) with true by (symmetry; by apply Z.ltb_lt).
  rewrite Z.rem_mod_nonneg by lia. pose proof (Z.mod_pos_bound ns (wsum (ip_Data rrset) mask)).
  rewrite pickWeighted_iff by (done || lia). split; [intros (d' & _ & ? & ?); simplify_eq; lia|]. intros. by exists d.
Qed.

Lemma OrderIps_weighted_fair_witness :
  Z.of_nat (length (filter
    (fun ns => first_of (OrderIps ns (example_rrset "weighted" "multi") [IpMaskWhite; IpMaskBlack; IpMaskWhite]) = Some (Some [3;4;5;6]))
    (seqZ 1000 9))) = 5.
Proof.
  apply (OrderIps_weighted_fair (example_rrset "weighted" "multi")
    [IpMaskWhite; IpMaskBlack; IpMaskWhite] 2 (mkIP_RR 5 (Some [3;4;5;6]) [] []) 1000); try done.
  - split; [|done]. by repeat constructor.
  - simpl. repeat constructor; set_solver.
Defined.

(** "rr" order is fair: of as many consecutive values of the clock as there are
    white addresses, each of them is put first exactly once. *)
Theorem OrderIps_rr_fair rrset mask k d start :
  weights_ok (ip_Data rrset) -> length mask = length (ip_Data rrset) -> NoDup (collect (ip_Data rrset) mask) ->
  fc_Order (FilterConfig rrset) = "rr" -> 0 <= start ->
  mask !! k = Some IpMaskWhite -> ip_Data rrset !! k = Some d ->
  length (filter (fun ns => first_of (OrderIps ns rrset mask) = Some (ip_Ip d)) (seqZ start (nwhite mask))) = 1%nat.
Proof.
  intros Hw Hl Hnd Ho Hst Hm Hd. apply Nat2Z.inj.
  assert (nwhite (take k mask) < nwhite mask) as Hlt.
  { clear -Hm. revert mask Hm. induction k as [|k IH]; intros [|x mask] Hm; simplify_eq/=.
    - pose proof (nwhite_nonneg mask). lia.
    - specialize (IH mask Hm). destruct x; lia. }
  pose proof (nwhite_nonneg (take k mask)).
  apply (length_filter_seqZ_residue _ _ _ (nwhite (take k mask))); [lia..|].
  intros ns Hns. rewrite (first_of_OrderIps ns rrset mask k d) by (done || lia). unfold pickIndex. rewrite Ho. simpl.
  rewrite Z.rem_mod_nonneg by lia. pose proof (Z.mod_pos_bound ns (nwhite mask)). rewrite pickNth_iff by lia. intuition lia.
Qed.

Lemma OrderIps_rr_fair_witness :
  length (filter (fun ns => first_of (OrderIps ns (example_rrset "rr" "single") [IpMaskWhite; IpMaskBlack; IpMaskWhite]) = Some (Some [3;4;5;6]))
    (seqZ 7 2)) = 1%nat.
Proof.
  apply (OrderIps_rr_fair (example_rrset "rr" "single") [IpMaskWhite; IpMaskBlack; IpMaskWhite] 2 (mkIP_RR 5 (Some [3;4;5;6]) [] []) 7); try done.
  - split; [|done]. by repeat constructor.
  - simpl. repeat constructor; set_solver.
Defined.

(** Any other order keeps the stored order ("none"): outside "single" mode the
    answer is the white addresses as stored. *)
Lemma OrderIps_none_stored_order ns rrset mask :
  weights_ok (ip_Data rrset) -> length mask = length (ip_Data rrset) -> 0 <= ns ->
  fc_Order (FilterConfig rrset) <> "weighted" -> fc_Order (FilterConfig rrset) <> "rr" ->
  fc_Count (FilterConfig rrset) <> "single" ->
  OrderIps ns rrset mask = Done (collect (ip_Data rrset) mask).
Proof.
  intros Hw Hl Hn Ho1 Ho2 Hc.
  destruct (OrderIps_unfold ns rrset mask) as [[H0 ->]|(k & d & Hm & Hd & Hk & ->)]; try done.
  { by rewrite (collect_nil _ _ H0). }
  apply String.eqb_neq in Hc, Ho1, Ho2. rewrite Hc. f_equal.
  unfold pickIndex in Hk. rewrite Ho1, Ho2 in Hk. simpl in Hk.
  apply pickFirst_spec in Hk as [_ H0]. rewrite (collect_split k (ip_Data rrset) mask).
  by rewrite (collect_nil _ _ H0), app_nil_r.
Qed.
