(* ===== verification/GeoIp.v ===== *)
(** handler/geoip.go: filtering addresses by the client's country, network or
    distance. *)
From S2P Require Import Prelude GoStrings DnsTypes Float64 OrderIps.

(** github.com/oschwald/maxminddb-golang: an open database and its lookups;
    [None] is an error.  [Lookup_asn] takes the reader pointer as it is, since
    [GetASN] calls it without looking whether it is nil: there [None] is a panic
    and [Some None] an error. *)
Class MaxMind := {
  Reader : Type;
  Lookup_country : Reader -> IP -> option string;
  Lookup_location : Reader -> IP -> option (float64 * Z);
  Decode_longitude : Reader -> Z -> option float64;
  Lookup_asn : option Reader -> IP -> option (option Z)
}.

(** The elementary functions of package math, correctly rounded or not. *)
Class MathFns := {
  math_Sin : float64 -> float64;
  math_Cos : float64 -> float64;
  math_Atan2 : float64 -> float64 -> float64
}.

Section GeoIp.
Context `{!MaxMind} `{!MathFns}.

Record GeoIp := mkGeoIp {
  geo_Enable : bool;
  geo_CountryDB : option Reader;
  geo_ASNDB : option Reader
}.

Record GeoIpConfig := mkGeoIpConfig {
  gcfg_Enable : bool; gcfg_CountryDB : string; gcfg_ASNDB : string }.

(** [open] is maxminddb.Open; on an error the reader stays nil. *)
Definition NewGeoIp (open : string -> option Reader) (config : GeoIpConfig) : GeoIp :=
  if gcfg_Enable config then
    mkGeoIp true (open (gcfg_CountryDB config)) (open (gcfg_ASNDB config))
  else mkGeoIp false None None.

(** A Go [(T, error)] result: the value and whether an error came with it. *)
Definition GetCountry (g : GeoIp) (ip : IP) : string * bool :=
  if negb (geo_Enable g) then ("", false)
  else match geo_CountryDB g with
       | None => ("", false)
       | Some db => match Lookup_country db ip with
                    | None => ("", true)
                    | Some c => (c, false)
                    end
       end.

Definition GetASN (g : GeoIp) (ip : IP) : Outcome (Z * bool) :=
  match Lookup_asn (geo_ASNDB g) ip with
  | None => Panic
  | Some None => mret (0, true)
  | Some (Some asn) => mret (asn, false)
  end.

Definition f0 : float64 := S754_zero false.
Definition f1000 : float64 := fof 1000 0.
Definition math_Pi : float64 := fof 884279719003555 (-48).

Definition GetCoordinates (g : GeoIp) (ip : IP) : float64 * float64 * bool :=
  if negb (geo_Enable g) then (f0, f0, false)
  else match geo_CountryDB g with
       | None => (f0, f0, false)
       | Some db =>
           match Lookup_location db ip with
           | None => (f0, f0, true)
           | Some (lat, offset) =>
               (lat, match Decode_longitude db offset with Some l => l | None => f0 end, false)
           end
       end.

Definition getDistance (slat slong dlat dlong : float64) : float64 :=
  let rad x := fdiv (fmul x math_Pi) (fof 180 0) in
  let half x := fdiv x (fof 2 0) in
  let deltaLat := rad (fsub dlat slat) in
  let deltaLong := rad (fsub dlong slong) in
  let slat := rad slat in
  let dlat := rad dlat in
  let a := fadd (fmul (math_Sin (half deltaLat)) (math_Sin (half deltaLat)))
                (fmul (fmul (fmul (math_Cos slat) (math_Cos dlat)) (math_Sin (half deltaLong)))
                      (math_Sin (half deltaLong))) in
  fmul (fof 2 0) (math_Atan2 (fsqrt a) (fsqrt (fsub (fof 1 0) a))).

(** ** Same country, same AS number *)

Section Same.
(** The two filters have the same shape: [keys] is the [Country] or [ASN]
    field, [zero] the value that stands for "any". *)
Context {K : Type} `{!EqDecision K} (keys : IP_RR -> list K) (zero : K).

(** First loop: keep the white entries that list [src], count them. *)
Fixpoint keepSame (src : K) (ips : list IP_RR) (mask : list IpMask) : Outcome (list IpMask * Z) :=
  match mask with
  | [] => mret ([], 0)
  | IpMaskWhite :: mask' =>
      match ips with
      | [] => Panic
      | d :: ips' =>
          '(m, passed) ← keepSame src ips' mask';
          if bool_decide (src ∈ keys d) then mret (IpMaskWhite :: m, passed + 1)
          else mret (IpMaskGrey :: m, passed)
      end
  | _ :: mask' =>
      '(m, passed) ← keepSame src (tail ips) mask';
      mret (IpMaskBlack :: m, passed)
  end.

(** Second loop: nothing matched, fall back to the entries for anyone. *)
Fixpoint keepAny (ips : list IP_RR) (mask : list IpMask) : Outcome (list IpMask) :=
  match mask with
  | [] => mret []
  | IpMaskBlack :: mask' => m ← keepAny (tail ips) mask'; mret (IpMaskBlack :: m)
  | _ :: mask' =>
      match ips with
      | [] => Panic
      | d :: ips' =>
          m ← keepAny ips' mask';
          if bool_decide (keys d = []) || bool_decide (zero ∈ keys d)
          then mret (IpMaskWhite :: m) else mret (IpMaskBlack :: m)
      end
  end.

Definition sameFilter (src : K) (ips : list IP_RR) (mask : list IpMask) : Outcome (list IpMask) :=
  '(mask1, passed) ← (if bool_decide (src = zero) then mret (mask, 0) else keepSame src ips mask);
  if 0 <? passed then mret mask1 else keepAny ips mask1.
End Same.

Definition GetSameCountry (g : GeoIp) (sourceIp : IP) (ips : list IP_RR) (mask : list IpMask)
  : Outcome (list IpMask) :=
  if negb (geo_Enable g) || bool_decide (geo_CountryDB g = None) then mret mask
  else let '(sourceCountry, err) := GetCountry g sourceIp in
       if err : bool then mret mask
       else sameFilter ip_Country "" sourceCountry ips mask.

Definition GetSameASN (g : GeoIp) (sourceIp : IP) (ips : list IP_RR) (mask : list IpMask)
  : Outcome (list IpMask) :=
  if negb (geo_Enable g) || bool_decide (geo_ASNDB g = None) then mret mask
  else '(sourceASN, err) ← GetASN g sourceIp;
       if err : bool then mret mask
       else sameFilter ip_ASN 0 sourceASN ips mask.

(** ** Nearest address *)

(** First loop: the distances of the white entries, in order, and their minimum. *)
Fixpoint distances (g : GeoIp) (slat slong : float64) (ips : list IP_RR) (mask : list IpMask)
  (minDistance : float64) (dists : list float64) : Outcome (float64 * list float64) :=
  match mask with
  | [] => mret (minDistance, dists)
  | IpMaskWhite :: mask' =>
      match ips with
      | [] => Panic
      | ip :: ips' =>
          let '(dlat, dlong, _) := GetCoordinates g (ip_Ip ip) in
          let d := getDistance slat slong dlat dlong in
          distances g slat slong ips' mask'
            (if fltb d minDistance then d else minDistance) (dists ++ [d])
      end
  | _ :: mask' => distances g slat slong (tail ips) mask' minDistance dists
  end.

(** Second loop: [dists] is indexed with the position in [mask]. *)
Fixpoint keepNearest (minDistance : float64) (dists : list float64) (i : nat) (mask : list IpMask)
  : Outcome (list IpMask * Z) :=
  match mask with
  | [] => mret ([], 0)
  | IpMaskWhite :: mask' =>
      match dists !! i with
      | None => Panic
      | Some d =>
          '(m, passed) ← keepNearest minDistance dists (S i) mask';
          if feqb d minDistance then mret (IpMaskWhite :: m, passed + 1)
          else mret (IpMaskGrey :: m, passed)
      end
  | _ :: mask' =>
      '(m, passed) ← keepNearest minDistance dists (S i) mask';
      mret (IpMaskBlack :: m, passed)
  end.

Definition greyToWhite (x : IpMask) : IpMask :=
  match x with IpMaskGrey => IpMaskWhite | _ => x end.

Definition GetMinimumDistance (g : GeoIp) (sourceIp : IP) (ips : list IP_RR) (mask : list IpMask)
  : Outcome (list IpMask) :=
  if negb (geo_Enable g) || bool_decide (geo_CountryDB g = None) then mret mask
  else let '(slat, slong, err) := GetCoordinates g sourceIp in
       if err : bool then mret mask
       else '(minDistance, dists) ← distances g slat slong ips mask f1000 [];
            '(mask1, passed) ← keepNearest minDistance dists 0 mask;
            mret (if 0 <? passed then mask1 else map greyToWhite mask1).
End GeoIp.

(** ** Correctness of the same-country and same-AS filters *)

Section SameFacts.
Context {K : Type} `{!EqDecision K} (keys : IP_RR -> list K) (zero : K).
Implicit Types (src : K) (ips : list IP_RR) (mask : list IpMask).

(** Position [i] is white and lists [src]. *)
Definition serves src ips mask (i : nat) : Prop :=
  mask !! i = Some IpMaskWhite /\ exists d, ips !! i = Some d /\ src ∈ keys d.

(** The entry is meant for any client. *)
Definition for_anyone (d : IP_RR) : Prop := keys d = [] \/ zero ∈ keys d.

Lemma keepSame_spec src ips mask :
  (length mask <= length ips)%nat ->
  exists m passed, keepSame keys src ips mask = Done (m, passed) /\
    length m = length mask /\ 0 <= passed /\
    (0 < passed <-> exists i, serves src ips mask i) /\
    forall i d, ips !! i = Some d ->
      m !! i = (fun x => match x with
                         | IpMaskWhite => if bool_decide (src ∈ keys d) then IpMaskWhite else IpMaskGrey
                         | _ => IpMaskBlack end) <$> mask !! i.
Proof.
  revert ips. induction mask as [|x mask IH]; intros ips Hl.
  { exists [], 0. repeat split; try done; try lia. by intros (i & Hi & _). }
  destruct ips as [|d ips]; [simpl in Hl; lia|].
  destruct (IH ips) as (m & p & E & Hlm & Hp & Hiff & Hm); [simpl in Hl; lia|].
  assert ((exists i, serves src (d :: ips) (x :: mask) i) <->
          (x = IpMaskWhite /\ src ∈ keys d) \/ exists i, serves src ips mask i) as Hsplit.
  { unfold serves. split.
    - intros ([|i] & Hi & d' & Hd & Hin); simplify_eq/=; eauto 8.
    - intros [[-> Hin]|(i & ? & ?)]; [exists 0%nat|exists (S i)]; simpl; eauto 6. }
  destruct x; cbn [keepSame tail]; rewrite E; simpl;
    [case_bool_decide as Hin|..]; do 2 eexists; (split; [done|]); simpl;
    (split; [by rewrite Hlm|]); (split; [lia|]); (split; [rewrite Hsplit, <- ?Hiff|]).
  all: try (intros [|i] d' Hd; simplify_eq/=; [by try case_bool_decide|by eauto]).
  all: intuition (done || lia).
Qed.

Lemma keepAny_spec ips mask :
  (length mask <= length ips)%nat ->
  exists m, keepAny keys zero ips mask = Done m /\ length m = length mask /\
    forall i d, ips !! i = Some d ->
      (m !! i = Some IpMaskWhite <->
       (mask !! i = Some IpMaskWhite \/ mask !! i = Some IpMaskGrey) /\ for_anyone d).
Proof.
  revert ips. induction mask as [|x mask IH]; intros ips Hl.
  { exists []. repeat split; try done; rewrite ?lookup_nil in *; naive_solver. }
  destruct ips as [|d ips]; [simpl in Hl; lia|].
  destruct (IH ips) as (m & E & Hlm & Hm); [simpl in Hl; lia|].
  assert (bool_decide (keys d = []) || bool_decide (zero ∈ keys d) = true <-> for_anyone d) as Hany.
  { rewrite orb_true_iff, !bool_decide_eq_true. done. }
  destruct x; cbn [keepAny tail]; rewrite E; simpl;
    try destruct (bool_decide (keys d = []) || bool_decide (zero ∈ keys d)) eqn:Eb;
    eexists; (split; [done|]); simpl; (split; [by rewrite Hlm|]);
    (intros [|i] d' Hd; simplify_eq/=; [|by eauto]).
  all: naive_solver.
Qed.

Lemma sameFilter_white src ips mask :
  (length mask <= length ips)%nat -> (src <> zero \/ IpMaskGrey ∉ mask) ->
  exists m, sameFilter keys zero src ips mask = Done m /\ length m = length mask /\
    forall i d, ips !! i = Some d ->
      (m !! i = Some IpMaskWhite <->
       mask !! i = Some IpMaskWhite /\
       ((src <> zero /\ src ∈ keys d) \/
        ((forall j, ~ (src <> zero /\ serves src ips mask j)) /\ for_anyone d))).
Proof.
  intros Hl Hg. unfold sameFilter. case_bool_decide as Hz.
  - destruct Hg as [|Hg]; [done|]. destruct (keepAny_spec ips mask Hl) as (m & E & Hlm & Hm).
    simpl. rewrite E. exists m. split; [done|]. split; [done|]. intros i d Hd. rewrite Hm by done.
    assert (mask !! i <> Some IpMaskGrey) by (intros Hi%list_elem_of_lookup_2; done).
    naive_solver.
  - destruct (keepSame_spec src ips mask Hl) as (m & p & E & Hlm & Hp & Hiff & Hm). rewrite E. simpl.
    destruct (Z.ltb_spec 0 p) as [Hpos|Hnone].
    + exists m. split; [done|]. split; [done|]. intros i d Hd. rewrite (Hm i d Hd).
      apply Hiff in Hpos as (j & Hj). destruct (mask !! i) as [[]|]; simpl; try case_bool_decide; naive_solver.
    + destruct (keepAny_spec ips m) as (m' & E' & Hlm' & Hm'); [lia|]. rewrite E'.
      exists m'. split; [done|]. split; [congruence|]. intros i d Hd.
      rewrite Hm', (Hm i d Hd) by done.
      assert (forall j, ~ serves src ips mask j) as Hno by (intros j Hj; assert (0 < p) by (apply Hiff; eauto); lia).
      assert (mask !! i = Some IpMaskWhite -> src ∉ keys d) by (intros ? ?; apply (Hno i); split; eauto).
      destruct (mask !! i) as [[]|]; simpl; try case_bool_decide; naive_solver.
Qed.
End SameFacts.

Section GeoIpFacts.
Context `{!MaxMind} `{!MathFns}.
Implicit Types (g : GeoIp) (ips : list IP_RR) (mask : list IpMask).

(** C21: the "country" filter.  With an open database that knows the client's
    country [c], a white address stays white exactly when it lists [c]; if no
    white address lists [c] (or [c] is unknown), exactly the white addresses
    without a country restriction stay.  No address that was not white comes
    back, provided the country is known or no address was greyed before. *)
Theorem GetSameCountry_white g db sourceIp c ips mask :
  geo_Enable g = true -> geo_CountryDB g = Some db -> Lookup_country db sourceIp = Some c ->
  (length mask <= length ips)%nat -> (c <> "" \/ IpMaskGrey ∉ mask) ->
  exists m, GetSameCountry g sourceIp ips mask = Done m /\ length m = length mask /\
    forall i d, ips !! i = Some d ->
      (m !! i = Some IpMaskWhite <->
       mask !! i = Some IpMaskWhite /\
       ((c <> "" /\ c ∈ ip_Country d) \/
        ((forall j, ~ (c <> "" /\ serves ip_Country c ips mask j)) /\ for_anyone ip_Country "" d))).
Proof.
  intros He Hdb Hc Hl Hg. unfold GetSameCountry, GetCountry. rewrite He, Hdb. simpl. rewrite Hc.
  by apply sameFilter_white.
Qed.

(** The "asn" filter, the same statement for AS numbers. *)
Theorem GetSameASN_white g db sourceIp asn ips mask :
  geo_Enable g = true -> geo_ASNDB g = Some db -> Lookup_asn (Some db) sourceIp = Some (Some asn) ->
  (length mask <= length ips)%nat -> (asn <> 0 \/ IpMaskGrey ∉ mask) ->
  exists m, GetSameASN g sourceIp ips mask = Done m /\ length m = length mask /\
    forall i d, ips !! i = Some d ->
      (m !! i = Some IpMaskWhite <->
       mask !! i = Some IpMaskWhite /\
       ((asn <> 0 /\ asn ∈ ip_ASN d) \/
        ((forall j, ~ (asn <> 0 /\ serves ip_ASN asn ips mask j)) /\ for_anyone ip_ASN 0 d))).
Proof.
  intros He Hdb Hc Hl Hg. unfold GetSameASN, GetASN. rewrite He, Hdb. simpl. rewrite Hc. simpl.
  by apply sameFilter_white.
Qed.

(** ** The nearest-address filter *)

(** The distance the code computes for an entry. *)
Definition distance_to g (slat slong : float64) (d : IP_RR) : float64 :=
  let '(dlat, dlong, _) := GetCoordinates g (ip_Ip d) in getDistance slat slong dlat dlong.

Lemma distances_length g slat slong ips mask mn acc : (length mask <= length ips)%nat ->
  exists mn' ds, distances g slat slong ips mask mn acc = Done (mn', acc ++ ds) /\ Z.of_nat (length ds) = nwhite mask.
Proof.
  revert ips mn acc. induction mask as [|x mask IH]; intros ips mn acc Hl.
  { exists mn, []. by rewrite app_nil_r. }
  destruct ips as [|ip ips]; [simpl in Hl; lia|]. simpl in Hl. destruct x; cbn [distances tail nwhite]; [|apply IH; lia..].
  destruct (GetCoordinates g (ip_Ip ip)) as [[dlat dlong] err]. set (d := getDistance slat slong dlat dlong).
  destruct (IH ips (if fltb d mn then d else mn) (acc ++ [d])) as (mn' & ds & E & Hn); [lia|].
  exists mn', (d :: ds). rewrite <- !app_assoc in E. split; [done|simpl; lia].
Qed.

(** The minimum the first loop computes. *)
Definition least (mn : float64) (ds : list float64) : float64 := foldl (fun m d => if fltb d m then d else m) mn ds.

Lemma distances_white g slat slong ips mn acc :
  distances g slat slong ips (replicate (length ips) IpMaskWhite) mn acc
  = Done (least mn (distance_to g slat slong <$> ips), acc ++ (distance_to g slat slong <$> ips)).
Proof.
  revert mn acc. induction ips as [|ip ips IH]; intros mn acc; [by rewrite app_nil_r|].
  assert (distance_to g slat slong ip = let '(dlat, dlong, _) := GetCoordinates g (ip_Ip ip) in getDistance slat slong dlat dlong) as Ed by done.
  cbn [length replicate distances fmap list_fmap tail]. destruct (GetCoordinates g (ip_Ip ip)) as [[dlat dlong] err].
  rewrite <- Ed, IH, <- app_assoc. done.
Qed.

Lemma least_spec ds mn : feqb mn mn = true -> let r := least mn ds in
  feqb r r = true /\ fltb mn r = false /\ Forall (fun d => fltb d r = false) ds /\ (r = mn \/ r ∈ ds).
Proof.
  revert mn. induction ds as [|d ds IH]; intros mn Hmn; simpl; [split_and!; try done; [apply fltb_irrefl|by left]|].
  destruct (fltb d mn) eqn:Elt.
  - destruct (IH d (feqb_of_fltb _ _ Elt)) as (Hr & Hd & Hall & Hin). split_and!; [done| |by constructor|set_solver].
    apply not_true_iff_false. intros Hlt. apply not_true_iff_false in Hd. by eapply Hd, fltb_trans.
  - destruct (IH mn Hmn) as (Hr & Hd & Hall & Hin). split_and!; [done|done| |set_solver]. constructor; [|done].
    apply not_true_iff_false. intros Hlt. destruct Hin as [E|Hin]; [fold (least mn ds) in *; rewrite E in Hlt; congruence|].
    rewrite (fltb_not_ge d (least mn ds) mn Hlt Hmn) in Elt; [done|done].
Qed.

Lemma keepNearest_panics mn dists i mask k :
  mask !! k = Some IpMaskWhite -> (length dists <= i + k)%nat ->
  keepNearest mn dists i mask = Panic.
Proof.
  revert i mask. induction k as [|k IH]; intros i [|x mask] Hk Hd; simplify_eq/=.
  - by rewrite lookup_ge_None_2 by lia.
  - rewrite (IH (S i) mask) by (done || lia). destruct x; [by case_match|done..].
Qed.

Lemma keepNearest_white mn dists i n : (i + n <= length dists)%nat ->
  let ds := take n (drop i dists) in
  keepNearest mn dists i (replicate n IpMaskWhite)
  = Done (map (fun d => if feqb d mn then IpMaskWhite else IpMaskGrey) ds, Z.of_nat (length (filter (fun d => feqb d mn = true) ds))).
Proof.
  revert i. induction n as [|n IH]; intros i Hl; [done|]. destruct (lookup_lt_is_Some_2 dists i) as [d Hd]; [lia|].
  cbn [replicate keepNearest]. rewrite (drop_S _ _ _ Hd), Hd, (IH (S i)) by lia. simpl.
  destruct (feqb d mn) eqn:Eq; cbn [mret]; (rewrite filter_cons; case_decide; [|done] || (case_decide; [congruence|])); simpl; try congruence.
  f_equal. f_equal. lia.
Qed.

(** The address has a distance that is a number of at most 1000, and no address of
    [ips] is nearer. *)
Definition usable g slat slong (d : IP_RR) : Prop :=
  let x := distance_to g slat slong d in feqb x x = true /\ fltb f1000 x = false.
Definition nearest g slat slong (ips : list IP_RR) (d : IP_RR) : Prop :=
  usable g slat slong d /\ forall d', d' ∈ ips -> fltb (distance_to g slat slong d') (distance_to g slat slong d) = false.

Lemma nearest_least g slat slong ips d : d ∈ ips ->
  nearest g slat slong ips d <-> feqb (distance_to g slat slong d) (least f1000 (distance_to g slat slong <$> ips)) = true.
Proof.
  intros Hd. destruct (least_spec (distance_to g slat slong <$> ips) f1000 eq_refl) as (Hr & H1000 & Hall & Hin).
  set (r := least _ _) in *. rewrite Forall_fmap, Forall_forall in Hall. split.
  - intros ([Hn Hle] & Hmin). apply feqb_antisym; [done|done|by apply Hall|].
    destruct Hin as [->|Hin]; [done|]. apply list_elem_of_fmap in Hin as (d' & -> & Hd'). by apply Hmin.
  - intros Heq. split; [split|].
    + by eapply feqb_number.
    + by rewrite (fltb_feqb_r _ _ _ Heq).
    + intros d' Hd'. rewrite (fltb_feqb_r _ _ _ Heq). by apply Hall.
Qed.

Lemma usable_nearest g slat slong ips d : d ∈ ips -> usable g slat slong d -> exists d', d' ∈ ips /\ nearest g slat slong ips d'.
Proof.
  intros Hd [Hn Hle]. destruct (least_spec (distance_to g slat slong <$> ips) f1000 eq_refl) as (Hr & H1000 & Hall & Hin).
  destruct Hin as [E|Hin].
  - exists d. split; [done|]. apply nearest_least; [done|]. rewrite E in *. apply feqb_antisym; try done.
    rewrite Forall_fmap, Forall_forall in Hall. by apply Hall.
  - apply list_elem_of_fmap in Hin as (d' & E & Hd'). exists d'. split; [done|]. apply nearest_least; [done|]. by rewrite E in *.
Qed.

(** C22: the "location" filter, with the client's place known, on addresses that are
    all still white.  It does not panic and blacks out none.  If some address has a
    distance that is a number of at most 1000, exactly the nearest addresses stay
    white, and there is one; otherwise (no distance could be computed) all do. *)
Theorem GetMinimumDistance_nearest g db sourceIp slat slong ips :
  geo_Enable g = true -> geo_CountryDB g = Some db -> GetCoordinates g sourceIp = (slat, slong, false) ->
  exists m, GetMinimumDistance g sourceIp ips (replicate (length ips) IpMaskWhite) = Done m /\
    length m = length ips /\ IpMaskBlack ∉ m /\
    (forall d, d ∈ ips -> usable g slat slong d ->
       IpMaskWhite ∈ m /\ forall i di, ips !! i = Some di -> m !! i = Some IpMaskWhite <-> nearest g slat slong ips di) /\
    ((forall d, d ∈ ips -> ~ usable g slat slong d) -> m = replicate (length ips) IpMaskWhite).
Proof.
  intros He Hdb Hc. unfold GetMinimumDistance. rewrite He, Hdb. simpl. rewrite Hc. simpl.
  rewrite distances_white. simpl. rewrite keepNearest_white by (by rewrite length_fmap). simpl.
  rewrite drop_0, firstn_all2 by (by rewrite length_fmap). set (mn := least _ _).
  set (ds := distance_to g slat slong <$> ips). set (m := map _ ds).
  assert (forall i di, ips !! i = Some di -> m !! i = Some (if feqb (distance_to g slat slong di) mn then IpMaskWhite else IpMaskGrey)) as Hm.
  { intros i di Hi. unfold m, ds. by rewrite !list_lookup_fmap, Hi. }
  assert (length m = length ips) as Hlen by (unfold m, ds; by rewrite length_map, length_fmap).
  assert (IpMaskBlack ∉ m) as Hnb.
  { unfold m. intros (x & Hx & _)%list_elem_of_fmap. by destruct (feqb _ _). }
  assert (forall d, d ∈ ips -> nearest g slat slong ips d -> 0 < Z.of_nat (length (filter (fun x => feqb x mn = true) ds))) as Hpos.
  { intros d Hd Hnd. destruct (filter _ ds) as [|x l] eqn:Ef; [|simpl; lia]. apply (nearest_least _ _ _ _ _ Hd) in Hnd.
    assert (distance_to g slat slong d ∈ filter (fun x => feqb x mn = true) ds) as Hin.
    { apply list_elem_of_filter. split; [done|]. apply list_elem_of_fmap. eauto. }
    rewrite Ef in Hin. by apply elem_of_nil in Hin. }
  destruct (Z.ltb_spec 0 (Z.of_nat (length (filter (fun x => feqb x mn = true) ds)))) as [Hp|Hz].
  - exists m. split_and!; try done.
    + intros d Hd Hu. assert (forall i di, ips !! i = Some di -> m !! i = Some IpMaskWhite <-> nearest g slat slong ips di) as Hiff.
      { intros i di Hi. rewrite (Hm i di Hi), nearest_least by (by eapply list_elem_of_lookup_2). fold mn.
        destruct (feqb _ mn); naive_solver. }
      split; [|exact Hiff]. destruct (usable_nearest _ _ _ _ _ Hd Hu) as (d' & Hd' & Hnd).
      apply list_elem_of_lookup in Hd' as [i Hi]. apply list_elem_of_lookup_2 with i. by apply (Hiff i d').
    + intros Hno. destruct (filter _ ds) as [|x l] eqn:Ef; [simpl in Hp; lia|].
      assert (x ∈ filter (fun x => feqb x mn = true) ds) as [Hx Hin]%list_elem_of_filter by (rewrite Ef; set_solver).
      apply list_elem_of_fmap in Hin as (d & -> & Hd). apply (nearest_least _ _ _ _ _ Hd) in Hx as [Hu _]. by destruct (Hno d).
  - exists (map greyToWhite m). assert (map greyToWhite m = replicate (length ips) IpMaskWhite) as ->.
    { unfold m, ds. rewrite !map_map. clearbody mn. clear. induction ips as [|d ips IH]; simpl; [done|]. rewrite IH. by destruct (feqb _ mn). }
    split_and!; [done|by rewrite length_replicate| |intros d Hd Hu|done].
    + intros [? _]%elem_of_replicate. done.
    + destruct (usable_nearest _ _ _ _ _ Hd Hu) as (d' & Hd' & Hnd). specialize (Hpos d' Hd' Hnd). lia.
Qed.

(** The "location" filter indexes the distances of the white addresses with
    positions of the whole mask: as soon as some white address stands at a
    position not below the number of white addresses (an address before it
    was already filtered out), the filter panics. *)
Theorem GetMinimumDistance_panics g db sourceIp slat slong ips mask k :
  geo_Enable g = true -> geo_CountryDB g = Some db ->
  GetCoordinates g sourceIp = (slat, slong, false) -> (length mask <= length ips)%nat ->
  mask !! k = Some IpMaskWhite -> nwhite mask <= Z.of_nat k ->
  GetMinimumDistance g sourceIp ips mask = Panic.
Proof.
  intros He Hdb Hc Hl Hk Hn. unfold GetMinimumDistance. rewrite He, Hdb. simpl. rewrite Hc. simpl.
  destruct (distances_length g slat slong ips mask f1000 []) as (mn & ds & E & Hlen); [done|].
  rewrite E. simpl. by rewrite (keepNearest_panics _ _ 0 mask k) by (done || lia).
Qed.
End GeoIpFacts.

(** ** A small database, for the witnesses *)

(** One country per address, all places at the origin, distances zero. *)
Definition mm_example (c : string) (asn : Z) : MaxMind := {|
  Reader := unit;
  Lookup_country _ _ := Some c;
  Lookup_location _ _ := Some (f0, 0);
  Decode_longitude _ _ := Some f0;
  Lookup_asn _ _ := Some (Some asn) |}.

Definition math_example : MathFns := {|
  math_Sin x := x; math_Cos x := x; math_Atan2 x y := x |}.

Definition geo_example c asn : @GeoIp (mm_example c asn) :=
  @mkGeoIp (mm_example c asn) true (Some tt) (Some tt).

Definition ips_example : list IP_RR :=
  [mkIP_RR 0 (Some [1;1;1;1]) ["ES"] [444]; mkIP_RR 0 (Some [2;2;2;2]) ["FR"; "DE"] [];
   mkIP_RR 0 (Some [3;3;3;3]) [] [0]].

Lemma GetSameCountry_white_witness :
  exists m, @GetSameCountry (mm_example "FR" 7) (geo_example "FR" 7) None ips_example
              [IpMaskWhite; IpMaskWhite; IpMaskWhite] = Done m /\
            m !! 1%nat = Some IpMaskWhite /\ m !! 2%nat <> Some IpMaskWhite.
Proof.
  destruct (@GetSameCountry_white (mm_example "FR" 7) (geo_example "FR" 7) tt None "FR"
              ips_example [IpMaskWhite; IpMaskWhite; IpMaskWhite]) as (m & E & _ & Hm);
    [done|done|done|simpl; lia|by left|].
  exists m. split; [done|]. split.
  - apply (Hm 1%nat _ eq_refl). split; [done|]. left. split; [done|]. set_solver.
  - intros [_ [[_ Hin]|[Hno _]]]%(Hm 2%nat _ eq_refl); [set_solver|].
    apply (Hno 1%nat). split; [done|]. split; [done|]. eexists. split; [done|]. set_solver.
Defined.

Lemma GetSameASN_white_witness :
  exists m, @GetSameASN (mm_example "FR" 7) (geo_example "FR" 7) None ips_example
              [IpMaskWhite; IpMaskBlack; IpMaskWhite] = Done m /\
            m !! 2%nat = Some IpMaskWhite /\ m !! 1%nat <> Some IpMaskWhite.
Proof.
  destruct (@GetSameASN_white (mm_example "FR" 7) (geo_example "FR" 7) tt None 7
              ips_example [IpMaskWhite; IpMaskBlack; IpMaskWhite]) as (m & E & _ & Hm);
    [done|done|done|simpl; lia|by left|].
  exists m. split; [done|]. split.
  - apply (Hm 2%nat _ eq_refl). split; [done|]. right. split; [|right; set_solver].
    intros [|[|[|j]]] [_ [Hw (d & Hd & Hin)]]; simplify_eq/=; set_solver.
  - by intros [? _]%(Hm 1%nat _ eq_refl).
Defined.

(** Places on the equator: the client at 0, the addresses at 10, 20 and 10 degrees. *)
Definition mm_equator : MaxMind := {|
  Reader := unit;
  Lookup_country _ _ := Some "FR";
  Lookup_location _ ip := Some (f0, match ip with None => 0 | Some l => 10 * (match l with [2;2;2;2] => 2 | _ => 1 end) end);
  Decode_longitude _ offset := Some (fof offset 0);
  Lookup_asn _ _ := Some (Some 7) |}.
Definition math_equator : MathFns := {| math_Sin x := x; math_Cos x := fof 1 0; math_Atan2 x y := x |}.
Definition geo_equator : @GeoIp mm_equator := @mkGeoIp mm_equator true (Some tt) (Some tt).

Lemma GetMinimumDistance_nearest_witness :
  exists m, @GetMinimumDistance mm_equator math_equator geo_equator None ips_example
    [IpMaskWhite; IpMaskWhite; IpMaskWhite] = Done m /\ IpMaskWhite ∈ m /\
    m !! 1%nat <> Some IpMaskWhite.
Proof.
  destruct (@GetMinimumDistance_nearest mm_equator math_equator geo_equator tt None
              f0 f0 ips_example) as (m & E & _ & _ & H & _); [done..|].
  destruct (H (mkIP_RR 0 (Some [1;1;1;1]) ["ES"] [444])) as [Hw Hi].
  { exact (list_elem_of_here _ _). }
  { unfold usable. split; vm_compute; reflexivity. }
  exists m. split; [exact E|]. split; [exact Hw|]. intros [_ Hmin]%(Hi 1%nat _ eq_refl).
  specialize (Hmin (mkIP_RR 0 (Some [1;1;1;1]) ["ES"] [444]) (list_elem_of_here _ _)). vm_compute in Hmin. discriminate Hmin.
Defined.

Lemma GetMinimumDistance_panics_witness :
  @GetMinimumDistance (mm_example "FR" 7) math_example (geo_example "FR" 7) None
    ips_example [IpMaskBlack; IpMaskWhite; IpMaskBlack] = Panic.
Proof.
  apply (@GetMinimumDistance_panics (mm_example "FR" 7) math_example (geo_example "FR" 7) tt None
           f0 f0 ips_example [IpMaskBlack; IpMaskWhite; IpMaskBlack] 1); done.
Defined.

(** "asn+country" for a client whose network is known and whose country is
    not: the AS filter keeps only the address of the client's network, and the
    country filter that follows lets the others in again if they are for any
    country. *)
Theorem asn_country_readmits :
  let g := geo_example "" 444 in
  let ips := [mkIP_RR 0 (Some [1;1;1;1]) [] [444]; mkIP_RR 0 (Some [2;2;2;2]) [] [555]] in
  @GetSameASN (mm_example "" 444) g None ips [IpMaskWhite; IpMaskWhite] = Done [IpMaskWhite; IpMaskGrey] /\
  @GetSameCountry (mm_example "" 444) g None ips [IpMaskWhite; IpMaskGrey] = Done [IpMaskWhite; IpMaskWhite].
Proof. split; reflexivity. Qed.
