(* ===== verification/Limiter.v ===== *)
(** handler/limiter.go: the per-client rate limiter, a leaky bucket.

    Times are nanoseconds; [clk i] is the i-th reading of the clock during one
    call, so the two readings [time.Since(l.LastUpdate)] and [time.Now()] of the
    code stay distinct. *)
From S2P Require Import Prelude GoCache.

Section Limiter.
Context {GC : GoCache}.

Record RateLimiterConfig := mkRateLimiterConfig {
  rlc_Enable : bool; rlc_Burst : Z; rlc_Rate : Z;
  rlc_WhiteList : list string; rlc_BlackList : list string }.

Record Limiter := mkLimiter { Size : Z; LastUpdate : Z }.

Record RateLimiter := mkRateLimiter {
  Limiters : gcache Limiter;
  MaxTime : Z;
  TimeStep : Z;
  rl_Config : RateLimiterConfig;
  WhiteList : gset string;
  BlackList : gset string
}.

(** The division by [config.Rate] panics for a zero rate, enabled or not. *)
Definition NewRateLimiter (config : RateLimiterConfig) : Outcome RateLimiter :=
  if rlc_Rate config =? 0 then Panic
  else
    let step := i64 (Z.quot 60000 (rlc_Rate config) * Millisecond) in
    mret {| Limiters := gc_new Minute;
            MaxTime := i64 (step * rlc_Burst config);
            TimeStep := step;
            rl_Config := config;
            WhiteList := list_to_set (rlc_WhiteList config);
            BlackList := list_to_set (rlc_BlackList config) |}.

Definition with_limiters (rl : RateLimiter) (ls : gcache Limiter) : RateLimiter :=
  mkRateLimiter ls (MaxTime rl) (TimeStep rl) (rl_Config rl) (WhiteList rl) (BlackList rl).

Definition CanHandle (clk : nat -> Z) (rl : RateLimiter) (key : string) : bool * RateLimiter :=
  if negb (rlc_Enable (rl_Config rl)) then (true, rl)
  else if bool_decide (key ∈ BlackList rl) then (false, rl)
  else if bool_decide (key ∈ WhiteList rl) then (true, rl)
  else
    match gc_get (clk 0%nat) (Limiters rl) key with
    | Some (l, _) =>
        let size := i64 (Size l - sat64 (clk 1%nat - LastUpdate l)) in
        let last := clk 2%nat in
        let size := if size <? 0 then 0 else size in
        let '(res, size) :=
          if MaxTime rl <? size then (false, size) else (true, i64 (size + TimeStep rl)) in
        (res, with_limiters rl (gc_set (clk 3%nat) (Limiters rl) key (mkLimiter size last) Minute))
    | None =>
        let l := mkLimiter (TimeStep rl) (clk 1%nat) in
        (true, with_limiters rl (gc_set (clk 2%nat) (Limiters rl) key l Minute))
    end.
End Limiter.

Arguments mkRateLimiterConfig _ _ _ _ _ : assert.

(** ** Sequences of requests *)

Section LimiterFacts.
Context {GC : GoCache} {GCL : GoCacheLaws GC}.
Implicit Types (rl : RateLimiter) (clk : nat -> Z) (key : string).

(** Requests are clients with the clock readings their calls see. *)
Fixpoint accepted rl key (reqs : list ((nat -> Z) * string)) : Z :=
  match reqs with
  | [] => 0
  | (clk, k) :: rest =>
      let '(ok, rl') := CanHandle clk rl k in
      (if ok && String.eqb k key then 1 else 0) + accepted rl' key rest
  end.

Fixpoint offered key (reqs : list ((nat -> Z) * string)) : Z :=
  match reqs with
  | [] => 0
  | (_, k) :: rest => (if String.eqb k key then 1 else 0) + offered key rest
  end.

Definition reading T clk : Prop :=
  T <= clk 0%nat <= clk 1%nat /\ clk 1%nat <= clk 2%nat <= clk 3%nat /\ clk 3%nat < 2 ^ 62.

(** The clock does not run backwards between [T] and [T']. *)
Fixpoint in_order T (reqs : list ((nat -> Z) * string)) T' : Prop :=
  match reqs with
  | [] => T <= T'
  | (clk, _) :: rest => reading T clk /\ in_order (clk 3%nat) rest T'
  end.

(** The bucket drains within the minute after which the cache forgets it. *)
Definition drains rl : Prop :=
  0 <= MaxTime rl /\ 0 <= TimeStep rl /\ MaxTime rl + TimeStep rl <= Minute.

(** [v] is the level of [key]'s bucket at time [T]. *)
Inductive bucket rl key T : Z -> Prop :=
| bucket_none : (forall now, T <= now -> gc_get now (Limiters rl) key = None) -> bucket rl key T 0
| bucket_some l expiry :
    0 <= Size l <= MaxTime rl + TimeStep rl -> 0 <= LastUpdate l <= T ->
    LastUpdate l + Minute <= expiry ->
    (forall now, T <= now -> (exists e, gc_get now (Limiters rl) key = Some (l, e)) \/
                             (gc_get now (Limiters rl) key = None /\ expiry <= now)) ->
    bucket rl key T (Z.max 0 (Size l - (T - LastUpdate l))).

Lemma bucket_bound rl key T v : drains rl -> bucket rl key T v -> 0 <= v <= MaxTime rl + TimeStep rl.
Proof. intros (? & ? & ?). destruct 1; lia. Qed.

Lemma bucket_later rl rl' key T T' v :
  MaxTime rl' = MaxTime rl -> TimeStep rl' = TimeStep rl ->
  (forall now, gc_get now (Limiters rl') key = gc_get now (Limiters rl) key) ->
  T <= T' -> bucket rl key T v -> exists v', bucket rl' key T' v' /\ v <= v' + (T' - T).
Proof.
  intros Hm Ht Hg HT. destruct 1 as [Hn|l e Hs Hl He Hn].
  - exists 0. split; [|lia]. apply bucket_none. intros now Hnow. rewrite Hg. apply Hn. lia.
  - eexists. split.
    + apply (bucket_some rl' key T' l e); [by rewrite Hm, Ht|lia|done|].
      intros now Hnow. rewrite Hg. apply Hn. lia.
    + lia.
Qed.

Lemma get_set_minute now now' (c : gcache Limiter) key l :
  now <= now' ->
  (exists e, gc_get now' (gc_set now c key l Minute) key = Some (l, e)) \/
  (gc_get now' (gc_set now c key l Minute) key = None /\ now + Minute <= now').
Proof.
  intros Hn. destruct (Z.lt_ge_cases now' (now + Minute)).
  - left. eexists. apply gc_get_set_live; unfold gc_lifetime, Minute, Second in *; simpl; lia.
  - destruct (gc_get now' (gc_set now c key l Minute) key) as [[l' e]|] eqn:E; [left|by right].
    apply gc_get_set_some in E as ->. eauto.
Qed.

Lemma bucket_set rl key T tset l :
  0 <= Size l <= MaxTime rl + TimeStep rl -> 0 <= LastUpdate l <= tset -> tset <= T ->
  bucket (with_limiters rl (gc_set tset (Limiters rl) key l Minute)) key T
         (Z.max 0 (Size l - (T - LastUpdate l))).
Proof.
  intros Hs Hl HT. apply (bucket_some _ key T l (tset + Minute)); simpl; try done; try lia.
  intros now Hnow. apply get_set_minute. lia.
Qed.

Definition same_params rl rl' : Prop :=
  MaxTime rl' = MaxTime rl /\ TimeStep rl' = TimeStep rl /\ rl_Config rl' = rl_Config rl /\
  WhiteList rl' = WhiteList rl /\ BlackList rl' = BlackList rl.

Lemma CanHandle_params clk rl k ok rl' : CanHandle clk rl k = (ok, rl') -> same_params rl rl'.
Proof. unfold CanHandle, same_params. intros H. repeat case_match; simplify_eq; by simpl. Qed.

Lemma CanHandle_other clk rl k ok rl' key now :
  k <> key -> CanHandle clk rl k = (ok, rl') ->
  gc_get now (Limiters rl') key = gc_get now (Limiters rl) key.
Proof.
  unfold CanHandle. intros Hk H. repeat case_match; simplify_eq; simpl; try done; by apply gc_get_set_ne.
Qed.

(** One request: an accepted one adds [TimeStep] to the level, and the level
    falls at most as fast as time passes. *)
Lemma CanHandle_bucket clk rl key T v ok rl' :
  rlc_Enable (rl_Config rl) = true -> key ∉ WhiteList rl -> drains rl -> 0 <= T ->
  reading T clk -> bucket rl key T v -> CanHandle clk rl key = (ok, rl') ->
  exists v', bucket rl' key (clk 3%nat) v' /\
    (if ok then TimeStep rl else 0) + v <= v' + (clk 3%nat - T).
Proof.
  intros He Hw Hd HT Hr Hb. pose proof Hd as (HM & HS & HD). destruct Hr as (Hr1 & Hr2 & Hr3).
  unfold CanHandle. rewrite He. simpl. case_bool_decide.
  { intros [= <- <-]. apply (bucket_later rl rl key T); auto; lia. }
  rewrite bool_decide_eq_false_2 by done.
  destruct Hb as [Hn|l expiry Hs Hl Hexp Hn]; unfold Minute, Second in HD.
  - rewrite Hn by lia. intros [= <- <-]. eexists. split.
    + apply (bucket_set rl key (clk 3%nat) (clk 2%nat) (mkLimiter (TimeStep rl) (clk 1%nat))); simpl; lia.
    + simpl. lia.
  - destruct (Hn (clk 0%nat)) as [[e ->]|[-> Hnow]]; [lia| |].
    + rewrite (sat64_id (clk 1%nat - LastUpdate l)) by (unfold in_i64; lia).
      rewrite (i64_id (Size l - _)) by (unfold in_i64; lia).
      set (size := if Size l - (clk 1%nat - LastUpdate l) <? 0 then 0
                   else Size l - (clk 1%nat - LastUpdate l)).
      assert (size = Z.max 0 (Size l - (clk 1%nat - LastUpdate l))) as Hsize
        by (unfold size; case_match; bool_to_prop; lia).
      destruct (Z.ltb_spec (MaxTime rl) size); intros [= <- <-]; eexists; split.
      * apply (bucket_set rl key (clk 3%nat) (clk 3%nat) (mkLimiter size (clk 2%nat))); simpl; lia.
      * simpl. lia.
      * rewrite i64_id by (unfold in_i64; lia).
        apply (bucket_set rl key (clk 3%nat) (clk 3%nat) (mkLimiter (size + TimeStep rl) (clk 2%nat))); simpl; lia.
      * simpl. lia.
    + intros [= <- <-]. eexists. split.
      * apply (bucket_set rl key (clk 3%nat) (clk 2%nat) (mkLimiter (TimeStep rl) (clk 1%nat))); simpl; lia.
      * simpl. unfold Minute, Second in Hexp. lia.
Qed.

Lemma accepted_bound rl key T T' v reqs :
  rlc_Enable (rl_Config rl) = true -> key ∉ WhiteList rl -> drains rl -> 0 <= T ->
  bucket rl key T v -> in_order T reqs T' ->
  accepted rl key reqs * TimeStep rl + v <= MaxTime rl + TimeStep rl + (T' - T).
Proof.
  revert rl T v. induction reqs as [|[clk k] reqs IH]; intros rl T v He Hw Hd HT Hb Ho; simpl in *.
  { pose proof (bucket_bound _ _ _ _ Hd Hb). lia. }
  destruct Ho as [Hr Ho]. destruct (CanHandle clk rl k) as [ok rl'] eqn:E.
  destruct (CanHandle_params _ _ _ _ _ E) as (Hm & Ht & Hc & Hwl & _).
  assert (exists v', bucket rl' key (clk 3%nat) v' /\
    (if ok && String.eqb k key then 1 else 0) * TimeStep rl + v <= v' + (clk 3%nat - T)) as (v' & Hb' & Hv).
  { destruct (String.eqb_spec k key) as [->|Hk].
    - destruct (CanHandle_bucket clk rl key T v ok rl') as (v' & ? & ?); try done.
      exists v'. split; [done|]. destruct ok; simpl; lia.
    - destruct (bucket_later rl rl' key T (clk 3%nat) v) as (v' & ? & ?); try done.
      + intros now. by eapply CanHandle_other.
      + destruct Hr. lia.
      + exists v'. split; [done|]. destruct ok; simpl; lia. }
  specialize (IH rl' (clk 3%nat) v'). rewrite Hm, Ht in IH. destruct Hr as (? & ? & ?).
  assert (accepted rl' key reqs * TimeStep rl + v' <= MaxTime rl + TimeStep rl + (T' - clk 3%nat)).
  { apply IH; try done; try congruence; [|lia]. unfold drains. by rewrite Hm, Ht. }
  lia.
Qed.

Lemma NewRateLimiter_params config rl :
  0 < rlc_Rate config -> 0 <= rlc_Burst config ->
  (rlc_Burst config + 1) * (60000 / rlc_Rate config) <= 60000 ->
  NewRateLimiter config = Done rl ->
  drains rl /\ TimeStep rl = 60000 / rlc_Rate config * Millisecond /\
  MaxTime rl = rlc_Burst config * TimeStep rl /\ rl_Config rl = config /\
  WhiteList rl = list_to_set (rlc_WhiteList config) /\
  BlackList rl = list_to_set (rlc_BlackList config) /\ Limiters rl = gc_new Minute.
Proof.
  intros Hr Hb Hd. unfold NewRateLimiter. case_match; [done|]. intros [= <-]. simpl.
  rewrite Z.quot_div_nonneg by lia.
  assert (0 <= 60000 / rlc_Rate config) by (apply Z.div_pos; lia).
  assert (rlc_Burst config * (60000 / rlc_Rate config) <= 60000) by lia.
  assert (0 <= rlc_Burst config * (60000 / rlc_Rate config)) by nia.
  unfold drains, Minute, Second, Millisecond. simpl.
  rewrite (i64_id (60000 / rlc_Rate config * _)) by (unfold in_i64; lia).
  rewrite i64_id by (unfold in_i64; lia). repeat split; lia.
Qed.

Lemma bucket_new rl key T : Limiters rl = gc_new Minute -> bucket rl key T 0.
Proof. intros Hl. apply bucket_none. intros now _. rewrite Hl. apply gc_get_new. Qed.

(** C11: the rate guarantee.  A fresh and enabled limiter whose bucket drains within
    the minute after which the cache forgets a client ((Burst+1) * 60000/Rate <=
    60000 ms) lets through, in any sequence of requests of any clients during
    a time span [T' - T], at most Burst + 1 requests of a client that is not on the
    white list, plus one per elapsed [TimeStep]: accepted * TimeStep <= (Burst + 1) *
    TimeStep + span. *)
Theorem CanHandle_rate_bound config rl key T T' reqs :
  NewRateLimiter config = Done rl -> rlc_Enable config = true ->
  0 < rlc_Rate config -> 0 <= rlc_Burst config ->
  (rlc_Burst config + 1) * (60000 / rlc_Rate config) <= 60000 ->
  key ∉ rlc_WhiteList config -> 0 <= T -> in_order T reqs T' ->
  accepted rl key reqs * TimeStep rl <= (rlc_Burst config + 1) * TimeStep rl + (T' - T).
Proof.
  intros Hn He Hr Hb Hd Hw HT Ho.
  destruct (NewRateLimiter_params config rl) as (Hdr & Hts & Hmt & Hc & Hwl & _ & Hl); try done.
  pose proof (accepted_bound rl key T T' 0 reqs) as H. rewrite Hc, Hwl, Hmt in H.
  rewrite elem_of_list_to_set in H. specialize (H He Hw Hdr HT (bucket_new _ _ _ Hl) Ho). lia.
Qed.

(** The bucket of [key] holds at most [n] steps whenever it is looked up. *)
Definition at_most rl key (n : Z) T : Prop :=
  forall now l e, T <= now -> gc_get now (Limiters rl) key = Some (l, e) ->
    0 <= Size l <= n * TimeStep rl /\ 0 <= LastUpdate l <= T.

Lemma at_most_set rl key n T tset l :
  0 <= Size l <= n * TimeStep rl -> 0 <= LastUpdate l <= T ->
  at_most (with_limiters rl (gc_set tset (Limiters rl) key l Minute)) key n T.
Proof. intros Hs Hl now l' e Hnow E. simpl in E. by apply gc_get_set_some in E as ->. Qed.

Lemma CanHandle_below clk rl key T n :
  key ∉ BlackList rl -> drains rl -> 0 <= T -> reading T clk -> 0 <= n ->
  n * TimeStep rl <= MaxTime rl -> at_most rl key n T ->
  exists rl', CanHandle clk rl key = (true, rl') /\ at_most rl' key (n + 1) (clk 3%nat).
Proof.
  intros Hbl (HM & HS & HD) HT (Hr1 & Hr2 & Hr3) Hn Hmt Ha. unfold CanHandle, Minute, Second in *.
  assert (at_most rl key (n + 1) (clk 3%nat)) as Hmono.
  { intros now l e Hnow E. apply Ha in E; [|lia]. nia. }
  case_match; [by eauto|]. rewrite bool_decide_eq_false_2 by done. case_match; [by eauto|].
  destruct (gc_get (clk 0%nat) (Limiters rl) key) as [[l e]|] eqn:E.
  - destruct (Ha _ _ _ (proj1 Hr1) E) as [Hs Hl].
    rewrite (sat64_id (clk 1%nat - LastUpdate l)) by (unfold in_i64; lia).
    rewrite (i64_id (Size l - _)) by (unfold in_i64; lia).
    set (size := if _ <? 0 then _ else _).
    assert (0 <= size <= n * TimeStep rl) as Hsize by (unfold size; case_match; bool_to_prop; lia).
    destruct (Z.ltb_spec (MaxTime rl) size); [lia|]. eexists. split; [done|].
    rewrite i64_id by (unfold in_i64; lia). apply at_most_set; simpl; lia.
  - eexists. split; [done|]. apply at_most_set; simpl; nia.
Qed.

Lemma offered_nonneg key reqs : 0 <= offered key reqs.
Proof. induction reqs as [|[? ?] reqs IH]; simpl; [lia|]. case_match; lia. Qed.

Lemma accepted_all rl key T T' n reqs :
  key ∉ BlackList rl -> drains rl -> 0 <= T -> 0 <= n ->
  (n + offered key reqs - 1) * TimeStep rl <= MaxTime rl -> at_most rl key n T ->
  in_order T reqs T' -> accepted rl key reqs = offered key reqs.
Proof.
  revert rl T n. induction reqs as [|[clk k] reqs IH]; intros rl T n Hbl Hd HT Hn Hmt Ha Ho; simpl in *; [done|].
  destruct Ho as [Hr Ho]. pose proof (offered_nonneg key reqs). pose proof Hd as (? & ? & ?).
  destruct (String.eqb_spec k key) as [->|Hk].
  - destruct (CanHandle_below clk rl key T n) as (rl' & E & Ha'); try done; [nia|]. rewrite E. simpl.
    destruct (CanHandle_params _ _ _ _ _ E) as (Hm & Ht & Hc & Hwl & Hbl').
    enough (accepted rl' key reqs = offered key reqs) by lia. destruct Hr as (? & ? & ?).
    apply (IH rl' (clk 3%nat) (n + 1)); unfold drains; rewrite ?Hm, ?Ht, ?Hbl'; done || lia.
  - destruct (CanHandle clk rl k) as [ok rl'] eqn:E. rewrite andb_false_r.
    destruct (CanHandle_params _ _ _ _ _ E) as (Hm & Ht & Hc & Hwl & Hbl').
    enough (accepted rl' key reqs = offered key reqs) by lia. destruct Hr as (? & ? & ?).
    apply (IH rl' (clk 3%nat) n); unfold drains; rewrite ?Hm, ?Ht, ?Hbl'; try done; try lia.
    intros now l e Hnow E'. rewrite (CanHandle_other _ _ _ _ _ _ _ Hk E) in E'. rewrite Ht.
    destruct (Ha now l e) as [? ?]; [lia|done|lia].
Qed.

(** The burst guarantee.  A client that is not blacklisted is never refused
    during its first Burst + 1 requests, however closely they follow one
    another and whatever other clients do. *)
Theorem CanHandle_burst config rl key T T' reqs :
  NewRateLimiter config = Done rl ->
  0 < rlc_Rate config -> 0 <= rlc_Burst config ->
  (rlc_Burst config + 1) * (60000 / rlc_Rate config) <= 60000 ->
  key ∉ rlc_BlackList config -> 0 <= T -> in_order T reqs T' ->
  offered key reqs <= rlc_Burst config + 1 ->
  accepted rl key reqs = offered key reqs.
Proof.
  intros Hn Hr Hb Hd Hbl HT Ho Hoff.
  destruct (NewRateLimiter_params config rl) as (Hdr & Hts & Hmt & Hc & _ & Hbls & Hl); try done.
  pose proof Hdr as (? & ? & ?).
  apply (accepted_all rl key T T' 0); try done; try lia.
  - rewrite Hbls, elem_of_list_to_set. done.
  - rewrite Hmt. nia.
  - intros now l e _. by rewrite Hl, gc_get_new.
Qed.
End LimiterFacts.

(** ** Witnesses: twenty requests at the same instant, burst 10 *)

Definition config_example : RateLimiterConfig := mkRateLimiterConfig true 10 60000 ["w1"] ["b1"].

Definition flood (n : nat) : list ((nat -> Z) * string) := replicate n (fun _ => 5, "2").

Lemma flood_in_order n : in_order 5 (flood n) 5.
Proof. induction n; simpl; [lia|]. split; [|done]. unfold reading. lia. Qed.

#[local] Existing Instance MapCache.

Definition rl_example : RateLimiter :=
  match NewRateLimiter config_example with Done rl => rl | _ => mkRateLimiter (gc_new 0) 0 0 config_example ∅ ∅ end.

Lemma CanHandle_rate_bound_witness :
  accepted rl_example "2" (flood 20) * 1000000 <= 11 * 1000000 + (5 - 5) /\
  accepted rl_example "2" (flood 20) = 11.
Proof.
  split; [|vm_compute; reflexivity].
  apply (CanHandle_rate_bound config_example rl_example "2" 5 5 (flood 20)); try done; try lia;
    apply flood_in_order || (simpl; set_solver).
Defined.

Lemma CanHandle_burst_witness : accepted rl_example "2" (flood 11) = 11.
Proof.
  apply (CanHandle_burst config_example rl_example "2" 5 5 (flood 11)); try done; try lia;
    apply flood_in_order || (simpl; set_solver).
Defined.

(** A slow limiter forgets its clients.  With one request per minute and a
    burst of ten, the bucket needs eleven minutes to drain, but its entry lives
    for one minute: eleven requests at the start and eleven more after 61 seconds
    are all accepted, where the rate bound would allow twelve. *)
Theorem CanHandle_forgets :
  let config := mkRateLimiterConfig true 10 1 [] [] in
  let at_ (t : Z) : (nat -> Z) * string := (fun _ => t, "10.0.0.1") in
  exists rl, NewRateLimiter config = Done rl /\
    accepted rl "10.0.0.1" (replicate 11 (at_ 0) ++ replicate 11 (at_ (61 * Second))) = 22 /\
    (rlc_Burst config + 1) * TimeStep rl + 61 * Second < 13 * TimeStep rl.
Proof. eexists. split; [reflexivity|]. split; [vm_compute; reflexivity|vm_compute; reflexivity]. Qed.
