(* ===== verification/LimiterThreads.v ===== *)
(** handler/limiter.go under concurrent requests: [CanHandle] as a program whose
    steps interleave with those of other calls.

    The cache holds pointers to [Limiter]s.  What happens between [Lock] and
    [Unlock] of a limiter's mutex is one step: the limiter is touched nowhere else
    once it is in the cache, and the cache has a lock of its own. *)
From S2P Require Import Prelude GoCache Monad Rely Threads Limiter.

(** A decision made under the lock of a limiter: the three readings of the clock,
    the client, the answer. *)
Record Decided := mkDecided { dc_since : Z; dc_now : Z; dc_set : Z; dc_key : string; dc_res : bool }.

(** The readings of a call that does nothing else before. *)
Definition dc_clk (c : Decided) (i : nat) : Z :=
  match i with 0%nat | 1%nat => dc_since c | 2%nat => dc_now c | _ => dc_set c end.
Definition dc_call (c : Decided) : (nat -> Z) * string := (dc_clk c, dc_key c).

Section LimiterThreads.
Context {GC : GoCache} (rl : RateLimiter) (clk : nat -> Z).

(** The clock has been read [ls_tick] times; [ls_log] is the history of the
    decisions, for the proofs only. *)
Record LState := mkLState {
  ls_tick : nat;
  ls_cache : gcache positive;
  ls_heap : gmap positive Limiter;
  ls_log : list Decided
}.

Abbreviation Prog := (ST noFlights LState).

(** [rl.Limiters.Get(key)] *)
Definition limiters_Get (key : string) : Prog (option positive) := atom (fun s =>
  Done (option_map fst (gc_get (clk (ls_tick s)) (ls_cache s) key),
        mkLState (S (ls_tick s)) (ls_cache s) (ls_heap s) (ls_log s))).

(** From [l.Mutex.Lock()] to [l.Mutex.Unlock()]; every pointer in the cache comes
    from [newLimiter], so the default is never read. *)
Definition lockedUpdate (key : string) (p : positive) : Prog bool := atom (fun s =>
  let l := default (mkLimiter 0 0) (ls_heap s !! p) in
  let t := ls_tick s in
  let size := i64 (Size l - sat64 (clk t - LastUpdate l)) in
  let last := clk (S t) in
  let size := if size <? 0 then 0 else size in
  let '(res, size) :=
    if MaxTime rl <? size then (false, size) else (true, i64 (size + TimeStep rl)) in
  Done (res, mkLState (S (S (S t))) (gc_set (clk (S (S t))) (ls_cache s) key p Minute)
               (<[p := mkLimiter size last]> (ls_heap s))
               (ls_log s ++ [mkDecided (clk t) last (clk (S (S t))) key res]))).

(** [&Limiter{...}], and [rl.Limiters.Set(key, l, time.Minute)]. *)
Definition newLimiter : Prog positive := atom (fun s =>
  let p := fresh (dom (ls_heap s)) in
  Done (p, mkLState (S (ls_tick s)) (ls_cache s)
             (<[p := mkLimiter (TimeStep rl) (clk (ls_tick s))]> (ls_heap s)) (ls_log s))).
Definition limiters_Set (key : string) (p : positive) : Prog unit := atom (fun s =>
  Done (tt, mkLState (S (ls_tick s)) (gc_set (clk (ls_tick s)) (ls_cache s) key p Minute) (ls_heap s) (ls_log s))).

Definition canHandle (key : string) : Prog bool :=
  if negb (rlc_Enable (rl_Config rl)) then mret true
  else if bool_decide (key ∈ BlackList rl) then mret false
  else if bool_decide (key ∈ WhiteList rl) then mret true
  else
    value ← limiters_Get key;
    match value with
    | Some p => lockedUpdate key p
    | None =>
        p ← newLimiter;
        limiters_Set key p;;
        mret true
    end.

(** The answers of the threads of a pool. *)
Definition decisions (p : Pool noFlights LState bool) : list bool :=
  omap (fun t => match t with Running (Ret b) => Some b | _ => None end) (p_threads p).
End LimiterThreads.

(** ** Linearizability *)

Section Sequential.
Context {GC : GoCache}.

(** The answers to calls that are made one after the other. *)
Fixpoint sequential (rl : RateLimiter) (reqs : list ((nat -> Z) * string)) : list (string * bool) :=
  match reqs with
  | [] => []
  | (clk, k) :: rest => let '(ok, rl') := CanHandle clk rl k in (k, ok) :: sequential rl' rest
  end.

(** How often [key] was let through. *)
Definition granted (key : string) (ds : list (string * bool)) : Z :=
  Z.of_nat (length (filter (fun x => x = (key, true)) ds)).

Lemma granted_cons key k ok ds : granted key ((k, ok) :: ds) = (if ok && String.eqb k key then 1 else 0) + granted key ds.
Proof.
  unfold granted. rewrite filter_cons. destruct ok, (String.eqb_spec k key) as [->|Hk]; simpl.
  - rewrite decide_True by done. simpl. lia.
  - rewrite decide_False by congruence. lia.
  - rewrite decide_False by congruence. lia.
  - rewrite decide_False by congruence. lia.
Qed.

Lemma accepted_sequential rl key reqs : accepted rl key reqs = granted key (sequential rl reqs).
Proof.
  revert rl. induction reqs as [|[clk k] reqs IH]; intros rl; simpl; [done|].
  destruct (CanHandle clk rl k) as [ok rl']. rewrite granted_cons. by rewrite IH.
Qed.

(** The limiter after the calls of a history, if it gives the same answers. *)
Fixpoint replay (rl : RateLimiter) (log : list Decided) : option RateLimiter :=
  match log with
  | [] => Some rl
  | c :: log' =>
      let '(ok, rl') := CanHandle (dc_clk c) rl (dc_key c) in
      if Bool.eqb ok (dc_res c) then replay rl' log' else None
  end.

Lemma replay_app rl log log' : replay rl (log ++ log') = rl' ← replay rl log; replay rl' log'.
Proof.
  revert rl. induction log as [|c log IH]; intros rl; simpl; [done|].
  destruct (CanHandle _ rl _) as [ok rl']. by destruct (Bool.eqb _ _).
Qed.

Lemma replay_sequential rl log rl' :
  replay rl log = Some rl' -> sequential rl (map dc_call log) = map (fun c => (dc_key c, dc_res c)) log.
Proof.
  revert rl. induction log as [|c log IH]; intros rl; simpl; [done|].
  destruct (CanHandle _ rl _) as [ok rl2]. destruct (Bool.eqb ok (dc_res c)) eqn:E; [|done].
  apply Bool.eqb_prop in E as ->. intros H. by rewrite (IH rl2).
Qed.

Lemma in_order_app T reqs T1 clk k T2 :
  in_order T reqs T1 -> reading T1 clk -> clk 3%nat <= T2 -> in_order T (reqs ++ [(clk, k)]) T2.
Proof.
  revert T. induction reqs as [|[clk' k'] reqs IH]; intros T Ho Hr H2; simpl in *.
  - split; [|done]. destruct Hr as ((? & ?) & ? & ?). unfold reading. lia.
  - destruct Ho as [? ?]. auto.
Qed.
Lemma in_order_later T reqs T1 T2 : in_order T reqs T1 -> T1 <= T2 -> in_order T reqs T2.
Proof. revert T. induction reqs as [|[clk k] reqs IH]; intros T Ho H2; simpl in *; [lia|]. destruct Ho. auto. Qed.
End Sequential.

Section Linearizable.
Context {GC : GoCache} {GCL : GoCacheLaws GC} (rl : RateLimiter) (clk : nat -> Z) (T : Z).
(** A burst of calls within a minute. *)
Context (Hmono : forall i j, (i <= j)%nat -> clk i <= clk j) (Hwin : forall i, T <= clk i < T + Minute).
Context (HT : 0 <= T) (HT' : T + Minute < 2 ^ 62).
(** The clients that have a limiter, and where it is. *)
Context (known : string -> Prop) (ptr : string -> positive).
Context (Hptr : forall k k', known k -> known k' -> ptr k = ptr k' -> k = k').
Context (Henabled : rlc_Enable (rl_Config rl) = true).
Context (Hlists : forall k, known k -> k ∉ BlackList rl /\ k ∉ WhiteList rl).

(** The cache has [v] for [key] during that minute. *)
Definition live {V} (c : gcache V) (key : string) (v : V) : Prop :=
  forall now, T <= now < T + Minute -> exists e, gc_get now c key = Some (v, e).

Lemma live_set {V} (c : gcache V) key v t : T <= t -> live (gc_set t c key v Minute) key v.
Proof.
  intros Ht now Hnow. eexists. apply gc_get_set_live; unfold gc_lifetime, Minute, Second in *; simpl; lia.
Qed.
Lemma live_set_ne {V} (c : gcache V) key key' v v' t : key <> key' -> live c key' v' -> live (gc_set t c key v Minute) key' v'.
Proof. intros Hk Hl now Hnow. rewrite gc_get_set_ne by done. auto. Qed.

(** The state is that of the sequential limiter after the history. *)
Definition linear (s : LState) : Prop := exists rl',
  replay rl (ls_log s) = Some rl' /\ same_params rl rl' /\
  in_order T (map dc_call (ls_log s)) (clk (ls_tick s)) /\
  forall k, known k -> exists l, live (ls_cache s) k (ptr k) /\ ls_heap s !! ptr k = Some l /\ live (Limiters rl') k l.

Definition linearly : Discipline noFlights LState :=
  mkDiscipline linear (fun _ _ => True) (fun s s' => exists es, ls_log s' = ls_log s ++ es) (fun _ _ _ _ => True) False.

#[local] Instance linearly_lawful : Lawful linearly.
Proof.
  split; [by split| |done|done]. split; [intros s; exists []; by rewrite app_nil_r|].
  intros s1 s2 s3 [e1 E1] [e2 E2]. exists (e1 ++ e2). by rewrite E2, E1, app_assoc.
Qed.

(** The sequential limiter on a client it knows. *)
Lemma CanHandle_known rl' key l since now set :
  same_params rl rl' -> known key -> live (Limiters rl') key l -> T <= since < T + Minute ->
  let size := i64 (Size l - sat64 (since - LastUpdate l)) in
  let size := if size <? 0 then 0 else size in
  let '(res, size) := if MaxTime rl <? size then (false, size) else (true, i64 (size + TimeStep rl)) in
  CanHandle (dc_clk (mkDecided since now set key res)) rl' key =
  (res, with_limiters rl' (gc_set set (Limiters rl') key (mkLimiter size now) Minute)).
Proof.
  intros (Hm & Ht & Hc & Hw & Hb) Hk Hl Hs. destruct (Hlists key Hk) as [Hb' Hw']. destruct (Hl since Hs) as [e He].
  cbv zeta. unfold CanHandle. rewrite Hc, Henabled, Hw, Hb, !bool_decide_eq_false_2, Hm, Ht by done. cbn [negb].
  destruct (MaxTime rl <? _) eqn:E; cbn [dc_clk dc_since dc_now dc_set]; rewrite He; cbv zeta; by rewrite E.
Qed.

(** Under the lock, a call does what the sequential limiter does. *)
Lemma lockedUpdate_linear key s :
  known key -> linear s ->
  exists res s' c, run (lockedUpdate rl clk key (ptr key)) s = Done (res, s') /\ linear s' /\
    ls_log s' = ls_log s ++ [c] /\ dc_key c = key /\ dc_res c = res.
Proof.
  intros Hk (rl' & Hr & Hp & Ho & Hl). destruct (Hl key Hk) as (l & Hc & Hh & Hlive).
  unfold lockedUpdate. rewrite run_atom, Hh. cbn [default from_option id].
  set (t := ls_tick s). pose proof (CanHandle_known rl' key l (clk t) (clk (S t)) (clk (S (S t))) Hp Hk Hlive (Hwin t)) as Hcan.
  cbv zeta in *. destruct (if MaxTime rl <? _ then _ else _) as [res size]. eexists _, _, _. split; [reflexivity|].
  split; [|done]. eexists. split; [by simpl; rewrite replay_app, Hr; simpl; rewrite Hcan, Bool.eqb_reflx|].
  split; [exact Hp|]. split.
  - simpl. rewrite map_app. eapply in_order_app; [exact Ho| |simpl; apply Hmono; lia].
    pose proof (Hwin (S (S t))). pose proof (Hmono t (S t)). pose proof (Hmono (S t) (S (S t))). unfold reading, dc_clk. simpl. fold t. lia.
  - intros k Hk'. destruct (decide (k = key)) as [->|Hne].
    + eexists. split; [apply live_set, Hwin|]. split; [apply lookup_insert_eq|apply live_set, Hwin].
    + destruct (Hl k Hk') as (l' & Hc' & Hh' & Hl'). exists l'.
      split; [by apply live_set_ne|]. split; [|by apply live_set_ne]. simpl. rewrite lookup_insert_ne; [done|].
      intros Ep. by apply Hne, Hptr.
Qed.

(** The clock may be read. *)
Lemma linear_tick s n : (ls_tick s <= n)%nat -> linear s -> linear (mkLState n (ls_cache s) (ls_heap s) (ls_log s)).
Proof.
  intros Hn (rl' & Hr & Hp & Ho & Hl). exists rl'. split_and!; [done..| |done]. eapply in_order_later; [exact Ho|by apply Hmono].
Qed.

Lemma canHandle_linear key s : known key ->
  rg ls_log linearly (canHandle rl clk key) (fun a τ _ => exists c, τ = [c] /\ dc_key c = key /\ dc_res c = a) [] s.
Proof.
  intros Hk. destruct (Hlists key Hk) as [Hb Hw]. unfold canHandle. rewrite Henabled, !bool_decide_eq_false_2 by done. cbn [negb].
  apply rg_bind; [tc_solve|]. apply rg_atom. intros s1 _ H1. split; [apply linear_tick; [lia|done]|].
  split; [exists []; by rewrite app_nil_r|]. intros s2 _ _. rewrite emitted_silent by done.
  destruct H1 as (rl1 & _ & _ & _ & Hl). destruct (Hl key Hk) as (l & Hc & _). destruct (Hc (clk (ls_tick s1)) (Hwin _)) as [e ->].
  simpl option_map. cbv iota.
  pose proof (lockedUpdate_linear key) as Hlock. unfold lockedUpdate in *. apply rg_atom. intros s3 _ H3.
  destruct (Hlock s3 Hk H3) as (res & s4 & c & Hrun & H4 & Hlog & Hck & Hcr). rewrite run_atom in Hrun. rewrite Hrun.
  split; [done|]. split; [by exists [c]|]. intros s5 _ _. exists c. unfold emitted. by rewrite Hlog, drop_app_length.
Qed.

(** What thread [i] has logged is its answer to its client. *)
Definition logged_by (keys : list string) (i : nat) (a : bool) (τ : list Decided) : Prop :=
  forall key, keys !! i = Some key -> exists c, τ = [c] /\ dc_key c = key /\ dc_res c = a.

Lemma decisions_logged keys (ts : list (Thread noFlights LState bool)) τs :
  length keys = length ts -> length τs = length ts ->
  (forall i τ, τs !! i = Some τ -> exists a, ts !! i = Some (Running (Ret a)) /\ logged_by keys i a τ) ->
  zip keys (omap (fun t => match t with Running (Ret b) => Some b | _ => None end) ts)
  = map (fun c => (dc_key c, dc_res c)) (concat τs).
Proof.
  revert ts τs. induction keys as [|key keys IH]; intros [|t ts] [|τ τs] Hk Hl H; simpl in *; try done.
  destruct (H 0%nat τ eq_refl) as (a & Ht & Ha). destruct (Ha key eq_refl) as (c & -> & <- & <-).
  simpl in Ht. injection Ht as ->. simpl. f_equal. apply IH; [lia|lia|]. intros i τ Hi. apply (H (S i) τ Hi).
Qed.

(** C12: the limiter under concurrent requests.  Let requests of clients that have a
    limiter in the cache arrive within a minute, each in a goroutine of its own
    that runs [CanHandle], and let these take their steps in any order.  None
    panics or blocks, and when all have answered, the answers are those that
    the sequential limiter gives to the same clients one after the other, in
    some order and at clock readings that follow one another.  So, if the
    bucket drains within a minute, the rate guarantee holds: a client that is not on
    the white list, with a bucket of at most Burst + 1 steps, gets at most Burst + 1
    requests through, plus one per elapsed [TimeStep]. *)
Theorem canHandle_linearizable keys s p :
  Forall known keys -> ls_log s = [] ->
  (forall k, known k -> exists l, live (ls_cache s) k (ptr k) /\ ls_heap s !! ptr k = Some l /\ live (Limiters rl) k l) ->
  rtc poolStep (start s (canHandle rl clk <$> keys)) p ->
  ~ crashes p /\ (finished p \/ exists p', poolStep p p') /\
  (finished p -> let T' := clk (ls_tick (p_state p)) in
     (exists reqs, in_order T reqs T' /\ zip keys (decisions p) ≡ₚ sequential rl reqs) /\
     forall key v, drains rl -> bucket rl key T v -> key ∉ WhiteList rl ->
       granted key (zip keys (decisions p)) * TimeStep rl <= MaxTime rl + TimeStep rl + (T' - T)).
Proof.
  intros Hk Hlog Hs Hrun. assert (linear s) as Hlin.
  { exists rl. rewrite Hlog. split_and!; [done..| |exact Hs]. apply Hwin. }
  destruct (pool_sound ls_log linearly (fun H => H) (fun s s' H => H) (fun i a τ _ => logged_by keys i a τ) s
    (canHandle rl clk <$> keys) p Hlin) as (Hc & Hinv & Hp & Hf); [|done|].
  { intros i m Hm. apply list_lookup_fmap_Some in Hm as (key & -> & Hi). rewrite Forall_lookup in Hk.
    eapply rg_mono; [|by apply canHandle_linear, (Hk i)]. intros a τ s' Hc key' Hi'. rewrite Hi in Hi'. by injection Hi' as <-. }
  split_and!; [done..|]. intros Hfin T'. destruct (Hf Hfin) as (τs & Hl & He & HQ). rewrite Hlog in He. simpl in He.
  destruct Hinv as (rl' & Hr & _ & Ho & _). pose proof (replay_sequential _ _ _ Hr) as Hseq.
  assert (zip keys (decisions p) ≡ₚ sequential rl (map dc_call (ls_log (p_state p)))) as Hperm.
  { rewrite Hseq, He. unfold decisions. rewrite (decisions_logged keys _ τs); [done| |done|done].
    rewrite (rtc_threads _ _ Hrun). simpl. by rewrite !length_fmap. }
  split; [eauto|]. intros key v Hd Hb Hw.
  assert (granted key (zip keys (decisions p)) = accepted rl key (map dc_call (ls_log (p_state p)))) as ->.
  { rewrite accepted_sequential. unfold granted. by rewrite Hperm. }
  pose proof (accepted_bound rl key T T' v _ Henabled Hw Hd HT Hb Ho). pose proof (bucket_bound _ _ _ _ Hd Hb). lia.
Qed.
End Linearizable.

(** ** Runs *)

Definition race_config (burst : Z) : RateLimiterConfig := mkRateLimiterConfig true burst 60 [] [].
Definition race_limiter (burst : Z) : @RateLimiter MapCache :=
  @mkRateLimiter MapCache (gc_new Minute) (burst * Second) Second (race_config burst) ∅ ∅.
Definition client : string := "10.0.0.1".
(** The whole race takes a microsecond. *)
Definition race_clk (i : nat) : Z := Z.min (Z.of_nat i) 1000.

(** A client that has used one of its three requests. *)
Definition known_limiter : @RateLimiter MapCache :=
  with_limiters (race_limiter 2) (gc_set 0 (Limiters (race_limiter 2)) client (mkLimiter Second 0) Minute).
Definition known_state : @LState MapCache :=
  @mkLState MapCache 0 (gc_set (GoCache := MapCache) 0 (gc_new (GoCache := MapCache) Minute) client 1%positive Minute)
    {[1%positive := mkLimiter Second 0]} [].
Definition known_pool : Pool noFlights (@LState MapCache) bool :=
  start known_state (canHandle known_limiter race_clk <$> replicate 4 client).
Definition in_turn (n k : nat) : list nat := concat (replicate n (seq 0 k)).

Lemma canHandle_linearizable_witness :
  exists p, rtc poolStep known_pool p /\ finished p /\ decisions p = [true; true; false; false] /\
    granted client (zip (replicate 4 client) (decisions p)) * Second
      <= 3 * Second + race_clk (ls_tick (p_state p)).
Proof.
  set (p := runSchedule (in_turn 5 4) known_pool).
  assert (bool_decide (Forall returned (p_threads p)) = true) as Hf by (vm_compute; reflexivity). apply bool_decide_eq_true in Hf.
  destruct (canHandle_linearizable known_limiter race_clk 0) with (known := fun k => k = client) (ptr := fun _ : string => 1%positive)
    (keys := replicate 4 client) (s := known_state) (p := p) as (_ & _ & H).
  - intros i j Hij. unfold race_clk. lia.
  - intros i. unfold race_clk, Minute, Second. lia.
  - lia.
  - unfold Minute, Second. lia.
  - by intros k k' -> ->.
  - reflexivity.
  - intros k ->. split; apply not_elem_of_empty.
  - by apply Forall_replicate.
  - reflexivity.
  - intros k ->. exists (mkLimiter Second 0). split_and!; [|reflexivity|]; intros t Ht;
    eexists; apply (gc_get_set_live (C := MapCache)); unfold gc_lifetime, Minute, Second in *; simpl; lia.
  - apply runSchedule_steps.
  - exists p. split; [apply runSchedule_steps|]. split; [exact Hf|]. split; [vm_compute; reflexivity|].
    destruct (H Hf) as [_ Hb]. specialize (Hb client (Z.max 0 (Second - (0 - 0)))).
    assert (drains known_limiter) as Hd by (unfold drains, Minute, Second; simpl; unfold Second; lia).
    assert (client ∉ WhiteList known_limiter) as Hw by apply not_elem_of_empty.
    rewrite Z.sub_0_r in Hb. apply Hb; [exact Hd| |exact Hw].
    apply (bucket_some known_limiter client 0 (mkLimiter Second 0) (0 + Minute)); [simpl; unfold Second; lia..|].
    intros now Hnow. exact (get_set_minute (GC := MapCache) 0 now _ client (mkLimiter Second 0) Hnow).
Defined.

(** The first requests of a client can race.  All of them find no limiter, each
    makes its own, and all are let through, although the client may send one at a
    time. *)
Example racing_first_requests :
  let s := @mkLState MapCache 0 (gc_new (GoCache := MapCache) Minute) ∅ [] in
  let p := runSchedule (in_turn 4 5) (start s (canHandle (race_limiter 0) race_clk <$> replicate 5 client)) in
  bool_decide (Forall returned (p_threads p)) = true /\ decisions p = [true; true; true; true; true] /\
  sequential (race_limiter 0) (replicate 5 (race_clk, client))
    = [(client, true); (client, false); (client, false); (client, false); (client, false)].
Proof. split_and!; vm_compute; reflexivity. Qed.
