(* ===== verification/Server.v ===== *)
(** handler/server.go: the listeners made from the configuration. *)
From S2P Require Import Prelude GoStrings GoNet.

Record TlsConfig := mkTlsConfig {
  tls_Enable : bool; CertPath : string; KeyPath : string; CaPath : string }.

Record ServerConfig := mkServerConfig {
  sc_Ip : string; sc_Port : Z; sc_Protocol : string; sc_Count : Z; sc_Tls : TlsConfig }.

Section Server.
(** crypto/x509 and crypto/tls: certificate pools and key pairs are opaque, the
    functions may fail. *)
Variables (CertPool Certificate : Type).
Variable ReadFile : string -> option string.
Variable AppendCertsFromPEM : string -> option CertPool.
Variable LoadX509KeyPair : string -> string -> option Certificate.

Record tlsConfig := mk_tlsConfig { Certificates : list Certificate; RootCAs : option CertPool }.

(** [dns.Server], in the fields that are set. *)
Record dnsServer := mkServer {
  Addr : string; srv_Net : string; ReusePort : bool; TLSConfig : option tlsConfig }.

Definition loadRoots (caPath : string) : option CertPool :=
  if String.eqb caPath "" then None
  else match ReadFile caPath with
       | None => None
       | Some pem => AppendCertsFromPEM pem
       end.

Definition loadTlsConfig (cfg : TlsConfig) : option tlsConfig :=
  let root := loadRoots (CaPath cfg) in
  if String.eqb (KeyPath cfg) "" || String.eqb (CertPath cfg) "" then Some (mk_tlsConfig [] root)
  else match LoadX509KeyPair (CertPath cfg) (KeyPath cfg) with
       | None => None
       | Some cert => Some (mk_tlsConfig [cert] root)
       end.

(** The body of the inner loop, [for i := 0; i < cfg.Count; i++]: [n] rounds left. *)
Fixpoint appendServers (n : nat) (cfg : ServerConfig) (servers : list dnsServer) : list dnsServer :=
  match n with
  | O => servers
  | S n' =>
      let server := mkServer (sc_Ip cfg +:+ ":" +:+ Itoa (sc_Port cfg)) (sc_Protocol cfg) true None in
      let server := if tls_Enable (sc_Tls cfg)
                    then mkServer (Addr server) (srv_Net server) (ReusePort server) (loadTlsConfig (sc_Tls cfg))
                    else server in
      appendServers n' cfg (servers ++ [server])
  end.

Definition NewServer (config : list ServerConfig) : list dnsServer :=
  foldl (fun servers cfg =>
    let count := if sc_Count cfg <? 1 then 1 else sc_Count cfg in
    appendServers (Z.to_nat count) cfg servers) [] config.

Lemma appendServers_length n cfg servers :
  length (appendServers n cfg servers) = (length servers + n)%nat /\
  (forall s, s ∈ appendServers n cfg servers -> s ∈ servers \/
     (Addr s = sc_Ip cfg +:+ ":" +:+ Itoa (sc_Port cfg) /\ srv_Net s = sc_Protocol cfg /\ ReusePort s = true /\
      TLSConfig s = if tls_Enable (sc_Tls cfg) then loadTlsConfig (sc_Tls cfg) else None)).
Proof.
  revert servers. induction n as [|n IH]; intros servers; simpl; [split; [lia|auto]|].
  destruct (IH (servers ++ [if tls_Enable (sc_Tls cfg)
    then mkServer (sc_Ip cfg +:+ ":" +:+ Itoa (sc_Port cfg)) (sc_Protocol cfg) true (loadTlsConfig (sc_Tls cfg))
    else mkServer (sc_Ip cfg +:+ ":" +:+ Itoa (sc_Port cfg)) (sc_Protocol cfg) true None])) as [Hl Hs].
  split.
  - simpl in Hl. rewrite Hl, length_app. simpl. lia.
  - intros s Hin. destruct (Hs s Hin) as [Hin'|?]; [|by right].
    apply elem_of_app in Hin' as [?| ->%list_elem_of_singleton]; [by left|right]. by case_match.
Qed.

(** How many listeners a list of configurations asks for. *)
Definition asked (config : list ServerConfig) : Z :=
  foldr (fun c n => Z.max 1 (sc_Count c) + n) 0 config.

(** Every configured server gets its listeners: as many as its count says, at
    least one; each listens on an address and protocol of the configuration, can
    share its port with the others, and has TLS settings only if its
    configuration turns TLS on. *)
Theorem NewServer_listeners config :
  Z.of_nat (length (NewServer config)) = asked config /\
  forall s, s ∈ NewServer config -> exists c, c ∈ config /\
    Addr s = sc_Ip c +:+ ":" +:+ Itoa (sc_Port c) /\ srv_Net s = sc_Protocol c /\ ReusePort s = true /\
    TLSConfig s = if tls_Enable (sc_Tls c) then loadTlsConfig (sc_Tls c) else None.
Proof.
  unfold NewServer.
  enough (forall acc, Z.of_nat (length (foldl (fun servers cfg => appendServers
      (Z.to_nat (if sc_Count cfg <? 1 then 1 else sc_Count cfg)) cfg servers) acc config))
      = Z.of_nat (length acc) + asked config /\
    forall s, s ∈ foldl (fun servers cfg => appendServers
      (Z.to_nat (if sc_Count cfg <? 1 then 1 else sc_Count cfg)) cfg servers) acc config -> s ∈ acc \/ exists c, c ∈ config /\
      Addr s = sc_Ip c +:+ ":" +:+ Itoa (sc_Port c) /\ srv_Net s = sc_Protocol c /\ ReusePort s = true /\
      TLSConfig s = if tls_Enable (sc_Tls c) then loadTlsConfig (sc_Tls c) else None) as H.
  { destruct (H []) as [Hl Hs]. split; [done|]. intros s Hin. by destruct (Hs s Hin) as [?%elem_of_nil|?]. }
  induction config as [|c config IH]; intros acc; [split; [simpl; lia|by left]|]. cbn [foldl asked foldr].
  destruct (appendServers_length (Z.to_nat (if sc_Count c <? 1 then 1 else sc_Count c)) c acc) as [Hl Hs].
  destruct (IH (appendServers (Z.to_nat (if sc_Count c <? 1 then 1 else sc_Count c)) c acc)) as [IHl IHs]. split.
  - rewrite IHl, Hl. fold (asked config). case_match; bool_to_prop; lia.
  - intros s Hin. destruct (IHs s Hin) as [Hin'|(c' & Hc' & ?)]; [|right; exists c'; set_solver].
    destruct (Hs s Hin') as [?|?]; [by left|right; exists c; set_solver].
Qed.
End Server.
