(* ===== verification/Deps.v ===== *)
(** The code redins calls and does not contain, as interfaces: the Redis client
    (github.com/hawell/uperdis), the DNS library (github.com/miekg/dns), the
    request helper of CoreDNS (github.com/coredns/coredns/request), the JSON codec
    (github.com/json-iterator/go), and the world outside the process.  The
    interfaces that one component alone uses are declared with it ([Radix],
    [GoCache], [MaxMind], [MathFns]); [Libs] bundles them all. *)
From S2P Require Import Prelude GoStrings Utf8 DnsTypes Float64 GoCache ZoneIndex OrderIps GeoIp.

(** ** Data exchanged with the libraries *)

(** [dns.Question] and [dns.Msg], in the fields redins uses. *)
Record Question := mkQuestion { q_Name : string; q_Qtype : Z; q_Qclass : Z }.

Record Msg := mkMsg {
  m_Id : Z;
  m_Authoritative : bool;
  m_RecursionAvailable : bool;
  m_Compress : bool;
  m_Rcode : Z;
  m_Question : list Question;
  m_Answer : list RR;
  m_Ns : list RR;
  m_Extra : list RR
}.

(** [new(dns.Msg)] *)
Definition newMsg : Msg := mkMsg 0 false false false 0 [] [] [] [].

(** The health-check item of handler/healthcheck.go; [LastCheck] in nanoseconds. *)
Record HealthCheckItem := mkItem {
  it_Protocol : string; it_Uri : string; it_Port : Z; it_Status : Z; it_LastCheck : Z;
  it_Timeout : Z; it_UpCount : Z; it_DownCount : Z; it_Enable : bool; it_DomainId : string;
  it_Host : string; it_Ip : string; it_Error : option string
}.

Definition zeroItem : HealthCheckItem :=
  mkItem "" "" 0 0 zeroTime 0 0 0 false "" "" "" None.

(** Settings of the Redis client and of github.com/hawell/logger. *)
Record RedisConnectionConfig := mkRedisConnectionConfig {
  MaxIdleConnections : Z; MaxActiveConnections : Z; ConnectTimeout : Z; ReadTimeout : Z;
  IdleKeepAlive : Z; MaxKeepAlive : Z; WaitForConnection : bool }.
Record RedisConfig := mkRedisConfig {
  rc_Address : string; rc_Net : string; rc_DB : Z; rc_Password : string; rc_Prefix : string; rc_Suffix : string;
  rc_Connection : RedisConnectionConfig }.
Record SentryConfig := mkSentryConfig { sentry_Enable : bool; sentry_DSN : string }.
Record SyslogConfig := mkSyslogConfig { syslog_Enable : bool; syslog_Protocol : string; syslog_Address : string }.
Record KafkaConfig := mkKafkaConfig {
  kafka_Enable : bool; kafka_Topic : string; kafka_Brokers : list string; kafka_Format : string;
  kafka_Compression : string; kafka_Timeout : Z; kafka_BufferSize : Z }.
Record LogConfig := mkLogConfig {
  log_Enable : bool; log_Target : string; log_Level : string; log_Path : string; log_Format : string;
  log_TimeFormat : string; log_Sentry : SentryConfig; log_Syslog : SyslogConfig; log_Kafka : KafkaConfig }.

(** ** Interfaces *)

(** A Redis server seen through the client.  Reads return the value the client
    returns together with the error; [Set] and [Expire] are called without a
    look at the error they return. *)
Class Redis := {
  RS : Type;
  redis_SMembers : RS -> string -> list string * option string;
  redis_GetHKeys : RS -> string -> list string * option string;
  redis_GetKeys : RS -> string -> list string * option string;
  redis_Get : RS -> string -> string * option string;
  redis_HGet : RS -> string -> string -> string * option string;
  redis_Set : RS -> string -> string -> RS;
  redis_HSet : RS -> string -> string -> string -> RS * option string;
  redis_Expire : RS -> string -> Z -> RS
}.

(** What a working server guarantees about its string keys. *)
Class RedisLaws (R : Redis) := {
  redis_Get_Set_eq : forall rs k v, redis_Get (redis_Set rs k v) k = (v, None);
  redis_Get_Set_ne : forall rs k k' v, k <> k' -> redis_Get (redis_Set rs k v) k' = redis_Get rs k'
}.

Class DnsLib := {
  dns_Fqdn : string -> string;
  (** [dns.NewRR]: [None] is an error, [Some None] a nil record (empty input) *)
  dns_NewRR : string -> option (option RR);
  dns_KeyTag : RR_Header -> DNSKEYData -> Z;
  (** [DNSKEY.NewPrivateKey]; [None] is an error *)
  dns_NewPrivateKey : DNSKEYData -> string -> option PrivateKey;
  (** [RRSIG.Sign], which completes the header and the data; [None] is an error *)
  dns_Sign : RR_Header -> RRSIGData -> PrivateKey -> list RR -> option (RR_Header * RRSIGData);
  (** [Msg.IsEdns0], the options of the OPT record *)
  dns_IsEdns0 : Msg -> option (list EDNS0);
  (** [m.SetRcode(req, rcode)] *)
  dns_SetRcode : Msg -> option Msg -> Z -> Outcome Msg
}.

(** [SetRcode] turns a message into a reply: it sets the code and the question
    and leaves the sections and the AA bit as they are. *)
Class DnsLibLaws (D : DnsLib) := {
  SetRcode_ok : forall m r rc, exists m', dns_SetRcode m (Some r) rc = Done m' /\
    m_Rcode m' = rc /\ m_Answer m' = m_Answer m /\ m_Ns m' = m_Ns m /\ m_Extra m' = m_Extra m /\
    m_Authoritative m' = m_Authoritative m /\ m_Id m' = m_Id r;
  SetRcode_no_diverge : forall m r rc, dns_SetRcode m r rc <> Diverge
}.

(** [request.Request] of CoreDNS.  [Writer] is [dns.ResponseWriter]. *)
Class CoreDns := {
  Writer : Type;
  req_IP : Writer -> string;
  req_Type : option Msg -> string;
  req_QType : option Msg -> Z;
  req_Do : option Msg -> bool;
  (** [SizeAndDo] and [Scrub] adapt the reply to the client's EDNS0 options and
      buffer size *)
  req_SizeAndDo : Writer -> option Msg -> Msg -> Msg;
  req_Scrub : Writer -> option Msg -> Msg -> Msg
}.

(** jsoniter decodes into an existing value: fields that the document lacks keep
    what they held, and an error may leave some fields already set. *)
Class Json := {
  json_decode_config : string -> ZoneConfig -> ZoneConfig * option string;
  json_decode_record : string -> RRSets -> RRSets * option string;
  json_decode_item : string -> HealthCheckItem -> HealthCheckItem;
  json_encode_record : RRSets -> option string;
  json_encode_item : HealthCheckItem -> option string
}.

(** The strings JSON can carry unchanged. *)
Definition utf8 (s : string) : Prop := encode_runes (runes_of (bytes_of s)) = bytes_of s.

(** Host, Ip and Error carry the tag [json:"-"]: they are not encoded, and a
    decoded item keeps the ones it had.  Everything else survives. *)
Class JsonLaws (J : Json) := {
  json_item_roundtrip : forall it s host ip,
    utf8 (it_Protocol it) -> utf8 (it_Uri it) -> utf8 (it_DomainId it) ->
    json_encode_item it = Some s ->
    json_decode_item s (mkItem "" "" 0 0 zeroTime 0 0 0 false "" host ip None)
    = mkItem (it_Protocol it) (it_Uri it) (it_Port it) (it_Status it) (it_LastCheck it)
        (it_Timeout it) (it_UpCount it) (it_DownCount it) (it_Enable it) (it_DomainId it) host ip None
}.

Class Libs := {
  lib_redis :: Redis;
  lib_radix :: Radix;
  lib_cache :: GoCache;
  lib_mm :: MaxMind;
  lib_math :: MathFns;
  lib_dns :: DnsLib;
  lib_coredns :: CoreDns;
  lib_json :: Json
}.
