(* ===== verification/World.v ===== *)
(** The state the goroutines of redins share, the environment it runs in, and
    the primitive steps on it.

    The handler's components keep their state behind pointers; here it is one
    record, [World], threaded through the monad [M].  A [Record] lives in a heap
    ([w_heap]) because the record cache hands out pointers and [HandleRequest]
    writes through one of them; a [Zone] is not written after [LoadZone] has
    built it and is kept by value.  Each step that looks outside (the clock, a
    Redis server, a cache that may evict, the network) advances [w_tick], and
    [Env] says what it finds at that tick; between two steps other clients may
    change the servers and the zone updater may replace the zone tree, which is
    [env_redis], [env_status] and [env_zones]. *)
From S2P Require Import Prelude GoStrings DnsTypes GoCache Monad Rely ZoneIndex OrderIps GeoIp Deps.

(** What [LogData map[string]interface{}] holds, by its dynamic type: a string, a
    net.IP, an int, an int64, a uint. *)
Inductive LogVal := LvStr (s : string) | LvIP (ip : IP) | LvInt (z : Z) | LvInt64 (z : Z) | LvUint (z : Z).
Abbreviation LogData := (gmap string LogVal).

(** [UpstreamConnection]: the client's protocol and timeout, and host:port. *)
Record UpstreamConnection := mkConnection {
  uc_Net : string; uc_Timeout : Z; connectionStr : string }.

Section World.
Context {L : Libs}.

(** Calls on [context.W]; a failed write is followed by a close. *)
Inductive Event :=
  | Wrote (w : Writer) (m : Msg)
  | Closed (w : Writer).

Record World := mkWorld {
  w_tick : nat;  (* how often the outside world was consulted so far *)
  w_redis : RS;  (* the configuration server, h.Redis *)
  w_status : RS;  (* the status server, h.healthcheck.redisStatusServer *)
  w_Zones : rtree;  (* h.Zones *)
  w_LastZoneUpdate : Z;  (* h.LastZoneUpdate *)
  w_heap : gmap positive Record_;  (* the [Record]s pointers refer to *)
  w_RecordCache : gmap string positive;  (* h.RecordCache: keys to pointers *)
  w_ZoneCache : gmap string Zone;  (* h.ZoneCache *)
  w_cachedItems : gcache HealthCheckItem;  (* h.healthcheck.cachedItems *)
  w_upstreamCache : gcache (list RR);  (* h.upstream.cache *)
  w_connections : list UpstreamConnection;  (* h.upstream.connections *)
  w_logQueue : list LogData;  (* h.logQueue, oldest first *)
  w_jobs : list HealthCheckItem;  (* items queued at h.healthcheck.dispatcher *)
  w_healthLog : list LogData;  (* what went to h.healthcheck.logger, oldest first *)
  w_events : list Event   (* what was done to the clients, oldest first *)
}.

(** What the calls of [pingCheck] come to: the error of [icmp.ListenPacket]; those of
    [Marshal] and [WriteTo] for an echo request with this id; and the message
    read, an error or what [icmp.ParseMessage] makes of it, an error or a type. *)
Record PingIO := mkPingIO {
  icmp_Listen : option string;
  icmp_Marshal : Z -> option string;
  icmp_WriteTo : Z -> option string;
  icmp_Read : string + (string + Z)
}.

(** The environment, by tick. *)
Class Env := {
  env_now : nat -> Z;                              (* time.Now(), in nanoseconds *)
  env_redis : nat -> RS -> RS;                     (* other clients of h.Redis *)
  env_status : nat -> RS -> RS;                    (* other clients of the status server *)
  env_zones : nat -> rtree -> rtree;               (* the zone updater goroutine *)
  env_keeps : nat -> string -> bool;               (* ristretto still holds the key *)
  env_exchange : nat -> UpstreamConnection -> string -> Z -> option Msg;  (* client.Exchange *)
  env_http : nat -> string -> string -> Z -> string + Z;  (* HEAD url, Host, timeout: error or status code *)
  env_ping : nat -> IP -> Z -> PingIO;             (* an echo request, within the timeout *)
  env_write : nat -> bool;                         (* WriteMsg succeeds *)
  env_drained : nat -> nat;                        (* entries the log goroutine took *)
  env_range : nat -> forall {A}, list A -> list A;  (* iteration order of a Go map *)
  env_range_perm : forall t A (l : list A), env_range t l ≡ₚ l
}.

(** The singleflight groups: [h.ZoneInflight], [h.RecordInflight] and
    [h.upstream.inflight], with what the functions run under them return
    ([None] for an error). *)
Inductive InflightGroup := ZoneInflight | RecordInflight | UpstreamInflight.
Definition inflight : Flights := mkFlights InflightGroup (fun g =>
  match g with
  | ZoneInflight => option Zone
  | RecordInflight => option positive
  | UpstreamInflight => option Msg
  end).

Definition M : Type -> Type := ST inflight World.

Lemma M_bind {A B} (m : M A) (f : A -> M B) w :
  (m ≫= f) w = match m w with
               | Done (a, w') => f a w'
               | Panic => Panic
               | Diverge => Diverge
               end.
Proof. apply run_bind. Qed.

(** [group.Do(key, body)] *)
Definition inflight_Do (g : InflightGroup) (key : string) (body : M (Val inflight g)) : M (Val inflight g) :=
  flight (F := inflight) g key body.

Definition set_tick (x : nat) (w : World) : World :=
  mkWorld x (w_redis w) (w_status w) (w_Zones w) (w_LastZoneUpdate w) (w_heap w) (w_RecordCache w) (w_ZoneCache w) (w_cachedItems w) (w_upstreamCache w) (w_connections w) (w_logQueue w) (w_jobs w) (w_healthLog w) (w_events w).
Definition set_redis (x : RS) (w : World) : World :=
  mkWorld (w_tick w) x (w_status w) (w_Zones w) (w_LastZoneUpdate w) (w_heap w) (w_RecordCache w) (w_ZoneCache w) (w_cachedItems w) (w_upstreamCache w) (w_connections w) (w_logQueue w) (w_jobs w) (w_healthLog w) (w_events w).
Definition set_status (x : RS) (w : World) : World :=
  mkWorld (w_tick w) (w_redis w) x (w_Zones w) (w_LastZoneUpdate w) (w_heap w) (w_RecordCache w) (w_ZoneCache w) (w_cachedItems w) (w_upstreamCache w) (w_connections w) (w_logQueue w) (w_jobs w) (w_healthLog w) (w_events w).
Definition set_Zones (x : rtree) (w : World) : World :=
  mkWorld (w_tick w) (w_redis w) (w_status w) x (w_LastZoneUpdate w) (w_heap w) (w_RecordCache w) (w_ZoneCache w) (w_cachedItems w) (w_upstreamCache w) (w_connections w) (w_logQueue w) (w_jobs w) (w_healthLog w) (w_events w).
Definition set_LastZoneUpdate (x : Z) (w : World) : World :=
  mkWorld (w_tick w) (w_redis w) (w_status w) (w_Zones w) x (w_heap w) (w_RecordCache w) (w_ZoneCache w) (w_cachedItems w) (w_upstreamCache w) (w_connections w) (w_logQueue w) (w_jobs w) (w_healthLog w) (w_events w).
Definition set_heap (x : gmap positive Record_) (w : World) : World :=
  mkWorld (w_tick w) (w_redis w) (w_status w) (w_Zones w) (w_LastZoneUpdate w) x (w_RecordCache w) (w_ZoneCache w) (w_cachedItems w) (w_upstreamCache w) (w_connections w) (w_logQueue w) (w_jobs w) (w_healthLog w) (w_events w).
Definition set_RecordCache (x : gmap string positive) (w : World) : World :=
  mkWorld (w_tick w) (w_redis w) (w_status w) (w_Zones w) (w_LastZoneUpdate w) (w_heap w) x (w_ZoneCache w) (w_cachedItems w) (w_upstreamCache w) (w_connections w) (w_logQueue w) (w_jobs w) (w_healthLog w) (w_events w).
Definition set_ZoneCache (x : gmap string Zone) (w : World) : World :=
  mkWorld (w_tick w) (w_redis w) (w_status w) (w_Zones w) (w_LastZoneUpdate w) (w_heap w) (w_RecordCache w) x (w_cachedItems w) (w_upstreamCache w) (w_connections w) (w_logQueue w) (w_jobs w) (w_healthLog w) (w_events w).
Definition set_cachedItems (x : gcache HealthCheckItem) (w : World) : World :=
  mkWorld (w_tick w) (w_redis w) (w_status w) (w_Zones w) (w_LastZoneUpdate w) (w_heap w) (w_RecordCache w) (w_ZoneCache w) x (w_upstreamCache w) (w_connections w) (w_logQueue w) (w_jobs w) (w_healthLog w) (w_events w).
Definition set_upstreamCache (x : gcache (list RR)) (w : World) : World :=
  mkWorld (w_tick w) (w_redis w) (w_status w) (w_Zones w) (w_LastZoneUpdate w) (w_heap w) (w_RecordCache w) (w_ZoneCache w) (w_cachedItems w) x (w_connections w) (w_logQueue w) (w_jobs w) (w_healthLog w) (w_events w).
Definition set_connections (x : list UpstreamConnection) (w : World) : World :=
  mkWorld (w_tick w) (w_redis w) (w_status w) (w_Zones w) (w_LastZoneUpdate w) (w_heap w) (w_RecordCache w) (w_ZoneCache w) (w_cachedItems w) (w_upstreamCache w) x (w_logQueue w) (w_jobs w) (w_healthLog w) (w_events w).
Definition set_logQueue (x : list LogData) (w : World) : World :=
  mkWorld (w_tick w) (w_redis w) (w_status w) (w_Zones w) (w_LastZoneUpdate w) (w_heap w) (w_RecordCache w) (w_ZoneCache w) (w_cachedItems w) (w_upstreamCache w) (w_connections w) x (w_jobs w) (w_healthLog w) (w_events w).
Definition set_jobs (x : list HealthCheckItem) (w : World) : World :=
  mkWorld (w_tick w) (w_redis w) (w_status w) (w_Zones w) (w_LastZoneUpdate w) (w_heap w) (w_RecordCache w) (w_ZoneCache w) (w_cachedItems w) (w_upstreamCache w) (w_connections w) (w_logQueue w) x (w_healthLog w) (w_events w).
Definition set_healthLog (x : list LogData) (w : World) : World :=
  mkWorld (w_tick w) (w_redis w) (w_status w) (w_Zones w) (w_LastZoneUpdate w) (w_heap w) (w_RecordCache w) (w_ZoneCache w) (w_cachedItems w) (w_upstreamCache w) (w_connections w) (w_logQueue w) (w_jobs w) x (w_events w).
Definition set_events (x : list Event) (w : World) : World :=
  mkWorld (w_tick w) (w_redis w) (w_status w) (w_Zones w) (w_LastZoneUpdate w) (w_heap w) (w_RecordCache w) (w_ZoneCache w) (w_cachedItems w) (w_upstreamCache w) (w_connections w) (w_logQueue w) (w_jobs w) (w_healthLog w) x.

Context {E : Env}.

(** Consult the environment: the current tick, then advance it. *)
Definition ticking {A} (f : nat -> World -> Outcome (A * World)) : M A :=
  atom (fun w => f (w_tick w) (set_tick (S (w_tick w)) w)).
Definition tick : M nat := ticking (fun t w => Done (t, w)).

(** [time.Now()] *)
Definition now : M Z := ticking (fun t w => Done (env_now t, w)).

(** [time.Now().Unix()]: whole seconds, rounded down. *)
Definition Unix (t : Z) : Z := t / Second.
Definition nowUnix : M Z := ticking (fun t w => Done (Unix (env_now t), w)).

(** A call on the configuration server, on the status server. *)
Definition redis {A} (f : RS -> A) : M A := ticking (fun t w =>
  let rs := env_redis t (w_redis w) in Done (f rs, set_redis rs w)).
Definition redis_write (f : RS -> RS) : M unit := ticking (fun t w =>
  Done (tt, set_redis (f (env_redis t (w_redis w))) w)).
Definition status {A} (f : RS -> A) : M A := ticking (fun t w =>
  let rs := env_status t (w_status w) in Done (f rs, set_status rs w)).
Definition status_write (f : RS -> RS) : M unit := ticking (fun t w =>
  Done (tt, set_status (f (env_status t (w_status w))) w)).

(** [h.Zones] as it is now. *)
Definition zones : M rtree := ticking (fun t w =>
  let z := env_zones t (w_Zones w) in Done (z, set_Zones z w)).

(** The two ristretto caches: [Get] finds a key only while it is held. *)
Definition RecordCache_Get (key : string) : M (option positive) := ticking (fun t w =>
  Done (if env_keeps t key then w_RecordCache w !! key else None, w)).
Definition RecordCache_Set (key : string) (r : positive) : M unit :=
  st_modify (fun w => set_RecordCache (<[key := r]> (w_RecordCache w)) w).
Definition ZoneCache_Get (key : string) : M (option Zone) := ticking (fun t w =>
  Done (if env_keeps t key then w_ZoneCache w !! key else None, w)).
Definition ZoneCache_Set (key : string) (z : Zone) : M unit :=
  st_modify (fun w => set_ZoneCache (<[key := z]> (w_ZoneCache w)) w).

(** [new(Record)] and reading or writing through a [*Record]. *)
Definition zeroIP_RRSet : IP_RRSet :=
  mkIP_RRSet (mkIpFilterConfig "" "" "") (mkIpHealthCheckConfig "" "" 0 0 0 0 false) 0 [].
Definition zeroRRSets : RRSets :=
  mkRRSets zeroIP_RRSet zeroIP_RRSet (mkTXT_RRSet 0 []) None (mkNS_RRSet 0 []) (mkMX_RRSet 0 [])
    (mkSRV_RRSet 0 []) (mkCAA_RRSet 0 []) None (mkTLSA_RRSet 0 []) None.
Definition zeroRecord : Record_ := mkRecord zeroRRSets None "" 0.

Definition alloc (r : Record_) : M positive := atom (fun w =>
  let p := fresh (dom (w_heap w)) in Done (p, set_heap (<[p := r]> (w_heap w)) w)).
(** Every pointer comes from [alloc], so the default is never read. *)
Definition load (p : positive) : M Record_ := atom (fun w =>
  Done (default zeroRecord (w_heap w !! p), w)).
(** Assigning a field of the record. *)
Definition update (p : positive) (f : Record_ -> Record_) : M unit :=
  st_modify (fun w => set_heap (<[p := f (default zeroRecord (w_heap w !! p))]> (w_heap w)) w).

Definition emit (e : Event) : M unit :=
  st_modify (fun w => set_events (w_events w ++ [e]) w).

(** ** Rules for the primitive steps *)

Implicit Types (w : World).

(** Steps that touch neither the clients, nor the log queue, nor the zone cache. *)
Definition quiet w w' : Prop :=
  w_events w' = w_events w /\ w_logQueue w' = w_logQueue w /\ w_ZoneCache w' = w_ZoneCache w.

#[global] Instance quiet_preorder : PreOrder quiet.
Proof. split; unfold quiet; [done|]. intros x y z (? & ? & ?) (? & ? & ?). repeat split; congruence. Qed.

Lemma wp_ticking {A} P (f : nat -> World -> Outcome (A * World)) Q w :
  wp P (ticking f) Q w <->
  match f (w_tick w) (set_tick (S (w_tick w)) w) with Done (a, w') => Q a w' | Panic => P | Diverge => False end.
Proof. unfold ticking. by rewrite wp_atom. Qed.
Lemma wp_tick P Q w : wp P tick Q w <-> Q (w_tick w) (set_tick (S (w_tick w)) w).
Proof. apply wp_atom. Qed.
Lemma wp_now P Q w : wp P now Q w <-> Q (env_now (w_tick w)) (set_tick (S (w_tick w)) w).
Proof. apply wp_atom. Qed.
Lemma wp_nowUnix P Q w : wp P nowUnix Q w <-> Q (Unix (env_now (w_tick w))) (set_tick (S (w_tick w)) w).
Proof. apply wp_atom. Qed.
Lemma wp_get P Q w : wp P (st_get : M World) Q w <-> Q w w.
Proof. apply wp_atom. Qed.
Lemma wp_modify P f Q w : wp P (st_modify f : M unit) Q w <-> Q tt (f w).
Proof. apply wp_atom. Qed.
Lemma wp_Do P g key body Q w : wp P (inflight_Do g key body) Q w <-> wp P body Q w.
Proof. apply wp_flight. Qed.
Lemma wp_redis {A} P (f : RS -> A) Q w :
  wp P (redis f) Q w <->
  let rs := env_redis (w_tick w) (w_redis w) in Q (f rs) (set_redis rs (set_tick (S (w_tick w)) w)).
Proof. apply wp_atom. Qed.
Lemma wp_status {A} P (f : RS -> A) Q w :
  wp P (status f) Q w <->
  let rs := env_status (w_tick w) (w_status w) in Q (f rs) (set_status rs (set_tick (S (w_tick w)) w)).
Proof. apply wp_atom. Qed.
Lemma wp_zones P Q w :
  wp P zones Q w <->
  let z := env_zones (w_tick w) (w_Zones w) in Q z (set_Zones z (set_tick (S (w_tick w)) w)).
Proof. apply wp_atom. Qed.
Lemma wp_load P p Q w : wp P (load p) Q w <-> Q (default zeroRecord (w_heap w !! p)) w.
Proof. apply wp_atom. Qed.
Lemma wp_emit P e Q w : wp P (emit e) Q w <-> Q tt (set_events (w_events w ++ [e]) w).
Proof. apply wp_atom. Qed.

(** A computation whose steps are all quiet, also when others take steps in
    between; it may use the calls whose results [free] says nothing about. *)
Definition quietly (free : forall g, string -> Val inflight g -> Prop) : Discipline inflight World :=
  mkDiscipline (fun _ => True) (fun _ _ => True) quiet (fun g key v _ => free g key v) True.

#[global] Instance quietly_lawful free : Lawful (quietly free).
Proof. split; [by split| |done|done]. apply quiet_preorder. Qed.
#[global] Instance quietly_silent free : Silent w_events (quietly free).
Proof. by intros w w' [? _]. Qed.

Definition is_quiet {A} (m : M A) : Prop := forall free,
  (forall key v, free RecordInflight key v) -> (forall key v, free UpstreamInflight key v) ->
  forall w, silently w_events (quietly free) m (fun _ _ => True) w.

(** On its own, too. *)
Lemma quiet_wp {A} (m : M A) w : is_quiet m -> wp True m (fun _ w' => quiet w w') w.
Proof.
  intros Hm. pose proof (rg_run w_events _ m _ [] w (Hm (fun _ _ _ => True) (fun _ _ => I) (fun _ _ => I) w []) I) as H.
  unfold wp. destruct (run m w) as [[a w']| |]; [apply H|done|done].
Qed.

Lemma quiet_ret {A} (a : A) : is_quiet (mret a : M A).
Proof. intros free _ _ w. by apply silently_ret. Qed.
Lemma quiet_bind {A B} (m : M A) (f : A -> M B) :
  is_quiet m -> (forall a, is_quiet (f a)) -> is_quiet (m ≫= f).
Proof. intros Hm Hf free Hr Hu w. eapply silently_bind; [tc_solve|by apply Hm|]. intros a w' _ _. by apply Hf. Qed.
Lemma quiet_atom {A} (f : World -> Outcome (A * World)) :
  (forall w, match f w with Done (_, w') => quiet w w' | Panic => True | Diverge => False end) ->
  is_quiet (atom f).
Proof.
  intros Hf free _ _ w. apply silently_atom; [tc_solve|]. intros w' _ _. specialize (Hf w').
  by destruct (f w') as [[a w'']| |].
Qed.
Lemma quiet_Do g key body : g <> ZoneInflight -> flat body -> is_quiet body -> is_quiet (inflight_Do g key body).
Proof.
  intros Hg Hf Hb free Hr Hu w. eapply silently_mono; [|apply silently_flight; [tc_solve|exact Hf|]].
  - done.
  - eapply silently_mono; [|by apply Hb]. intros v w' _. destruct g; [done|apply Hr|apply Hu].
Qed.
Lemma quiet_lift {A} (o : Outcome A) : o <> Diverge -> is_quiet (st_lift o).
Proof. intros Ho. apply quiet_atom. intros w. destruct o; done. Qed.
Lemma quiet_panic {A} : is_quiet (st_panic : M A).
Proof. by apply quiet_atom. Qed.
Lemma quiet_tick : is_quiet tick.
Proof. by apply quiet_atom. Qed.
Lemma quiet_now : is_quiet now.
Proof. by apply quiet_atom. Qed.
Lemma quiet_nowUnix : is_quiet nowUnix.
Proof. by apply quiet_atom. Qed.
Lemma quiet_get : is_quiet st_get.
Proof. by apply quiet_atom. Qed.
Lemma quiet_modify f : (forall w, quiet w (f w)) -> is_quiet (st_modify f).
Proof. intros Hf. by apply quiet_atom. Qed.
Lemma quiet_redis {A} (f : RS -> A) : is_quiet (redis f).
Proof. by apply quiet_atom. Qed.
Lemma quiet_status {A} (f : RS -> A) : is_quiet (status f).
Proof. by apply quiet_atom. Qed.
Lemma quiet_status_write f : is_quiet (status_write f).
Proof. by apply quiet_atom. Qed.
Lemma quiet_zones : is_quiet zones.
Proof. by apply quiet_atom. Qed.
Lemma quiet_RecordCache_Get k : is_quiet (RecordCache_Get k).
Proof. by apply quiet_atom. Qed.
Lemma quiet_RecordCache_Set k p : is_quiet (RecordCache_Set k p).
Proof. by apply quiet_atom. Qed.
Lemma quiet_alloc r : is_quiet (alloc r).
Proof. by apply quiet_atom. Qed.
Lemma quiet_load p : is_quiet (load p).
Proof. by apply quiet_atom. Qed.
Lemma quiet_update p f : is_quiet (update p f).
Proof. by apply quiet_atom. Qed.
Lemma quiet_ZoneCache_Get k : is_quiet (ZoneCache_Get k).
Proof. by apply quiet_atom. Qed.

Lemma quiet_mapM {A B} (f : A -> M B) l : (forall a, is_quiet (f a)) -> is_quiet (mapM f l).
Proof.
  intros Hf. induction l as [|a l IH]; simpl; [apply quiet_ret|].
  apply quiet_bind; [apply Hf|]. intros b. apply quiet_bind; [done|]. intros k. apply quiet_ret.
Qed.
End World.

#[export] Hint Resolve quiet_ret quiet_panic quiet_tick quiet_now quiet_nowUnix quiet_get quiet_redis
  quiet_status quiet_status_write quiet_zones quiet_RecordCache_Get quiet_RecordCache_Set quiet_alloc quiet_load
  quiet_update quiet_ZoneCache_Get : redins.

(** Show that a computation makes no shared calls by walking through it. *)
Ltac flat_step :=
  match goal with
  | |- flat (match ?x with _ => _ end) => destruct x
  | |- flat (mret _) => apply flat_ret
  | |- flat (_ ≫= _) => apply flat_bind; [|intros]
  | |- flat _ => solve [done | auto with redins | apply flat_atom]
  end.
Ltac flat := repeat flat_step.

(** Show that a computation is quiet by walking through it. *)
Ltac quiet_step :=
  match goal with
  | |- is_quiet (match ?x with _ => _ end) => destruct x
  | |- is_quiet (mapM _ _) => apply quiet_mapM; intros
  | |- is_quiet (st_modify _) => apply quiet_modify; intros; repeat split
  | |- is_quiet (_ ≫= _) => apply quiet_bind; [|intros]
  | |- is_quiet ?m => lazymatch m with inflight_Do ?g ?k ?b => apply (quiet_Do g k b); [discriminate|solve [flat]|] end
  | |- is_quiet _ => solve [auto with redins]
  end.
Ltac quiet := repeat quiet_step.

(** Walk one step of a [wp] goal on the primitives. *)
Ltac wstep :=
  match goal with
  | |- wp _ (mret _) _ _ => apply wp_ret
  | |- wp _ (_ ≫= _) _ _ => apply wp_bind
  | |- wp _ (st_lift _) _ _ => apply wp_lift
  | |- wp _ ?m _ _ => lazymatch m with inflight_Do ?g ?k ?b => apply (wp_Do _ g k b) end
  | |- wp _ tick _ _ => apply wp_tick
  | |- wp _ now _ _ => apply wp_now
  | |- wp _ nowUnix _ _ => apply wp_nowUnix
  | |- wp _ (ticking _) _ _ => apply wp_ticking
  | |- wp _ st_get _ _ => apply wp_get
  | |- wp _ (st_modify _) _ _ => apply wp_modify
  | |- wp _ (redis _) _ _ => apply wp_redis
  | |- wp _ (status _) _ _ => apply wp_status
  | |- wp _ zones _ _ => apply wp_zones
  | |- wp _ (load _) _ _ => apply wp_load
  | |- wp _ (emit _) _ _ => apply wp_emit
  end; cbv beta zeta.
