(* ===== verification/Answers.v ===== *)
(** The record builders of handler/handler.go: one method per record type that
    turns a stored record set into resource records, [getTtl] and [split255]. *)
From S2P Require Import Prelude GoStrings DnsTypes Deps.

(** ** [getTtl] and [split255] *)

(** [MaxTtl] is the configured [int]. *)
Definition getTtl (MaxTtl : Z) (ttl : Z) : Z :=
  let maxTtl := u32 MaxTtl in
  if ttl =? 0 then maxTtl
  else if maxTtl =? 0 then ttl
  else if maxTtl <? ttl then maxTtl
  else ttl.

(** The loop from position [p] with [i = p + 255]; [n] bounds the rounds. *)
Fixpoint splitLoop (n : nat) (s : string) (p i : nat) : Outcome (list string) :=
  match n with
  | O => Diverge
  | S n' =>
      if (i <=? slen s)%nat then
        sx ← splitLoop n' s (p + 255) (i + 255);
        mret (stake (i - p) (sdrop p s) :: sx)
      else mret [sdrop p s]
  end.

(** Every round advances by 255 bytes, so [len(s)] rounds and one more are more
    than enough ([split255_spec]). *)
Definition split255 (s : string) : Outcome (list string) :=
  if (slen s <? 255)%nat then mret [s] else splitLoop (slen s + 1) s 0 255.

(** ** One builder per record type *)

Section Answers.
Context {D : DnsLib} (MaxTtl : Z).
Implicit Types (name : string) (record : RRSets).

Definition hdr name (t c ttl : Z) : RR_Header := mkHdr name t c (getTtl MaxTtl ttl).

Definition h_A name record (ips : list IP) : list RR :=
  omap (fun ip : IP =>
    match ip with
    | None => None
    | Some _ => Some (mkRR (hdr name TypeA ClassINET (ip_Ttl (rs_A record))) (DA ip))
    end) ips.

Definition h_AAAA name record (ips : list IP) : list RR :=
  omap (fun ip : IP =>
    match ip with
    | None => None
    | Some _ => Some (mkRR (hdr name TypeAAAA ClassINET (ip_Ttl (rs_AAAA record))) (DAAAA ip))
    end) ips.

Definition h_CNAME name record : list RR :=
  match rs_CNAME record with
  | None => []
  | Some c => [mkRR (hdr name TypeCNAME ClassINET (cname_Ttl c)) (DCNAME (dns_Fqdn (cname_Host c)))]
  end.

Definition h_TXT name record : Outcome (list RR) :=
  foldr (fun txt acc =>
    if (slen txt =? 0)%nat then acc
    else sx ← split255 txt; rest ← acc;
         mret (mkRR (hdr name TypeTXT ClassINET (txt_Ttl (rs_TXT record))) (DTXT sx) :: rest))
    (mret []) (txt_Data (rs_TXT record)).

Definition h_NS name record : list RR :=
  omap (fun host =>
    if (slen host =? 0)%nat then None
    else Some (mkRR (hdr name TypeNS ClassINET (ns_Ttl (rs_NS record))) (DNS (dns_Fqdn host))))
    (ns_Data (rs_NS record)).

Definition h_MX name record : list RR :=
  omap (fun mx =>
    if (slen (mx_Host mx) =? 0)%nat then None
    else Some (mkRR (hdr name TypeMX ClassINET (mx_Ttl (rs_MX record)))
                 (DMX (mx_Preference mx) (dns_Fqdn (mx_Host mx)))))
    (mx_Data (rs_MX record)).

Definition h_SRV name record : list RR :=
  omap (fun srv =>
    if (slen (srv_Target srv) =? 0)%nat then None
    else Some (mkRR (hdr name TypeSRV ClassINET (srv_Ttl (rs_SRV record)))
                 (DSRV (srv_Priority srv) (srv_Weight srv) (srv_Port srv) (dns_Fqdn (srv_Target srv)))))
    (srv_Data (rs_SRV record)).

Definition h_CAA name record : list RR :=
  map (fun caa => mkRR (hdr name TypeCAA ClassINET (caa_Ttl (rs_CAA record)))
                    (DCAA (caa_Flag caa) (caa_Tag caa) (caa_Value caa)))
    (caa_Data (rs_CAA record)).

Definition h_PTR name record : list RR :=
  match rs_PTR record with
  | None => []
  | Some p => [mkRR (hdr name TypePTR ClassINET (ptr_Ttl p)) (DPTR (dns_Fqdn (ptr_Domain p)))]
  end.

(** The class of a TLSA record is ClassNONE in the code. *)
Definition h_TLSA name record : list RR :=
  map (fun tlsa => mkRR (hdr name TypeTLSA ClassNONE (tlsa_Ttl (rs_TLSA record)))
                     (DTLSA (tlsa_Usage tlsa) (tlsa_Selector tlsa) (tlsa_MatchingType tlsa)
                        (tlsa_Certificate tlsa)))
    (tlsa_Data (rs_TLSA record)).
End Answers.
#[global] Arguments hdr : simpl never.

(** ** Properties *)

Lemma getTtl_range MaxTtl ttl : in_u32 ttl -> in_u32 (getTtl MaxTtl ttl).
Proof. pose proof (u32_range MaxTtl). unfold getTtl. repeat case_match; auto. Qed.

Lemma getTtl_cap MaxTtl ttl : u32 MaxTtl <> 0 -> getTtl MaxTtl ttl <= u32 MaxTtl.
Proof. intros H. unfold getTtl. repeat case_match; bool_to_prop; lia. Qed.

Definition sconcat (l : list string) : string := foldr String.append "" l.

Lemma splitLoop_spec n s p :
  (slen s - p < 255 * n)%nat -> (p <= slen s)%nat ->
  exists l, splitLoop n s p (p + 255) = Done l /\ sconcat l = sdrop p s /\
    Forall (fun c => (slen c <= 255)%nat) l.
Proof.
  revert p. induction n as [|n IH]; intros p Hn Hp; [lia|]. simpl splitLoop.
  destruct (Nat.leb_spec (p + 255) (slen s)) as [Hi|Hi].
  - destruct (IH (p + 255)%nat) as (l & -> & Hc & Hl); [lia..|]. simpl.
    eexists. split; [reflexivity|]. split.
    + change (sconcat (?a :: ?b)) with (a +:+ sconcat b). rewrite Hc.
      replace (p + 255 - p)%nat with 255%nat by lia. rewrite <- (stake_sdrop 255 (sdrop p s)) at 2.
      by rewrite sdrop_sdrop.
    + constructor; [|done]. rewrite slen_stake. lia.
  - eexists. split; [reflexivity|]. split; [apply sapp_nil_r|].
    constructor; [|done]. rewrite slen_sdrop. lia.
Qed.

(** [split255] terminates on every text; its pieces fit a DNS character-string
    (at most 255 bytes) and put together are the text. *)
Lemma split255_spec s :
  exists l, split255 s = Done l /\ sconcat l = s /\ Forall (fun c => (slen c <= 255)%nat) l.
Proof.
  unfold split255. destruct (Nat.ltb_spec (slen s) 255).
  - exists [s]. split; [done|]. split; [apply sapp_nil_r|]. constructor; [lia|done].
  - apply (splitLoop_spec _ s 0); lia.
Qed.

(** What holds of a record a builder made for [name]: its type and class are those
    of its data and the TTL is the stored one, capped. *)
Definition type_of_data (d : RRData) : option Z :=
  match d with
  | DA _ => Some TypeA | DAAAA _ => Some TypeAAAA | DCNAME _ => Some TypeCNAME
  | DTXT _ => Some TypeTXT | DNS _ => Some TypeNS | DMX _ _ => Some TypeMX
  | DSRV _ _ _ _ => Some TypeSRV | DCAA _ _ _ => Some TypeCAA | DPTR _ => Some TypePTR
  | DTLSA _ _ _ _ => Some TypeTLSA | DSOA _ => Some TypeSOA | DDNSKEY _ => Some TypeDNSKEY
  | DNSEC _ _ => Some TypeNSEC | DRRSIG _ => Some TypeRRSIG | DDNAME _ => Some TypeDNAME
  | DHINFO _ _ => Some TypeHINFO | DDS _ _ _ _ => Some TypeDS | DOPT _ => Some TypeOPT | DOther _ => None
  end.

Definition built (MaxTtl : Z) (name : string) (t : Z) (r : RR) : Prop :=
  hName (rrHdr r) = name /\ hRrtype (rrHdr r) = t /\ type_of_data (rrData r) = Some t /\
  exists ttl, hTtl (rrHdr r) = getTtl MaxTtl ttl.

Section Built.
Context {D : DnsLib} (MaxTtl : Z).

Lemma omap_built {A} (f : A -> option RR) name t (l : list A) :
  (forall a r, f a = Some r -> built MaxTtl name t r) -> Forall (built MaxTtl name t) (omap f l).
Proof.
  intros Hf. apply Forall_forall. intros r (a & _ & E)%list_elem_of_omap. eauto.
Qed.

Lemma map_built {A} (f : A -> RR) name t (l : list A) :
  (forall a, built MaxTtl name t (f a)) -> Forall (built MaxTtl name t) (map f l).
Proof. intros Hf. apply Forall_fmap, Forall_forall. intros a _. apply Hf. Qed.

Ltac built := intros; repeat case_match; simplify_eq; repeat split; simpl; eauto.

Lemma h_A_built name rs ips : Forall (built MaxTtl name TypeA) (h_A MaxTtl name rs ips).
Proof. apply omap_built. built. Qed.
Lemma h_AAAA_built name rs ips : Forall (built MaxTtl name TypeAAAA) (h_AAAA MaxTtl name rs ips).
Proof. apply omap_built. built. Qed.
Lemma h_CNAME_built name rs : Forall (built MaxTtl name TypeCNAME) (h_CNAME MaxTtl name rs).
Proof. unfold h_CNAME. case_match; constructor; built. Qed.
Lemma h_NS_built name rs : Forall (built MaxTtl name TypeNS) (h_NS MaxTtl name rs).
Proof. apply omap_built. built. Qed.
Lemma h_MX_built name rs : Forall (built MaxTtl name TypeMX) (h_MX MaxTtl name rs).
Proof. apply omap_built. built. Qed.
Lemma h_SRV_built name rs : Forall (built MaxTtl name TypeSRV) (h_SRV MaxTtl name rs).
Proof. apply omap_built. built. Qed.
Lemma h_CAA_built name rs : Forall (built MaxTtl name TypeCAA) (h_CAA MaxTtl name rs).
Proof. apply map_built. built. Qed.
Lemma h_PTR_built name rs : Forall (built MaxTtl name TypePTR) (h_PTR MaxTtl name rs).
Proof. unfold h_PTR. case_match; constructor; built. Qed.
Lemma h_TLSA_built name rs : Forall (built MaxTtl name TypeTLSA) (h_TLSA MaxTtl name rs).
Proof. apply map_built. built. Qed.

Lemma h_TXT_ok name rs :
  exists l, h_TXT MaxTtl name rs = Done l /\
    Forall2 (fun txt r => built MaxTtl name TypeTXT r /\
               exists sx, rrData r = DTXT sx /\ sconcat sx = txt /\ Forall (fun c => (slen c <= 255)%nat) sx)
      (filter (fun s => s <> "") (txt_Data (rs_TXT rs))) l.
Proof.
  unfold h_TXT. induction (txt_Data (rs_TXT rs)) as [|txt ts (l & E & Hl)]; [by exists []|].
  simpl. rewrite filter_cons. destruct (Nat.eqb_spec (slen txt) 0) as [H0|H0]; rewrite slen_0 in H0.
  - exists l. rewrite decide_False by auto. done.
  - destruct (split255_spec txt) as (sx & -> & Hc & Hs). rewrite E. simpl. eexists.
    split; [reflexivity|]. rewrite decide_True by done. constructor; [|done].
    split; [built|]. by exists sx.
Qed.

Lemma h_TXT_built name rs :
  exists l, h_TXT MaxTtl name rs = Done l /\ Forall (built MaxTtl name TypeTXT) l.
Proof.
  destruct (h_TXT_ok name rs) as (l & E & Hl). exists l. split; [done|].
  eapply Forall2_Forall_r; [done|]. apply Forall_forall. by intros x _ y [? _].
Qed.

(** C30: the TXT answer for a location terminates and carries exactly the stored
    texts, in order and without the empty ones: each record's strings put
    together are the stored text, and each string fits a DNS character-string
    (at most 255 bytes). *)
Theorem TXT_complete name rs :
  exists l, h_TXT MaxTtl name rs = Done l /\
    map (fun r => match rrData r with DTXT sx => sconcat sx | _ => "" end) l
      = filter (fun s => s <> "") (txt_Data (rs_TXT rs)) /\
    Forall (fun r => match rrData r with
                     | DTXT sx => Forall (fun c => (slen c <= 255)%nat) sx
                     | _ => False
                     end) l.
Proof.
  destruct (h_TXT_ok name rs) as (l & E & Hl). exists l. split; [done|]. clear E. split.
  - induction Hl as [|txt r ? ? (_ & sx & E & <- & _) _ IH]; [done|]. simpl. by rewrite E, IH.
  - induction Hl as [|txt r ? ? (_ & sx & E & _ & H) _ IH]; constructor; [by rewrite E|done].
Qed.
End Built.

(** A text whose length is a multiple of 255 gets an extra empty piece. *)
Example split255_empty_piece :
  option_map slen (match split255 (String.concat "" (replicate 255 "x")) with
                   | Done l => last l | _ => None end) = Some 0%nat.
Proof. vm_compute. reflexivity. Qed.
