(* ===== verification/Sample.v ===== *)
(** Concrete instances of the interfaces, with their laws: finite maps for Redis
    and the caches, simple stand-ins for the DNS library, a bit-string codec for
    JSON.  The theorems are proved for every instance; these show that the laws
    can hold and let the model be run on examples. *)
From S2P Require Import Prelude GoStrings Utf8 DnsTypes Float64 GoCache Monad ZoneIndex OrderIps GeoIp Deps World.
From Stdlib Require Import SpecFloat Ascii.

(** ** Redis *)

Record SampleRedisState := mkSRS {
  srs_kv : gmap string string;
  srs_hash : gmap string (gmap string string);
  srs_set : gmap string (gset string)
}.

Definition SampleRedis : Redis := {|
  RS := SampleRedisState;
  redis_SMembers rs k := (elements (default ∅ (srs_set rs !! k)), None);
  redis_GetHKeys rs k := (elements (dom (default ∅ (srs_hash rs !! k))), None);
  redis_GetKeys rs pat :=
    (filter (fun k => HasPrefix k (TrimSuffix pat "*") = true) (elements (dom (srs_kv rs))), None);
  redis_Get rs k := match srs_kv rs !! k with Some v => (v, None) | None => ("", Some "nil") end;
  redis_HGet rs k f :=
    match default ∅ (srs_hash rs !! k) !! f with Some v => (v, None) | None => ("", Some "nil") end;
  redis_Set rs k v := mkSRS (<[k := v]> (srs_kv rs)) (srs_hash rs) (srs_set rs);
  redis_HSet rs k f v :=
    (mkSRS (srs_kv rs) (<[k := <[f := v]> (default ∅ (srs_hash rs !! k))]> (srs_hash rs)) (srs_set rs), None);
  redis_Expire rs k d := rs
|}.

#[global] Instance SampleRedisLaws : RedisLaws SampleRedis.
Proof.
  split; simpl.
  - intros rs k v. by rewrite lookup_insert_eq.
  - intros rs k k' v Hk. by rewrite lookup_insert_ne.
Defined.

(** ** The DNS library *)

Definition sample_reply (m : Msg) (req : Msg) (rc : Z) : Msg :=
  mkMsg (m_Id req) (m_Authoritative m) (m_RecursionAvailable m) (m_Compress m) rc (m_Question req)
    (m_Answer m) (m_Ns m) (m_Extra m).

Definition SampleDns : DnsLib := {|
  dns_Fqdn s := if HasSuffix s "." then s else s +:+ ".";
  dns_NewRR s :=
    Some (Some (mkRR (mkHdr s TypeDNSKEY ClassINET 300) (DDNSKEY (mkDNSKEY 256 3 8 s))));
  dns_KeyTag _ _ := 4711;
  dns_NewPrivateKey _ s := Some (RsaPrivateKey s);
  dns_Sign h s _ rrs :=
    match rrs with
    | [] => None
    | r0 :: _ =>
        Some (mkHdr (hName (rrHdr r0)) TypeRRSIG (hClass (rrHdr r0)) (hTtl h),
              mkRRSIG (hRrtype (rrHdr r0)) (sig_Algorithm s) 0 (hTtl (rrHdr r0)) (sig_Expiration s)
                (sig_Inception s) (sig_KeyTag s) (sig_SignerName s) "signature")
    end;
  dns_IsEdns0 _ := None;
  dns_SetRcode m req rc := match req with Some r => Done (sample_reply m r rc) | None => Panic end
|}.

#[global] Instance SampleDnsLaws : DnsLibLaws SampleDns.
Proof.
  split; simpl.
  - intros m r rc. exists (sample_reply m r rc). done.
  - intros m [r|] rc; done.
Defined.

Definition SampleCoreDns : CoreDns := {|
  Writer := string;
  req_IP w := w;
  req_Type _ := "";
  req_QType req :=
    match req with Some m => match m_Question m with q :: _ => q_Qtype q | [] => 0 end | None => 0 end;
  req_Do _ := true;
  req_SizeAndDo _ _ m := m;
  req_Scrub _ _ m := m
|}.

(** ** JSON *)

Fixpoint pos_bits (p : positive) : string :=
  match p with xH => "" | xO p' => "0" +:+ pos_bits p' | xI p' => "1" +:+ pos_bits p' end.
Fixpoint bits_pos (s : string) : positive :=
  match s with
  | "" => xH
  | String "0"%char s' => xO (bits_pos s')
  | String _ s' => xI (bits_pos s')
  end.
Lemma bits_pos_bits p : bits_pos (pos_bits p) = p.
Proof. induction p; simpl; congruence. Qed.

Definition item_tuple (it : HealthCheckItem) :=
  (it_Protocol it, it_Uri it, (it_Port it, it_Status it, it_LastCheck it),
   (it_Timeout it, it_UpCount it, it_DownCount it), it_Enable it, it_DomainId it).

Definition sampleJson (recs : string -> RRSets -> RRSets) (cfg : string -> ZoneConfig -> ZoneConfig) : Json := {|
  json_decode_config s c := (cfg s c, None);
  json_decode_record s r := (recs s r, None);
  json_decode_item s it :=
    match decode (bits_pos s) with
    | Some (p, u, (port, st, lc), (t, up, dn), en, dom) =>
        mkItem p u port st lc t up dn en dom (it_Host it) (it_Ip it) (it_Error it)
    | None => it
    end;
  json_encode_record r := Some "record";
  json_encode_item it := Some (pos_bits (encode (item_tuple it)))
|}.

#[global] Instance sampleJsonLaws recs cfg : JsonLaws (sampleJson recs cfg).
Proof.
  split. intros it s host ip _ _ _. cbn [json_encode_item json_decode_item sampleJson].
  intros [= <-]. by rewrite bits_pos_bits, decode_encode.
Defined.

(** ** The bundle, and a quiet environment *)

Definition sampleLibs (recs : string -> RRSets -> RRSets) (cfg : string -> ZoneConfig -> ZoneConfig) : Libs := {|
  lib_redis := SampleRedis; lib_radix := MapRadix; lib_cache := MapCache;
  lib_mm := mm_example "ES" 444; lib_math := math_example; lib_dns := SampleDns;
  lib_coredns := SampleCoreDns; lib_json := sampleJson recs cfg
|}.

(** Nobody interferes, nothing is evicted, upstreams do not answer, probes and
    writes succeed; the clock shows one second per tick. *)
Definition quietEnv (L : Libs) : Env (L := L) := {|
  env_now t := Z.of_nat t * Second;
  env_redis _ rs := rs;
  env_status _ rs := rs;
  env_zones _ z := z;
  env_keeps _ _ := true;
  env_exchange _ _ _ _ := None;
  env_http _ _ _ _ := inr 200;
  env_ping _ _ _ := mkPingIO None (fun _ => None) (fun _ => None) (inr (inr 0));
  env_write _ := true;
  env_drained _ := 0%nat;
  env_range _ A l := l;
  env_range_perm _ A l := reflexivity l
|}.

Definition emptyRedis : SampleRedisState := mkSRS ∅ ∅ ∅.

Definition sampleWorld recs cfg (rs : SampleRedisState) (zs : list string) : World (L := sampleLibs recs cfg) :=
  @mkWorld (sampleLibs recs cfg) 0%nat rs emptyRedis (@buildZones MapRadix zs) 0 ∅ ∅ ∅
    (@gc_new MapCache HealthCheckItem Minute) (@gc_new MapCache (list RR) Minute) [] [] [] [] [].

(** Evaluate both sides of an equation about a run and compare the results. *)
Ltac by_run :=
  match goal with
  | |- _ = ?b => vm_cast_no_check (@eq_refl _ b)
  | |- _ < _ => vm_cast_no_check (@eq_refl comparison Lt)
  end.
