(* ===== verification/Dnssec.v ===== *)
(** handler/dnssec.go: grouping a section into RRsets and signing them, and the
    NSEC record of a denial. *)
From S2P Require Import Prelude GoStrings DnsTypes GoCache Monad ZoneIndex OrderIps GeoIp Deps World Sample.

Definition RSAMD5 : Z := 1.
Definition DSA : Z := 3.
Definition RSASHA1 : Z := 5.
Definition DSANSEC3SHA1 : Z := 6.
Definition RSASHA1NSEC3SHA1 : Z := 7.
Definition RSASHA256 : Z := 8.
Definition RSASHA512 : Z := 10.
Definition ECDSAP256SHA256 : Z := 13.
Definition ECDSAP384SHA384 : Z := 14.

Definition NSecTypes : list Z := [TypeRRSIG; TypeNSEC].

(** The key type [rrset] of the map and its value for a record. *)
Definition rrset : Type := string * Z.
Definition rr_key (r : RR) : rrset := (hName (rrHdr r), hRrtype (rrHdr r)).

Definition isRsa (alg : Z) : bool :=
  existsb (Z.eqb alg) [RSAMD5; RSASHA1; RSASHA1NSEC3SHA1; RSASHA256; RSASHA512].
Definition isEcdsa (alg : Z) : bool := existsb (Z.eqb alg) [ECDSAP256SHA256; ECDSAP384SHA384].

(** The map as the list of its entries, without a duplicate key: append to the
    entry of [k], or make a new one. *)
Fixpoint addSet (k : rrset) (r : RR) (m : list (rrset * list RR)) : list (rrset * list RR) :=
  match m with
  | [] => [(k, [r])]
  | (k', s) :: m' => if bool_decide (k' = k) then (k', s ++ [r]) :: m' else (k', s) :: addSet k r m'
  end.

Definition unsigned (r : RR) : bool :=
  (hRrtype (rrHdr r) =? TypeRRSIG) || (hRrtype (rrHdr r) =? TypeOPT).

Definition splitSets (rrs : list RR) : list (rrset * list RR) :=
  foldl (fun m r => if unsigned r then m else addSet (rr_key r) r m) [] rrs.

Section Dnssec.
Context {L : Libs}.

(** [Some None] is an error return.  A nil key and a private key of another
    dynamic type than the algorithm's panic. *)
Definition sign (rrs : list RR) (name : string) (key : option ZoneKey) (ttl : Z) : Outcome (option RR) :=
  match key with
  | None => Panic
  | Some key =>
      let hdr := mkHdr name TypeRRSIG ClassINET ttl in
      let alg := dk_Algorithm (zk_DnsKey key) in
      let rrsig := mkRRSIG 0 alg 0 0 (zk_KeyExpiration key) (zk_KeyInception key)
                     (dns_KeyTag (zk_Hdr key) (zk_DnsKey key)) (hName (zk_Hdr key)) "" in
      let finish :=
        match dns_Sign hdr rrsig (zk_PrivateKey key) rrs with
        | Some (hdr', rrsig') => mret (Some (mkRR hdr' (DRRSIG rrsig')))
        | None => mret None
        end in
      if isRsa alg then
        match zk_PrivateKey key with RsaPrivateKey _ => finish | _ => Panic end
      else if isEcdsa alg then
        match zk_PrivateKey key with EcdsaPrivateKey _ => finish | _ => Panic end
      else mret None
  end.

(** What one round of the loop of [Sign] appends.  A nil [z.DnsKeySig] would
    put a nil record into the section; [LoadZoneKeys] sets it whenever it
    leaves DnsSec on. *)
Definition signSet (qname : string) (z : Zone) (set : list RR) : Outcome (list RR) :=
  match set with
  | [] => Panic
  | r0 :: _ =>
      let t := hRrtype (rrHdr r0) in
      if (t =? TypeRRSIG) || (t =? TypeOPT) then mret set
      else if t =? TypeDNSKEY then
        match z_DnsKeySig z with
        | Some sig => mret (set ++ [sig])
        | None => Panic
        end
      else
        s ← sign set qname (z_ZSK z) (hTtl (rrHdr r0));
        mret (match s with Some rrsig => set ++ [rrsig] | None => set end)
  end.

Fixpoint signSets (qname : string) (z : Zone) (sets : list (list RR)) : Outcome (list RR) :=
  match sets with
  | [] => mret []
  | s :: sets' => a ← signSet qname z s; b ← signSets qname z sets'; mret (a ++ b)
  end.

(** The order in which [range sets] visits the groups is the map's. *)
Definition Sign `{!Env} (rrs : list RR) (qname : string) (z : Zone) : M (list RR) :=
  t ← tick;
  st_lift (signSets qname z (env_range t (snd <$> splitSets rrs))).

(** [zone.Config.SOA.MinTtl] through a nil SOA panics. *)
Definition NSec (name : string) (z : Zone) : Outcome RR :=
  match cfg_SOA (z_Config z) with
  | None => Panic
  | Some soa =>
      mret (mkRR (mkHdr name TypeNSEC ClassINET (ss_MinTtl soa)) (DNSEC ("\000." +:+ name) NSecTypes))
  end.
End Dnssec.

(** ** Grouping *)

Lemma addSet_other k r m k' s :
  k' <> k -> (k', s) ∈ addSet k r m <-> (k', s) ∈ m.
Proof.
  intros Hk. induction m as [|[k0 s0] m IH]; simpl.
  - rewrite list_elem_of_singleton. set_solver.
  - case_bool_decide; subst; rewrite !elem_of_cons; [|by rewrite IH].
    split; intros [?|?]; simplify_eq; auto.
Qed.

Lemma addSet_keys k r m :
  (addSet k r m).*1 = if bool_decide (k ∈ m.*1) then m.*1 else m.*1 ++ [k].
Proof.
  induction m as [|[k0 s0] m IH]; simpl; [done|].
  destruct (decide (k0 = k)) as [->|Hne].
  - rewrite (bool_decide_true (k = k)) by done. by rewrite bool_decide_true by (simpl; set_solver).
  - rewrite (bool_decide_false (k0 = k)) by done. rewrite fmap_cons, IH. simpl fst.
    destruct (decide (k ∈ m.*1)).
    + by rewrite !bool_decide_true by set_solver.
    + by rewrite !bool_decide_false by set_solver.
Qed.

Lemma addSet_same k r m s :
  NoDup (m.*1) -> (k, s) ∈ addSet k r m <->
  (exists s0, (k, s0) ∈ m /\ s = s0 ++ [r]) \/ (k ∉ m.*1 /\ s = [r]).
Proof.
  induction m as [|[k0 s0] m IH]; intros Hnd; simpl.
  - rewrite list_elem_of_singleton. set_solver.
  - apply NoDup_cons in Hnd as [Hn Hnd]. simpl in *. specialize (IH Hnd). case_bool_decide; subst.
    + rewrite elem_of_cons. split.
      * intros [[= ->]|Hin]; [left; exists s0; set_solver|].
        exfalso. apply Hn. apply list_elem_of_fmap. by exists (k, s).
      * intros [(s1 & [[= ->]|Hin]%elem_of_cons & ->)|[Hk _]]; [by left| |set_solver].
        exfalso. apply Hn. apply list_elem_of_fmap. by exists (k, s1).
    + rewrite elem_of_cons, IH. split.
      * intros [?|[(s1 & ? & ->)|[? ->]]]; simplify_eq; [left; exists s1|right]; set_solver.
      * intros [(s1 & [?|?]%elem_of_cons & ->)|[? ->]]; simplify_eq; right; [left; eauto|right; set_solver].
Qed.

(** The records of [rrs] that fall under the key [k], in order. *)
Definition group (rrs : list RR) (k : rrset) : list RR :=
  filter (fun r => unsigned r = false /\ rr_key r = k) rrs.

Lemma group_snoc rrs r k :
  group (rrs ++ [r]) k
  = if bool_decide (unsigned r = false /\ rr_key r = k) then group rrs k ++ [r] else group rrs k.
Proof.
  unfold group. rewrite filter_app, filter_cons, filter_nil.
  case_decide; case_bool_decide; try tauto. by rewrite app_nil_r.
Qed.

(** The groups have different keys, and the group of a key is the list of all
    records with that owner and type, in the order of the section. *)
Lemma splitSets_spec rrs :
  NoDup ((splitSets rrs).*1) /\
  forall k s, (k, s) ∈ splitSets rrs <-> s = group rrs k /\ s <> [].
Proof.
  induction rrs as [|r rrs [Hnd IH]] using rev_ind.
  { split; [constructor|]. intros k s. unfold group, splitSets. simpl.
    rewrite elem_of_nil. naive_solver. }
  unfold splitSets. rewrite foldl_snoc. fold (splitSets rrs).
  assert (forall k, k ∈ (splitSets rrs).*1 <-> group rrs k <> []) as Hkeys.
  { intros k. rewrite list_elem_of_fmap. split.
    - intros ([k' s] & -> & [-> Hs]%IH). done.
    - intros Hs. exists (k, group rrs k). split; [done|]. by apply IH. }
  destruct (unsigned r) eqn:Hu.
  { split; [done|]. intros k s. by rewrite group_snoc, bool_decide_false by (intros [? _]; congruence). }
  split.
  - rewrite addSet_keys. case_bool_decide; [done|]. apply NoDup_app. repeat split; [done| |].
    + set_solver.
    + apply NoDup_singleton.
  - intros k s. rewrite group_snoc. destruct (decide (rr_key r = k)) as [<-|Hk].
    + rewrite bool_decide_true by done. rewrite addSet_same by done. rewrite Hkeys. split.
      * intros [(s0 & [-> _]%IH & ->)|[Hn ->]]; [by split; [|destruct (group rrs _)]|].
        destruct (group rrs (rr_key r)) eqn:E; [done|]. by destruct Hn.
      * intros [-> _]. destruct (decide (group rrs (rr_key r) = [])) as [E|E].
        -- right. rewrite E. naive_solver.
        -- left. exists (group rrs (rr_key r)). split; [|done]. by apply IH.
    + rewrite bool_decide_false by naive_solver. rewrite addSet_other by done. apply IH.
Qed.

Lemma addSet_concat k r m : concat (addSet k r m).*2 ≡ₚ concat m.*2 ++ [r].
Proof.
  induction m as [|[k0 s0] m IH]; [done|]. simpl addSet. case_bool_decide; simpl.
  - rewrite <- !app_assoc. f_equiv. apply Permutation_app_comm.
  - rewrite <- app_assoc. by f_equiv.
Qed.

Lemma splitSets_concat rrs : concat (splitSets rrs).*2 ≡ₚ filter (fun r => unsigned r = false) rrs.
Proof.
  induction rrs as [|r rrs IH] using rev_ind; [done|].
  unfold splitSets. rewrite foldl_snoc. fold (splitSets rrs). rewrite filter_app, filter_cons, filter_nil.
  destruct (unsigned r); simpl.
  - by rewrite app_nil_r.
  - by rewrite addSet_concat, IH.
Qed.

(** ** Signing *)

(** The private key has the dynamic type of the algorithm. *)
Definition key_typed (k : ZoneKey) : bool :=
  let alg := dk_Algorithm (zk_DnsKey k) in
  if isRsa alg then match zk_PrivateKey k with RsaPrivateKey _ => true | _ => false end
  else if isEcdsa alg then match zk_PrivateKey k with EcdsaPrivateKey _ => true | _ => false end
  else true.

(** A zone that can sign: what [LoadZoneKeys] establishes when it leaves DnsSec on. *)
Definition can_sign (z : Zone) : Prop :=
  (exists k, z_ZSK z = Some k /\ key_typed k = true) /\ is_Some (z_KSK z) /\ is_Some (z_DnsKeySig z).

Section DnssecFacts.
Context {L : Libs}.

Lemma sign_total rrs name k ttl :
  key_typed k = true -> exists o, sign rrs name (Some k) ttl = Done o.
Proof.
  unfold key_typed, sign. intros H.
  repeat case_match; simplify_eq; eauto.
Qed.

(** The signature that goes with a group. *)
Definition sig_for (qname : string) (z : Zone) (set : list RR) (o : option RR) : Prop :=
  match set with
  | [] => False
  | r0 :: _ => if hRrtype (rrHdr r0) =? TypeDNSKEY then o = z_DnsKeySig z
               else sign set qname (z_ZSK z) (hTtl (rrHdr r0)) = Done o
  end.

Lemma signSet_spec qname z set :
  can_sign z -> set <> [] -> Forall (fun r => unsigned r = false) set ->
  exists o, signSet qname z set = Done (set ++ option_list o) /\ sig_for qname z set o.
Proof.
  intros ((k & Hk & Ht) & _ & sig & Hsig) Hne Hu. destruct set as [|r0 set]; [done|].
  apply Forall_cons in Hu as [Hu _]. unfold unsigned in Hu. unfold signSet, sig_for. rewrite Hu.
  destruct (_ =? TypeDNSKEY).
  - exists (Some sig). by rewrite Hsig.
  - rewrite Hk. destruct (sign_total (r0 :: set) qname k (hTtl (rrHdr r0)) Ht) as [o Ho].
    exists o. rewrite Ho. simpl. split; [|done]. destruct o; simpl; [done|by rewrite app_nil_r].
Qed.

Lemma signSets_spec qname z sets :
  can_sign z -> Forall (fun s => s <> [] /\ Forall (fun r => unsigned r = false) s) sets ->
  exists os, signSets qname z sets = Done (concat (zip_with (fun s o => s ++ option_list o) sets os)) /\
    Forall2 (sig_for qname z) sets os.
Proof.
  intros Hz. induction 1 as [|s sets [Hne Hu] _ (os & E & Hos)].
  - exists []. split; [done|constructor].
  - destruct (signSet_spec qname z s Hz Hne Hu) as (o & Eo & Ho). exists (o :: os). simpl.
    rewrite Eo, E. split; [done|by constructor].
Qed.

Lemma zip_concat_perm (sets : list (list RR)) (os : list (option RR)) :
  length sets = length os ->
  concat (zip_with (fun s o => s ++ option_list o) sets os) ≡ₚ concat sets ++ omap id os.
Proof.
  revert os. induction sets as [|s sets IH]; intros [|o os] Hl; simplify_eq/=; [done|].
  rewrite IH by done. destruct o as [sig|]; simpl.
  - solve_Permutation.
  - rewrite app_nil_r. by rewrite app_assoc.
Qed.

Context {E : Env}.

(** What [Sign] returns, as a fact about the whole section. *)
Lemma Sign_ok rrs qname z w :
  can_sign z ->
  wp False (Sign rrs qname z) (fun res w' =>
    (exists sigs, res ≡ₚ filter (fun r => unsigned r = false) rrs ++ sigs /\
      (forall s, s ∈ sigs -> exists k, group rrs k <> [] /\ sig_for qname z (group rrs k) (Some s)) /\
      (forall k s, group rrs k <> [] -> sig_for qname z (group rrs k) (Some s) -> s ∈ sigs)) /\
    w' = set_tick (S (w_tick w)) w) w.
Proof.
  intros Hz. unfold Sign. repeat wp_step. unfold wp, tick. apply wp_lift.
  destruct (splitSets_spec rrs) as [_ Hsp].
  set (sets := env_range _ _). assert (sets ≡ₚ (splitSets rrs).*2) as Hperm by apply env_range_perm.
  assert (forall s, s ∈ sets <-> exists k, s = group rrs k /\ s <> []) as Hsets.
  { intros s. rewrite Hperm, list_elem_of_fmap. split.
    - intros ([k s'] & -> & Hin%Hsp). eauto.
    - intros (k & Hs). exists (k, s). split; [done|]. by apply Hsp. }
  destruct (signSets_spec qname z sets Hz) as (os & Eos & Hos).
  { apply Forall_forall. intros s (k & -> & Hne)%Hsets. split; [done|].
    unfold group. apply Forall_forall. intros r [[? _] _]%list_elem_of_filter. done. }
  rewrite Eos. split; [|done]. exists (omap id os). split.
  { rewrite zip_concat_perm by (by eapply Forall2_length). f_equiv.
    rewrite <- splitSets_concat. by rewrite Hperm. }
  split.
  - intros s (o & Ho & Eo)%list_elem_of_omap. unfold id in Eo. subst o. apply list_elem_of_lookup in Ho as [i Hi].
    destruct (Forall2_lookup_r _ _ _ _ _ Hos Hi) as (set & Hset & Hsig).
    apply list_elem_of_lookup_2, Hsets in Hset as (k & -> & Hne). eauto.
  - intros k s Hne Hs. assert (group rrs k ∈ sets) as Hin by (apply Hsets; eauto).
    apply list_elem_of_lookup in Hin as [i Hi].
    destruct (Forall2_lookup_l _ _ _ _ _ Hos Hi) as (o & Ho & Hsig).
    assert (o = Some s) as ->.
    { unfold sig_for in *. destruct (group rrs k); [done|]. case_match; congruence. }
    apply list_elem_of_omap. exists (Some s). split; [by apply list_elem_of_lookup_2 in Ho|done].
Qed.

(** C15: signing a section.  In a zone that can sign, [Sign] does not panic
    whatever the section; it returns the section's records (without RRSIG and
    OPT) in some order together with signatures; each signature was made over
    one complete RRset, all the records of the section with one owner and one
    type in their order; and each RRset that can be signed has its signature. *)
Theorem Sign_covers rrs qname z w :
  can_sign z ->
  exists res w', Sign rrs qname z w = Done (res, w') /\
    (exists sigs, res ≡ₚ filter (fun r => unsigned r = false) rrs ++ sigs /\
       forall s, s ∈ sigs -> exists k, group rrs k <> [] /\ sig_for qname z (group rrs k) (Some s)) /\
    (forall r s, r ∈ rrs -> unsigned r = false ->
       sig_for qname z (group rrs (rr_key r)) (Some s) -> s ∈ res).
Proof.
  intros Hz. pose proof (Sign_ok rrs qname z w Hz) as H. unfold wp in H.
  destruct (Sign rrs qname z w) as [[res w']| |]; [|done..].
  destruct H as [(sigs & Hp & H1 & H2) _]. exists res, w'. split; [done|]. split; [eauto|].
  intros r s Hr Hu Hs. rewrite Hp. apply elem_of_app. right. eapply H2; [|done].
  intros Hg. assert (r ∈ group rrs (rr_key r)) as Hin by (by apply list_elem_of_filter).
  rewrite Hg in Hin. by apply elem_of_nil in Hin.
Qed.
End DnssecFacts.

Definition key_example : ZoneKey :=
  mkZoneKey (mkHdr "example.com." TypeDNSKEY ClassINET 300) (mkDNSKEY 256 3 RSASHA256 "key")
    (RsaPrivateKey "priv") 1000 2000.
Definition zone_example : Zone :=
  mkZone "example.com." (mkZoneConfig "" None true false) {["@"; "www"]} (Some key_example) (Some key_example)
    (Some (dnskey_rr key_example)) 100.
Definition txt_example : RR := mkRR (mkHdr "www.example.com." TypeTXT ClassINET 60) (DTXT ["a"]).
Definition a_example (n : Z) : RR := mkRR (mkHdr "www.example.com." TypeA ClassINET 60) (DA (Some [10;0;0;n])).

Lemma Sign_covers_witness :
  let L := sampleLibs (fun _ r => r) (fun _ c => c) in
  exists res w', @Sign L (quietEnv L) [a_example 1; txt_example; a_example 2] "www.example.com."
                   zone_example (sampleWorld _ _ emptyRedis []) = Done (res, w') /\
    (exists sigs, res ≡ₚ [a_example 1; txt_example; a_example 2] ++ sigs /\ length sigs = 2%nat).
Proof.
  intros L. assert (can_sign zone_example) as Hz by (repeat split; eexists; done).
  destruct (@Sign_covers L (quietEnv L) [a_example 1; txt_example; a_example 2] "www.example.com."
    zone_example (sampleWorld _ _ emptyRedis []) Hz) as (res & w' & E & (sigs & Hp & _) & _).
  exists res, w'. split; [done|]. exists sigs. split; [exact Hp|].
  apply (f_equal (fun o => match o with Done (r, _) => length r | _ => 0%nat end)) in E.
  assert (5%nat = length res) as Hl by (rewrite <- E; vm_compute; reflexivity).
  apply Permutation_length in Hp. rewrite length_app in Hp. simpl in Hp. lia.
Defined.
