(* ===== verification/Upstream.v ===== *)
(** handler/upstream.go: resolving names outside the served zones through
    upstream resolvers, with a cache. *)
From S2P Require Import Prelude GoStrings DnsTypes Float64 GoNet GoCache Monad ZoneIndex OrderIps GeoIp Deps World Sample.

Definition defaultCacheTtl : Z := 600.

Record UpstreamConfig := mkUpstreamConfig {
  us_Ip : string; us_Port : Z; us_Protocol : string; us_Timeout : Z }.

(** [d.Seconds()]: whole seconds plus the rest, each converted to float64. *)
Definition Seconds (d : Z) : float64 :=
  fadd (fof (Z.quot d Second) 0) (fdiv (fof (Z.rem d Second) 0) (fof Second 0)).

(** [uint32(f)]: truncation; Go leaves values out of range to the
    implementation, here the wrap-around of amd64. *)
Definition uint32_of_float64 (f : float64) : Z :=
  match SF_trunc f with Some z => u32 z | None => 0 end.

(** The smallest TTL, starting from that of the first record. *)
Definition minTtl (first : RR) (answer : list RR) : Z :=
  foldl (fun m r => if hTtl (rrHdr r) <? m then hTtl (rrHdr r) else m) (hTtl (rrHdr first)) answer.

Section Upstream.
Context {L : Libs}.

(** The cache and the connections [NewUpstream] starts with. *)
Definition NewUpstream (config : list UpstreamConfig) : gcache (list RR) * list UpstreamConnection :=
  (gc_new (Second * defaultCacheTtl),
   map (fun c => mkConnection (us_Protocol c) (i64 (us_Timeout c * Millisecond))
                   (us_Ip c +:+ ":" +:+ Itoa (us_Port c))) config).

Context {E : Env}.

(** The loop over the connections; [None] is the error after the last one.
    The slice is read while the loop runs, but written only right before it
    returns. *)
Fixpoint exchangeLoop (key location : string) (qtype : Z) (conns : list UpstreamConnection)
  : M (option Msg) :=
  match conns with
  | [] => mret None
  | c :: conns' =>
      t ← tick;
      match env_exchange t c location qtype with
      | None => exchangeLoop key location qtype conns'
      | Some r =>
          if negb (m_Rcode r =? RcodeSuccess) then mret (Some r)
          else match m_Answer r with
               | [] => mret (Some r)
               | r0 :: _ =>
                   n ← now;
                   st_modify (fun w => set_upstreamCache
                     (gc_set n (w_upstreamCache w) key (m_Answer r)
                        (i64 (minTtl r0 (m_Answer r) * Second))) w);;
                   (* u.connections[0], c = c, u.connections[0] : only the slice changes *)
                   st_modify (fun w => set_connections (<[0%nat := c]> (w_connections w)) w);;
                   mret (Some r)
               end
      end
  end.

(** On a hit the TTLs of the cached records are overwritten in place with the
    time left, so what they were before does not matter. *)
Definition Query (location : string) (qtype : Z) : M (list RR * Z) :=
  let key := location +:+ ":" +:+ Itoa qtype in
  n ← now; w ← st_get;
  match gc_get n (w_upstreamCache w) key with
  | Some (records, exp) =>
      rs ← mapM (fun r => n' ← now;
                  mret (set_rr_ttl (uint32_of_float64 (Seconds (sat64 (exp - n')))) r)) records;
      mret (rs, RcodeSuccess)
  | None =>
      answer ← inflight_Do UpstreamInflight key (w ← st_get; exchangeLoop key location qtype (w_connections w));
      match answer with
      | None => mret ([], RcodeServerFailure)
      | Some msg => mret (m_Answer msg, m_Rcode msg)
      end
  end.

(** The function run under [inflight.Do] makes no shared call itself. *)
Lemma flat_exchangeLoop key location qtype conns : flat (exchangeLoop key location qtype conns).
Proof. induction conns; simpl; [done|flat]. Qed.
End Upstream.

#[export] Hint Resolve flat_exchangeLoop : redins.

(** ** Properties *)

Section UpstreamFacts.
Context {L : Libs} {GCL : GoCacheLaws lib_cache} {E : Env}.
Implicit Types (w : World).

Lemma quiet_exchangeLoop key location qtype conns : is_quiet (exchangeLoop key location qtype conns).
Proof. induction conns; simpl; quiet; done. Qed.

Lemma quiet_Query location qtype : is_quiet (Query location qtype).
Proof. unfold Query. quiet. apply quiet_exchangeLoop. Qed.

(** [ttl] is the smallest TTL of the records. *)
Definition smallest_ttl (ttl : Z) (answer : list RR) : Prop :=
  (forall r, r ∈ answer -> ttl <= hTtl (rrHdr r)) /\ exists r, r ∈ answer /\ hTtl (rrHdr r) = ttl.

Lemma minTtl_smallest ttl r0 rest : smallest_ttl ttl (r0 :: rest) -> minTtl r0 (r0 :: rest) = ttl.
Proof.
  assert (forall l m, foldl (fun m r => if hTtl (rrHdr r) <? m then hTtl (rrHdr r) else m) m l
            = foldl Z.min m (map (fun r => hTtl (rrHdr r)) l)) as Hmin.
  { induction l as [|r l IH]; intros m; simpl; [done|]. rewrite IH. f_equal. case_match; bool_to_prop; lia. }
  assert (forall l m, foldl Z.min m l <= m /\ (forall x, x ∈ l -> foldl Z.min m l <= x) /\
            (foldl Z.min m l = m \/ foldl Z.min m l ∈ l)) as Hfold.
  { induction l as [|x l IH]; intros m; simpl; [set_solver by lia|]. destruct (IH (Z.min m x)) as (H1 & H2 & H3).
    split_and!; [lia|intros y [->|Hy]%elem_of_cons; [lia|auto]|]. destruct H3 as [->|H3]; [|set_solver].
    destruct (Z.min_spec m x) as [[_ ->]|[_ ->]]; set_solver. }
  intros [Hle (r & Hr & Et)]. unfold minTtl. rewrite Hmin. destruct (Hfold (map (fun r => hTtl (rrHdr r)) (r0 :: rest)) (hTtl (rrHdr r0))) as (H1 & H2 & H3).
  apply Z.le_antisymm; [rewrite <- Et; apply H2, list_elem_of_fmap; eauto|].
  destruct H3 as [->|(r' & -> & Hr')%list_elem_of_fmap]; apply Hle; [set_solver|done].
Qed.

(** What the loop did: no usable answer and nothing changed, or an answer that
    was stored and whose connection was put first. *)
Lemma exchangeLoop_spec key location qtype conns w :
  wp False (exchangeLoop key location qtype conns) (fun o w' =>
    (w_upstreamCache w' = w_upstreamCache w /\ w_connections w' = w_connections w /\
     forall r, o = Some r -> m_Rcode r <> RcodeSuccess \/ m_Answer r = []) \/
    exists r r0 rest c, o = Some r /\ m_Rcode r = RcodeSuccess /\ m_Answer r = r0 :: rest /\ c ∈ conns /\
      w_upstreamCache w' = gc_set (env_now (pred (w_tick w'))) (w_upstreamCache w) key (m_Answer r)
                             (i64 (minTtl r0 (m_Answer r) * Second)) /\
      w_connections w' = <[0%nat := c]> (w_connections w)) w.
Proof.
  revert w. induction conns as [|c conns IH]; intros w; simpl.
  - wstep. left. repeat split; done.
  - do 2 wstep. destruct (env_exchange _ _ _ _) as [r|].
    + destruct (Z.eqb_spec (m_Rcode r) RcodeSuccess) as [Hr|Hr]; simpl.
      * destruct (m_Answer r) as [|r0 rest] eqn:Ea.
        -- wstep. left. repeat split; try done. intros r' [= <-]. by right.
        -- do 7 wstep. right. exists r, r0, rest, c. rewrite Ea. repeat split; auto. set_solver.
      * wstep. left. repeat split; try done. intros r' [= <-]. by left.
    + eapply wp_mono; [|apply IH]. intros o w' [?|(r & r0 & rest & c' & H)]; [by left|right].
      exists r, r0, rest, c'. simpl in H. set_solver.
Qed.

Definition same_but_ttl (a b : list RR) : Prop :=
  map (set_rr_ttl 0) a = map (set_rr_ttl 0) b.

Lemma retime_spec exp records w :
  wp False (mapM (fun r => n' ← now;
    mret (set_rr_ttl (uint32_of_float64 (Seconds (sat64 (exp - n')))) r)) records)
    (fun rs w' => same_but_ttl rs records /\ w_connections w' = w_connections w) w.
Proof.
  unfold same_but_ttl. revert w. induction records as [|r records IH]; intros w; simpl; [done|].
  do 5 wstep. eapply wp_mono; [|apply IH]. intros rs w' [Hrs Hc]. wstep. simpl.
  by rewrite Hrs, Hc.
Qed.

(** A query that misses the cache. *)
Lemma Query_miss location qtype w :
  let key := location +:+ ":" +:+ Itoa qtype in
  gc_get (env_now (w_tick w)) (w_upstreamCache w) key = None ->
  wp False (Query location qtype) (fun '(ans, rc) w' =>
    (w_upstreamCache w' = w_upstreamCache w /\ w_connections w' = w_connections w /\
     (rc <> RcodeSuccess \/ ans = [])) \/
    exists r0 rest c, rc = RcodeSuccess /\ ans = r0 :: rest /\ c ∈ w_connections w /\
      w_upstreamCache w' = gc_set (env_now (pred (w_tick w'))) (w_upstreamCache w) key ans
                             (i64 (minTtl r0 ans * Second)) /\
      w_connections w' = <[0%nat := c]> (w_connections w)) w.
Proof.
  intros key Hmiss. unfold Query. fold key. do 4 wstep. simpl w_upstreamCache. rewrite Hmiss. do 4 wstep.
  eapply wp_mono; [|apply exchangeLoop_spec].
  intros o w' [(Hc & Hn & Ho)|(r & r0 & rest & c & -> & Hr & Ha & Hin & Hc & Hn)].
  - destruct o as [r|]; wstep; left; [destruct (Ho r eq_refl); auto|]. by repeat split; auto.
  - wstep. right. exists r0, rest, c. rewrite Ha in *. auto.
Qed.

(** A query that hits it. *)
Lemma Query_hit location qtype w records exp :
  gc_get (env_now (w_tick w)) (w_upstreamCache w) (location +:+ ":" +:+ Itoa qtype) = Some (records, exp) ->
  wp False (Query location qtype) (fun '(ans, rc) w' =>
    rc = RcodeSuccess /\ same_but_ttl ans records /\ w_connections w' = w_connections w) w.
Proof.
  intros Hhit. unfold Query. do 4 wstep. simpl w_upstreamCache. rewrite Hhit. wstep.
  eapply wp_mono; [|apply retime_spec]. intros rs w' [Hrs Hc]. by wstep.
Qed.

(** A query that misses the cache while the first connection answers. *)
Lemma Query_asks location qtype w c cs r :
  gc_get (env_now (w_tick w)) (w_upstreamCache w) (location +:+ ":" +:+ Itoa qtype) = None ->
  w_connections w = c :: cs -> env_exchange (S (w_tick w)) c location qtype = Some r ->
  wp False (Query location qtype) (fun ans _ => ans = (m_Answer r, m_Rcode r)) w.
Proof.
  intros Hmiss Hw He. unfold Query. do 4 wstep. simpl w_upstreamCache. rewrite Hmiss. do 4 wstep. simpl w_connections. rewrite Hw.
  simpl exchangeLoop. do 2 wstep. simpl. rewrite He. destruct (negb _); [by do 2 wstep|].
  destruct (m_Answer r) as [|r0 rest] eqn:Ea; [wstep; wstep; by rewrite Ea|]. do 7 wstep. wstep. by rewrite Ea.
Qed.

(** Where a non-empty answer goes, by the smallest TTL of its records. *)
Lemma Query_stores location qtype w ans w1 ttl :
  gc_get (env_now (w_tick w)) (w_upstreamCache w) (location +:+ ":" +:+ Itoa qtype) = None ->
  Query location qtype w = Done ((ans, RcodeSuccess), w1) ->
  smallest_ttl ttl ans -> 0 <= ttl < 2^32 ->
  w_upstreamCache w1 = gc_set (env_now (pred (w_tick w1))) (w_upstreamCache w) (location +:+ ":" +:+ Itoa qtype) ans (ttl * Second).
Proof.
  intros Hmiss Hq Ht Hb. pose proof (Query_miss location qtype w Hmiss) as H1. unfold wp in H1. rewrite Hq in H1.
  destruct H1 as [(_ & _ & [?| ->])|(r1 & rest1 & c & _ & -> & _ & -> & _)]; [done| |].
  - destruct Ht as [_ (r & Hr & _)]. by apply elem_of_nil in Hr.
  - rewrite (minTtl_smallest ttl), i64_id by (done || (unfold in_i64, Second; lia)). done.
Qed.

(** C24: an upstream answer is reused for as long as its smallest TTL says.
    After a query that missed the cache and brought back an answer whose smallest
    TTL is [ttl], at least 1, a query for the same name and type: made before
    [ttl] seconds are over, returns the same records (only their TTLs are set
    anew) and success, whatever the upstreams would say then, and leaves the
    connections alone; made after that, it asks the first upstream again and
    returns what that says. *)
Theorem Query_reuses_answer location qtype w ans w1 w2 ttl :
  gc_get (env_now (w_tick w)) (w_upstreamCache w) (location +:+ ":" +:+ Itoa qtype) = None ->
  Query location qtype w = Done ((ans, RcodeSuccess), w1) ->
  smallest_ttl ttl ans -> 1 <= ttl < 2^32 ->
  w_upstreamCache w2 = w_upstreamCache w1 ->
  let stored := env_now (pred (w_tick w1)) in
  (env_now (w_tick w2) < stored + ttl * Second ->
   exists ans' w3, Query location qtype w2 = Done ((ans', RcodeSuccess), w3) /\
     same_but_ttl ans' ans /\ w_connections w3 = w_connections w2) /\
  (stored + ttl * Second < env_now (w_tick w2) -> forall c cs r,
   w_connections w2 = c :: cs -> env_exchange (S (w_tick w2)) c location qtype = Some r ->
   exists w3, Query location qtype w2 = Done ((m_Answer r, m_Rcode r), w3)).
Proof.
  intros Hmiss Hq Ht Hb Hc stored. pose proof (Query_stores _ _ _ _ _ _ Hmiss Hq Ht ltac:(lia)) as Hset. rewrite <- Hc in Hset.
  assert (gc_lifetime (gc_default (w_upstreamCache w)) (ttl * Second) = ttl * Second) as Hlt.
  { unfold gc_lifetime, Second. case_match; bool_to_prop; lia. }
  assert (0 < ttl * Second) by (unfold Second; lia). split.
  - intros Hlive. pose proof (Query_hit location qtype w2 ans (stored + ttl * Second)) as H2.
    rewrite Hset in H2. specialize (H2 ltac:(rewrite gc_get_set_live; rewrite ?Hlt; done)). unfold wp in H2.
    destruct (Query location qtype w2) as [[[ans' rc] w3]| |]; [|done..]. destruct H2 as (-> & ? & ?). eauto.
  - intros Hdead c cs r Hw He. pose proof (Query_asks location qtype w2 c cs r) as H2.
    rewrite Hset in H2. specialize (H2 ltac:(rewrite gc_get_set_expired; rewrite ?Hlt; done) Hw He). unfold wp in H2.
    destruct (Query location qtype w2) as [[[ans' rc] w3]| |]; [|done..]. injection H2 as -> ->. eauto.
Qed.

(** An answer with a TTL of zero, which is not to be reused, is kept for the
    default of the cache ([NewUpstream] sets 600 s): the duration 0 means the
    default to go-cache. *)
Theorem Query_keeps_ttl_zero location qtype w ans w1 w2 :
  gc_get (env_now (w_tick w)) (w_upstreamCache w) (location +:+ ":" +:+ Itoa qtype) = None ->
  Query location qtype w = Done ((ans, RcodeSuccess), w1) -> smallest_ttl 0 ans ->
  w_upstreamCache w2 = w_upstreamCache w1 -> gc_default (w_upstreamCache w) = 600 * Second ->
  env_now (w_tick w2) < env_now (pred (w_tick w1)) + 600 * Second ->
  exists ans' w3, Query location qtype w2 = Done ((ans', RcodeSuccess), w3) /\ same_but_ttl ans' ans.
Proof.
  intros Hmiss Hq Ht Hc Hdef Hlive. pose proof (Query_stores _ _ _ _ _ _ Hmiss Hq Ht ltac:(lia)) as Hset. rewrite <- Hc in Hset.
  pose proof (Query_hit location qtype w2 ans (env_now (pred (w_tick w1)) + 600 * Second)) as H2.
  rewrite Hset in H2. specialize (H2 ltac:(rewrite gc_get_set_live; unfold gc_lifetime; rewrite ?Z.mul_0_l; simpl; rewrite ?Hdef; done)).
  unfold wp in H2. destruct (Query location qtype w2) as [[[ans' rc] w3]| |]; [|done..]. destruct H2 as (-> & ? & ?). eauto.
Qed.

(** The failover swap forgets an upstream.  When the first of two upstreams
    fails and the second one answers, the first is replaced by the second
    instead of trading places with it: afterwards it is no longer among the
    connections. *)
Theorem Query_loses_first_upstream location qtype w c1 c2 r :
  w_connections w = [c1; c2] -> c1 <> c2 ->
  gc_get (env_now (w_tick w)) (w_upstreamCache w) (location +:+ ":" +:+ Itoa qtype) = None ->
  env_exchange (S (w_tick w)) c1 location qtype = None ->
  env_exchange (S (S (w_tick w))) c2 location qtype = Some r ->
  m_Rcode r = RcodeSuccess -> m_Answer r <> [] ->
  wp False (Query location qtype) (fun ans w' =>
    ans = (m_Answer r, RcodeSuccess) /\ w_connections w' = [c2; c2] /\ c1 ∉ w_connections w') w.
Proof.
  intros Hw Hne Hmiss H1 H2 Hr Ha. unfold Query. do 4 wstep. simpl w_upstreamCache. rewrite Hmiss. do 4 wstep. simpl w_connections. rewrite Hw. simpl exchangeLoop.
  do 2 wstep. simpl. rewrite H1. do 2 wstep. simpl. rewrite H2, Hr. simpl.
  destruct (m_Answer r) as [|r0 rest] eqn:E'; [done|]. do 7 wstep. wstep. rewrite E', Hr. simpl. rewrite Hw.
  split; [done|]. split; [done|]. set_solver.
Qed.
End UpstreamFacts.

(** ** Runs *)

(** Two upstreams, the first dead, the second answering with a TTL of 30 s. *)
Definition conn1 : UpstreamConnection := mkConnection "udp" 400000000 "1.1.1.1:53".
Definition conn2 : UpstreamConnection := mkConnection "udp" 400000000 "8.8.8.8:53".
Definition reply_rr : RR := mkRR (mkHdr "arvancloud.com." TypeA ClassINET 30) (DA (Some [1; 2; 3; 4])).
Definition upstream_libs : Libs := sampleLibs (fun _ r => r) (fun _ c => c).
Definition upstream_env : Env (L := upstream_libs) := {|
  env_now t := Z.of_nat t * Second;
  env_redis _ rs := rs; env_status _ rs := rs; env_zones _ z := z; env_keeps _ _ := true;
  env_exchange _ c _ _ :=
    if String.eqb (connectionStr c) "8.8.8.8:53"
    then Some (mkMsg 1 false true false RcodeSuccess [] [reply_rr] [] []) else None;
  env_http _ _ _ _ := inr 200; env_ping _ _ _ := mkPingIO None (fun _ => None) (fun _ => None) (inr (inr 0)); env_write _ := true; env_drained _ := 0%nat;
  env_range _ A l := l; env_range_perm _ A l := reflexivity l
|}.
Definition upstream_world : World (L := upstream_libs) :=
  set_connections [conn1; conn2] (sampleWorld _ _ emptyRedis []).
Definition upstream_world1 : World (L := upstream_libs) :=
  match @Query _ upstream_env "arvancloud.com." TypeA upstream_world with
  | Done (_, w1) => w1
  | _ => upstream_world
  end.

Lemma smallest_reply : smallest_ttl 30 [reply_rr].
Proof. split; [by intros r ->%list_elem_of_singleton|]. exists reply_rr. split; [set_solver|done]. Qed.

(** Asked again at once, and 100 seconds later. *)
Lemma Query_reuses_answer_witness :
  (exists ans' w3, @Query _ upstream_env "arvancloud.com." TypeA upstream_world1 = Done ((ans', RcodeSuccess), w3) /\
    same_but_ttl ans' [reply_rr]) /\
  exists w3, @Query _ upstream_env "arvancloud.com." TypeA (set_tick 100 upstream_world1) = Done (([reply_rr], RcodeSuccess), w3).
Proof.
  split.
  - destruct (Query_reuses_answer (E := upstream_env) "arvancloud.com." TypeA upstream_world
      [reply_rr] upstream_world1 upstream_world1 30) as [H _]; [by_run|by_run|exact smallest_reply|lia|by_run|].
    destruct H as (ans' & w3 & H & Hs & _); [by_run|]. exists ans', w3. split; assumption.
  - destruct (Query_reuses_answer (E := upstream_env) "arvancloud.com." TypeA upstream_world
      [reply_rr] upstream_world1 (set_tick 100 upstream_world1) 30) as [_ H]; [by_run|by_run|exact smallest_reply|lia|by_run|].
    apply (H ltac:(by_run) conn2 [conn2] (mkMsg 1 false true false RcodeSuccess [] [reply_rr] [] [])); by_run.
Defined.

Lemma Query_loses_first_upstream_witness :
  wp False (@Query _ upstream_env "arvancloud.com." TypeA)
    (fun ans w' => ans = ([reply_rr], RcodeSuccess) /\ conn1 ∉ w_connections w') upstream_world.
Proof.
  eapply wp_mono; [|apply (Query_loses_first_upstream "arvancloud.com." TypeA upstream_world conn1 conn2
    (mkMsg 1 false true false RcodeSuccess [] [reply_rr] [] []))]; try done.
  intros ans w' (-> & _ & H). done.
Defined.
