(* ===== verification/Health.v ===== *)
(** handler/healthcheck.go: the health state of addresses, how probes move it,
    how it is stored, how items get there from the zone data, and the filter it
    drives. *)
From S2P Require Import Prelude GoStrings DnsTypes GoNet GoCache Monad ZoneIndex OrderIps GeoIp Deps World Sample.
From Stdlib Require Import Ascii.

Record HealthcheckConfig := mkHealthcheckConfig {
  hcc_Enable : bool; hcc_MaxRequests : Z; hcc_MaxPendingRequests : Z;
  hcc_UpdateInterval : Z; hcc_CheckInterval : Z; hcc_RedisStatusServer : RedisConfig; hcc_Log : LogConfig }.

(** The fields of [Healthcheck] that stay as they are; the rest is in [World]. *)
Record Healthcheck := mkHealthcheck {
  hl_Enable : bool; maxRequests : Z; maxPendingRequests : Z;
  updateInterval : Z; checkInterval : Z }.

Definition NewHealthcheck (config : HealthcheckConfig) : Healthcheck :=
  mkHealthcheck (hcc_Enable config) (hcc_MaxRequests config) (hcc_MaxPendingRequests config)
    (i64 (hcc_UpdateInterval config * Second)) (i64 (hcc_CheckInterval config * Second)).

Definition with_status (s : Z) (it : HealthCheckItem) : HealthCheckItem :=
  mkItem (it_Protocol it) (it_Uri it) (it_Port it) s (it_LastCheck it) (it_Timeout it) (it_UpCount it)
    (it_DownCount it) (it_Enable it) (it_DomainId it) (it_Host it) (it_Ip it) (it_Error it).
Definition with_down (d : Z) (it : HealthCheckItem) : HealthCheckItem :=
  mkItem (it_Protocol it) (it_Uri it) (it_Port it) (it_Status it) (it_LastCheck it) (it_Timeout it)
    (it_UpCount it) d (it_Enable it) (it_DomainId it) (it_Host it) (it_Ip it) (it_Error it).
Definition with_error (e : option string) (it : HealthCheckItem) : HealthCheckItem :=
  mkItem (it_Protocol it) (it_Uri it) (it_Port it) (it_Status it) (it_LastCheck it) (it_Timeout it)
    (it_UpCount it) (it_DownCount it) (it_Enable it) (it_DomainId it) (it_Host it) (it_Ip it) e.
Definition with_lastcheck (t : Z) (it : HealthCheckItem) : HealthCheckItem :=
  mkItem (it_Protocol it) (it_Uri it) (it_Port it) (it_Status it) t (it_Timeout it)
    (it_UpCount it) (it_DownCount it) (it_Enable it) (it_DomainId it) (it_Host it) (it_Ip it) (it_Error it).

Definition statusDown (it : HealthCheckItem) : HealthCheckItem :=
  if it_Status it <=? 0 then
    let s := i64 (it_Status it - 1) in
    with_status (if s <? it_DownCount it then it_DownCount it else s) it
  else with_status (-1) it.

Definition statusUp (it : HealthCheckItem) : HealthCheckItem :=
  if 0 <=? it_Status it then
    let s := i64 (it_Status it + 1) in
    with_status (if it_UpCount it <? s then it_UpCount it else s) it
  else with_status 1 it.

(** [strings.TrimRight(s, ".")] *)
Fixpoint TrimRightDot (s : string) : string :=
  match s with
  | "" => ""
  | String c s' =>
      match TrimRightDot s' with
      | "" => if Ascii.eqb c "." then "" else String c ""
      | r => String c r
      end
  end.

Definition itemsEqual (item1 item2 : option HealthCheckItem) : bool :=
  match item1, item2 with
  | Some a, Some b =>
      negb (negb (String.eqb (it_Ip a) (it_Ip b)) || negb (String.eqb (it_Uri a) (it_Uri b)) ||
            negb (it_Port a =? it_Port b) || negb (String.eqb (it_Protocol a) (it_Protocol b)) ||
            negb (Bool.eqb (it_Enable a) (it_Enable b)) || negb (it_UpCount a =? it_UpCount b) ||
            negb (it_DownCount a =? it_DownCount b) || negb (it_Timeout a =? it_Timeout b))
  | _, _ => false
  end.

Section Health.
Context {L : Libs} {E : Env} (h : Healthcheck).

(** A HEAD request that does not follow redirects; 200, 301 and 302 are healthy. *)
Definition httpCheck (url host : string) (timeout : Z) : M (option string) :=
  t ← tick;
  mret (match env_http t url (TrimRightDot host) timeout with
        | inl err => Some err
        | inr code =>
            if (code =? 200) || (code =? 302) || (code =? 301) then None
            else Some ("invalid http status code : " +:+ Itoa code)
        end).

(** [ICMPTypeEchoReply] *)
Definition EchoReply : Z := 0.

(** The id is made of the first four bytes of the address; without an address
    [Uint32] panics.  Any echo reply will do. *)
Definition pingCheck (ip : string) (timeout : Z) : M (option string) :=
  t ← tick;
  let io := env_ping t (ParseIP ip) timeout in
  match icmp_Listen io with
  | Some err => mret (Some err)
  | None =>
      match ParseIP ip with
      | Some (b0 :: b1 :: b2 :: b3 :: _) =>
          let id := ((b0 * 256 + b1) * 256 + b2) * 256 + b3 in
          match icmp_Marshal io id, icmp_WriteTo io id, icmp_Read io with
          | Some err, _, _ => mret (Some err)
          | None, Some err, _ => mret (Some err)
          | None, None, inl err => mret (Some err)
          | None, None, inr (inl err) => mret (Some err)
          | None, None, inr (inr type) =>
              mret (if type =? EchoReply then None else Some "got something else; want echo reply")
          end
      | _ => st_panic
      end
  end.

(** The key is split at its first colon. *)
Definition loadItem (key : string) : M (option HealthCheckItem) :=
  match SplitAfterN2 key ":"%char with
  | [s0; s1] =>
      let item := mkItem "" "" 0 0 zeroTime 0 0 0 false "" (TrimSuffix s0 ":") s1 None in
      '(itemStr, err) ← status (fun rs => redis_Get rs ("redins:healthcheck:" +:+ key));
      match err : option string with
      | Some _ => mret None
      | None =>
          let item := json_decode_item itemStr item in
          mret (Some (if 0 <? it_DownCount item then with_down (i64 (- it_DownCount item)) item else item))
      end
  | _ => mret None
  end.

Definition storeItem (item : HealthCheckItem) : M unit :=
  let key := it_Host item +:+ ":" +:+ it_Ip item in
  match json_encode_item item with
  | None => mret tt
  | Some itemStr => status_write (fun rs => redis_Set rs ("redins:healthcheck:" +:+ key) itemStr)
  end.

Definition getStatus (host : string) (ip : IP) : M Z :=
  if negb (hl_Enable h) then mret 0
  else
    let key := host +:+ ":" +:+ IP_String ip in
    n ← now; w ← st_get;
    match gc_get n (w_cachedItems w) key with
    | Some (item, _) => mret (it_Status item)
    | None =>
        o ← loadItem key;
        let item := default zeroItem o in
        n' ← now;
        st_modify (fun w => set_cachedItems (gc_set n' (w_cachedItems w) key item (updateInterval h)) w);;
        mret (it_Status item)
    end.

Definition logHealthcheck (item : HealthCheckItem) : M unit :=
  let data : LogData := <["error" := LvStr (default "" (it_Error item))]>
    (list_to_map [("ip", LvStr (it_Ip item)); ("port", LvInt (it_Port item)); ("host", LvStr (it_Host item));
                  ("domain_uuid", LvStr (it_DomainId item)); ("uri", LvStr (it_Uri item));
                  ("status", LvInt (it_Status item)); ("log_type", LvStr "healthcheck")]) in
  st_modify (fun w => set_healthLog (w_healthLog w ++ [data]) w).

(** What a worker does with an item. *)
Definition HandleHealthCheck (item : HealthCheckItem) : M unit :=
  let timeout := i64 (it_Timeout item * Millisecond) in
  let p := it_Protocol item in
  err ← (if String.eqb p "http" || String.eqb p "https" then
           httpCheck (p +:+ "://" +:+ it_Ip item +:+ it_Uri item) (it_Host item) timeout
         else if String.eqb p "ping" || String.eqb p "icmp" then pingCheck (it_Ip item) timeout
         else mret (Some ("invalid protocol : " +:+ p +:+ " used for " +:+ it_Ip item +:+ ":" +:+
                          Itoa (it_Port item))));
  let item := with_error err item in
  let item := match err with None => statusUp item | Some _ => statusDown item end in
  n ← now;
  let item := with_lastcheck n item in
  storeItem item;;
  logHealthcheck item.

Definition getDomainId (zone : string) : M string :=
  '(val, _) ← redis (fun rs => redis_Get rs ("redins:zones:" +:+ zone +:+ ":config"));
  let cfg := mkZoneConfig "" None false false in
  mret (DomainId (if (0 <? slen val)%nat then fst (json_decode_config val cfg) else cfg)).

(** One round of [Start]: the keys are read, then the ticker fires and the items
    that are due are queued at the workers. *)
Definition startRound : M unit :=
  '(itemKeys, _) ← status (fun rs => redis_GetKeys rs "redins:healthcheck:*");
  mapM (fun k =>
    o ← loadItem (TrimPrefix k "redins:healthcheck:");
    match o with
    | None => mret tt
    | Some item =>
        n ← now;
        if checkInterval h <? sat64 (n - it_LastCheck item)
        then st_modify (fun w => set_jobs (w_jobs w ++ [item]) w)
        else mret tt
    end) itemKeys;;
  mret tt.

(** ** The filter *)

(** First loop: the largest status among the white addresses, at least [min]. *)
Fixpoint maxStatus (qname : string) (data : list IP_RR) (mask : list IpMask) (min : Z) : M Z :=
  match mask with
  | [] => mret min
  | IpMaskWhite :: mask' =>
      match data with
      | [] => st_panic
      | d :: data' =>
          s ← getStatus qname (ip_Ip d);
          maxStatus qname data' mask' (if min <? s then s else min)
      end
  | _ :: mask' => maxStatus qname (tail data) mask' min
  end.

(** Second loop: black out what is below [min] and what was not white. *)
Fixpoint blackOut (qname : string) (data : list IP_RR) (mask : list IpMask) (min : Z) : M (list IpMask) :=
  match mask with
  | [] => mret []
  | IpMaskWhite :: mask' =>
      match data with
      | [] => st_panic
      | d :: data' =>
          s ← getStatus qname (ip_Ip d);
          rest ← blackOut qname data' mask' min;
          mret ((if s <? min then IpMaskBlack else IpMaskWhite) :: rest)
      end
  | _ :: mask' => rest ← blackOut qname (tail data) mask' min; mret (IpMaskBlack :: rest)
  end.

Definition FilterHealthcheck (qname : string) (rrset : IP_RRSet) (mask : list IpMask) : M (list IpMask) :=
  if negb (hl_Enable h) then mret mask
  else
    let up := hc_UpCount (HealthCheckConfig rrset) in
    let down := hc_DownCount (HealthCheckConfig rrset) in
    min ← maxStatus qname (ip_Data rrset) mask down;
    let min := if (min <? i64 (up - 1)) && (down <? min) then i64 (down + 1) else min in
    blackOut qname (ip_Data rrset) mask min.

(** ** [Transfer] *)

(** The defaults a record is decoded over. *)
Definition transferDefaults : RRSets :=
  let a := mkIP_RRSet (mkIpFilterConfig "" "" "") (mkIpHealthCheckConfig "http" "/" 80 1000 3 (-3) false) 0 [] in
  mkRRSets a a (mkTXT_RRSet 0 []) None (mkNS_RRSet 0 []) (mkMX_RRSet 0 []) (mkSRV_RRSet 0 [])
    (mkCAA_RRSet 0 []) None (mkTLSA_RRSet 0 []) None.

Definition newItem (host domainId : string) (cfg : IpHealthCheckConfig) (ip : IP) : HealthCheckItem :=
  mkItem (hc_Protocol cfg) (hc_Uri cfg) (hc_Port cfg) 0 zeroTime (hc_Timeout cfg) (hc_UpCount cfg)
    (hc_DownCount cfg) (hc_Enable cfg) domainId host (IP_String ip) None.

(** One address of a record set: store its item when it is new or its settings
    changed, and prolong it. *)
Definition transferAddr (host domainId : string) (cfg : IpHealthCheckConfig) (ip : IP) : M unit :=
  let key := host +:+ ":" +:+ IP_String ip in
  let item := newItem host domainId cfg ip in
  oldItem ← loadItem key;
  (if itemsEqual oldItem (Some item) then mret tt else storeItem item);;
  status_write (fun rs => redis_Expire rs ("redins:healthcheck:" +:+ key) (updateInterval h)).

Definition transferSet (host domainId : string) (rrset : IP_RRSet) : M unit :=
  if hc_Enable (HealthCheckConfig rrset) then
    mapM (fun d => transferAddr host domainId (HealthCheckConfig rrset) (ip_Ip d)) (ip_Data rrset);;
    mret tt
  else mret tt.

Definition transferOne (domain domainId subdomain : string) : M unit :=
  '(recordStr, _) ← redis (fun rs => redis_HGet rs ("redins:zones:" +:+ domain) subdomain);
  match json_decode_record recordStr transferDefaults with
  | (_, Some _) => mret tt
  | (record, None) =>
      let host := if String.eqb subdomain "@" then domain else subdomain +:+ "." +:+ domain in
      transferSet host domainId (rs_A record);;
      transferSet host domainId (rs_AAAA record)
  end.

(** One pass of [Transfer] over all zones, not interrupted by a shutdown. *)
Definition transferRound : M unit :=
  '(domains, _) ← redis (fun rs => redis_SMembers rs "redins:zones");
  mapM (fun domain =>
    domainId ← getDomainId domain;
    '(subdomains, _) ← redis (fun rs => redis_GetHKeys rs ("redins:zones:" +:+ domain));
    mapM (fun subdomain => transferOne domain domainId subdomain) subdomains;;
    mret tt) domains;;
  mret tt.

(** The loops, for any number of rounds: [Transfer], and the goroutines [Start]
    leads to, none when the health check is disabled. *)
Fixpoint rounds (n : nat) (m : M unit) : M unit :=
  match n with O => mret tt | S n' => m;; rounds n' m end.
Definition Transfer (n : nat) : M unit := rounds n transferRound.
Definition Healthcheck_Start (n k : nat) : list (M unit) :=
  if negb (hl_Enable h) then [] else [rounds n startRound; Transfer k].
End Health.

(** ** How probes move the status *)

Definition probes (it : HealthCheckItem) (results : list bool) : HealthCheckItem :=
  foldl (fun it ok => if ok : bool then statusUp it else statusDown it) it results.

(** Sensible thresholds, far from the ends of [int]. *)
Definition counts_ok (up down : Z) : Prop := 0 < up < 2^62 /\ - 2^62 < down < 0.

Definition status_ok (it : HealthCheckItem) : Prop :=
  counts_ok (it_UpCount it) (it_DownCount it) /\ it_DownCount it <= it_Status it <= it_UpCount it.

Lemma statusUp_val it :
  status_ok it -> it_Status (statusUp it) = if it_Status it <? 0 then 1 else Z.min (it_Status it + 1) (it_UpCount it).
Proof.
  unfold status_ok, counts_ok, statusUp. intros H.
  destruct (Z.leb_spec 0 (it_Status it)), (Z.ltb_spec (it_Status it) 0); try lia; simpl; [|done].
  rewrite i64_id by (unfold in_i64; lia). case_match; bool_to_prop; lia.
Qed.

Lemma statusDown_val it :
  status_ok it -> it_Status (statusDown it) = if 0 <? it_Status it then -1 else Z.max (it_Status it - 1) (it_DownCount it).
Proof.
  unfold status_ok, counts_ok, statusDown. intros H.
  destruct (Z.leb_spec (it_Status it) 0), (Z.ltb_spec 0 (it_Status it)); try lia; simpl; [|done].
  rewrite i64_id by (unfold in_i64; lia). case_match; bool_to_prop; lia.
Qed.

(** Probes leave the thresholds alone. *)
Lemma probe_counts (ok : bool) it :
  let it' := if ok then statusUp it else statusDown it in
  it_UpCount it' = it_UpCount it /\ it_DownCount it' = it_DownCount it.
Proof. destruct ok; unfold statusUp, statusDown; simpl; repeat case_match; done. Qed.

Lemma probe_ok (ok : bool) it : status_ok it -> status_ok (if ok then statusUp it else statusDown it).
Proof.
  intros H. destruct (probe_counts ok it) as [Hu Hd]. simpl in *. unfold status_ok. rewrite Hu, Hd.
  destruct H as [Hc Hs]. split; [done|]. unfold counts_ok in Hc. destruct ok.
  - rewrite statusUp_val by done. case_match; bool_to_prop; lia.
  - rewrite statusDown_val by done. case_match; bool_to_prop; lia.
Qed.

Lemma probes_ok it l : status_ok it -> status_ok (probes it l) /\
  it_UpCount (probes it l) = it_UpCount it /\ it_DownCount (probes it l) = it_DownCount it.
Proof.
  unfold probes. revert it. induction l as [|ok l IH]; intros it H; [done|]. simpl.
  destruct (IH _ (probe_ok ok it H)) as (? & -> & ->). split; [done|]. apply probe_counts.
Qed.

Lemma probes_up it n :
  status_ok it -> (0 < n)%nat ->
  it_Status (probes it (replicate n true))
  = Z.min (if it_Status it <? 0 then Z.of_nat n else it_Status it + Z.of_nat n) (it_UpCount it).
Proof.
  revert it. induction n as [|[|n] IH]; intros it H Hn; [lia| |]; pose proof (probe_ok true it H) as H'; simpl in H'.
  - change (probes it (replicate 1 true)) with (statusUp it). rewrite statusUp_val by done.
    unfold status_ok, counts_ok in *. case_match; bool_to_prop; lia.
  - change (probes it (replicate (S (S n)) true)) with (probes (statusUp it) (replicate (S n) true)).
    rewrite IH by (done || lia). rewrite statusUp_val by done. destruct (probe_counts true it) as [-> _].
    unfold status_ok, counts_ok in *. repeat case_match; bool_to_prop; lia.
Qed.

Lemma probes_down it n :
  status_ok it -> (0 < n)%nat ->
  it_Status (probes it (replicate n false))
  = Z.max (if 0 <? it_Status it then - Z.of_nat n else it_Status it - Z.of_nat n) (it_DownCount it).
Proof.
  revert it. induction n as [|[|n] IH]; intros it H Hn; [lia| |]; pose proof (probe_ok false it H) as H'; simpl in H'.
  - change (probes it (replicate 1 false)) with (statusDown it). rewrite statusDown_val by done.
    unfold status_ok, counts_ok in *. case_match; bool_to_prop; lia.
  - change (probes it (replicate (S (S n)) false)) with (probes (statusDown it) (replicate (S n) false)).
    rewrite IH by (done || lia). rewrite statusDown_val by done. destruct (probe_counts false it) as [_ ->].
    unfold status_ok, counts_ok in *. repeat case_match; bool_to_prop; lia.
Qed.

(** C23: the status of an item is a bounded counter that converges.  After any
    sequence of probes it stays between the item's down and up counts; as many
    successes in a row as the up count lead to exactly that count, and as many
    failures as the (negative) down count to exactly the down count, whatever
    happened before. *)
Theorem status_bounded_and_converges it results n :
  status_ok it ->
  status_ok (probes it results) /\
  (it_UpCount it <= Z.of_nat n ->
     it_Status (probes it (results ++ replicate n true)) = it_UpCount it) /\
  (- it_DownCount it <= Z.of_nat n ->
     it_Status (probes it (results ++ replicate n false)) = it_DownCount it).
Proof.
  intros H. destruct (probes_ok it results H) as (Hr & Hu & Hd). split; [done|].
  unfold probes at 1 2. rewrite !foldl_app. fold (probes it results).
  assert (counts_ok (it_UpCount it) (it_DownCount it)) as Hc by apply H. unfold counts_ok in Hc.
  split; intros Hn.
  - fold (probes (probes it results) (replicate n true)). rewrite probes_up by (done || lia).
    rewrite Hu. unfold status_ok in Hr. repeat case_match; bool_to_prop; lia.
  - fold (probes (probes it results) (replicate n false)). rewrite probes_down by (done || lia).
    rewrite Hd. unfold status_ok in Hr. repeat case_match; bool_to_prop; lia.
Qed.

Definition item_example : HealthCheckItem :=
  mkItem "http" "/" 80 0 zeroTime 1000 3 (-3) true "id" "www.example.com." "10.0.0.1" None.

Lemma status_bounded_and_converges_witness :
  it_Status (probes item_example ([true; false; false] ++ replicate 3 true)) = 3.
Proof.
  refine (proj1 (proj2 (status_bounded_and_converges item_example [true; false; false] 3 _)) _).
  - unfold status_ok, counts_ok; simpl; lia.
  - simpl. lia.
Defined.

(** ** Storage *)

Lemma TrimSuffix_colon h : TrimSuffix (h +:+ String ":" "") ":" = h.
Proof. apply TrimSuffix_app. Qed.

(** What [loadItem] makes of a stored item: no error, and a down count that is not
    positive. *)
Definition normalized (it : HealthCheckItem) : HealthCheckItem :=
  with_down (if 0 <? it_DownCount it then i64 (- it_DownCount it) else it_DownCount it) (with_error None it).

Definition key_of (it : HealthCheckItem) : string := it_Host it +:+ ":" +:+ it_Ip it.
Definition utf8_item (it : HealthCheckItem) : Prop :=
  utf8 (it_Protocol it) /\ utf8 (it_Uri it) /\ utf8 (it_DomainId it).

Section StoreFacts.
Context {L : Libs} {RL : RedisLaws lib_redis} {JL : JsonLaws lib_json} {E : Env}.
Implicit Types (w : World) (it : HealthCheckItem).

(** The status server holds [it] under its key. *)
Definition holds (rs : RS) it : Prop :=
  exists s, json_encode_item it = Some s /\ redis_Get rs ("redins:healthcheck:" +:+ key_of it) = (s, None).

Lemma loadItem_holds it w :
  count_byte ":" (it_Host it) = 0%nat -> utf8_item it ->
  holds (env_status (w_tick w) (w_status w)) it ->
  wp False (loadItem (key_of it)) (fun o w' => o = Some (normalized it) /\
    w' = set_status (env_status (w_tick w) (w_status w)) (set_tick (S (w_tick w)) w)) w.
Proof.
  intros Hh (Hp & Hu & Hd) (s & Henc & Hget). unfold loadItem, key_of, SplitAfterN2.
  change (it_Host it +:+ ":" +:+ it_Ip it) with (it_Host it +:+ String ":" (it_Ip it)).
  rewrite cut_after_app by done. wstep. wstep.
  unfold key_of in Hget. change (it_Host it +:+ ":" +:+ it_Ip it) with (it_Host it +:+ String ":" (it_Ip it)) in Hget.
  rewrite Hget. wstep. split; [|done]. f_equal.
  rewrite TrimSuffix_colon, (json_item_roundtrip it s) by done. simpl. unfold normalized, with_down, with_error.
  by destruct (0 <? it_DownCount it).
Qed.

Lemma storeItem_spec it s w :
  json_encode_item it = Some s ->
  wp False (storeItem it) (fun _ w' => w_tick w' = S (w_tick w) /\
    w_status w' = redis_Set (env_status (w_tick w) (w_status w)) ("redins:healthcheck:" +:+ key_of it) s /\
    holds (w_status w') it) w.
Proof.
  intros Henc. unfold storeItem. rewrite Henc. unfold status_write. wstep. simpl.
  split; [done|]. split; [done|]. exists s. split; [done|]. apply redis_Get_Set_eq.
Qed.

(** C25: storing an item and loading it back, from the key the other functions
    compute, gives the item as it was, with the error dropped and a positive
    down count negated; provided the host has no colon, the texts are UTF-8 and
    nobody overwrites the key in between. *)
Theorem storeItem_loadItem it s w :
  count_byte ":" (it_Host it) = 0%nat -> utf8_item it -> json_encode_item it = Some s ->
  (forall rs, redis_Get (env_status (S (w_tick w)) rs) ("redins:healthcheck:" +:+ key_of it)
              = redis_Get rs ("redins:healthcheck:" +:+ key_of it)) ->
  wp False (storeItem it;; loadItem (key_of it)) (fun o _ => o = Some (normalized it)) w.
Proof.
  intros Hh Hu Henc Hq. wstep. eapply wp_mono; [|by apply storeItem_spec]. intros [] w' (Ht & Hs & s' & He & Hg).
  eapply wp_mono; [|apply loadItem_holds; try done].
  - by intros o w'' [-> _].
  - exists s'. split; [done|]. rewrite Ht, Hq. done.
Qed.

(** ** A probe *)

Definition healthy (o : string + Z) : bool :=
  match o with inl _ => false | inr code => (code =? 200) || (code =? 302) || (code =? 301) end.

(** Every IPv4 address is pinged with the id 0: its 16-byte form starts with
    zeros.  Since any echo reply is taken for an answer, a check can succeed on the
    reply to another one. *)
Lemma pingCheck_v4 a b c d timeout w :
  0 <= a < 256 -> 0 <= b < 256 -> 0 <= c < 256 -> 0 <= d < 256 ->
  let io := env_ping (w_tick w) (Some (v4InV6 [a; b; c; d])) timeout in
  icmp_Listen io = None -> icmp_Marshal io 0 = None -> icmp_WriteTo io 0 = None -> icmp_Read io = inr (inr EchoReply) ->
  pingCheck (IP_String (Some [a; b; c; d])) timeout w = Done (None, set_tick (S (w_tick w)) w).
Proof.
  intros Ha Hb Hc Hd io Hl Hm Hw Hr. unfold pingCheck. rewrite ParseIP_String_v4 by done.
  change (v4InV6 [a; b; c; d]) with ([0; 0; 0; 0] ++ drop 4 (v4InV6 [a; b; c; d])) at 2. cbn [app].
  apply wp_done. do 2 wstep. change (((0 * 256 + 0) * 256 + 0) * 256 + 0) with 0.
  fold io. rewrite Hl, Hm, Hw, Hr. by wstep.
Qed.

(** What a probe is told, and what it makes of an item. *)
Definition answer_at (t : nat) it : string + Z :=
  env_http t (it_Protocol it +:+ "://" +:+ it_Ip it +:+ it_Uri it) (TrimRightDot (it_Host it)) (i64 (it_Timeout it * Millisecond)).
Definition probed (ok : bool) (err : option string) (n : Z) it : HealthCheckItem :=
  with_lastcheck n (with_status (it_Status (if ok then statusUp it else statusDown it)) (with_error err it)).

(** An HTTP probe: the item it leaves, and what it does not touch. *)
Lemma HandleHealthCheck_run it w :
  it_Protocol it = "http" \/ it_Protocol it = "https" ->
  (forall it', is_Some (json_encode_item it')) ->
  let ok := healthy (answer_at (w_tick w) it) in
  wp False (HandleHealthCheck it) (fun _ w' => exists err rs s d,
    let it' := probed ok err (env_now (S (w_tick w))) it in
    (err = None <-> ok = true) /\ json_encode_item it' = Some s /\
    rs = redis_Set (env_status (S (S (w_tick w))) (w_status w)) ("redins:healthcheck:" +:+ key_of it) s /\
    w' = set_healthLog (w_healthLog w ++ [d]) (set_status rs (set_tick (S (S (S (w_tick w)))) w))) w.
Proof.
  intros Hp Henc ok. unfold HandleHealthCheck.
  assert (String.eqb (it_Protocol it) "http" || String.eqb (it_Protocol it) "https" = true) as ->
    by (destruct Hp as [-> | ->]; done).
  unfold httpCheck. do 4 wstep. fold (answer_at (w_tick w) it).
  set (err := match answer_at _ _ with inl e => Some e | inr c => _ end).
  assert (err = None <-> ok = true) as Herr.
  { unfold err, ok, healthy. destruct (answer_at _ _) as [e|c]; [done|]. by case_match. }
  clearbody err. clearbody ok. do 3 wstep.
  set (it' := with_lastcheck _ _). assert (it' = probed ok err (env_now (S (w_tick w))) it) as Hit.
  { unfold it', probed. destruct err as [e|].
    - destruct ok; [by specialize (proj2 Herr eq_refl)|]. unfold statusDown. simpl. by case_match.
    - rewrite (proj1 Herr eq_refl). unfold statusUp. simpl. by case_match. }
  destruct (Henc it') as [s Hs]. unfold storeItem. rewrite Hs. unfold status_write, logHealthcheck.
  do 2 wstep. rewrite Hit in Hs |- *. exists err, (redis_Set (env_status (S (S (w_tick w))) (w_status w)) ("redins:healthcheck:" +:+ key_of it) s), s.
  eexists. split_and!; [done..|reflexivity].
Qed.

(** C26: what a worker does with an HTTP item for an IPv4 address (no colon in
    its text) and the default port of its protocol: it asks [protocol://ip uri]
    with the item's host, moves the status up if the answer was 200, 301 or 302
    and down otherwise (an error included), stamps the item with the time, and
    leaves it on the status server with everything else unchanged; one log entry
    is written. *)
Theorem HandleHealthCheck_http it w :
  (it_Protocol it = "http" /\ it_Port it = 80) \/ (it_Protocol it = "https" /\ it_Port it = 443) ->
  count_byte ":" (it_Ip it) = 0%nat ->
  (forall it', is_Some (json_encode_item it')) ->
  let ok := healthy (env_http (w_tick w) (it_Protocol it +:+ "://" +:+ it_Ip it +:+ it_Uri it)
              (TrimRightDot (it_Host it)) (i64 (it_Timeout it * Millisecond))) in
  wp False (HandleHealthCheck it) (fun _ w' =>
    (exists err, (err = None <-> ok = true) /\
      holds (w_status w') (with_lastcheck (env_now (S (w_tick w)))
        (with_status (it_Status (if ok then statusUp it else statusDown it)) (with_error err it)))) /\
    length (w_healthLog w') = S (length (w_healthLog w))) w.
Proof.
  intros Hp _ Henc ok. eapply wp_mono; [|apply HandleHealthCheck_run; naive_solver].
  intros [] w' (err & rs & s & d & Herr & Hs & -> & ->). simpl. split; [|rewrite length_app; simpl; lia].
  exists err. split; [done|]. exists s. split; [done|]. apply redis_Get_Set_eq.
Qed.

(** ** Transfer keeps the state of unchanged items *)

(** The new item equals the one [loadItem] finds, except for its state. *)
Definition same_settings it (cfg : IpHealthCheckConfig) (ip : IP) : Prop :=
  it_Ip it = IP_String ip /\ it_Uri it = hc_Uri cfg /\ it_Port it = hc_Port cfg /\
  it_Protocol it = hc_Protocol cfg /\ it_Enable it = hc_Enable cfg /\ it_UpCount it = hc_UpCount cfg /\
  it_DownCount it = hc_DownCount cfg /\ it_Timeout it = hc_Timeout cfg.

Lemma itemsEqual_spec host dom cfg ip it :
  itemsEqual (Some it) (Some (newItem host dom cfg ip)) = true <-> same_settings it cfg ip.
Proof.
  unfold itemsEqual, same_settings, newItem. simpl.
  rewrite negb_true_iff, !orb_false_iff, !negb_false_iff, !String.eqb_eq, !Z.eqb_eq, Bool.eqb_true_iff. tauto.
Qed.

Context (h : Healthcheck).

(** The pass that copies health-check settings from the zone data to the
    status server does not disturb items whose settings did not change: the
    status server ends with exactly the writes of others and the prolonged
    expiry, so the status and the time of the last check survive.  This needs a
    down count that is not positive. *)
Theorem transferAddr_keeps_status dom cfg ip it w :
  count_byte ":" (it_Host it) = 0%nat -> utf8_item it ->
  holds (env_status (w_tick w) (w_status w)) it ->
  same_settings it cfg ip -> it_DownCount it <= 0 ->
  wp False (transferAddr h (it_Host it) dom cfg ip) (fun _ w' =>
    w_status w' = redis_Expire (env_status (S (w_tick w)) (env_status (w_tick w) (w_status w)))
                    ("redins:healthcheck:" +:+ key_of it) (updateInterval h)) w.
Proof.
  intros Hh Hu Hold Hs Hd. unfold transferAddr. wstep.
  assert (it_Host it +:+ ":" +:+ IP_String ip = key_of it) as -> by (unfold key_of; by destruct Hs as [-> _]).
  eapply wp_mono; [|by apply loadItem_holds]. intros o w' [-> ->].
  rewrite (proj2 (itemsEqual_spec (it_Host it) dom cfg ip (normalized it))).
  - wstep. wstep. unfold status_write. by wstep.
  - unfold normalized. rewrite (proj2 (Z.ltb_ge 0 _)) by done. by destruct it.
Qed.

(** With a positive down count the settings never look unchanged, because
    [loadItem] negates it before the comparison: every pass stores the item anew
    with status 0. *)
Theorem transferAddr_resets_positive_down dom cfg ip it s w :
  count_byte ":" (it_Host it) = 0%nat -> utf8_item it ->
  holds (env_status (w_tick w) (w_status w)) it ->
  same_settings it cfg ip -> 0 < it_DownCount it < 2^63 ->
  json_encode_item (newItem (it_Host it) dom cfg ip) = Some s ->
  wp False (transferAddr h (it_Host it) dom cfg ip) (fun _ w' =>
    exists rs, w_status w' = redis_Expire (env_status (S (S (w_tick w))) rs)
                 ("redins:healthcheck:" +:+ key_of it) (updateInterval h) /\
      holds rs (newItem (it_Host it) dom cfg ip) /\
      it_Status (newItem (it_Host it) dom cfg ip) = 0) w.
Proof.
  intros Hh Hu Hold Hs Hd Henc. unfold transferAddr. wstep.
  assert (it_Host it +:+ ":" +:+ IP_String ip = key_of it) as -> by (unfold key_of; by destruct Hs as [-> _]).
  eapply wp_mono; [|by apply loadItem_holds]. intros o w' [-> ->].
  destruct (itemsEqual _ _) eqn:Heq.
  - apply itemsEqual_spec in Heq as (_ & _ & _ & _ & _ & _ & Hdc & _). destruct Hs as (_ & _ & _ & _ & _ & _ & Hdc' & _).
    unfold normalized in Hdc. simpl in Hdc. rewrite (proj2 (Z.ltb_lt 0 _)) in Hdc by lia.
    rewrite i64_id in Hdc by (unfold in_i64; lia). lia.
  - wstep. eapply wp_mono; [|by apply storeItem_spec]. intros [] w' (Ht & Hw & Hn).
    unfold status_write. wstep. exists (w_status w'). split; [|done]. simpl. by rewrite Ht.
Qed.
End StoreFacts.

(** ** The filter *)

Section FilterFacts.
Context {L : Libs} {E : Env} (h : Healthcheck).
Implicit Types (w : World).

Lemma quiet_loadItem key : is_quiet (loadItem key).
Proof. unfold loadItem. quiet. Qed.

Lemma quiet_getStatus host ip : is_quiet (getStatus h host ip).
Proof. unfold getStatus. quiet. apply quiet_loadItem. Qed.

Lemma quiet_maxStatus qname data mask min : is_quiet (maxStatus h qname data mask min).
Proof.
  revert data min. induction mask as [|x mask IH]; intros data min; simpl; [quiet|].
  destruct x, data; try apply IH; quiet; (apply quiet_getStatus || apply IH).
Qed.

Lemma quiet_blackOut qname data mask min : is_quiet (blackOut h qname data mask min).
Proof.
  revert data. induction mask as [|x mask IH]; intros data; simpl; [quiet|].
  destruct x, data; quiet; (apply quiet_getStatus || apply IH).
Qed.

Lemma quiet_FilterHealthcheck qname rrset mask : is_quiet (FilterHealthcheck h qname rrset mask).
Proof. unfold FilterHealthcheck. quiet; (apply quiet_maxStatus || apply quiet_blackOut). Qed.

(** The mask keeps its length. *)
Lemma blackOut_length qname data mask min w :
  (length mask <= length data)%nat ->
  wp False (blackOut h qname data mask min) (fun m _ => length m = length mask) w.
Proof.
  assert (forall host ip Q w, (forall s w', Q s w') -> wp False (getStatus h host ip) Q w) as Hs.
  { intros host ip Q w0 HQ. unfold getStatus. destruct (hl_Enable h); simpl; [|wstep; auto].
    do 4 wstep. destruct (gc_get _ _ _) as [[it e]|]; [wstep; auto|]. wstep.
    assert (forall key Q w, (forall o w', Q o w') -> wp False (loadItem key) Q w) as Hl.
    { intros key Q' w1 HQ'. unfold loadItem. repeat (case_match || wstep); auto. }
    apply Hl. intros o w'. repeat wstep. auto. }
  revert data w. induction mask as [|x mask IH]; intros data w Hl; simpl; [by wstep|].
  assert (forall d', (length mask <= length d')%nat -> forall w, wp False (blackOut h qname d' mask min)
    (fun rest w' => wp False (mret (IpMaskBlack :: rest) : M _) (fun m _ => length m = S (length mask)) w') w) as Hb.
  { intros d' Hd w'. eapply wp_mono; [|by apply IH]. intros rest w'' Hr. wstep. simpl. by rewrite Hr. }
  destruct x, data as [|d data]; simpl in *; try lia.
  - wstep. apply Hs. intros s w'. wstep. eapply wp_mono; [|apply IH; lia].
    intros rest w'' Hr. wstep. simpl. by rewrite Hr.
  - wstep. apply Hb. lia.
  - wstep. apply Hb. lia.
Qed.

(** The cache answers for the addresses of [data] at the next [n] ticks, with the
    statuses [f]. *)
Definition cached (qname : string) (data : list IP_RR) (f : IP -> Z) w (n : nat) : Prop :=
  forall d t, d ∈ data -> (w_tick w <= t < w_tick w + n)%nat ->
    exists it e, gc_get (env_now t) (w_cachedItems w) (qname +:+ ":" +:+ IP_String (ip_Ip d)) = Some (it, e) /\
      it_Status it = f (ip_Ip d).

Definition later w (n : nat) : World := set_tick (w_tick w + n)%nat w.

Lemma later_0 w : later w 0 = w.
Proof. unfold later. rewrite Nat.add_0_r. by destruct w. Qed.
Lemma later_S w n : later (set_tick (S (w_tick w)) w) n = later w (S n).
Proof. unfold later. simpl. by rewrite Nat.add_succ_r. Qed.

Lemma getStatus_cached qname data f w n d :
  hl_Enable h = true -> cached qname data f w (S n) -> d ∈ data ->
  wp False (getStatus h qname (ip_Ip d)) (fun s w' => s = f (ip_Ip d) /\ w' = later w 1) w.
Proof.
  intros He Hc Hd. unfold getStatus. rewrite He. cbn [negb]. do 4 wstep.
  destruct (Hc d (w_tick w) Hd) as (it & e & Hg & Hf); [lia|]. simpl w_cachedItems. rewrite Hg. wstep.
  split; [done|]. unfold later. by rewrite Nat.add_1_r.
Qed.

Lemma cached_later qname data data' f w n :
  cached qname data f w (S n) -> data' ⊆ data -> cached qname data' f (later w 1) n.
Proof. intros Hc Hs d t Hd Ht. apply Hc; [set_solver|]. unfold later in Ht. simpl in Ht. lia. Qed.

(** Calls of [getStatus] for the addresses of [data] give the statuses [f], as often
    as [I] counts. *)
Definition answers (qname : string) (data : list IP_RR) (f : IP -> Z) (I : nat -> World -> Prop) : Prop :=
  forall n w d, d ∈ data -> I (S n) w ->
    wp False (getStatus h qname (ip_Ip d)) (fun s w' => s = f (ip_Ip d) /\ I n w') w.

Lemma cached_answers qname data f : hl_Enable h = true -> answers qname data f (fun n w => cached qname data f w n).
Proof.
  intros He n w d Hd Hc. eapply wp_mono; [|by eapply getStatus_cached]. intros s w' [-> ->]. split; [done|].
  by eapply cached_later.
Qed.

Lemma maxStatus_answers qname data f I l n w min : answers qname data f I -> l ⊆ data -> I (length l + n)%nat w ->
  wp False (maxStatus h qname l (replicate (length l) IpMaskWhite) min)
    (fun m w' => m = foldl (fun a d => Z.max a (f (ip_Ip d))) min l /\ I n w') w.
Proof.
  intros Ha. revert w min. induction l as [|d l IH]; intros w min Hl HI; simpl; [by wstep|].
  wstep. eapply wp_mono; [|apply (Ha (length l + n)%nat); [set_solver|done]].
  intros s w' [-> HI']. eapply wp_mono; [|apply IH; [set_solver|done]]. intros m w'' [-> HI'']. split; [|done].
  f_equal. case_match; bool_to_prop; lia.
Qed.

Lemma blackOut_answers qname data f I l n w min : answers qname data f I -> l ⊆ data -> I (length l + n)%nat w ->
  wp False (blackOut h qname l (replicate (length l) IpMaskWhite) min)
    (fun m _ => m = map (fun d => if f (ip_Ip d) <? min then IpMaskBlack else IpMaskWhite) l) w.
Proof.
  intros Ha. revert w. induction l as [|d l IH]; intros w Hl HI; simpl; [by wstep|].
  wstep. eapply wp_mono; [|apply (Ha (length l + n)%nat); [set_solver|done]].
  intros s w' [-> HI']. wstep. eapply wp_mono; [|apply IH; [set_solver|done]]. intros m w'' ->. by wstep.
Qed.
End FilterFacts.

(** The best status of a set of addresses, at least the down count. *)
Definition best (down : Z) (ss : list Z) : Z := foldl Z.max down ss.

Lemma best_spec down ss :
  down <= best down ss /\ (forall s, s ∈ ss -> s <= best down ss) /\ (best down ss = down \/ best down ss ∈ ss).
Proof.
  unfold best. revert down. induction ss as [|s ss IH]; intros down; simpl; [set_solver by lia|].
  destruct (IH (Z.max down s)) as (H1 & H2 & H3). split; [lia|]. split.
  - intros s' [->|Hs]%elem_of_cons; [lia|auto].
  - destruct H3 as [H3|H3]; [|set_solver]. destruct (Z.le_gt_cases s down); [left; lia|right].
    rewrite H3. replace (Z.max down s) with s by lia. set_solver.
Qed.

(** Whether an address with status [s] is kept when the best status is [b]. *)
Definition kept (up down b s : Z) : bool :=
  if up - 1 <=? b then s =? b else if down <? b then down <? s else s =? down.

Lemma kept_spec up down b s : s <= b -> down <= b ->
  (s <? (if (b <? up - 1) && (down <? b) then down + 1 else b)) = negb (kept up down b s).
Proof.
  intros Hs Hd. unfold kept. destruct (Z.ltb_spec b (up - 1)), (Z.ltb_spec down b), (Z.leb_spec (up - 1) b); simpl; try lia;
    repeat match goal with |- context [?x <? ?y] => destruct (Z.ltb_spec x y)
                         | |- context [?x =? ?y] => destruct (Z.eqb_spec x y) end; simpl; lia.
Qed.

Lemma kept_best up down b : down <= b -> kept up down b b = true.
Proof. intros H. unfold kept. repeat case_match; bool_to_prop; lia. Qed.

Definition statuses (f : IP -> Z) (rrset : IP_RRSet) : list Z := map (fun d => f (ip_Ip d)) (ip_Data rrset).

(** Some address is kept exactly when some status is not below the down count. *)
Lemma kept_some f rrset up down :
  (exists d, d ∈ ip_Data rrset /\ kept up down (best down (statuses f rrset)) (f (ip_Ip d)) = true) <->
  (exists d, d ∈ ip_Data rrset /\ down <= f (ip_Ip d)).
Proof.
  destruct (best_spec down (statuses f rrset)) as (Hb1 & Hb2 & Hb3). split; intros (d & Hd & Hk); [exists d|].
  - split; [done|]. unfold kept in Hk. repeat case_match; bool_to_prop; lia.
  - assert (f (ip_Ip d) <= best down (statuses f rrset)) by (apply Hb2, list_elem_of_fmap; eauto).
    destruct Hb3 as [Hb3|(d' & E & Hd')%list_elem_of_fmap].
    + exists d. split; [done|]. replace (f (ip_Ip d)) with (best down (statuses f rrset)) by lia. by apply kept_best.
    + exists d'. split; [done|]. rewrite <- E. by apply kept_best.
Qed.

Section FilterTheorem.
Context {L : Libs} {E : Env} (h : Healthcheck).

(** The filter on all addresses of a record set, by their statuses. *)
Lemma FilterHealthcheck_answers qname rrset f I w :
  let up := hc_UpCount (HealthCheckConfig rrset) in
  let down := hc_DownCount (HealthCheckConfig rrset) in
  hl_Enable h = true -> - 2^62 < down < 2^62 -> - 2^62 < up < 2^62 ->
  answers h qname (ip_Data rrset) f I -> I (length (ip_Data rrset) + length (ip_Data rrset))%nat w ->
  wp False (FilterHealthcheck h qname rrset (replicate (length (ip_Data rrset)) IpMaskWhite))
    (fun m _ => m = map (fun d => if kept up down (best down (statuses f rrset)) (f (ip_Ip d))
                                  then IpMaskWhite else IpMaskBlack) (ip_Data rrset)) w.
Proof.
  intros up down He Hd Hu Ha HI. unfold FilterHealthcheck. rewrite He. fold up down. simpl.
  destruct (best_spec down (statuses f rrset)) as (Hb1 & Hb2 & _).
  wstep. eapply wp_mono; [|by eapply maxStatus_answers]. intros mn w' [-> HI'].
  assert (foldl (fun a d => Z.max a (f (ip_Ip d))) down (ip_Data rrset) = best down (statuses f rrset)) as ->.
  { unfold statuses, best. clear. generalize down. induction (ip_Data rrset); simpl; auto. }
  eapply wp_mono; [|eapply (blackOut_answers _ _ _ _ _ _ 0); [done..|by rewrite Nat.add_0_r]].
  intros m w'' ->. rewrite !i64_id by (unfold in_i64; lia). apply map_ext_in. intros d Hin%list_elem_of_In.
  rewrite kept_spec; [by destruct (kept _ _ _ _)| |done]. apply Hb2. apply list_elem_of_fmap. eauto.
Qed.

(** C13: the health filter on a fresh mask.  With the health check disabled it
    keeps every address and changes nothing.  Enabled, with the statuses of the
    addresses cached for the duration of the call, addresses stay white as
    follows: if the best status is at least the up count less one, exactly those
    that have it; else if some address is above the down count, exactly those
    above the down count; else those at the down count.  So some address is left
    exactly when some status is not below the down count. *)
Theorem FilterHealthcheck_white qname rrset f w up down :
  up = hc_UpCount (HealthCheckConfig rrset) -> down = hc_DownCount (HealthCheckConfig rrset) ->
  - 2^62 < down < 2^62 -> - 2^62 < up < 2^62 ->
  (hl_Enable h = true -> cached qname (ip_Data rrset) f w (length (ip_Data rrset) + length (ip_Data rrset))) ->
  let b := best down (map (fun d => f (ip_Ip d)) (ip_Data rrset)) in
  wp False (FilterHealthcheck h qname rrset (replicate (length (ip_Data rrset)) IpMaskWhite))
    (fun m w' =>
      if hl_Enable h then
        m = map (fun d => let s := f (ip_Ip d) in
                  let stays := if up - 1 <=? b then s =? b else if down <? b then down <? s else s =? down in
                  if stays then IpMaskWhite else IpMaskBlack) (ip_Data rrset) /\
        (IpMaskWhite ∈ m <-> exists d, d ∈ ip_Data rrset /\ down <= f (ip_Ip d))
      else m = replicate (length (ip_Data rrset)) IpMaskWhite /\ w' = w) w.
Proof.
  intros -> -> Hd Hu Hc b. destruct (hl_Enable h) eqn:He.
  2:{ unfold FilterHealthcheck. rewrite He. cbn [negb]. by wstep. }
  eapply wp_mono; [|apply (FilterHealthcheck_answers qname rrset f (fun n w => cached qname (ip_Data rrset) f w n));
    [done..|by apply cached_answers|by apply Hc]].
  intros m _ ->. split; [done|]. rewrite <- kept_some, list_elem_of_fmap.
  split; intros (d & H1 & H2); exists d; [|by rewrite H2].
  split; [done|]. by destruct (kept _ _ _ (f (ip_Ip d))).
Qed.
End FilterTheorem.

(** ** Runs *)

Definition health_libs : Libs := sampleLibs (fun _ r => r) (fun _ c => c).
Definition health_env : Env (L := health_libs) := quietEnv health_libs.
Definition health_example : Healthcheck := mkHealthcheck true 10 100 (600 * Second) (600 * Second).

(** An item with status 2, and one like it with a positive down count. *)
Definition stored_item (down : Z) : HealthCheckItem :=
  mkItem "http" "/" 80 2 (1000 * Second) 1000 3 down true "id" "www.example.com." "10.0.0.1" None.
Definition item_json (it : HealthCheckItem) : string := pos_bits (encode (item_tuple it)).
Definition health_world (it : HealthCheckItem) : World (L := health_libs) :=
  set_status (L := health_libs) (mkSRS {[ "redins:healthcheck:" +:+ key_of it := item_json it ]} ∅ ∅)
    (sampleWorld _ _ emptyRedis []).
Definition cfg_example (down : Z) : IpHealthCheckConfig := mkIpHealthCheckConfig "http" "/" 80 1000 3 down true.

Lemma utf8_stored_item down : utf8_item (stored_item down).
Proof. repeat split. Qed.

Lemma holds_health_world down :
  holds (L := health_libs) (env_status (Env := health_env) 0 (w_status (health_world (stored_item down)))) (stored_item down).
Proof. exists (item_json (stored_item down)). split; [done|]. simpl. by rewrite lookup_singleton_eq. Qed.

Lemma storeItem_loadItem_witness :
  wp False (storeItem (E := health_env) (stored_item 3);; loadItem (E := health_env) "www.example.com.:10.0.0.1")
    (fun o _ => o = Some (stored_item (-3))) (sampleWorld _ _ emptyRedis []).
Proof.
  apply (storeItem_loadItem (E := health_env) (stored_item 3) (item_json (stored_item 3)));
    [reflexivity|apply utf8_stored_item|reflexivity|reflexivity].
Defined.

Lemma HandleHealthCheck_http_witness :
  wp False (HandleHealthCheck (E := health_env) (stored_item (-3)))
    (fun _ w' => exists it', holds (L := health_libs) (w_status w') it' /\ it_Status it' = 3)
    (sampleWorld _ _ emptyRedis []).
Proof.
  eapply wp_mono; [|apply (HandleHealthCheck_http (E := health_env) (stored_item (-3)));
    [left; split; reflexivity|reflexivity|intros it'; eexists; reflexivity]].
  intros [] w' [(err & _ & Hh) _]. eexists. split; [exact Hh|reflexivity].
Defined.

Lemma transferAddr_keeps_status_witness :
  wp False (transferAddr (E := health_env) health_example "www.example.com." "id" (cfg_example (-3)) (Some [10; 0; 0; 1]))
    (fun _ w' => redis_Get (w_status w') "redins:healthcheck:www.example.com.:10.0.0.1"
                 = (item_json (stored_item (-3)), None))
    (health_world (stored_item (-3))).
Proof.
  eapply wp_mono; [|apply (transferAddr_keeps_status (E := health_env) health_example "id" (cfg_example (-3))
    (Some [10; 0; 0; 1]) (stored_item (-3)))];
    [|reflexivity|apply utf8_stored_item|apply holds_health_world|repeat split; reflexivity|simpl; lia].
  intros [] w' ->. simpl. by rewrite lookup_singleton_eq.
Defined.

Lemma transferAddr_resets_positive_down_witness :
  wp False (transferAddr (E := health_env) health_example "www.example.com." "id" (cfg_example 3) (Some [10; 0; 0; 1]))
    (fun _ w' => exists it, holds (L := health_libs) (w_status w') it /\ it_Status it = 0)
    (health_world (stored_item 3)).
Proof.
  eapply wp_mono; [|apply (transferAddr_resets_positive_down (E := health_env) health_example "id" (cfg_example 3)
    (Some [10; 0; 0; 1]) (stored_item 3)
    (item_json (newItem "www.example.com." "id" (cfg_example 3) (Some [10; 0; 0; 1]))))];
    [|reflexivity|apply utf8_stored_item|apply holds_health_world|repeat split; reflexivity|simpl; lia|reflexivity].
  intros [] w' (rs & -> & Hh & Hs). simpl. eauto.
Defined.

(** Two cached addresses, one up, one in between. *)
Definition status_cache (s1 s2 : Z) : gmap string (HealthCheckItem * Z) :=
  <["www.example.com.:10.0.0.1" := (with_status s1 zeroItem, 600 * Second)]>
    {[ "www.example.com.:10.0.0.2" := (with_status s2 zeroItem, 600 * Second) ]}.
Definition rrset_health : IP_RRSet :=
  mkIP_RRSet (mkIpFilterConfig "multi" "none" "none") (cfg_example (-3)) 60
    [mkIP_RR 1 (Some [10; 0; 0; 1]) [] []; mkIP_RR 1 (Some [10; 0; 0; 2]) [] []].
Definition cached_world : World (L := health_libs) :=
  set_cachedItems (L := health_libs) (mkMapCache 0 (status_cache 3 1) : @gcache MapCache HealthCheckItem)
    (sampleWorld _ _ emptyRedis []).

Lemma FilterHealthcheck_white_witness :
  wp False (FilterHealthcheck (E := health_env) health_example "www.example.com." rrset_health
              [IpMaskWhite; IpMaskWhite])
    (fun m _ => m = [IpMaskWhite; IpMaskBlack]) cached_world.
Proof.
  eapply wp_mono; [|apply (FilterHealthcheck_white (E := health_env) health_example "www.example.com." rrset_health
    (fun ip => if decide (ip = Some [10; 0; 0; 1]) then 3 else 1) cached_world 3 (-3))];
    [|reflexivity|reflexivity|lia|lia|].
  - intros m w' H. change (hl_Enable health_example) with true in H. destruct H as [-> _]. reflexivity.
  - intros _ d t Hd Ht. change (0 <= t < 0 + 4)%nat in Ht.
    simpl ip_Data in Hd. rewrite !elem_of_cons, elem_of_nil in Hd. destruct Hd as [->|[->|[]]];
      (destruct t as [|[|[|[|t]]]]; [| | | |lia]); (do 2 eexists; split; [vm_compute; reflexivity|reflexivity]).
Defined.

(** A health check of which only [enable] is set: the location is loaded with the
    counts 0 and 0, and the record is transferred for checking with the counts 3
    and -3, so that two failing addresses get the status -3 and none is left. *)
Example no_counts_none_left :
  let rrset := mkIP_RRSet (mkIpFilterConfig "multi" "none" "none") (mkIpHealthCheckConfig "" "" 0 0 0 0 true) 60
                 (ip_Data rrset_health) in
  hc_DownCount (HealthCheckConfig (rs_A transferDefaults)) = -3 /\
  wp False (FilterHealthcheck (E := health_env) health_example "www.example.com." rrset [IpMaskWhite; IpMaskWhite])
    (fun m _ => m = [IpMaskBlack; IpMaskBlack])
    (set_cachedItems (L := health_libs) (mkMapCache 0 (status_cache (-3) (-3)) : @gcache MapCache HealthCheckItem)
      (sampleWorld _ _ emptyRedis [])).
Proof. split; [reflexivity|]. vm_compute. reflexivity. Qed.
