(* ===== verification/HealthPipeline.v ===== *)
(** The health check end to end: what the probes leave on the status server is what
    the filter of the request handler goes by.  The theorem follows a host that
    stops answering from its probes to the answers it is left out of. *)
From S2P Require Import Prelude GoStrings DnsTypes GoNet GoCache Monad OrderIps Deps World Sample Health.
From Stdlib Require Import Ascii.

(** An HTTP item that [loadItem] reads back as it was stored. *)
Definition plain_item (it : HealthCheckItem) : Prop :=
  (it_Protocol it = "http" \/ it_Protocol it = "https") /\ count_byte ":" (it_Host it) = 0%nat /\ utf8_item it /\ status_ok it.

(** Two states of one item: they differ in status, time and error only. *)
Definition evolved (it it' : HealthCheckItem) : Prop :=
  exists s n err, it' = with_lastcheck n (with_status s (with_error err it)).

Lemma evolved_refl it : evolved it it.
Proof. exists (it_Status it), (it_LastCheck it), (it_Error it). by destruct it. Qed.

Lemma evolved_trans it1 it2 it3 : evolved it1 it2 -> evolved it2 it3 -> evolved it1 it3.
Proof. intros (s & n & e & ->) (s' & n' & e' & ->). exists s', n', e'. done. Qed.

Lemma evolved_key it it' : evolved it it' -> key_of it' = key_of it.
Proof. by intros (s & n & e & ->). Qed.

Lemma evolved_plain it it' : evolved it it' -> plain_item it -> it_DownCount it <= it_Status it' <= it_UpCount it -> plain_item it'.
Proof. intros (s & n & e & ->) (? & ? & ? & ? & _) Hs. done. Qed.

Lemma normalized_plain it : plain_item it -> normalized it = with_error None it.
Proof.
  intros (_ & _ & _ & (_ & Hd) & _). unfold normalized. rewrite (proj2 (Z.ltb_ge 0 _)) by lia. by destruct it.
Qed.

Section Pipeline.
Context {L : Libs} {RL : RedisLaws lib_redis} {JL : JsonLaws lib_json} {GL : GoCacheLaws lib_cache} {E : Env} (h : Healthcheck).
(** Nobody else writes the items, and items can be encoded. *)
Context (Hown : forall t rs k, redis_Get (env_status t rs) ("redins:healthcheck:" +:+ k) = redis_Get rs ("redins:healthcheck:" +:+ k))
  (Henc : forall it, is_Some (json_encode_item it)).
Implicit Types (w : World) (it : HealthCheckItem).

Lemma holds_own t rs it : holds (env_status t rs) it <-> holds rs it.
Proof. unfold holds. by rewrite Hown. Qed.

(** An item that is due: [Start] loads it and queues it, a worker takes it. *)
Definition dispatch (key : string) : M unit :=
  o ← loadItem key;
  match o with Some it => HandleHealthCheck it | None => mret tt end.

(** The item [it] has become in [w'], and nothing else the filter looks at has
    changed. *)
Definition moved it w it' w' : Prop :=
  evolved it it' /\ holds (w_status w') it' /\ w_cachedItems w' = w_cachedItems w /\ (w_tick w <= w_tick w')%nat /\
  forall k, k <> key_of it -> redis_Get (w_status w') ("redins:healthcheck:" +:+ k) = redis_Get (w_status w) ("redins:healthcheck:" +:+ k).

Lemma health_key_inj k k' : "redins:healthcheck:" +:+ k = "redins:healthcheck:" +:+ k' -> k = k'.
Proof. intros H. by repeat injection H as H. Qed.

Lemma statusUpDown_error (ok : bool) it :
  it_Status (if ok then statusUp (with_error None it) else statusDown (with_error None it))
  = it_Status (if ok then statusUp it else statusDown it).
Proof. destruct ok; unfold statusUp, statusDown; simpl; by repeat case_match. Qed.

Lemma dispatch_moves it w (ok : bool) : plain_item it -> holds (w_status w) it ->
  (forall t, (w_tick w <= t)%nat -> healthy (answer_at t it) = ok) ->
  wp False (dispatch (key_of it)) (fun _ w' => exists it', moved it w it' w' /\
    it_Status it' = it_Status (if ok then statusUp it else statusDown it)) w.
Proof.
  intros Hp Hh Hok. pose proof Hp as (Hproto & Hhost & Hu & _). unfold dispatch. wstep.
  eapply wp_mono; [|apply loadItem_holds; [done..|by apply holds_own]]. intros o w1 [-> ->]. rewrite normalized_plain by done.
  eapply wp_mono; [|by apply HandleHealthCheck_run].
  intros [] w' (err & rs & s & d & _ & Hs & -> & ->). cbv zeta in Hs.
  change (answer_at (w_tick _) (with_error None it)) with (answer_at (S (w_tick w)) it) in Hs. rewrite Hok in Hs by lia.
  eexists. split; [split_and!|].
  - exists (it_Status (if ok then statusUp it else statusDown it)), (env_now (S (S (w_tick w)))), err. reflexivity.
  - exists s. split; [|apply redis_Get_Set_eq]. rewrite <- Hs. f_equal. unfold probed. by rewrite statusUpDown_error.
  - done.
  - simpl. lia.
  - intros k Hk. cbn [w_status set_status set_tick set_healthLog]. rewrite redis_Get_Set_ne by (intros Heq; apply Hk; symmetry; by apply health_key_inj). by rewrite !Hown.
  - done.
Qed.

Lemma moved_trans it1 w1 it2 w2 it3 w3 : moved it1 w1 it2 w2 -> moved it2 w2 it3 w3 -> moved it1 w1 it3 w3.
Proof.
  intros (E1 & _ & C1 & T1 & O1) (E2 & H2 & C2 & T2 & O2). split_and!; [by eapply evolved_trans|done|congruence|lia|].
  intros k Hk. rewrite O2, O1; [done..|]. by rewrite (evolved_key _ _ E1).
Qed.

(** The status after some probes depends on the status and the counts only. *)
Lemma probes_status l : forall a b, it_Status a = it_Status b -> it_UpCount a = it_UpCount b -> it_DownCount a = it_DownCount b ->
  it_Status (probes a l) = it_Status (probes b l).
Proof.
  induction l as [|ok l IH]; intros a b Hs Hu Hd; [done|]. simpl.
  destruct (probe_counts ok a) as [Ua Da], (probe_counts ok b) as [Ub Db]. simpl in *.
  apply IH; [|congruence..]. destruct ok; unfold statusUp, statusDown; rewrite Hs, ?Hu, ?Hd; simpl; by repeat case_match.
Qed.

(** [n] probes with the same result move the stored status like [n] steps. *)
Lemma rounds_moves n : forall it w (ok : bool), plain_item it -> holds (w_status w) it ->
  (forall t, (w_tick w <= t)%nat -> healthy (answer_at t it) = ok) ->
  wp False (rounds n (dispatch (key_of it))) (fun _ w' => exists it', moved it w it' w' /\
    it_Status it' = it_Status (probes it (replicate n ok))) w.
Proof.
  induction n as [|n IH]; intros it w ok Hp Hh Hok; cbn [rounds].
  - wstep. exists it. split; [|done]. split_and!; [apply evolved_refl|done..].
  - wstep. eapply wp_mono; [|by apply dispatch_moves]. intros [] w1 (it1 & Hm & Hs1).
    destruct Hm as (Hev & Hh1 & Hrest) eqn:EH. clear EH. rewrite <- (evolved_key _ _ Hev).
    pose proof (probe_ok ok it (proj2 (proj2 (proj2 Hp)))) as [_ Hb]. destruct (probe_counts ok it) as [Hu Hd]. simpl in Hu, Hd.
    rewrite Hu, Hd, <- Hs1 in Hb.
    eapply wp_mono; [|apply (IH it1 w1 ok); [by eapply evolved_plain|done|]].
    + intros [] w2 (it2 & Hm2 & Hs2). exists it2. split; [by eapply moved_trans|]. rewrite Hs2. 
      change (probes it (replicate (S n) ok)) with (probes (if ok then statusUp it else statusDown it) (replicate n ok)).
      apply probes_status; [done|..]; destruct Hev as (s & t & e & ->); simpl; congruence.
    + intros t Ht. destruct Hev as (s & t' & e & ->). apply Hok. destruct Hrest as (_ & Ht' & _). lia.
Qed.

(** ** The filter by what is stored *)

(** Whenever [getStatus] is asked about an address of [data], the cache has no entry
    or one with the status [f] gives, and the status server has that one. *)
Definition shown (qname : string) (data : list IP_RR) (f : IP -> Z) w : Prop :=
  forall d, d ∈ data ->
    (exists it, key_of it = qname +:+ ":" +:+ IP_String (ip_Ip d) /\ plain_item it /\ holds (w_status w) it /\ it_Status it = f (ip_Ip d)) /\
    (forall t it e, gc_get t (w_cachedItems w) (qname +:+ ":" +:+ IP_String (ip_Ip d)) = Some (it, e) -> it_Status it = f (ip_Ip d)).

Lemma shown_status qname data f t rs w : shown qname data f w -> rs = env_status t (w_status w) -> shown qname data f (set_status rs w).
Proof.
  intros Hs -> d Hd. destruct (Hs d Hd) as [(it & Hk & Hp & Hh & Hf) Hc]. split; [|done].
  exists it. split_and!; try done. by apply holds_own.
Qed.

Lemma shown_cache qname data f n k it dur w : shown qname data f w ->
  (forall d, d ∈ data -> k = qname +:+ ":" +:+ IP_String (ip_Ip d) -> it_Status it = f (ip_Ip d)) ->
  shown qname data f (set_cachedItems (gc_set n (w_cachedItems w) k it dur) w).
Proof.
  intros Hs Hk d Hd. destruct (Hs d Hd) as [Hst Hc]. split; [done|]. intros t it' e.
  cbn [w_cachedItems set_cachedItems]. destruct (decide (k = qname +:+ ":" +:+ IP_String (ip_Ip d))) as [E1|Hne].
  - rewrite <- E1. intros Hg%gc_get_set_some. subst it'. by apply Hk.
  - rewrite gc_get_set_ne by done. apply Hc.
Qed.

Lemma sapp_inj_l s t u : s +:+ t = s +:+ u -> t = u.
Proof. induction s as [|c s IH]; [done|]. intros [= H]. auto. Qed.

(** [f] depends on the text of the address only. *)
Definition textual (f : IP -> Z) : Prop := forall a b, IP_String a = IP_String b -> f a = f b.

Lemma shown_answers qname data f : hl_Enable h = true -> textual f -> answers h qname data f (fun _ w => shown qname data f w).
Proof.
  intros He Hf n w d Hd Hs. destruct (Hs d Hd) as [(it & Hk & Hp & Hh & Hst) Hc]. unfold getStatus. rewrite He. cbn [negb]. do 4 wstep.
  destruct (gc_get _ _ _) as [[it' e]|] eqn:Hg; [wstep; split; [by eapply Hc|done]|].
  wstep. rewrite <- Hk. pose proof Hp as (_ & Hhost & Hu & _).
  eapply wp_mono; [|apply loadItem_holds; [done..|by apply holds_own]]. intros o w' [-> ->]. rewrite normalized_plain by done.
  cbn [default]. do 4 wstep. split; [done|]. rewrite Hk. apply shown_cache.
  - exact (shown_status qname data f (S (w_tick w)) _ w Hs eq_refl).
  - intros d' _ Heq. simpl. rewrite Hst. apply Hf. apply sapp_inj_l in Heq. by injection Heq.
Qed.

(** Every address has its item stored, with the status [f] gives. *)
Definition stored_as (qname : string) (data : list IP_RR) (f : IP -> Z) w : Prop :=
  forall d, d ∈ data -> exists it, key_of it = qname +:+ ":" +:+ IP_String (ip_Ip d) /\ plain_item it /\
    holds (w_status w) it /\ it_Status it = f (ip_Ip d).
Definition uncached (qname : string) (data : list IP_RR) w : Prop :=
  forall t d, d ∈ data -> gc_get t (w_cachedItems w) (qname +:+ ":" +:+ IP_String (ip_Ip d)) = None.

(** [f] with the status of one address replaced. *)
Definition instead (f : IP -> Z) (ip : IP) (s : Z) : IP -> Z := fun a => if decide (IP_String a = IP_String ip) then s else f a.

Lemma instead_textual f ip s : textual f -> textual (instead f ip s).
Proof. intros Hf a b Hab. unfold instead. rewrite Hab. case_decide; [done|by apply Hf]. Qed.

Lemma moved_shown qname data f d it w it' w' : stored_as qname data f w -> uncached qname data w ->
  key_of it = qname +:+ ":" +:+ IP_String (ip_Ip d) -> plain_item it' -> moved it w it' w' ->
  shown qname data (instead f (ip_Ip d) (it_Status it')) w'.
Proof.
  intros Hst Hun Hk Hp (Hev & Hh & Hc & _ & Ho) d' Hd'. unfold instead. split.
  - case_decide as Heq.
    + exists it'. rewrite (evolved_key _ _ Hev), Hk, Heq. done.
    + destruct (Hst d' Hd') as (it1 & Hk1 & Hp1 & (s & Hs & Hg) & Hs1). exists it1. split_and!; try done.
      exists s. split; [done|]. rewrite Ho; [done|]. rewrite Hk, Hk1. intros E1. apply sapp_inj_l in E1. by injection E1.
  - intros t it1 e. rewrite Hc, Hun by done. done.
Qed.

(** An address at the down count goes when another is above it. *)
Lemma kept_down up down b : down < b -> kept up down b down = false.
Proof. intros H. unfold kept. repeat case_match; bool_to_prop; lia. Qed.

End Pipeline.

(** ** A run *)

(** The host at 10.0.0.1 refuses connections. *)
Definition outage_env : Env (L := health_libs) := {|
  env_now t := Z.of_nat t * Second; env_redis _ rs := rs; env_status _ rs := rs; env_zones _ z := z; env_keeps _ _ := true;
  env_exchange _ _ _ _ := None;
  env_http _ url _ _ := if String.eqb url "http://10.0.0.1/" then inl "connection refused" else inr 200;
  env_ping _ _ _ := mkPingIO None (fun _ => None) (fun _ => None) (inr (inr 0)); env_write _ := true;
  env_drained _ := 0%nat; env_range _ A l := l; env_range_perm _ A l := reflexivity l
|}.

Definition outage_item (ip : string) (s : Z) : HealthCheckItem :=
  mkItem "http" "/" 80 s (1000 * Second) 1000 3 (-3) true "id" "www.example.com." ip None.
Definition outage_world : World (L := health_libs) :=
  set_status (L := health_libs)
    (mkSRS (<["redins:healthcheck:www.example.com.:10.0.0.1" := item_json (outage_item "10.0.0.1" 3)]>
             {["redins:healthcheck:www.example.com.:10.0.0.2" := item_json (outage_item "10.0.0.2" 1)]}) ∅ ∅)
    (sampleWorld _ _ emptyRedis []).
Definition outage_status (ip : IP) : Z := if decide (IP_String ip = "10.0.0.1") then 3 else 1.

Definition outage_mask (o : Outcome (list IpMask * World (L := health_libs))) : option (list IpMask) :=
  match o with Done (m, _) => Some m | _ => None end.

