(* ===== verification/Request.v ===== *)
(** handler/request.go: the context of one request and the reply it ends in. *)
From S2P Require Import Prelude GoStrings DnsTypes GoNet GoCache Monad ZoneIndex OrderIps GeoIp Deps World Sample.

Section Request.
Context {L : Libs} {E : Env}.

Record RequestContext := mkContext {
  c_Req : option Msg;
  c_W : Writer;
  c_StartTime : Z;
  c_LogData : LogData;
  c_Auth : bool;
  c_Answer : list RR;
  c_Authority : list RR;
  c_Additional : list RR;
  c_SourceIp : IP;
  c_SourceSubnet : string;
  c_name : string
}.

Definition with_name (n : string) (c : RequestContext) : RequestContext :=
  mkContext (c_Req c) (c_W c) (c_StartTime c) (c_LogData c) (c_Auth c) (c_Answer c) (c_Authority c)
    (c_Additional c) (c_SourceIp c) (c_SourceSubnet c) n.
Definition with_log (d : LogData) (c : RequestContext) : RequestContext :=
  mkContext (c_Req c) (c_W c) (c_StartTime c) d (c_Auth c) (c_Answer c) (c_Authority c)
    (c_Additional c) (c_SourceIp c) (c_SourceSubnet c) (c_name c).
Definition with_answer (l : list RR) (c : RequestContext) : RequestContext :=
  mkContext (c_Req c) (c_W c) (c_StartTime c) (c_LogData c) (c_Auth c) l (c_Authority c)
    (c_Additional c) (c_SourceIp c) (c_SourceSubnet c) (c_name c).
Definition with_authority (l : list RR) (c : RequestContext) : RequestContext :=
  mkContext (c_Req c) (c_W c) (c_StartTime c) (c_LogData c) (c_Auth c) (c_Answer c) l
    (c_Additional c) (c_SourceIp c) (c_SourceSubnet c) (c_name c).
Definition with_additional (l : list RR) (c : RequestContext) : RequestContext :=
  mkContext (c_Req c) (c_W c) (c_StartTime c) (c_LogData c) (c_Auth c) (c_Answer c) (c_Authority c)
    l (c_SourceIp c) (c_SourceSubnet c) (c_name c).

(** The first client-subnet option, if the message has one.  A nil request
    panics in [IsEdns0]. *)
Fixpoint first_subnet (l : list EDNS0) : option (IP * string) :=
  match l with
  | [] => None
  | EDNS0_SUBNET a s :: _ => Some (a, s)
  | EDNS0_Other :: l' => first_subnet l'
  end.

Definition subnet_option (req : option Msg) : Outcome (option (IP * string)) :=
  match req with
  | None => Panic
  | Some m => mret (match dns_IsEdns0 m with Some opts => first_subnet opts | None => None end)
  end.

Definition sourceIp (req : option Msg) (w : Writer) : Outcome IP :=
  o ← subnet_option req;
  mret (match o with Some (address, _) => address | None => ParseIP (req_IP w) end).

Definition sourceSubnet (req : option Msg) : Outcome string :=
  o ← subnet_option req;
  mret (match o with Some (_, text) => text | None => "" end).

(** The name is remembered in the context. *)
Definition RawName (c : RequestContext) : string * RequestContext :=
  if negb (String.eqb (c_name c) "") then (c_name c, c)
  else
    let n := match c_Req c with
             | None => "."
             | Some m => match m_Question m with
                         | [] => "."
                         | q :: _ => ToLower (q_Name q)
                         end
             end in
    (n, with_name n c).

Definition NewRequestContext (w : Writer) (r : option Msg) : M RequestContext :=
  t ← now;
  ip ← st_lift (sourceIp r w);
  subnet ← st_lift (sourceSubnet r);
  let c := mkContext r w t ∅ true [] [] [] ip subnet "" in
  let '(name, c) := RawName c in
  mret (with_log (list_to_map [("source_ip", LvIP ip); ("record", LvStr name); ("type", LvStr (req_Type r));
                               ("client_subnet", LvStr subnet); ("domain_uuid", LvStr "")]) c).

(** The message before the client's buffer size is looked at. *)
Definition reply (c : RequestContext) (rcode : Z) : Outcome Msg :=
  m ← dns_SetRcode (mkMsg 0 (c_Auth c) false true 0 [] [] [] []) (c_Req c) rcode;
  mret (mkMsg (m_Id m) (m_Authoritative m) (m_RecursionAvailable m) (m_Compress m) (m_Rcode m) (m_Question m)
          (m_Answer m ++ c_Answer c) (m_Ns m ++ c_Authority c) (m_Extra m ++ c_Additional c)).

Definition Response (c : RequestContext) (rcode : Z) : M unit :=
  m ← st_lift (reply c rcode);
  let m := req_Scrub (c_W c) (c_Req c) (req_SizeAndDo (c_W c) (c_Req c) m) in
  t ← tick;
  emit (Wrote (c_W c) m);;
  if env_write t then mret tt else emit (Closed (c_W c)).
End Request.

(** ** Properties *)

Section RequestFacts.
Context {L : Libs} {E : Env}.

(** Asking for the name again gives the same name and changes nothing more. *)
Lemma RawName_memo c : RawName (snd (RawName c)) = (fst (RawName c), snd (RawName c)).
Proof.
  unfold RawName. destruct (String.eqb (c_name c) "") eqn:En; simpl; [|by rewrite En].
  set (n := match c_Req c with None => _ | Some _ => _ end). clearbody n. by destruct (String.eqb n "").
Qed.

(** What a reply holds. *)
Definition reply_ok (c : RequestContext) (rcode : Z) (m : Msg) : Prop :=
  m_Rcode m = rcode /\ m_Answer m = c_Answer c /\ m_Ns m = c_Authority c /\ m_Extra m = c_Additional c /\
  m_Authoritative m = c_Auth c /\ (forall r, c_Req c = Some r -> m_Id m = m_Id r).

Lemma reply_spec {DL : DnsLibLaws lib_dns} c rcode r :
  c_Req c = Some r -> exists m, reply c rcode = Done m /\ reply_ok c rcode m.
Proof.
  intros Hr. unfold reply. rewrite Hr.
  destruct (SetRcode_ok (mkMsg 0 (c_Auth c) false true 0 [] [] [] []) r rcode) as (m & -> & ? & Ha & Hn & He & ? & ?).
  simpl in *. eexists. split; [reflexivity|]. unfold reply_ok. simpl. rewrite Ha, Hn, He. repeat split; try done.
  intros r'. rewrite Hr. by intros [= <-].
Qed.

(** One message is written, and after a failed write the connection is closed. *)
Lemma Response_spec {DL : DnsLibLaws lib_dns} c rcode r w :
  c_Req c = Some r ->
  wp False (Response c rcode) (fun _ w' =>
    exists m, reply_ok c rcode m /\
      w_events w' = w_events w ++
        Wrote (c_W c) (req_Scrub (c_W c) (c_Req c) (req_SizeAndDo (c_W c) (c_Req c) m)) ::
        (if env_write (w_tick w) then [] else [Closed (c_W c)]) /\
      w_logQueue w' = w_logQueue w /\ w_ZoneCache w' = w_ZoneCache w) w.
Proof.
  intros Hr. destruct (reply_spec c rcode r Hr) as (m & Hm & Hok). unfold Response. rewrite Hm.
  do 6 wstep. destruct (env_write (w_tick w)).
  - wstep. exists m. done.
  - wstep. exists m. split; [done|]. simpl. by rewrite <- app_assoc.
Qed.
End RequestFacts.
