(* ===== verification/Loader.v ===== *)
(** Loading from Redis: [NewZone] of handler/zone.go and [LoadZones], [FindZone],
    [loadKey], [LoadZone], [LoadZoneKeys], [LoadLocation] and [SetLocation] of
    handler/handler.go. *)
From S2P Require Import Prelude GoStrings DnsTypes GoCache Monad ZoneIndex Zone OrderIps GeoIp Deps World Sample Dnssec.
From Stdlib Require Import Ascii.

Definition Hour : Z := 60 * Minute.

(** [strings.Replace(s, "\\n", "\n", -1)]: a backslash and an n become a newline. *)
Fixpoint unescape_newlines (s : string) : string :=
  match s with
  | String "\"%char (String "n"%char s') => String "010"%char (unescape_newlines s')
  | String c s' => String c (unescape_newlines s')
  | "" => ""
  end.

Section Loader.
Context {L : Libs} {E : Env} (CacheTimeout : Z).

(** ** [NewZone] *)

(** The decoder may replace the SOA, also by null. *)
Definition NewZone (name : string) (locations : list string) (config : string) : M Zone :=
  serial ← nowUnix;
  let soa := mkSOA_RRSet ("ns1." +:+ name) ("hostmaster." +:+ name) None 300 86400 7200 3600 300 (u32 serial) in
  let cfg := mkZoneConfig "" (Some soa) false false in
  let cfg := if (0 <? slen config)%nat then fst (json_decode_config config cfg) else cfg in
  match cfg_SOA cfg with
  | None => st_panic
  | Some soa =>
      let ns := dns_Fqdn (ss_Ns soa) in
      let data := mkRR (mkHdr name TypeSOA ClassINET (ss_Ttl soa))
                    (DSOA (mkSOA ns (ss_MBox soa) (ss_Serial soa) (ss_Refresh soa) (ss_Retry soa)
                             (ss_Expire soa) (ss_MinTtl soa))) in
      let soa := mkSOA_RRSet ns (ss_MBox soa) (Some data) (ss_Ttl soa) (ss_Refresh soa) (ss_Retry soa)
                   (ss_Expire soa) (ss_MinTtl soa) (ss_Serial soa) in
      mret (mkZone name (mkZoneConfig (DomainId cfg) (Some soa) (DnsSec cfg) (CnameFlattening cfg))
              (list_to_set locations) None None None 0)
  end.

(** ** The zone tree *)

Definition LoadZones : M unit :=
  n ← now;
  st_modify (set_LastZoneUpdate n);;
  '(zs, err) ← redis (fun rs => redis_SMembers rs "redins:zones");
  match err : option string with
  | Some _ => mret tt
  | None => st_modify (set_Zones (buildZones zs))
  end.

Definition h_FindZone (qname : string) : M string := z ← zones; mret (FindZone z qname).

(** ** Keys *)

Definition loadKey (pub priv : string) : M (option ZoneKey) :=
  '(pubStr, _) ← redis (fun rs => redis_Get rs pub);
  if String.eqb pubStr "" then mret None
  else
    '(privStr, _) ← redis (fun rs => redis_Get rs priv);
    if String.eqb privStr "" then mret None
    else
      let privStr := unescape_newlines privStr in
      match dns_NewRR pubStr with
      | None => mret None
      | Some None => st_panic                      (* a nil record fails the type assertion *)
      | Some (Some rr) =>
          match rrData rr with
          | DDNSKEY k =>
              match dns_NewPrivateKey k privStr with
              | None => mret None
              | Some pk =>
                  n ← now;
                  mret (Some (mkZoneKey (rrHdr rr) k pk (u32 (Unix (n - 3 * Hour)))
                                (u32 (Unix (n + 8 * 24 * Hour)))))
              end
          | _ => st_panic                          (* so does one of another type *)
          end
      end.

Definition with_dnssec (b : bool) (c : ZoneConfig) : ZoneConfig :=
  mkZoneConfig (DomainId c) (cfg_SOA c) b (CnameFlattening c).
Definition with_keys (zsk ksk : option ZoneKey) (sig : option RR) (b : bool) (z : Zone) : Zone :=
  mkZone (z_Name z) (with_dnssec b (z_Config z)) (z_Locations z) zsk ksk sig (z_CacheTimeout z).
Definition with_timeout (t : Z) (z : Zone) : Zone :=
  mkZone (z_Name z) (z_Config z) (z_Locations z) (z_ZSK z) (z_KSK z) (z_DnsKeySig z) t.
(** [key.DnsKey.Flags = f; key.DnsKey.Hdr.Ttl = t] *)
Definition with_flags (f t : Z) (k : ZoneKey) : ZoneKey :=
  mkZoneKey (mkHdr (hName (zk_Hdr k)) (hRrtype (zk_Hdr k)) (hClass (zk_Hdr k)) t)
    (mkDNSKEY f (dk_Protocol (zk_DnsKey k)) (dk_Algorithm (zk_DnsKey k)) (dk_PublicKey (zk_DnsKey k)))
    (zk_PrivateKey k) (zk_KeyInception k) (zk_KeyExpiration k).

Definition LoadZoneKeys (z : Zone) : M Zone :=
  if negb (DnsSec (z_Config z)) then mret z
  else
    let prefix := "redins:zones:" +:+ z_Name z in
    zsk ← loadKey (prefix +:+ ":zsk:pub") (prefix +:+ ":zsk:priv");
    match zsk with
    | None => mret (with_keys None (z_KSK z) (z_DnsKeySig z) false z)
    | Some zsk =>
        ksk ← loadKey (prefix +:+ ":ksk:pub") (prefix +:+ ":ksk:priv");
        match ksk with
        | None => mret (with_keys (Some zsk) None (z_DnsKeySig z) false z)
        | Some ksk =>
            let ttl := hTtl (zk_Hdr ksk) in
            let zsk := with_flags 256 ttl zsk in
            let ksk := with_flags 257 ttl ksk in
            sig ← st_lift (sign [dnskey_rr zsk; dnskey_rr ksk] (z_Name z) (Some ksk) ttl);
            match sig with
            | Some rrsig => mret (with_keys (Some zsk) (Some ksk) (Some rrsig) true z)
            | None => mret (with_keys (Some zsk) (Some ksk) (z_DnsKeySig z) false z)
            end
        end
    end.

(** ** Zones *)

(** The function run under [ZoneInflight.Do]; [None] is its error return. *)
Definition fetchZone (zone : string) : M (option Zone) :=
  '(locations, err) ← redis (fun rs => redis_GetHKeys rs ("redins:zones:" +:+ zone));
  match err : option string with
  | Some _ => mret None
  | None =>
      '(config, _) ← redis (fun rs => redis_Get rs ("redins:zones:" +:+ zone +:+ ":config"));
      z ← NewZone zone locations config;
      z ← LoadZoneKeys z;
      n ← nowUnix;
      let z := with_timeout (i64 (n + CacheTimeout)) z in
      ZoneCache_Set zone z;;
      mret (Some z)
  end.

(** A failed load falls back to the cached zone, however old. *)
Definition refreshZone (zone : string) (stale : option Zone) : M (option Zone) :=
  answer ← inflight_Do ZoneInflight zone (fetchZone zone);
  mret (match answer with Some z => Some z | None => stale end).

Definition LoadZone (zone : string) : M (option Zone) :=
  cachedZone ← ZoneCache_Get zone;
  match cachedZone with
  | Some z =>
      n ← nowUnix;
      if n <=? z_CacheTimeout z then mret (Some z) else refreshZone zone (Some z)
  | None => refreshZone zone None
  end.

(** ** Locations *)

Definition locationDefaults : RRSets :=
  let a := mkIP_RRSet (mkIpFilterConfig "multi" "none" "none") (mkIpHealthCheckConfig "" "" 0 0 0 0 false) 0 [] in
  mkRRSets a a (mkTXT_RRSet 0 []) None (mkNS_RRSet 0 []) (mkMX_RRSet 0 []) (mkSRV_RRSet 0 [])
    (mkCAA_RRSet 0 []) None (mkTLSA_RRSet 0 []) None.

(** The function run under [RecordInflight.Do]. *)
Definition fetchLocation (key location : string) (z : Zone) : M (option positive) :=
  let '(name, label) := if String.eqb location (z_Name z) then (z_Name z, "@")
                        else (location +:+ "." +:+ z_Name z, location) in
  if negb (bool_decide (label ∈ z_Locations z)) then
    if String.eqb label "@" then
      p ← alloc (mkRecord locationDefaults (Some z) name 0);
      RecordCache_Set key p;;
      mret (Some p)
    else mret None
  else
    '(val, err) ← redis (fun rs => redis_HGet rs ("redins:zones:" +:+ z_Name z) label);
    match err : option string with
    | Some _ => mret None
    | None =>
        let '(rs, perr) := if String.eqb val "" then (locationDefaults, None)
                           else json_decode_record val locationDefaults in
        match perr with
        | Some _ => mret None
        | None =>
            n ← nowUnix;
            p ← alloc (mkRecord rs (Some z) name (i64 (n + CacheTimeout)));
            RecordCache_Set key p;;
            mret (Some p)
        end
    end.

Definition refreshLocation (key location : string) (z : Zone) (stale : option positive) : M (option positive) :=
  answer ← inflight_Do RecordInflight key (fetchLocation key location z);
  mret (match answer with Some p => Some p | None => stale end).

Definition LoadLocation (location : string) (z : Zone) : M (option positive) :=
  let key := location +:+ "." +:+ z_Name z in
  cachedRecord ← RecordCache_Get key;
  match cachedRecord with
  | Some p =>
      n ← nowUnix; r ← load p;
      if n <=? r_CacheTimeout r then mret (Some p) else refreshLocation key location z (Some p)
  | None => refreshLocation key location z None
  end.

(** [h.Redis.HSet] is called with the bare zone name as key. *)
Definition SetLocation (location : string) (z : Zone) (val : Record_) : M unit :=
  match json_encode_record (r_RRSets val) with
  | None => mret tt
  | Some jsonValue =>
      let label := if String.eqb location (z_Name z) then "@" else location in
      redis_write (fun rs => fst (redis_HSet rs (z_Name z) label jsonValue))
  end.

(** The functions run under singleflight make no shared calls themselves. *)
Lemma flat_loadKey pub priv : flat (loadKey pub priv).
Proof. unfold loadKey. flat. Qed.
Lemma flat_NewZone name locations config : flat (NewZone name locations config).
Proof. unfold NewZone. flat. Qed.
#[local] Hint Resolve flat_loadKey flat_NewZone : redins.
Lemma flat_LoadZoneKeys z : flat (LoadZoneKeys z).
Proof. unfold LoadZoneKeys. flat. Qed.
#[local] Hint Resolve flat_LoadZoneKeys : redins.
Lemma flat_fetchZone zone : flat (fetchZone zone).
Proof. unfold fetchZone. flat. Qed.
Lemma flat_fetchLocation key location z : flat (fetchLocation key location z).
Proof. unfold fetchLocation. flat. Qed.
End Loader.

#[export] Hint Resolve flat_fetchZone flat_fetchLocation : redins.

(** ** A configuration that stops the server *)

(** A zone configuration whose decoded SOA is null makes [NewZone] panic, and
    with it the whole process on the first request for the zone. *)
Theorem NewZone_null_soa_panics `{L : Libs, E : Env} name locations config w :
  config <> "" -> (forall c, cfg_SOA (fst (json_decode_config config c)) = None) ->
  NewZone name locations config w = Panic.
Proof.
  intros Hc Hd. destruct config as [|ch config]; [done|].
  unfold NewZone. rewrite M_bind. unfold nowUnix, ticking. rewrite run_atom.
  change (0 <? slen (String ch config))%nat with true. cbv iota. by rewrite Hd.
Qed.

Lemma NewZone_null_soa_panics_witness :
  let L := sampleLibs (fun _ r => r) (fun s c => if String.eqb s "{soa:null}" then mkZoneConfig "" None false false else c) in
  NewZone (E := quietEnv L) "example.com." [] "{soa:null}" (sampleWorld _ _ emptyRedis []) = Panic.
Proof. intros L. apply (NewZone_null_soa_panics (E := quietEnv L)); [discriminate|reflexivity]. Defined.
