(* ===== verification/Updater.v ===== *)
(** The zone updater: the goroutine of [NewHandler] (handler/handler.go) that
    reloads the zone tree, and the callbacks of its Redis subscription, as a
    transition system.

    [modified] is shared by the updater and the subscription callbacks without a
    lock; a callback can run between the reload and the assignment that clears
    the flag, so the two are separate steps. *)
From S2P Require Import Prelude GoStrings DnsTypes GoCache Monad ZoneIndex OrderIps GeoIp Deps World Sample Dnssec Loader.

Section Updater.
Context {L : Libs} {E : Env}.

Record Updater := mkUpdater {
  modified : bool;
  loading : bool;      (* inside [if modified], after [h.LoadZones()] *)
  u_world : World
}.

Inductive Label :=
  | Notified          (* the subscription starts, or a message arrives *)
  | Reload            (* reloadTicker fires *)
  | Clear             (* modified = false *)
  | ForceReload       (* forceReloadTicker fires *)
  | Others (rs : RS). (* another client of Redis changes the data *)

Inductive ustep : Label -> Updater -> Updater -> Prop :=
  | step_notified m l w :
      ustep Notified (mkUpdater m l w) (mkUpdater true l w)
  | step_reload w w' :
      LoadZones w = Done (tt, w') ->
      ustep Reload (mkUpdater true false w) (mkUpdater true true w')
  | step_idle w :
      ustep Reload (mkUpdater false false w) (mkUpdater false false w)
  | step_clear m w :
      ustep Clear (mkUpdater m true w) (mkUpdater false false w)
  | step_force m w :
      ustep ForceReload (mkUpdater m false w) (mkUpdater true false w)
  | step_others m l w rs :
      ustep (Others rs) (mkUpdater m l w) (mkUpdater m l (set_redis rs w)).

(** Several steps, with their labels. *)
Inductive usteps : list Label -> Updater -> Updater -> Prop :=
  | usteps_nil u : usteps [] u u
  | usteps_cons a l u u' u'' : ustep a u u' -> usteps l u' u'' -> usteps (a :: l) u u''.

Lemma usteps_app l1 l2 u u' u'' : usteps l1 u u' -> usteps l2 u' u'' -> usteps (l1 ++ l2) u u''.
Proof. induction 1; [done|]. intros. simpl. econstructor; eauto. Qed.

(** The updater can always take the next tick: [LoadZones] returns. *)
Lemma LoadZones_spec w :
  wp False LoadZones (fun _ w' =>
    w_LastZoneUpdate w' = env_now (w_tick w) /\
    let rs := env_redis (S (w_tick w)) (w_redis w) in
    w_redis w' = rs /\
    w_Zones w' = match redis_SMembers rs "redins:zones" with
                 | (zs, None) => buildZones zs
                 | (_, Some _) => w_Zones w
                 end) w.
Proof.
  unfold LoadZones. do 6 wstep. simpl.
  destruct (redis_SMembers _ _) as [zs [e|]]; wstep; done.
Qed.

(** Steps that come between a notification and the reload it asks for. *)
Definition waiting (a : Label) : Prop :=
  match a with Notified | ForceReload | Others _ => True | _ => False end.

Lemma waiting_keeps_modified l u u' :
  usteps l u u' -> Forall waiting l -> modified u = true -> modified u' = true /\ loading u' = loading u.
Proof.
  induction 1 as [|a l u u' u'' Hs _ IH]; intros Hw Hm; [done|].
  apply Forall_cons in Hw as [Ha Hw]. destruct Hs; simpl in *; try done; by apply IH.
Qed.

(** C29: a change of the zone set is picked up.  In whatever state the updater
    idles, once a notification (or the forced reload) has come, the next reload
    tick reads the set again, no matter what happens in between: if Redis
    answers, the tree is the index of the set as Redis holds it at that moment,
    and the time of the update is recorded; if Redis fails, the old tree stays. *)
Theorem updater_reloads a l u u1 u2 u3 :
  loading u = false -> a = Notified \/ a = ForceReload ->
  ustep a u u1 -> usteps l u1 u2 -> Forall waiting l -> ustep Reload u2 u3 ->
  exists t rs, rs = env_redis (S t) (w_redis (u_world u2)) /\
    w_LastZoneUpdate (u_world u3) = env_now t /\
    w_Zones (u_world u3) = match redis_SMembers rs "redins:zones" with
                           | (zs, None) => buildZones zs
                           | (_, Some _) => w_Zones (u_world u2)
                           end.
Proof.
  intros Hl Ha Hs Hl1 Hw Hr.
  assert (modified u1 = true /\ loading u1 = false) as [Hm1 Hl1'] by (destruct Ha as [-> | ->]; inversion Hs; subst; done).
  destruct (waiting_keeps_modified _ _ _ Hl1 Hw Hm1) as [Hm2 Hl2].
  inversion Hr as [| w w' HL | w | | |]; subst; simpl in *; [|done].
  pose proof (LoadZones_spec w) as H. unfold wp in H. rewrite HL in H. destruct H as (Ht & _ & Hz).
  exists (w_tick w), (env_redis (S (w_tick w)) (w_redis w)). done.
Qed.
End Updater.
#[global] Arguments usteps_cons {L E} a l u u' u''.

(** ** Runs *)

Definition updater_libs : Libs := sampleLibs (fun _ r => r) (fun _ c => c).
Definition updater_env : Env (L := updater_libs) := quietEnv updater_libs.
Definition redis_with (zs : list string) : SampleRedisState :=
  mkSRS ∅ ∅ {["redins:zones" := list_to_set zs]}.
Definition start_world : World (L := updater_libs) := sampleWorld _ _ (redis_with []) [].

(** The state after running [LoadZones]. *)
Definition reloaded (w : World (L := updater_libs)) : World (L := updater_libs) :=
  match LoadZones (E := updater_env) w with Done (_, w') => w' | _ => w end.

Lemma LoadZones_reloaded w : LoadZones (E := updater_env) w = Done (tt, reloaded w).
Proof.
  unfold reloaded. pose proof (LoadZones_spec (E := updater_env) w) as H. unfold wp in H.
  by destruct (LoadZones w) as [[[] w']| |].
Qed.

Lemma updater_reloads_witness :
  FindZone (w_Zones (reloaded (set_redis (L := updater_libs) (redis_with ["new.org."]) start_world))) "www.new.org." = "new.org.".
Proof.
  set (w := set_redis (L := updater_libs) (redis_with ["new.org."]) start_world).
  destruct (updater_reloads (E := updater_env) Notified [Others (L := updater_libs) (redis_with ["new.org."])]
    (mkUpdater (L := updater_libs) false false start_world) (mkUpdater true false start_world)
    (mkUpdater true false w) (mkUpdater true true (reloaded w))) as (t & rs & -> & _ & Hz).
  - reflexivity.
  - by left.
  - constructor.
  - eapply usteps_cons; [constructor|constructor].
  - repeat constructor.
  - constructor. apply LoadZones_reloaded.
  - simpl u_world in Hz. rewrite Hz. by_run.
Defined.

(** A notification can be lost.  When the set changes and the notification for
    it arrives while the updater is between the reload and clearing the flag, the
    flag is cleared with it: the updater idles with a stale tree, and reload
    ticks do nothing until the next forced reload. *)
Theorem updater_loses_notification :
  exists u, usteps (E := updater_env) [Notified; Reload; Others (L := updater_libs) (redis_with ["new.org."]); Notified; Clear]
              (mkUpdater (L := updater_libs) false false start_world) u /\
    loading u = false /\
    fst (redis_SMembers (Redis := SampleRedis) (w_redis (u_world u)) "redins:zones") = ["new.org."] /\
    FindZone (w_Zones (u_world u)) "www.new.org." = "" /\
    forall n u', usteps (E := updater_env) (replicate n Reload) u u' -> u' = u.
Proof.
  exists (mkUpdater (L := updater_libs) false false (set_redis (L := updater_libs) (redis_with ["new.org."]) (reloaded start_world))).
  split_and!; [|reflexivity|by_run|by_run|].
  - eapply usteps_cons; [constructor|]. eapply usteps_cons; [constructor; apply LoadZones_reloaded|].
    eapply usteps_cons; [constructor|]. eapply usteps_cons; [constructor|]. eapply usteps_cons; [constructor|].
    constructor.
  - intros n. induction n as [|n IH]; intros u' H; inversion H as [|? ? ? ? ? Hs Hr]; subst; [done|].
    inversion Hs; subst. by apply IH.
Qed.
