(* ===== verification/Handler.v ===== *)
(** handler/handler.go: answering one request, and [handleRequest] of redins.go.

    The two chains that follow CNAME and ANAME records stop after 11 steps in the
    code ([loopCount > 10]); the recursion is on the steps left. *)
From S2P Require Import Prelude GoStrings DnsTypes GoCache Monad ZoneIndex Zone OrderIps GeoIp Limiter Deps World Answers Sample Dnssec Upstream Health Request Loader.
From Stdlib Require Import Ascii.

Section Handler.
Context {L : Libs} {E : Env}.

(** [DnsRequestHandler], the fields that are fixed after [NewHandler]. *)
Record DnsRequestHandler := mkHandler {
  MaxTtl : Z;
  CacheTimeout : Z;
  LogSourceLocation : bool;
  geoip : GeoIp;
  healthcheck : Healthcheck
}.

Context (h : DnsRequestHandler).

(** ** [Filter] *)

Definition Filter (name : string) (sourceIp : IP) (rrset : IP_RRSet) : M (list IP) :=
  mask ← FilterHealthcheck (healthcheck h) name rrset (replicate (length (ip_Data rrset)) IpMaskWhite);
  mask ← st_lift
    (let f := fc_GeoFilter (FilterConfig rrset) in
     if String.eqb f "asn" then GetSameASN (geoip h) sourceIp (ip_Data rrset) mask
     else if String.eqb f "country" then GetSameCountry (geoip h) sourceIp (ip_Data rrset) mask
     else if String.eqb f "asn+country" then
       mask ← GetSameASN (geoip h) sourceIp (ip_Data rrset) mask;
       GetSameCountry (geoip h) sourceIp (ip_Data rrset) mask
     else if String.eqb f "location" then GetMinimumDistance (geoip h) sourceIp (ip_Data rrset) mask
     else mret mask);
  n ← now;
  st_lift (OrderIps (n mod Second) rrset mask).

(** ** [FindCAA] *)

(** The [for] loop: [Some r] is a return, [None] the break to the zone apex. *)
Fixpoint caaLoop (fuel : nat) (zone : Zone) (currentRecord : Record_) (currentLocation : string)
  : M (option (option Record_)) :=
  match fuel with
  | O => st_diverge
  | S fuel' =>
      if negb (length (caa_Data (rs_CAA (r_RRSets currentRecord))) =? 0)%nat then mret (Some (Some currentRecord))
      else match SplitAfterN2 currentLocation dot with
      | [_; rest] =>
          match FindLocation zone rest with
          | (_, NoMatch) => mret (Some None)
          | (location, _) =>
              p ← LoadLocation (CacheTimeout h) location zone;
              match p with
              | None => mret (Some None)
              | Some p => r ← load p; caaLoop fuel' zone r location
              end
          end
      | _ => mret None
      end
  end.

(** Each round cuts the location at a dot and no lookup adds one, so the number
    of dots bounds the rounds ([FindCAA_terminates]). *)
Definition FindCAA (record : Record_) : M (option Record_) :=
  match r_Zone record with
  | None => st_panic
  | Some zone =>
      let location := TrimSuffix (r_Name record) ("." +:+ z_Name zone) in
      o ← caaLoop (S (count_byte dot location)) zone record location;
      match o with
      | Some r => mret r
      | None =>
          p ← LoadLocation (CacheTimeout h) (z_Name zone) zone;
          match p with
          | None => mret None
          | Some p =>
              r ← load p;
              mret (if negb (length (caa_Data (rs_CAA (r_RRSets r))) =? 0)%nat then Some r else None)
          end
      end
  end.

(** ** [FindANAME] *)

Definition upstreamIps (qtype : Z) (answers : list RR) : list IP :=
  omap (fun r => if qtype =? TypeA then match rrData r with DA ip => Some ip | _ => None end
                 else match rrData r with DAAAA ip => Some ip | _ => None end) answers.

Fixpoint anameLoop (steps : nat) (sourceIp : IP) (qtype : Z) (currentQName : string) : M (list IP * Z * Z) :=
  match steps with
  | O => mret ([], RcodeServerFailure, 0)
  | S steps' =>
      zoneName ← h_FindZone currentQName;
      if String.eqb zoneName "" then
        '(answers, res) ← Query currentQName qtype;
        if res =? RcodeSuccess then
          mret (upstreamIps qtype answers, res, match answers with r :: _ => hTtl (rrHdr r) | [] => 0 end)
        else mret ([], RcodeServerFailure, 0)
      else
        zone ← LoadZone (CacheTimeout h) zoneName;
        match zone with
        | None => mret ([], RcodeServerFailure, 0)
        | Some zone =>
            let '(location, _) := FindLocation zone currentQName in
            if String.eqb location "" then mret ([], RcodeServerFailure, 0)
            else
              p ← LoadLocation (CacheTimeout h) location zone;
              match p with
              | None => mret ([], RcodeServerFailure, 0)
              | Some p =>
                  r ← load p;
                  let rs := r_RRSets r in
                  match rs_CNAME rs with
                  | Some c => anameLoop steps' sourceIp qtype (cname_Host c)
                  | None =>
                      if (qtype =? TypeA) && (0 <? length (ip_Data (rs_A rs)))%nat then
                        ips ← Filter (r_Name r) sourceIp (rs_A rs);
                        mret (ips, RcodeSuccess, ip_Ttl (rs_A rs))
                      else if (qtype =? TypeAAAA) && (0 <? length (ip_Data (rs_AAAA rs)))%nat then
                        ips ← Filter (r_Name r) sourceIp (rs_AAAA rs);
                        mret (ips, RcodeSuccess, ip_Ttl (rs_AAAA rs))
                      else match rs_ANAME rs with
                           | Some a => anameLoop steps' sourceIp qtype (aname_Location a)
                           | None => mret ([], RcodeSuccess, 0)
                           end
                  end
              end
        end
  end.

Definition FindANAME (sourceIp : IP) (aname : string) (qtype : Z) : M (list IP * Z * Z) :=
  anameLoop 11 sourceIp qtype aname.

(** ** Logging and responding *)

(** The channel holds 1000 entries; what the log goroutine took meanwhile makes
    room, and a full channel drops the entry. *)
Definition LogRequest (c : RequestContext) (responseCode : Z) : M RequestContext :=
  n ← now;
  let d := <["log_type" := LvStr "request"]> (<["response_code" := LvInt responseCode]>
             (<["process_time" := LvInt64 (Z.quot (sat64 (n - c_StartTime c)) 1000000)]> (c_LogData c))) in
  ticking (fun t w =>
    let q := drop (env_drained t) (w_logQueue w) in
    Done (tt, set_logQueue (if (length q <? 1000)%nat then q ++ [d] else q) w));;
  mret (with_log d c).

Definition h_Response (c : RequestContext) (res : Z) : M unit :=
  c ← LogRequest c res;
  Response c res.

(** ** [HandleRequest] *)

Definition soa_rr (z : Zone) : Outcome RR :=
  match cfg_SOA (z_Config z) with
  | Some soa => match ss_Data soa with Some rr => mret rr | None => Panic end
  | None => Panic
  end.

Definition with_A_ttl (ttl : Z) (r : Record_) : Record_ :=
  let rs := r_RRSets r in
  let a := rs_A rs in
  mkRecord (mkRRSets (mkIP_RRSet (FilterConfig a) (HealthCheckConfig a) ttl (ip_Data a)) (rs_AAAA rs) (rs_TXT rs)
              (rs_CNAME rs) (rs_NS rs) (rs_MX rs) (rs_SRV rs) (rs_CAA rs) (rs_PTR rs) (rs_TLSA rs) (rs_ANAME rs))
    (r_Zone r) (r_Name r) (r_CacheTimeout r).
Definition with_AAAA_ttl (ttl : Z) (r : Record_) : Record_ :=
  let rs := r_RRSets r in
  let a := rs_AAAA rs in
  mkRecord (mkRRSets (rs_A rs) (mkIP_RRSet (FilterConfig a) (HealthCheckConfig a) ttl (ip_Data a)) (rs_TXT rs)
              (rs_CNAME rs) (rs_NS rs) (rs_MX rs) (rs_SRV rs) (rs_CAA rs) (rs_PTR rs) (rs_TLSA rs) (rs_ANAME rs))
    (r_Zone r) (r_Name r) (r_CacheTimeout r).

(** [case dns.TypeA] and [case dns.TypeAAAA]: the addresses of the location, or
    those its ANAME leads to, whose TTL is written into the shared record. *)
Definition answerA (sourceIp : IP) (name : string) (p : positive) : M (list RR * Z) :=
  r ← load p;
  match ip_Data (rs_A (r_RRSets r)), rs_ANAME (r_RRSets r) with
  | [], Some a =>
      '(ips, res, ttl) ← FindANAME sourceIp (aname_Location a) TypeA;
      update p (with_A_ttl ttl);;
      r ← load p;
      mret (h_A (MaxTtl h) name (r_RRSets r) ips, res)
  | _, _ =>
      ips ← Filter (r_Name r) sourceIp (rs_A (r_RRSets r));
      mret (h_A (MaxTtl h) name (r_RRSets r) ips, RcodeSuccess)
  end.
Definition answerAAAA (sourceIp : IP) (name : string) (p : positive) : M (list RR * Z) :=
  r ← load p;
  match ip_Data (rs_AAAA (r_RRSets r)), rs_ANAME (r_RRSets r) with
  | [], Some a =>
      '(ips, res, ttl) ← FindANAME sourceIp (aname_Location a) TypeAAAA;
      update p (with_AAAA_ttl ttl);;
      r ← load p;
      mret (h_AAAA (MaxTtl h) name (r_RRSets r) ips, res)
  | _, _ =>
      ips ← Filter (r_Name r) sourceIp (rs_AAAA (r_RRSets r));
      mret (h_AAAA (MaxTtl h) name (r_RRSets r) ips, RcodeSuccess)
  end.

Definition answerDNSKEY (zone : Zone) : Outcome (list RR) :=
  if DnsSec (z_Config zone) then
    match z_ZSK zone, z_KSK zone with
    | Some zsk, Some ksk => mret [dnskey_rr zsk; dnskey_rr ksk]
    | _, _ => Panic
    end
  else mret [].

(** The [switch] on the query type; [None] is the default case. *)
Definition answerFor (qtype : Z) (sourceIp : IP) (name : string) (zone : Zone) (p : positive)
  : M (option (list RR * Z)) :=
  r ← load p;
  let rs := r_RRSets r in
  let ok (l : list RR) : M (option (list RR * Z)) := mret (Some (l, RcodeSuccess)) in
  if qtype =? TypeA then a ← answerA sourceIp name p; mret (Some a)
  else if qtype =? TypeAAAA then a ← answerAAAA sourceIp name p; mret (Some a)
  else if qtype =? TypeCNAME then ok (h_CNAME (MaxTtl h) name rs)
  else if qtype =? TypeTXT then l ← st_lift (h_TXT (MaxTtl h) name rs); ok l
  else if qtype =? TypeNS then ok (h_NS (MaxTtl h) name rs)
  else if qtype =? TypeMX then ok (h_MX (MaxTtl h) name rs)
  else if qtype =? TypeSRV then ok (h_SRV (MaxTtl h) name rs)
  else if qtype =? TypeCAA then
    caa ← FindCAA r;
    ok (match caa with Some r' => h_CAA (MaxTtl h) name (r_RRSets r') | None => [] end)
  else if qtype =? TypePTR then ok (h_PTR (MaxTtl h) name rs)
  else if qtype =? TypeTLSA then ok (h_TLSA (MaxTtl h) name rs)
  else if qtype =? TypeSOA then s ← st_lift (soa_rr zone); ok [s]
  else if qtype =? TypeDNSKEY then l ← st_lift (answerDNSKEY zone); ok l
  else mret None.

(** The addresses of one name server, for the additional section. *)
Definition glue (sourceIp : IP) (zone : Zone) (host : string) : M (list RR) :=
  match FindLocation zone host with
  | (_, NoMatch) => mret []
  | (glueLocation, _) =>
      p ← LoadLocation (CacheTimeout h) glueLocation zone;
      match p with
      | None => mret []
      | Some p =>
          r ← load p;
          ips ← Filter (r_Name r) sourceIp (rs_A (r_RRSets r));
          ips6 ← Filter (r_Name r) sourceIp (rs_AAAA (r_RRSets r));
          mret (h_A (MaxTtl h) host (r_RRSets r) ips ++ h_AAAA (MaxTtl h) host (r_RRSets r) ips6)
      end
  end.

(** The loop over the CNAME chain; [raw] is the name of the question. *)
Fixpoint resolveLoop (steps : nat) (raw : string) (zoneName : string) (zone : Zone) (c : RequestContext)
  (currentQName : string) : M (RequestContext * Z) :=
  match steps with
  | O => mret (with_answer [] c, RcodeServerFailure)
  | S steps' =>
      zn ← h_FindZone currentQName;
      if negb (String.eqb zn zoneName) then mret (c, RcodeSuccess)
      else match FindLocation zone currentQName with
      | (_, NoMatch) =>
          s ← st_lift (soa_rr zone);
          mret (with_authority [s] c, RcodeNameError)
      | (location, _) =>
          p ← LoadLocation (CacheTimeout h) location zone;
          match p with
          | None => mret (c, RcodeServerFailure)
          | Some p =>
              r ← load p;
              let rs := r_RRSets r in
              let qtype := req_QType (c_Req c) in
              match (if qtype =? TypeCNAME then None else rs_CNAME rs) with
              | Some cname =>
                  if negb (CnameFlattening (z_Config zone)) then
                    resolveLoop steps' raw zoneName zone
                      (with_answer (c_Answer c ++ h_CNAME (MaxTtl h) currentQName rs) c)
                      (dns_Fqdn (cname_Host cname))
                  else
                    tz ← h_FindZone (cname_Host cname);
                    if negb (String.eqb tz zoneName) then
                      mret (with_answer (c_Answer c ++ h_CNAME (MaxTtl h) raw rs) c, RcodeSuccess)
                    else resolveLoop steps' raw zoneName zone c (dns_Fqdn (cname_Host cname))
              | None =>
                  if (0 <? length (ns_Data (rs_NS rs)))%nat && negb (String.eqb currentQName (z_Name zone)) then
                    gl ← mapM (glue (c_SourceIp c) zone) (ns_Data (rs_NS rs));
                    mret (with_additional (c_Additional c ++ concat gl)
                            (with_authority (c_Authority c ++ h_NS (MaxTtl h) currentQName rs) c), RcodeSuccess)
                  else
                    let name := if CnameFlattening (z_Config zone) then raw else currentQName in
                    a ← answerFor qtype (c_SourceIp c) name zone p;
                    match a with
                    | None =>
                        s ← st_lift (soa_rr zone);
                        mret (with_authority [s] (with_answer [] c), RcodeNotImplemented)
                    | Some (answer, res) =>
                        let c := with_answer (c_Answer c ++ answer) c in
                        if (length answer =? 0)%nat && (res =? RcodeSuccess) then
                          s ← st_lift (soa_rr zone);
                          mret (with_authority [s] c, res)
                        else mret (c, res)
                    end
              end
          end
      end
  end.

(** The DNSSEC part: an NSEC record for a negative answer, and the signatures. *)
Definition secure (raw : string) (zone : Zone) (c : RequestContext) (res : Z) : M (RequestContext * Z) :=
  if req_Do (c_Req c) && c_Auth c && DnsSec (z_Config zone) then
    '(c, res) ←
      (if res =? RcodeSuccess then
         if (length (c_Answer c) =? 0)%nat then
           nsec ← st_lift (NSec raw zone); mret (with_authority (c_Authority c ++ [nsec]) c, res)
         else mret (c, res)
       else if res =? RcodeNameError then
         nsec ← st_lift (NSec raw zone); mret (with_authority (c_Authority c ++ [nsec]) c, RcodeSuccess)
       else mret (c, res));
    an ← Sign (c_Answer c) raw zone;
    au ← Sign (c_Authority c) raw zone;
    ad ← Sign (c_Additional c) raw zone;
    mret (with_additional ad (with_authority au (with_answer an c)), res)
  else mret (c, res).

Definition logSource (c : RequestContext) : M RequestContext :=
  if LogSourceLocation h then
    let '(country, _) := GetCountry (geoip h) (c_SourceIp c) in
    '(asn, _) ← st_lift (GetASN (geoip h) (c_SourceIp c));
    mret (with_log (<["source_asn" := LvUint asn]> (<["source_country" := LvStr country]> (c_LogData c))) c)
  else mret c.

(** The name is asked for many times in the code; [RawName_memo]. *)
Definition HandleRequest (c : RequestContext) : M unit :=
  c ← logSource c;
  let '(raw, c) := RawName c in
  zoneName ← h_FindZone raw;
  if String.eqb zoneName "" then h_Response c RcodeNotAuth
  else
    zone ← LoadZone (CacheTimeout h) zoneName;
    match zone with
    | None => h_Response c RcodeServerFailure
    | Some zone =>
        let c := with_log (<["domain_uuid" := LvStr (DomainId (z_Config zone))]> (c_LogData c)) c in
        '(c, res) ← resolveLoop 11 raw zoneName zone c raw;
        '(c, res) ← secure raw zone c res;
        h_Response c res
    end.

(** ** [handleRequest] of redins.go *)

(** The readings [CanHandle] takes of the clock are the next four. *)
Definition handleRequest (l : RateLimiter) (w : Writer) (r : option Msg) : M RateLimiter :=
  c ← NewRequestContext w r;
  t ← tick; tick;; tick;; tick;;
  let '(ok, l) := CanHandle (fun i => env_now (t + i)%nat) l (req_IP w) in
  (if ok : bool then HandleRequest c else Response c RcodeRefused);;
  mret l.
End Handler.
