(* ===== verification/HandlerFacts.v ===== *)
(** Properties of request handling that hold in every environment: termination,
    one reply per request, and what every reply looks like. *)
From S2P Require Import Prelude GoStrings DnsTypes GoCache Monad Rely ZoneIndex Zone OrderIps GeoIp Limiter Deps World Answers Sample Dnssec Upstream Health Request Loader Handler.
From Stdlib Require Import Ascii.

(** ** The search for a CAA record terminates *)

Lemma splitQuery_dots q ce ss ok :
  splitQuery q = (ce, ss, ok) ->
  (count_byte dot ss <= count_byte dot q)%nat /\ (count_byte dot ce <= count_byte dot q)%nat.
Proof.
  unfold splitQuery, SplitAfterN2. destruct (String.eqb q ""); [intros [= <- <- <-]; simpl; lia|].
  destruct (cut_after dot q) as [[a b]|] eqn:Ec; intros [= <- <- <-]; [|simpl; lia].
  apply cut_after_count in Ec. simpl. lia.
Qed.

Lemma findLoop_dots fuel z ce ss ok n s m :
  (count_byte dot ss <= n)%nat -> (count_byte dot ce <= n)%nat ->
  findLoop fuel z ce ss ok = Some (s, m) -> (count_byte dot s <= n)%nat.
Proof.
  revert ce ss ok. induction fuel as [|fuel IH]; intros ce ss ok Hs Hc; simpl; [done|].
  destruct ok; [|intros [= <- _]; simpl; lia].
  destruct (keyMatches z ce || keyExists z ce).
  - destruct (keyExists z ss); intros [= <- _]; simpl; lia.
  - destruct (splitQuery ce) as [[ce' ss'] ok'] eqn:Es. apply splitQuery_dots in Es as [H1 H2].
    apply IH; lia.
Qed.

(** A lookup returns a location with no more dots than the name. *)
Lemma FindLocation_dots z q : (count_byte dot (fst (FindLocation z q)) <= count_byte dot q)%nat.
Proof.
  unfold FindLocation. destruct (String.eqb_spec q (z_Name z)); [done|].
  set (q' := TrimSuffix q ("." +:+ z_Name z)).
  assert (count_byte dot q' <= count_byte dot q)%nat as Hq'.
  { unfold q'. destruct (TrimSuffix_cases q ("." +:+ z_Name z)) as [(p & E & ->)|[_ ->]]; [|done].
    rewrite E, count_byte_app. lia. }
  destruct (keyExists z q'); [done|].
  destruct (splitQuery q') as [[ce ss] ok] eqn:Es. apply splitQuery_dots in Es as [H1 H2].
  destruct (findLoop _ z ce ss ok) as [[s m]|] eqn:Ef; [|simpl; lia].
  apply (findLoop_dots _ _ _ _ _ (count_byte dot q')) in Ef; simpl; lia.
Qed.

(** ** Quiet components *)

Section Quiet.
Context {L : Libs} {E : Env} (h : DnsRequestHandler).
Implicit Types (w : World).

Lemma quiet_fetchLocation to key location z : is_quiet (fetchLocation to key location z).
Proof. unfold fetchLocation. quiet. Qed.

Lemma quiet_LoadLocation to location z : is_quiet (LoadLocation to location z).
Proof. unfold LoadLocation, refreshLocation. quiet; apply quiet_fetchLocation. Qed.

Lemma quiet_h_FindZone q : is_quiet (h_FindZone q).
Proof. unfold h_FindZone. quiet. Qed.

Lemma sameFilter_total {K} `{!EqDecision K} (keys : IP_RR -> list K) zero src ips mask :
  sameFilter keys zero src ips mask <> Diverge.
Proof.
  assert (forall src ips mask, keepSame keys src ips mask <> Diverge) as H1.
  { clear. intros src ips mask. revert ips. induction mask as [|x mask IH]; intros ips; [done|]. simpl.
    specialize (IH (tail ips)). destruct x, ips as [|d ips]; try done; simpl in *;
      destruct (keepSame _ _ _ mask) as [[]| |]; try done; simpl; by case_match. }
  assert (forall ips mask, keepAny keys zero ips mask <> Diverge) as H2.
  { clear. intros ips mask. revert ips. induction mask as [|x mask IH]; intros ips; [done|]. simpl.
    specialize (IH (tail ips)). destruct x, ips as [|d ips]; try done; simpl in *;
      destruct (keepAny _ _ _ mask) as [| |]; try done; simpl; by case_match. }
  unfold sameFilter. case_bool_decide; simpl; [apply H2|].
  specialize (H1 src ips mask). destruct (keepSame _ _ _ _) as [[m p]| |]; try done. simpl. case_match; [done|apply H2].
Qed.

(** The geo filters and the ordering do not loop. *)

Lemma GetSameCountry_total g ip ips mask : GetSameCountry g ip ips mask <> Diverge.
Proof. unfold GetSameCountry. repeat case_match; try done. apply sameFilter_total. Qed.

Lemma GetSameASN_total g ip ips mask : GetSameASN g ip ips mask <> Diverge.
Proof.
  unfold GetSameASN, GetASN. case_match; [done|].
  destruct (Lookup_asn _ _) as [[a|]|]; try done; simpl. apply sameFilter_total.
Qed.

Lemma GetMinimumDistance_total g ip ips mask : GetMinimumDistance g ip ips mask <> Diverge.
Proof.
  assert (forall slat slong ips mask mn ds, distances g slat slong ips mask mn ds <> Diverge) as H1.
  { clear. intros slat slong ips mask. revert ips. induction mask as [|x mask IH]; intros ips mn ds; [done|]. simpl.
    destruct x, ips as [|d ips]; try done; try apply IH. destruct (GetCoordinates g (ip_Ip d)) as [[? ?] ?]. apply IH. }
  assert (forall mn ds i mask, keepNearest mn ds i mask <> Diverge) as H2.
  { clear. intros mn ds i mask. revert i. induction mask as [|x mask IH]; intros i; [done|]. simpl.
    specialize (IH (S i)). destruct x; try (destruct (ds !! i); [|done]);
      destruct (keepNearest _ _ _ mask) as [[]| |]; try done; simpl; by case_match. }
  unfold GetMinimumDistance. case_match; [done|]. destruct (GetCoordinates g ip) as [[slat slong] err].
  destruct err; [done|]. specialize (H1 slat slong ips mask f1000 []).
  destruct (distances _ _ _ _ _ _ _) as [[mn ds]| |]; try done. simpl. specialize (H2 mn ds 0%nat mask).
  by destruct (keepNearest _ _ _ _) as [[m p]| |].
Qed.

Lemma OrderIps_total ns rrset mask : OrderIps ns rrset mask <> Diverge.
Proof.
  assert (forall data mask c s, tally data mask c s <> Diverge) as H1.
  { clear. intros data mask. revert data. induction mask as [|x mask IH]; intros data c s; [done|].
    simpl. destruct x, data; try done; apply IH. }
  unfold OrderIps. specialize (H1 (ip_Data rrset) mask 0 0).
  destruct (tally _ _ _ _) as [[c s]| |]; try done. simpl. repeat case_match; done.
Qed.

Lemma quiet_Filter name ip rrset : is_quiet (Filter h name ip rrset).
Proof.
  unfold Filter. apply quiet_bind; [apply quiet_FilterHealthcheck|intros mask].
  apply quiet_bind; [apply quiet_lift|intros mask'].
  - repeat case_match; try done; auto using GetSameASN_total, GetSameCountry_total, GetMinimumDistance_total.
    pose proof (GetSameASN_total (geoip h) ip (ip_Data rrset) mask).
    destruct (GetSameASN _ _ _ _); try done. apply GetSameCountry_total.
  - apply quiet_bind; [auto with redins|intros n]. apply quiet_lift, OrderIps_total.
Qed.

Lemma quiet_caaLoop fuel z r location :
  (count_byte dot location < fuel)%nat -> is_quiet (caaLoop h fuel z r location).
Proof.
  revert r location. induction fuel as [|fuel IH]; intros r location Hf; [lia|]. simpl.
  destruct (negb _); [quiet|]. unfold SplitAfterN2.
  destruct (cut_after dot location) as [[a b]|] eqn:Ec; [|quiet].
  apply cut_after_count in Ec. pose proof (FindLocation_dots z b) as Hd.
  destruct (FindLocation z b) as [loc m]. simpl in Hd.
  destruct m; quiet; try apply quiet_LoadLocation; apply IH; lia.
Qed.

Lemma quiet_FindCAA r : is_quiet (FindCAA h r).
Proof. unfold FindCAA. quiet; try apply quiet_LoadLocation. apply quiet_caaLoop. lia. Qed.

Lemma quiet_glue ip z host : is_quiet (glue h ip z host).
Proof. unfold glue. quiet; (apply quiet_LoadLocation || apply quiet_Filter). Qed.
End Quiet.

(** ** Zones are loaded well-formed *)

(** What [LoadZone] guarantees of a zone: an SOA record, and with DnsSec on both
    keys and the signature of the key set. *)
Definition zone_ok (z : Zone) : Prop :=
  (exists soa hd d, cfg_SOA (z_Config z) = Some soa /\ ss_Data soa = Some (mkRR hd (DSOA d))) /\
  (DnsSec (z_Config z) = true ->
     is_Some (z_ZSK z) /\ is_Some (z_KSK z) /\ exists hd sig, z_DnsKeySig z = Some (mkRR hd (DRRSIG sig))).

Section Safe.
Context {L : Libs} {E : Env}.
Implicit Types (w : World).

Definition zones_ok w : Prop := map_Forall (fun _ z => zone_ok z) (w_ZoneCache w).

(** What a call under singleflight returns: for a zone, one that satisfies [P]. *)
Definition zone_result (P : Zone -> Prop) (g : InflightGroup) : Val inflight g -> Prop :=
  match g with
  | ZoneInflight => fun o => forall z, o = Some z -> P z
  | _ => fun _ => True
  end.

(** All goroutines keep the zone cache well-formed; this one writes and logs
    nothing. *)
Definition safely : Discipline inflight World :=
  mkDiscipline zones_ok (fun _ _ => True)
    (fun w w' => w_events w' = w_events w /\ w_logQueue w' = w_logQueue w)
    (fun (g : Group inflight) _ v _ => zone_result zone_ok g v) True.

#[global] Instance safely_lawful : Lawful safely.
Proof. split; [by split| |done|done]. split; [done|]. intros w1 w2 w3 [] []. split; congruence. Qed.
#[global] Instance safely_silent : Silent w_events safely.
Proof. by intros w w' [? _]. Qed.

(** [m] terminates, whatever others do in between; unless it panics, it writes
    and logs nothing, keeps the zone cache well-formed, and its result satisfies
    [Q]. *)
Definition safe {A} (m : M A) (Q : A -> Prop) : Prop :=
  forall w, silently w_events safely m (fun a _ => Q a) w.

Lemma wp_safe {A} (m : M A) Q (R : A -> World -> Prop) w :
  safe m Q -> zones_ok w ->
  (forall a w', w_events w' = w_events w /\ w_logQueue w' = w_logQueue w -> zones_ok w' -> Q a -> R a w') ->
  wp True m R w.
Proof.
  intros Hm Hw HR. pose proof (rg_run w_events safely m _ [] w (Hm w []) Hw) as H.
  unfold wp. destruct (run m w) as [[a w']| |]; [|done|done]. destruct H as (? & ? & τ & _ & ?). auto.
Qed.

Lemma safe_ret {A} (a : A) (Q : A -> Prop) : Q a -> safe (mret a) Q.
Proof. intros H w. by apply silently_ret. Qed.

Lemma safe_bind {A B} (m : M A) (f : A -> M B) Q R :
  safe m Q -> (forall a, Q a -> safe (f a) R) -> safe (m ≫= f) R.
Proof. intros Hm Hf w. eapply silently_bind; [tc_solve|apply Hm|]. intros a w' _ Ha. by apply Hf. Qed.

Lemma safe_mono {A} (m : M A) (Q R : A -> Prop) : safe m Q -> (forall a, Q a -> R a) -> safe m R.
Proof. intros Hm HQ w. eapply silently_mono; [|apply Hm]. auto. Qed.

Lemma safe_quiet {A} (m : M A) : is_quiet m -> safe m (fun _ => True).
Proof.
  intros Hm w. eapply silently_weaken; [|by apply (Hm (fun g _ => zone_result zone_ok g))].
  split; try done. intros w1 w2 H1 (He & Hl & Hz) _. split; [|done]. unfold safely, zones_ok in *. simpl in *. by rewrite Hz.
Qed.

Lemma safe_bind_quiet {A B} (m : M A) (f : A -> M B) R :
  is_quiet m -> (forall a, safe (f a) R) -> safe (m ≫= f) R.
Proof. intros Hm Hf. eapply safe_bind; [by apply safe_quiet|]. auto. Qed.

Lemma safe_lift {A} (o : Outcome A) (Q : A -> Prop) :
  o <> Diverge -> (forall a, o = Done a -> Q a) -> safe (st_lift o) Q.
Proof. intros Ho HQ w. apply silently_lift; [tc_solve..|]. destruct o; [auto|done|done]. Qed.

Lemma safe_panic {A} (Q : A -> Prop) : safe (st_panic : M A) Q.
Proof. intros w. by apply silently_atom; [tc_solve..|]. Qed.

Lemma safe_mapM {A B} (f : A -> M B) (Q : B -> Prop) l :
  (forall a, safe (f a) Q) -> safe (mapM f l) (Forall Q).
Proof. intros Hf w. apply silently_mapM; [tc_solve|]. intros a w'. apply Hf. Qed.

Lemma safe_Do_zone key body :
  flat body -> safe body (fun o => forall z, o = Some z -> zone_ok z) ->
  safe (inflight_Do ZoneInflight key body) (fun o => forall z, o = Some z -> zone_ok z).
Proof. intros Hf Hb w. by apply (silently_flight w_events safely (ZoneInflight : Group inflight)). Qed.

(** *** [NewZone] and [LoadZoneKeys] *)

Lemma sign_no_diverge rrs name key ttl : sign rrs name key ttl <> Diverge.
Proof. unfold sign. repeat case_match; done. Qed.

Lemma sign_rrsig rrs name key ttl r :
  sign rrs name key ttl = Done (Some r) -> exists hd s, r = mkRR hd (DRRSIG s).
Proof.
  unfold sign. intros H. repeat (case_match; simplify_eq/=; eauto); injection H as <-; eauto.
Qed.

Lemma NewZone_ok name locations config :
  safe (NewZone name locations config) (fun z =>
    z_Name z = name /\ z_Locations z = list_to_set locations /\
    (exists soa hd d, cfg_SOA (z_Config z) = Some soa /\ ss_Data soa = Some (mkRR hd (DSOA d)))).
Proof.
  unfold NewZone. apply safe_bind_quiet; [auto with redins|]. intros serial.
  destruct (cfg_SOA _); [|apply safe_panic]. apply safe_ret. simpl. split; [done|]. split; [done|]. eauto 6.
Qed.

Lemma quiet_loadKey pub priv : is_quiet (loadKey pub priv).
Proof. unfold loadKey. quiet. Qed.

Lemma LoadZoneKeys_ok z :
  (exists soa hd d, cfg_SOA (z_Config z) = Some soa /\ ss_Data soa = Some (mkRR hd (DSOA d))) ->
  safe (LoadZoneKeys z) zone_ok.
Proof.
  intros Hsoa. unfold LoadZoneKeys. destruct (DnsSec (z_Config z)) eqn:Hd; cbn [negb].
  2:{ apply safe_ret. split; [done|]. by rewrite Hd. }
  apply safe_bind_quiet; [apply quiet_loadKey|]. intros [zsk|]; [|by apply safe_ret].
  apply safe_bind_quiet; [apply quiet_loadKey|]. intros [ksk|]; [|by apply safe_ret].
  eapply safe_bind.
  - apply (safe_lift _ (fun o => forall r, o = Some r -> exists hd s, r = mkRR hd (DRRSIG s))).
    + apply sign_no_diverge.
    + intros o Ho r ->. by eapply sign_rrsig.
  - intros [rrsig|] Hr; apply safe_ret; [|done]. split; [done|]. intros _. simpl.
    split; [eauto|]. split; [eauto|]. destruct (Hr rrsig eq_refl) as (hd & s & ->). eauto.
Qed.

(** *** [LoadZone] *)

Lemma zone_ok_timeout t z : zone_ok z -> zone_ok (with_timeout t z).
Proof. done. Qed.

Lemma safe_ZoneCache_Get k :
  safe (ZoneCache_Get k) (fun o => forall z, o = Some z -> zone_ok z).
Proof.
  intros w. apply silently_atom; [tc_solve..|]. intros w' _ Hw. split_and!; try done.
  intros w'' _ _ z Hz. destruct (env_keeps _ _); [|done]. by apply (Hw k).
Qed.

Lemma safe_ZoneCache_Set k z : zone_ok z -> safe (ZoneCache_Set k z) (fun _ => True).
Proof.
  intros Hz w. apply silently_atom; [tc_solve..|]. intros w' _ Hw. split_and!; try done.
  unfold safely, zones_ok. simpl. by apply map_Forall_insert_2.
Qed.

Lemma safe_LoadZone to zone : safe (LoadZone to zone) (fun o => forall z, o = Some z -> zone_ok z).
Proof.
  assert (safe (fetchZone to zone) (fun o => forall z, o = Some z -> zone_ok z)) as Hfetch.
  { unfold fetchZone. apply safe_bind_quiet; [auto with redins|]. intros [locs [e|]]; [by apply safe_ret|].
    apply safe_bind_quiet; [auto with redins|]. intros [config e].
    eapply safe_bind; [apply NewZone_ok|]. intros z (_ & _ & Hsoa).
    eapply safe_bind; [by apply LoadZoneKeys_ok|]. intros z' Hz'.
    apply safe_bind_quiet; [auto with redins|]. intros n.
    eapply safe_bind; [by apply safe_ZoneCache_Set|]. intros _ _. apply safe_ret. by intros z'' [= <-]. }
  assert (forall stale, (forall z, stale = Some z -> zone_ok z) ->
    safe (refreshZone to zone stale) (fun o => forall z, o = Some z -> zone_ok z)) as Href.
  { intros stale Hs. unfold refreshZone. eapply safe_bind; [apply safe_Do_zone; [auto with redins|done]|]. intros [z|] Hz; by apply safe_ret. }
  unfold LoadZone. eapply safe_bind; [apply safe_ZoneCache_Get|]. intros [z|] Hz; [|by apply Href].
  apply safe_bind_quiet; [auto with redins|]. intros n. case_match; [by apply safe_ret|by apply Href].
Qed.
End Safe.

(** ** What the sections of a reply contain *)

(** A record is either built from stored data, with its TTL capped, or one of the
    zone's own SOA, DNSKEY, NSEC and RRSIG records. *)
Definition zone_data (d : RRData) : bool :=
  match d with DSOA _ | DDNSKEY _ | DRRSIG _ | DNSEC _ _ => true | _ => false end.
Definition sec_ok (MaxTtl : Z) (r : RR) : Prop :=
  (exists n t, built MaxTtl n t r) \/ zone_data (rrData r) = true.

Definition handler_rcodes : list Z :=
  [RcodeSuccess; RcodeServerFailure; RcodeNameError; RcodeNotImplemented; RcodeNotAuth].

Section Sections.
Context {L : Libs} {E : Env} (h : DnsRequestHandler).

Definition ctx_ok (c : RequestContext) : Prop :=
  Forall (sec_ok (MaxTtl h)) (c_Answer c) /\ Forall (sec_ok (MaxTtl h)) (c_Authority c) /\
  Forall (sec_ok (MaxTtl h)) (c_Additional c).
(** The context of the same request: [same_client] up to its log data. *)
Definition same_client (c c' : RequestContext) : Prop :=
  c_Req c' = c_Req c /\ c_W c' = c_W c /\ c_Auth c' = c_Auth c.
Definition same_context (c c' : RequestContext) : Prop :=
  same_client c c' /\ c_LogData c' = c_LogData c.

Lemma same_client_trans c1 c2 c3 : same_client c1 c2 -> same_client c2 c3 -> same_client c1 c3.
Proof. intros (? & ? & ?) (? & ? & ?). split_and!; congruence. Qed.

Lemma built_sec_ok n t l : Forall (built (MaxTtl h) n t) l -> Forall (sec_ok (MaxTtl h)) l.
Proof. intros H. eapply Forall_impl; [done|]. intros r Hr. left. eauto. Qed.

Lemma soa_rr_ok z :
  zone_ok z -> soa_rr z <> Diverge /\ forall r, soa_rr z = Done r -> sec_ok (MaxTtl h) r.
Proof.
  intros [(soa & hd & d & Hs & Hd) _]. unfold soa_rr. rewrite Hs, Hd. split; [done|]. intros r [= <-]. by right.
Qed.

Lemma safe_soa z : zone_ok z -> safe (st_lift (soa_rr z)) (sec_ok (MaxTtl h)).
Proof. intros [? ?]%soa_rr_ok. by apply safe_lift. Qed.

Lemma safe_anameLoop steps ip qtype q :
  safe (anameLoop h steps ip qtype q) (fun '(_, res, _) => res = RcodeSuccess \/ res = RcodeServerFailure).
Proof.
  revert q. induction steps as [|steps IH]; intros q; [apply safe_ret; by right|]. simpl.
  apply safe_bind_quiet; [apply quiet_h_FindZone|]. intros zn. case_match.
  - apply safe_bind_quiet; [apply quiet_Query|]. intros [ans res].
    destruct (Z.eqb_spec res RcodeSuccess); apply safe_ret; auto.
  - eapply safe_bind; [apply safe_LoadZone|]. intros [zone|] _; [|apply safe_ret; by right].
    destruct (FindLocation zone q) as [loc m]. case_match; [apply safe_ret; by right|].
    apply safe_bind_quiet; [apply quiet_LoadLocation|]. intros [p|]; [|apply safe_ret; by right].
    apply safe_bind_quiet; [auto with redins|]. intros r.
    repeat case_match; try apply IH; try (apply safe_ret; by left).
    all: apply safe_bind_quiet; [apply quiet_Filter|]; intros ips; apply safe_ret; by left.
Qed.

Definition answer_ok (o : list RR * Z) : Prop :=
  Forall (sec_ok (MaxTtl h)) o.1 /\ (o.2 = RcodeSuccess \/ o.2 = RcodeServerFailure).

Lemma safe_answerA ip name p : safe (answerA h ip name p) answer_ok.
Proof.
  unfold answerA. apply safe_bind_quiet; [auto with redins|]. intros r.
  assert (safe (ips ← Filter h (r_Name r) ip (rs_A (r_RRSets r));
                mret (h_A (MaxTtl h) name (r_RRSets r) ips, RcodeSuccess)) answer_ok) as Hf.
  { apply safe_bind_quiet; [apply quiet_Filter|]. intros ips. apply safe_ret.
    split; [eapply built_sec_ok, h_A_built|by left]. }
  repeat case_match; try done. eapply safe_bind; [apply safe_anameLoop|]. intros [[ips res] ttl] Hres.
  apply safe_bind_quiet; [auto with redins|]. intros []. apply safe_bind_quiet; [auto with redins|]. intros r'.
  apply safe_ret. split; [eapply built_sec_ok, h_A_built|done].
Qed.

Lemma safe_answerAAAA ip name p : safe (answerAAAA h ip name p) answer_ok.
Proof.
  unfold answerAAAA. apply safe_bind_quiet; [auto with redins|]. intros r.
  assert (safe (ips ← Filter h (r_Name r) ip (rs_AAAA (r_RRSets r));
                mret (h_AAAA (MaxTtl h) name (r_RRSets r) ips, RcodeSuccess)) answer_ok) as Hf.
  { apply safe_bind_quiet; [apply quiet_Filter|]. intros ips. apply safe_ret.
    split; [eapply built_sec_ok, h_AAAA_built|by left]. }
  repeat case_match; try done. eapply safe_bind; [apply safe_anameLoop|]. intros [[ips res] ttl] Hres.
  apply safe_bind_quiet; [auto with redins|]. intros []. apply safe_bind_quiet; [auto with redins|]. intros r'.
  apply safe_ret. split; [eapply built_sec_ok, h_AAAA_built|done].
Qed.

Lemma safe_answerFor qtype ip name zone p :
  zone_ok zone -> safe (answerFor h qtype ip name zone p) (fun o => forall a, o = Some a -> answer_ok a).
Proof.
  intros Hz. unfold answerFor. apply safe_bind_quiet; [auto with redins|]. intros r.
  assert (forall l, Forall (sec_ok (MaxTtl h)) l ->
    safe (mret (Some (l, RcodeSuccess)) : M _) (fun o => forall a, o = Some a -> answer_ok a)) as Hok.
  { intros l Hl. apply safe_ret. intros a [= <-]. split; [done|by left]. }
  assert (forall n t l, Forall (built (MaxTtl h) n t) l ->
    safe (mret (Some (l, RcodeSuccess)) : M _) (fun o => forall a, o = Some a -> answer_ok a)) as Hb.
  { intros n t l Hl. by eapply Hok, built_sec_ok. }
  case_match.
  { eapply safe_bind; [apply safe_answerA|]. intros a Ha. apply safe_ret. by intros a' [= <-]. }
  case_match.
  { eapply safe_bind; [apply safe_answerAAAA|]. intros a Ha. apply safe_ret. by intros a' [= <-]. }
  case_match; [eapply Hb, h_CNAME_built|].
  case_match.
  { destruct (h_TXT_built (MaxTtl h) name (r_RRSets r)) as (l & El & Hl).
    eapply safe_bind; [apply (safe_lift _ (fun l' => l' = l)); rewrite El; congruence|].
    intros l' ->. by eapply Hb. }
  case_match; [eapply Hb, h_NS_built|]. case_match; [eapply Hb, h_MX_built|].
  case_match; [eapply Hb, h_SRV_built|].
  case_match.
  { apply safe_bind_quiet; [apply quiet_FindCAA|]. intros [r'|]; [eapply Hb, h_CAA_built|apply Hok; constructor]. }
  case_match; [eapply Hb, h_PTR_built|]. case_match; [eapply Hb, h_TLSA_built|].
  case_match.
  { eapply safe_bind; [by apply safe_soa|]. intros s Hs. apply Hok. by constructor. }
  case_match; [|by apply safe_ret].
  eapply safe_bind; [apply (safe_lift _ (Forall (sec_ok (MaxTtl h))))|by apply Hok].
  - unfold answerDNSKEY. repeat case_match; done.
  - unfold answerDNSKEY. intros l Hl. repeat case_match; try done; injection Hl as <-; repeat constructor; by right.
Qed.

Lemma safe_glue ip z host : safe (glue h ip z host) (Forall (sec_ok (MaxTtl h))).
Proof.
  unfold glue. repeat case_match; try (apply safe_ret; constructor).
  all: apply safe_bind_quiet; [apply quiet_LoadLocation|]; intros [p|]; [|apply safe_ret; constructor].
  all: apply safe_bind_quiet; [auto with redins|]; intros r.
  all: apply safe_bind_quiet; [apply quiet_Filter|]; intros ips.
  all: apply safe_bind_quiet; [apply quiet_Filter|]; intros ips6; apply safe_ret.
  all: apply Forall_app; split; eapply built_sec_ok; [apply h_A_built|apply h_AAAA_built].
Qed.

(** What the loop and the DNSSEC part return. *)
Definition resolved (c : RequestContext) (o : RequestContext * Z) : Prop :=
  ctx_ok o.1 /\ same_context c o.1 /\
  o.2 ∈ [RcodeSuccess; RcodeServerFailure; RcodeNameError; RcodeNotImplemented].

Lemma ctx_ok_answer c l : ctx_ok c -> Forall (sec_ok (MaxTtl h)) l -> ctx_ok (with_answer l c).
Proof. intros (? & ? & ?) ?. by split_and!. Qed.
Lemma ctx_ok_authority c l : ctx_ok c -> Forall (sec_ok (MaxTtl h)) l -> ctx_ok (with_authority l c).
Proof. intros (? & ? & ?) ?. by split_and!. Qed.
Lemma ctx_ok_additional c l : ctx_ok c -> Forall (sec_ok (MaxTtl h)) l -> ctx_ok (with_additional l c).
Proof. intros (? & ? & ?) ?. by split_and!. Qed.

Lemma safe_done c c' res :
  ctx_ok c' -> same_context c c' ->
  res ∈ [RcodeSuccess; RcodeServerFailure; RcodeNameError; RcodeNotImplemented] ->
  safe (mret (c', res) : M _) (resolved c).
Proof. intros. by apply safe_ret. Qed.

(** The two branches of the loop: follow a CNAME, or end at a location. *)
Lemma safe_chain steps raw zn zone c q rs cname :
  zone_ok zone -> ctx_ok c ->
  (forall c' q', ctx_ok c' -> safe (resolveLoop h steps raw zn zone c' q') (resolved c')) ->
  safe (if negb (CnameFlattening (z_Config zone)) then
          resolveLoop h steps raw zn zone (with_answer (c_Answer c ++ h_CNAME (MaxTtl h) q rs) c)
            (dns_Fqdn (cname_Host cname))
        else
          tz ← h_FindZone (cname_Host cname);
          if negb (String.eqb tz zn) then
            mret (with_answer (c_Answer c ++ h_CNAME (MaxTtl h) raw rs) c, RcodeSuccess)
          else resolveLoop h steps raw zn zone c (dns_Fqdn (cname_Host cname))) (resolved c).
Proof.
  intros Hz Hc IH.
  assert (forall n, ctx_ok (with_answer (c_Answer c ++ h_CNAME (MaxTtl h) n rs) c)) as Ha.
  { intros n. apply ctx_ok_answer; [done|]. apply Forall_app. split; [apply Hc|].
    eapply built_sec_ok, h_CNAME_built. }
  case_match.
  - eapply safe_mono; [by apply IH|]. intros [c' res] H'. exact H'.
  - apply safe_bind_quiet; [apply quiet_h_FindZone|]. intros tz. case_match; [|by apply IH].
    apply safe_done; [done|done|set_solver].
Qed.

Lemma safe_final raw zone c q rs p :
  zone_ok zone -> ctx_ok c ->
  safe (if (0 <? length (ns_Data (rs_NS rs)))%nat && negb (String.eqb q (z_Name zone)) then
          gl ← mapM (glue h (c_SourceIp c) zone) (ns_Data (rs_NS rs));
          mret (with_additional (c_Additional c ++ concat gl)
                  (with_authority (c_Authority c ++ h_NS (MaxTtl h) q rs) c), RcodeSuccess)
        else
          let name := if CnameFlattening (z_Config zone) then raw else q in
          a ← answerFor h (req_QType (c_Req c)) (c_SourceIp c) name zone p;
          match a with
          | None =>
              s ← st_lift (soa_rr zone);
              mret (with_authority [s] (with_answer [] c), RcodeNotImplemented)
          | Some (answer, res) =>
              let c := with_answer (c_Answer c ++ answer) c in
              if (length answer =? 0)%nat && (res =? RcodeSuccess) then
                s ← st_lift (soa_rr zone);
                mret (with_authority [s] c, res)
              else mret (c, res)
          end) (resolved c).
Proof.
  intros Hz Hc. case_match.
  - eapply safe_bind; [apply safe_mapM, safe_glue|]. intros gl Hgl. apply safe_done; [|done|set_solver].
    apply ctx_ok_additional; [apply ctx_ok_authority; [done|]|]; apply Forall_app; split; try apply Hc.
    + eapply built_sec_ok, h_NS_built.
    + by apply Forall_concat.
  - cbv zeta. eapply safe_bind; [by apply safe_answerFor|]. intros [[answer res]|] Ha.
    + destruct (Ha _ eq_refl) as [Hl Hres]. simpl in Hl, Hres.
      assert (ctx_ok (with_answer (c_Answer c ++ answer) c)) as Hca.
      { apply ctx_ok_answer; [done|]. apply Forall_app. split; [apply Hc|done]. }
      case_match.
      * eapply safe_bind; [by apply safe_soa|]. intros s Hs.
        apply safe_done; [by apply ctx_ok_authority; [|constructor]|done|set_solver].
      * apply safe_done; [done|done|set_solver].
    + eapply safe_bind; [by apply safe_soa|]. intros s Hs. apply safe_done; [|done|set_solver].
      apply ctx_ok_authority; [apply ctx_ok_answer; [done|constructor]|by constructor].
Qed.

Lemma safe_resolveLoop steps raw zn zone c q :
  zone_ok zone -> ctx_ok c -> safe (resolveLoop h steps raw zn zone c q) (resolved c).
Proof.
  intros Hz. revert c q. induction steps as [|steps IH]; intros c q Hc; simpl.
  { apply safe_done; [by apply ctx_ok_answer; [|constructor]|done|set_solver]. }
  apply safe_bind_quiet; [apply quiet_h_FindZone|]. intros zn'.
  case_match; [apply safe_done; [done|done|set_solver]|].
  destruct (FindLocation zone q) as [location m]. destruct m.
  3:{ eapply safe_bind; [by apply safe_soa|]. intros s Hs.
      apply safe_done; [by apply ctx_ok_authority; [|constructor]|done|set_solver]. }
  all: apply safe_bind_quiet; [apply quiet_LoadLocation|];
    intros [p|]; [|apply safe_done; [done|done|set_solver]].
  all: apply safe_bind_quiet; [auto with redins|]; intros r.
  all: destruct (if req_QType (c_Req c) =? TypeCNAME then None else rs_CNAME (r_RRSets r)) as [cname|];
    [by apply safe_chain|by apply safe_final].
Qed.

(** *** Signing keeps the sections well-formed *)

Lemma signSets_elem qname z sets res r :
  signSets qname z sets = Done res -> r ∈ res ->
  r ∈ concat sets \/ z_DnsKeySig z = Some r \/ zone_data (rrData r) = true.
Proof.
  revert res. induction sets as [|set sets IH]; intros res; simpl; [by intros [= <-] ?%elem_of_nil|].
  destruct (signSet qname z set) as [a| |] eqn:Ea; try done.
  destruct (signSets qname z sets) as [b| |] eqn:Eb; try done. intros [= <-]. rewrite !elem_of_app. intros [Hr|Hr].
  - unfold signSet in Ea. destruct set as [|r0 set]; [done|].
    destruct (_ || _); [injection Ea as <-; auto|]. destruct (_ =? TypeDNSKEY).
    + destruct (z_DnsKeySig z); [|done]. injection Ea as <-. set_solver.
    + destruct (sign _ _ _ _) as [[sig|]| |] eqn:Es; try done; injection Ea as <-; [|auto].
      apply sign_rrsig in Es as (hd & s & ->). rewrite app_comm_cons, elem_of_app in Hr.
      destruct Hr as [?| ->%list_elem_of_singleton]; [by auto|]. by right; right.
  - destruct (IH b eq_refl Hr) as [?|?]; [by left; right|auto].
Qed.

Lemma signSets_total qname z sets : signSets qname z sets <> Diverge.
Proof.
  induction sets as [|set sets IH]; simpl; [done|].
  assert (signSet qname z set <> Diverge) as Hs.
  { unfold signSet. destruct set as [|r0 set]; [done|]. destruct (_ || _); [done|].
    destruct (_ =? TypeDNSKEY); [by destruct (z_DnsKeySig z)|].
    pose proof (sign_no_diverge (r0 :: set) qname (z_ZSK z) (hTtl (rrHdr r0))). by destruct (sign _ _ _ _) as [[?|]| |]. }
  destruct (signSet _ _ _); try done. by destruct (signSets _ _ _).
Qed.

Lemma safe_Sign rrs qname z :
  zone_ok z -> DnsSec (z_Config z) = true -> Forall (sec_ok (MaxTtl h)) rrs ->
  safe (Sign rrs qname z) (Forall (sec_ok (MaxTtl h))).
Proof.
  intros [_ Hz] Hd Hr. destruct (Hz Hd) as (_ & _ & hd & sig & Hsig). unfold Sign.
  apply safe_bind_quiet; [auto with redins|]. intros t. apply safe_lift; [apply signSets_total|].
  intros res Hres. apply Forall_forall. intros r Hin. eapply signSets_elem in Hin as [Hin|[Hin|Hin]]; [| | |done].
  - rewrite env_range_perm, splitSets_concat in Hin. apply list_elem_of_filter in Hin as [_ Hin].
    by eapply Forall_forall in Hr.
  - rewrite Hsig in Hin. injection Hin as <-. by right.
  - by right.
Qed.

Lemma safe_secure raw zone c res :
  zone_ok zone -> resolved c (c, res) -> safe (secure raw zone c res) (resolved c).
Proof.
  intros Hz (Hc & _ & Hres). unfold secure. case_match; [|by apply safe_done].
  bool_to_prop. assert (forall n, safe (st_lift (NSec n zone)) (sec_ok (MaxTtl h))) as Hn.
  { intros n. apply safe_lift; unfold NSec; case_match; try done. intros r [= <-]. by right. }
  assert (forall (m : M (RequestContext * Z)), safe m (resolved c) ->
    safe ('(c, res) ← m; an ← Sign (c_Answer c) raw zone; au ← Sign (c_Authority c) raw zone;
          ad ← Sign (c_Additional c) raw zone;
          mret (with_additional ad (with_authority au (with_answer an c)), res)) (resolved c)) as Hsign.
  { intros m Hm. eapply safe_bind; [exact Hm|]. intros [c' res'] ((Ha & Hu & Hd) & Hs & Hr'). simpl in *.
    eapply safe_bind; [by apply safe_Sign|]. intros an Han. eapply safe_bind; [by apply safe_Sign|]. intros au Hau.
    eapply safe_bind; [by apply safe_Sign|]. intros ad Had. apply safe_done; [by split_and!|exact Hs|done]. }
  apply Hsign. simpl in *. repeat case_match; try (by apply safe_done).
  all: eapply safe_bind; [apply Hn|]; intros nsec Hns; apply safe_done; [|done|set_solver].
  all: apply ctx_ok_authority; [done|]; apply Forall_app; split; [apply Hc|by constructor].
Qed.

(** *** The whole request *)

Context {DL : DnsLibLaws lib_dns}.

(** [w'] is [w] after one reply [m] to the client of [c]. *)
Definition replied (c : RequestContext) (rc : Z) (w w' : World) : Prop :=
  exists m tl, reply_ok c rc m /\ (tl = [] \/ tl = [Closed (c_W c)]) /\
    w_events w' = w_events w ++
      Wrote (c_W c) (req_Scrub (c_W c) (c_Req c) (req_SizeAndDo (c_W c) (c_Req c) m)) :: tl.

(** [w'] has the entry for [c] in its log queue, unless the queue was full. *)
Definition logged (c : RequestContext) (rc : Z) (w w' : World) : Prop :=
  exists n ms, w_logQueue w' =
    let d := <["log_type" := LvStr "request"]> (<["response_code" := LvInt rc]>
               (<["process_time" := LvInt64 ms]> (c_LogData c))) in
    let q := drop n (w_logQueue w) in if (length q <? 1000)%nat then q ++ [d] else q.

Lemma h_Response_spec c rc r w :
  c_Req c = Some r -> zones_ok w ->
  wp True (h_Response c rc) (fun _ w' => replied c rc w w' /\ logged c rc w w' /\ zones_ok w') w.
Proof.
  intros Hr Hw. unfold h_Response. wstep. unfold LogRequest. do 5 wstep.
  eapply wp_weaken; [done|]. eapply wp_mono; [|by apply (Response_spec _ _ r)].
  intros [] w' (m & Hm & He & Hl & Hz). split_and!; [|eexists _, _; exact Hl|unfold zones_ok; by rewrite Hz].
  eexists m, _. split; [exact Hm|]. split; [|exact He]. destruct (env_write _); auto.
Qed.

(** The keys of the log data whose types [HandleRequest] fixes. *)
Definition log_typed (d : LogData) : Prop :=
  (exists s, d !! "domain_uuid" = Some (LvStr s)) /\ (exists s, d !! "record" = Some (LvStr s)) /\
  (exists s, d !! "type" = Some (LvStr s)) /\ (exists s, d !! "client_subnet" = Some (LvStr s)) /\
  (forall v, d !! "source_country" = Some v -> exists s, v = LvStr s) /\
  (forall v, d !! "source_asn" = Some v -> exists n, v = LvUint n).

Lemma log_typed_insert k v d :
  k ∉ ["domain_uuid"; "record"; "type"; "client_subnet"; "source_country"; "source_asn"] ->
  log_typed d -> log_typed (<[k := v]> d).
Proof. intros Hk. unfold log_typed. rewrite !lookup_insert_ne by set_solver. done. Qed.
Lemma log_typed_uuid s d : log_typed d -> log_typed (<["domain_uuid" := LvStr s]> d).
Proof. unfold log_typed. rewrite lookup_insert_eq, !lookup_insert_ne by done. naive_solver. Qed.
Lemma log_typed_source asn country d :
  log_typed d -> log_typed (<["source_asn" := LvUint asn]> (<["source_country" := LvStr country]> d)).
Proof.
  unfold log_typed. rewrite lookup_insert_eq, (lookup_insert_ne _ _ "source_country") by done.
  rewrite lookup_insert_eq, !lookup_insert_ne by done. naive_solver.
Qed.

Lemma safe_logSource c : safe (logSource h c) (fun c' =>
  same_client c c' /\ (log_typed (c_LogData c) -> log_typed (c_LogData c')) /\ c_Answer c' = c_Answer c /\ c_Authority c' = c_Authority c /\ c_Additional c' = c_Additional c).
Proof.
  unfold logSource. case_match; [|by apply safe_ret]. destruct (GetCountry _ _) as [country e].
  eapply safe_bind; [apply (safe_lift _ (fun _ => True)); [|done]|].
  - unfold GetASN. repeat case_match; done.
  - intros [asn e'] _. apply safe_ret. split; [done|]. split; [apply log_typed_source|done].
Qed.

Lemma RawName_client c : same_context c (snd (RawName c)) /\ c_Answer (snd (RawName c)) = c_Answer c /\
  c_Authority (snd (RawName c)) = c_Authority c /\ c_Additional (snd (RawName c)) = c_Additional c.
Proof. unfold RawName. by case_match. Qed.

Lemma HandleRequest_spec c r w :
  c_Req c = Some r -> ctx_ok c -> zones_ok w ->
  wp True (HandleRequest h c) (fun _ w' => exists c' rc,
    replied c' rc w w' /\ logged c' rc w w' /\ zones_ok w' /\ same_client c c' /\ ctx_ok c' /\
    rc ∈ handler_rcodes /\ (log_typed (c_LogData c) -> log_typed (c_LogData c'))) w.
Proof.
  intros Hr Hc Hw. unfold HandleRequest. wstep. eapply wp_safe; [apply safe_logSource|done|].
  intros c1 w1 [He1 Hq1] Hw1 (Hs1 & Hl1 & Ha1 & Hu1 & Hd1). destruct (RawName_client c1) as ([Hs2 Hl2] & Ha2 & Hu2 & Hd2).
  destruct (RawName c1) as [raw c2]. cbn [fst snd] in *. rewrite <- Hl2 in Hl1.
  assert (same_client c c2) as Hs by (by eapply same_client_trans).
  assert (ctx_ok c2) as Hc2 by (unfold ctx_ok in *; by rewrite Ha2, Hu2, Hd2, Ha1, Hu1, Hd1).
  assert (forall c' rc w', same_client c c' -> ctx_ok c' -> rc ∈ handler_rcodes ->
    (log_typed (c_LogData c) -> log_typed (c_LogData c')) ->
    w_events w' = w_events w -> w_logQueue w' = w_logQueue w -> zones_ok w' ->
    wp True (h_Response c' rc) (fun _ w'' => exists c' rc,
      replied c' rc w w'' /\ logged c' rc w w'' /\ zones_ok w'' /\ same_client c c' /\ ctx_ok c' /\
      rc ∈ handler_rcodes /\ (log_typed (c_LogData c) -> log_typed (c_LogData c'))) w') as Hresp.
  { intros c' rc w' Hs' Hc' Hrc Hl' Hev Hlq Hw'. eapply wp_mono; [|apply (h_Response_spec c' rc r)]; [| |done].
    - intros [] w'' (Hrep & Hlog & Hw''). exists c', rc. unfold replied, logged in *. by rewrite <- Hev, <- Hlq.
    - destruct Hs' as [-> _]. done. }
  wstep. eapply wp_safe; [apply safe_quiet, quiet_h_FindZone|done|]. intros zn w2 [He2 Hq2] Hw2 _.
  case_match; [apply Hresp; [done|done|set_solver|done|congruence|congruence|done]|].
  wstep. eapply wp_safe; [apply safe_LoadZone|done|]. intros [zone|] w3 [He3 Hq3] Hw3 Hz;
    [|apply Hresp; [done|done|set_solver|done|congruence|congruence|done]].
  set (c3 := with_log _ c2). assert (ctx_ok c3 /\ same_client c c3) as [Hc3 Hs3] by done.
  assert (log_typed (c_LogData c) -> log_typed (c_LogData c3)) as Hl3 by (intros; by apply log_typed_uuid, Hl1).
  wstep. eapply wp_safe; [apply (safe_resolveLoop _ raw zn zone c3); auto|done|].
  intros [c4 res] w4 [He4 Hq4] Hw4 (Hc4 & [Hs4 Hl4] & Hr4). cbn [fst snd] in *.
  wstep. eapply wp_safe; [apply (safe_secure raw zone c4 res); [auto|done]|done|].
  intros [c5 res'] w5 [He5 Hq5] Hw5 (Hc5 & [Hs5 Hl5] & Hr5). cbn [fst snd] in *.
  apply Hresp; [eauto using same_client_trans|done|set_solver|by rewrite Hl5, Hl4|congruence|congruence|done].
Qed.
End Sections.

(** ** Loading zones *)

Section LoadZoneFacts.
Context {L : Libs} {E : Env}.
Implicit Types (w : World).

Lemma LoadZoneKeys_data z :
  safe (LoadZoneKeys z) (fun z' => z_Name z' = z_Name z /\ z_Locations z' = z_Locations z).
Proof.
  unfold LoadZoneKeys. case_match; [by apply safe_ret|].
  apply safe_bind_quiet; [apply quiet_loadKey|]. intros [zsk|]; [|by apply safe_ret].
  apply safe_bind_quiet; [apply quiet_loadKey|]. intros [ksk|]; [|by apply safe_ret].
  eapply safe_bind; [apply (safe_lift _ (fun _ => True)); [apply sign_no_diverge|done]|].
  intros [rrsig|] _; by apply safe_ret.
Qed.

(** C27: zones are loaded well-formed.  Whatever the configuration and the keys in
    Redis, a zone that [LoadZone] returns has its SOA record, and if it still
    has DnsSec on, then both keys and the signature over the key set; the zones
    in the cache stay so. *)
Theorem LoadZone_wellformed to zn w :
  zones_ok w ->
  wp True (LoadZone to zn) (fun o w' =>
    zones_ok w' /\ match o with Some z => zone_ok z | None => True end) w.
Proof.
  intros Hw. eapply wp_safe; [apply safe_LoadZone|done|]. intros o w' _ Hw' Hz.
  split; [done|]. destruct o; auto.
Qed.

(** C28: refreshing a zone.  When the cached zone is missing or past its time,
    [LoadZone] asks Redis for the locations: if Redis answers, the result has
    exactly those locations, carries the zone's name and is cached; if Redis
    fails, the old zone, however old, is served and the cache stays as it is. *)
Theorem LoadZone_refresh to zn cached_z w :
  zones_ok w -> env_keeps (w_tick w) zn = true -> w_ZoneCache w !! zn = cached_z ->
  (forall z, cached_z = Some z -> z_CacheTimeout z < Unix (env_now (S (w_tick w)))) ->
  let t := match cached_z with Some _ => S (S (w_tick w)) | None => S (w_tick w) end in
  wp True (LoadZone to zn) (fun o w' =>
    match redis_GetHKeys (env_redis t (w_redis w)) ("redins:zones:" +:+ zn) with
    | (locs, None) => exists z, o = Some z /\ z_Name z = zn /\ z_Locations z = list_to_set locs /\
                        w_ZoneCache w' !! zn = Some z
    | (_, Some _) => o = cached_z /\ w_ZoneCache w' = w_ZoneCache w
    end) w.
Proof.
  intros Hw Hk Hc Hold t.
  assert (forall w0, zones_ok w0 -> w_tick w0 = t -> w_redis w0 = w_redis w -> w_ZoneCache w0 = w_ZoneCache w ->
    wp True (refreshZone to zn cached_z) (fun o w' =>
    match redis_GetHKeys (env_redis t (w_redis w)) ("redins:zones:" +:+ zn) with
    | (locs, None) => exists z, o = Some z /\ z_Name z = zn /\ z_Locations z = list_to_set locs /\
                        w_ZoneCache w' !! zn = Some z
    | (_, Some _) => o = cached_z /\ w_ZoneCache w' = w_ZoneCache w
    end) w0) as Href.
  { intros w0 Hw0 Ht Hr Hz. unfold refreshZone, fetchZone. do 4 wstep. rewrite Ht, Hr.
    destruct (redis_GetHKeys _ _) as [locs [e|]]; [do 2 wstep; done|].
    do 2 wstep. destruct (redis_Get _ _) as [config e]. wstep.
    eapply wp_safe; [apply NewZone_ok|done|]. intros z w1 _ Hw1 (Hn & Hl & _). wstep.
    eapply wp_safe; [apply LoadZoneKeys_data|done|]. intros z' w2 _ _ [Hn' Hl'].
    unfold ZoneCache_Set. do 6 wstep. eexists. split; [reflexivity|]. simpl.
    rewrite Hn', Hl', Hn, Hl. split; [done|]. split; [done|]. apply lookup_insert_eq. }
  unfold LoadZone, ZoneCache_Get. do 2 wstep. rewrite Hk. simpl w_ZoneCache. rewrite Hc.
  destruct cached_z as [z|].
  - do 2 wstep. simpl w_tick. rewrite (proj2 (Z.leb_gt _ _)) by (by apply Hold). by apply Href.
  - by apply Href.
Qed.

(** The search for CAA records terminates: climbing from any record of any
    zone towards the apex ends, whatever the lookups return on the way. *)
Theorem FindCAA_terminates h r w : FindCAA h r w <> Diverge.
Proof.
  pose proof (quiet_wp _ w (quiet_FindCAA h r)) as H. unfold wp in H. by destruct (FindCAA h r w).
Qed.
End LoadZoneFacts.

Lemma LoadZone_wellformed_witness :
  let L := sampleLibs (fun _ r => r) (fun _ c => mkZoneConfig "id" (cfg_SOA c) true false) in
  wp True (LoadZone (E := quietEnv L) 60 "example.com.")
    (fun o _ => match o with Some z => zone_ok z | None => True end)
    (sampleWorld _ _ emptyRedis ["example.com."]).
Proof.
  intros L. eapply wp_mono; [|apply (LoadZone_wellformed (E := quietEnv L)); apply map_Forall_empty].
  by intros o w' [_ H].
Defined.

Lemma LoadZone_refresh_witness :
  let L := sampleLibs (fun _ r => r) (fun _ c => c) in
  wp True (LoadZone (E := quietEnv L) 60 "example.com.")
    (fun o _ => exists z, o = Some z /\ z_Name z = "example.com." /\ z_Locations z = {["www"]} ∪ ∅)
    (sampleWorld _ _ (mkSRS ∅ {["redins:zones:example.com." := {["www" := "{}"]}]} ∅) ["example.com."]).
Proof.
  intros L. eapply wp_mono; [|apply (LoadZone_refresh (E := quietEnv L) 60 "example.com." None);
    [apply map_Forall_empty|reflexivity|reflexivity|done]].
  intros o w' H.
  assert (redis_GetHKeys (Redis := SampleRedis) (mkSRS ∅ {["redins:zones:example.com." := {["www" := "{}"]}]} ∅)
            "redins:zones:example.com." = (["www"], None)) as Eg by by_run.
  change (redis_GetHKeys _ _) with (redis_GetHKeys (Redis := SampleRedis)
    (mkSRS ∅ {["redins:zones:example.com." := {["www" := "{}"]}]} ∅) "redins:zones:example.com.") in H.
  rewrite Eg in H. destruct H as (z & -> & Hn & Hl & _). exists z.
  split; [reflexivity|]. split; [exact Hn|exact Hl].
Defined.
