(* ===== verification/Serve.v ===== *)
(** The guarantees of the server as a whole, in every environment: each request
    gets one reply, and what a reply may contain. *)
From S2P Require Import Prelude GoStrings DnsTypes GoCache Monad ZoneIndex Zone OrderIps GeoIp Limiter Deps World Answers Sample Dnssec Upstream Health Request Loader Handler HandlerFacts.

Section Serve.
Context {L : Libs} {E : Env} (h : DnsRequestHandler).

(** The requests that arrive, one after the other. *)
Fixpoint serve (l : RateLimiter) (reqs : list (Writer * Msg)) : M RateLimiter :=
  match reqs with
  | [] => mret l
  | (w, r) :: reqs' => l' ← handleRequest h l w (Some r); serve l' reqs'
  end.

(** The clients that were written to, in order. *)
Definition written (evs : list Event) : list Writer :=
  omap (fun e => match e with Wrote w _ => Some w | Closed _ => None end) evs.

Context {DL : DnsLibLaws lib_dns}.

Lemma safe_NewRequestContext w r :
  safe (NewRequestContext w (Some r)) (fun c => c_Req c = Some r /\ c_W c = w /\ c_Auth c = true /\
    c_Answer c = [] /\ c_Authority c = [] /\ c_Additional c = [] /\ log_typed (c_LogData c)).
Proof.
  unfold NewRequestContext. apply safe_bind_quiet; [auto with redins|]. intros t.
  eapply safe_bind; [apply (safe_lift _ (fun _ => True)); [|done]|].
  { unfold sourceIp, subnet_option. simpl. done. }
  intros ip _. eapply safe_bind; [apply (safe_lift _ (fun _ => True)); [|done]|].
  { unfold sourceSubnet, subnet_option. simpl. done. }
  intros subnet _. destruct (RawName_client (mkContext (Some r) w t ∅ true [] [] [] ip subnet "")) as (((Hq & Hw & Hau) & _) & Ha & Hu & Hd).
  destruct (RawName _) as [name c]. apply safe_ret. cbn. unfold log_typed. simplify_map_eq. naive_solver.
Qed.

Lemma written_replied c rc w w' :
  replied c rc w w' -> written (w_events w') = written (w_events w) ++ [c_W c].
Proof.
  intros (m & tl & _ & Htl & ->). unfold written. rewrite omap_app. f_equal. by destruct Htl as [-> | ->].
Qed.

(** The log queue: at most 1000 entries, each with what [LogRequest] puts in. *)
Definition entry_ok (d : LogData) : Prop :=
  log_typed d /\ (exists rc, d !! "response_code" = Some (LvInt rc)) /\
  (exists ms, d !! "process_time" = Some (LvInt64 ms)) /\ d !! "log_type" = Some (LvStr "request").
Definition queue_ok (w : World) : Prop :=
  Forall entry_ok (w_logQueue w) /\ (length (w_logQueue w) <= 1000)%nat.

Lemma entry_ok_log d rc ms : log_typed d ->
  entry_ok (<["log_type" := LvStr "request"]> (<["response_code" := LvInt rc]> (<["process_time" := LvInt64 ms]> d))).
Proof.
  intros Hd. unfold entry_ok. split; [|simplify_map_eq; eauto].
  repeat (apply log_typed_insert; [set_solver|]). done.
Qed.

Lemma queue_ok_logged c rc w w' : log_typed (c_LogData c) -> logged c rc w w' -> queue_ok w -> queue_ok w'.
Proof.
  intros Hc (n & ms & Hq) [Hf Hl]. unfold queue_ok. rewrite Hq. cbv zeta.
  assert (length (drop n (w_logQueue w)) <= 1000)%nat by (rewrite length_drop; lia).
  destruct (Nat.ltb_spec (length (drop n (w_logQueue w))) 1000); [|split; [by apply Forall_drop|done]].
  split; [|rewrite length_app; simpl; lia].
  apply Forall_app. split; [by apply Forall_drop|]. repeat constructor; by apply entry_ok_log.
Qed.

Lemma handleRequest_spec l wr r w :
  zones_ok w ->
  wp True (handleRequest h l wr (Some r)) (fun _ w' =>
    zones_ok w' /\ written (w_events w') = written (w_events w) ++ [wr] /\ (queue_ok w -> queue_ok w')) w.
Proof.
  intros Hw. unfold handleRequest. wstep. eapply wp_safe; [apply safe_NewRequestContext|done|].
  intros c w1 [He Hlq] Hw1 (Hr & Hc & _ & Ha & Hu & Hd & Hty). do 8 wstep.
  destruct (CanHandle _ l (req_IP wr)) as [ok l']. wstep. destruct ok.
  - eapply wp_mono; [|apply (HandleRequest_spec h c r); [done| |done]].
    + intros [] w' (c' & rc & Hrep & Hlog & Hw' & (_ & Hcw & _) & _ & _ & Hl'). wstep. split; [done|]. split.
      * apply written_replied in Hrep. rewrite Hrep, Hcw, Hc. simpl. by rewrite He.
      * intros Hq. eapply (queue_ok_logged c'); [by auto|exact Hlog|]. unfold queue_ok. simpl. by rewrite Hlq.
    + unfold ctx_ok. by rewrite Ha, Hu, Hd.
  - eapply wp_weaken; [done|]. eapply wp_mono; [|by apply (Response_spec c _ r)].
    intros [] w' (m & Hm & Hev & Hlq' & Hz). wstep. split; [unfold zones_ok; by rewrite Hz|]. split.
    + rewrite Hev. unfold written. rewrite omap_app. simpl. rewrite He, Hc. by destruct (env_write _).
    + unfold queue_ok. rewrite Hlq'. simpl. by rewrite Hlq.
Qed.

Lemma serve_spec reqs l w :
  zones_ok w ->
  wp True (serve l reqs) (fun _ w' =>
    written (w_events w') = written (w_events w) ++ map fst reqs /\ (queue_ok w -> queue_ok w')) w.
Proof.
  revert l w. induction reqs as [|[wr r] reqs IH]; intros l w Hw; simpl; [wstep; by rewrite app_nil_r|].
  wstep. eapply wp_mono; [|by apply handleRequest_spec]. intros l' w' (Hw' & Hev & Hq).
  eapply wp_mono; [|by apply IH]. intros _ w'' [-> Hq']. split; [by rewrite Hev, <- app_assoc|auto].
Qed.

(** C1: every request is answered exactly once.  Starting with an empty zone cache,
    whatever Redis holds and however it changes, whatever the upstreams,
    the health status, the geo databases and the clock say: serving any
    sequence of requests terminates, and unless the process panics it has
    written exactly one reply to each client, in the order of the requests. *)
Theorem serve_one_reply_each reqs l w :
  w_ZoneCache w = ∅ ->
  match serve l reqs w with
  | Done (_, w') => written (w_events w') = written (w_events w) ++ map fst reqs
  | Panic => True
  | Diverge => False
  end.
Proof.
  intros Hz. pose proof (serve_spec reqs l w) as H. unfold wp in H.
  assert (zones_ok w) as Hw by (unfold zones_ok; rewrite Hz; apply map_Forall_empty).
  specialize (H Hw). destruct (serve l reqs w) as [[]| |]; [by destruct H|done|done].
Qed.

(** C7: what a reply looks like.  The reply to a request the handler accepts has
    one of five codes (no error, server failure, no such name, not
    implemented, not authoritative), carries the request's id and the
    authoritative bit, and every record of its three sections that is not one
    of the zone's own SOA, DNSKEY, NSEC or RRSIG records has a TTL of at most
    the configured maximum (when there is one) and a header type that fits its
    data. *)
Theorem HandleRequest_reply_shape c r w :
  c_Req c = Some r -> c_Auth c = true -> c_Answer c = [] -> c_Authority c = [] -> c_Additional c = [] ->
  w_ZoneCache w = ∅ -> u32 (MaxTtl h) <> 0 ->
  wp True (HandleRequest h c) (fun _ w' => exists m tl,
    w_events w' = w_events w ++
      Wrote (c_W c) (req_Scrub (c_W c) (c_Req c) (req_SizeAndDo (c_W c) (c_Req c) m)) :: tl /\
    m_Rcode m ∈ handler_rcodes /\ m_Id m = m_Id r /\ m_Authoritative m = true /\
    forall x, x ∈ m_Answer m ++ m_Ns m ++ m_Extra m -> zone_data (rrData x) = false ->
      hTtl (rrHdr x) <= u32 (MaxTtl h) /\ type_of_data (rrData x) = Some (hRrtype (rrHdr x))) w.
Proof.
  intros Hr Hau Ha Hu Hd Hz Hmax. eapply wp_mono; [|apply (HandleRequest_spec h c r); [done| |]].
  - intros [] w' (c' & rc & (m & tl & (Hrc & Ma & Mu & Md & Mau & Mid) & Htl & Hev) & _ & _ & (Hq & Hcw & Hcau) & (Ca & Cu & Cd) & Hin & _).
    exists m, tl. rewrite <- Hq, <- Hcw. split; [done|]. split; [by rewrite Hrc|].
    split; [apply Mid; congruence|]. split; [congruence|].
    intros x Hx Hzd. assert (sec_ok (MaxTtl h) x) as [(n & t & _ & Ht & Htd & ttl & Httl)|Hzd']; [| |congruence].
    + rewrite Ma, Mu, Md, !elem_of_app in Hx. rewrite !Forall_forall in Ca, Cu, Cd. naive_solver.
    + rewrite Httl. split; [by apply getTtl_cap|congruence].
  - unfold ctx_ok. by rewrite Ha, Hu, Hd.
  - unfold zones_ok. rewrite Hz. apply map_Forall_empty.
Qed.
End Serve.

(** ** Denial of existence *)

Section Denial.
Context {L : Libs} {E : Env}.

Definition nsec_rr (raw : string) (soa : SOA_RRSet) : RR :=
  mkRR (mkHdr raw TypeNSEC ClassINET (ss_MinTtl soa)) (DNSEC ("\000." +:+ raw) NSecTypes).

(** C16: a negative answer in a signed zone.  When the client asked for DNSSEC and
    the zone can sign, "no such name" and "no data" both become a success with
    an NSEC record for the very name that was asked, and this record's
    signature when the key signs it; nothing that was in the authority section
    is lost. *)
Theorem secure_denial raw zone soa c res w :
  req_Do (c_Req c) = true -> c_Auth c = true -> DnsSec (z_Config zone) = true ->
  can_sign zone -> cfg_SOA (z_Config zone) = Some soa ->
  res = RcodeNameError \/ (res = RcodeSuccess /\ c_Answer c = []) ->
  wp False (secure raw zone c res) (fun '(c', res') _ =>
    res' = RcodeSuccess /\ nsec_rr raw soa ∈ c_Authority c' /\
    (forall r, r ∈ c_Authority c -> unsigned r = false -> r ∈ c_Authority c') /\
    (forall s, sig_for raw zone (group (c_Authority c ++ [nsec_rr raw soa]) (raw, TypeNSEC)) (Some s) ->
       s ∈ c_Authority c')) w.
Proof.
  intros Hdo Hau Hds Hz Hsoa Hres. unfold secure. rewrite Hdo, Hau, Hds. cbn [andb]. wstep.
  assert (NSec raw zone = Done (nsec_rr raw soa)) as Hn by (unfold NSec; by rewrite Hsoa).
  assert (forall w, wp False
    (if res =? RcodeSuccess then
       if (length (c_Answer c) =? 0)%nat then
         nsec ← st_lift (NSec raw zone); mret (with_authority (c_Authority c ++ [nsec]) c, res)
       else mret (c, res)
     else if res =? RcodeNameError then
       nsec ← st_lift (NSec raw zone); mret (with_authority (c_Authority c ++ [nsec]) c, RcodeSuccess)
     else mret (c, res) : M (RequestContext * Z))
    (fun o _ => o = (with_authority (c_Authority c ++ [nsec_rr raw soa]) c, RcodeSuccess)) w) as Hneg.
  { intros w0. rewrite Hn. destruct Hres as [-> | [-> Ha]].
    - change (RcodeNameError =? RcodeSuccess) with false. cbn [Z.eqb RcodeNameError Pos.eqb]. by do 3 wstep.
    - rewrite Ha. cbn. done. }
  eapply wp_mono; [|apply Hneg]. intros o w1 ->.
  wstep. eapply wp_mono; [|by apply Sign_ok]. intros an w2 _.
  wstep. eapply wp_mono; [|by apply Sign_ok]. intros au w3 [(sigs & Hp & _ & Hsig) _].
  wstep. eapply wp_mono; [|by apply Sign_ok]. intros ad w4 _. wstep. simpl in *.
  split; [done|]. split_and!.
  - rewrite Hp, elem_of_app. left. apply list_elem_of_filter. split; [done|]. set_solver.
  - intros r Hr Hu. rewrite Hp, elem_of_app. left. apply list_elem_of_filter. split; [done|]. set_solver.
  - intros s Hs. rewrite Hp, elem_of_app. right. eapply Hsig; [|done].
    intros Hg. by rewrite Hg in Hs.
Qed.
End Denial.

(** ** Runs *)

(** One zone with an address at www, a CNAME loop between a and b, and an alias
    alias -> www; documents are decoded by name. *)
Definition sample_ips : IP_RRSet :=
  mkIP_RRSet (mkIpFilterConfig "multi" "none" "none") (mkIpHealthCheckConfig "" "" 0 0 0 0 false) 3600
    [mkIP_RR 1 (Some [10; 0; 0; 1]) [] []; mkIP_RR 1 (Some [10; 0; 0; 2]) [] []].
Definition with_A (a : IP_RRSet) (rs : RRSets) : RRSets :=
  mkRRSets a (rs_AAAA rs) (rs_TXT rs) (rs_CNAME rs) (rs_NS rs) (rs_MX rs) (rs_SRV rs) (rs_CAA rs) (rs_PTR rs)
    (rs_TLSA rs) (rs_ANAME rs).
Definition with_CNAME (host : string) (rs : RRSets) : RRSets :=
  mkRRSets (rs_A rs) (rs_AAAA rs) (rs_TXT rs) (Some (mkCNAME_RRSet host 300)) (rs_NS rs) (rs_MX rs) (rs_SRV rs)
    (rs_CAA rs) (rs_PTR rs) (rs_TLSA rs) (rs_ANAME rs).
Definition sample_records (doc : string) (rs : RRSets) : RRSets :=
  if String.eqb doc "www" then with_A sample_ips rs
  else if String.eqb doc "alias" then with_CNAME "www.example.com." rs
  else if String.eqb doc "a" then with_CNAME "b.example.com." rs
  else if String.eqb doc "b" then with_CNAME "a.example.com." rs
  else rs.
Definition serve_libs : Libs := sampleLibs sample_records (fun _ c => c).
Definition serve_env : Env (L := serve_libs) := quietEnv serve_libs.
Definition sample_redis : SampleRedisState :=
  mkSRS ∅ {["redins:zones:example.com." :=
    <["www" := "www"]> (<["alias" := "alias"]> (<["a" := "a"]> {["b" := "b"]}))]} ∅.
Definition serve_world : World (L := serve_libs) := sampleWorld _ _ sample_redis ["example.com."].
Definition serve_handler : DnsRequestHandler (L := serve_libs) :=
  @mkHandler serve_libs 300 60 false (@mkGeoIp (mm_example "ES" 444) false None None)
    (mkHealthcheck false 0 0 0 0).
Definition question (name : string) (t : Z) : Msg := mkMsg 7 false false false 0 [mkQuestion name t 1] [] [] [].
Definition serve_limiter : @RateLimiter MapCache :=
  @mkRateLimiter MapCache (@gc_new MapCache Limiter.Limiter Minute) 0 1 (mkRateLimiterConfig false 1 1 [] []) ∅ ∅.

(** The codes and answers written in a run. *)
Definition replies {L : Libs} (o : Outcome (@RateLimiter lib_cache * World)) : option (list (Z * list RR)) :=
  match o with
  | Done (_, w') => Some (omap (fun e => match e with Wrote _ m => Some (m_Rcode m, m_Answer m) | _ => None end) (w_events w'))
  | _ => None
  end.

Definition sample_requests : list (@Writer SampleCoreDns * Msg) :=
  [("10.9.9.9", question "WWW.Example.COM." TypeA); ("10.9.9.8", question "alias.example.com." TypeA);
   ("10.9.9.7", question "a.example.com." TypeA); ("10.9.9.6", question "none.example.com." TypeA);
   ("10.9.9.5", question "www.example.org." TypeA)].

Example sample_replies :
  replies (serve (E := serve_env) serve_handler serve_limiter sample_requests serve_world)
  = Some (let a n x := mkRR (mkHdr n TypeA ClassINET 300) (DA (Some [10; 0; 0; x])) in
          [(RcodeSuccess, [a "www.example.com." 1; a "www.example.com." 2]);
           (RcodeSuccess, [mkRR (mkHdr "alias.example.com." TypeCNAME ClassINET 300) (DCNAME "www.example.com.");
                           a "www.example.com." 1; a "www.example.com." 2]);
           (RcodeServerFailure, []);
           (RcodeNameError, []);
           (RcodeNotAuth, [])]).
Proof. by_run. Qed.

Lemma serve_one_reply_each_witness :
  exists l' w', serve (E := serve_env) serve_handler serve_limiter sample_requests serve_world = Done (l', w') /\
    written (w_events w') = ["10.9.9.9"; "10.9.9.8"; "10.9.9.7"; "10.9.9.6"; "10.9.9.5"].
Proof.
  pose proof (serve_one_reply_each (E := serve_env) (DL := SampleDnsLaws) serve_handler sample_requests serve_limiter
    serve_world eq_refl) as H.
  assert (match serve (E := serve_env) serve_handler serve_limiter sample_requests serve_world with
          | Done _ => true | _ => false end = true) as Hd by by_run.
  destruct (serve _ _ _ _) as [[l' w']| |]; [|done..]. exists l', w'. split; [done|exact H].
Defined.

Definition sample_context (name : string) (t : Z) : RequestContext (L := serve_libs) :=
  @mkContext serve_libs (Some (question name t)) "10.9.9.9" 0 ∅ true [] [] [] None "" name.

Lemma HandleRequest_reply_shape_witness :
  wp True (HandleRequest (E := serve_env) serve_handler (sample_context "www.example.com." TypeA))
    (fun _ w' => exists m tl, w_events w' = Wrote (L := serve_libs) "10.9.9.9" m :: tl /\
       forall x, x ∈ m_Answer m -> zone_data (rrData x) = false -> hTtl (rrHdr x) <= 300) serve_world.
Proof.
  eapply wp_mono; [|apply (HandleRequest_reply_shape (E := serve_env) (DL := SampleDnsLaws) serve_handler
    (sample_context "www.example.com." TypeA) (question "www.example.com." TypeA)); try reflexivity; by vm_compute].
  intros [] w' (m & tl & Hev & _ & _ & _ & Hx). exists m, tl. split; [exact Hev|].
  intros x Hin Hz. apply (Hx x); [set_solver|done].
Defined.

(** A signed zone. *)
Definition soa_example : SOA_RRSet := mkSOA_RRSet "ns1.example.com." "hostmaster.example.com."
  (Some (mkRR (mkHdr "example.com." TypeSOA ClassINET 300)
    (DSOA (mkSOA "ns1.example.com." "hostmaster.example.com." 1 86400 7200 3600 300)))) 300 86400 7200 3600 300 1.
Definition signed_zone : Zone :=
  mkZone "example.com." (mkZoneConfig "" (Some soa_example) true false) {["www"]} (Some key_example)
    (Some key_example) (Some (dnskey_rr key_example)) 100.

Lemma secure_denial_witness :
  wp False (secure (E := serve_env) "none.example.com." signed_zone (sample_context "none.example.com." TypeA) RcodeNameError)
    (fun '(c', res) _ => res = RcodeSuccess /\ nsec_rr "none.example.com." soa_example ∈ c_Authority c') serve_world.
Proof.
  eapply wp_mono; [|apply (secure_denial (E := serve_env) "none.example.com." signed_zone soa_example
    (sample_context "none.example.com." TypeA) RcodeNameError); try reflexivity;
    [repeat split; eexists; done|by left]].
  intros [c' res] w' (-> & Hin & _). done.
Defined.
