(* ===== verification/Resolve.v ===== *)
(** What a request is answered with when the zone and the records it needs are
    cached and nothing interferes: the CNAME chain of the question and what stands
    at its end.  The chain and its end are stated over the stored data alone. *)
From S2P Require Import Prelude GoStrings DnsTypes GoCache Monad ZoneIndex Zone OrderIps GeoIp Limiter Deps World Answers Sample Dnssec Upstream Health Request Loader Handler HandlerFacts Serve.

Section Resolve.
Context {L : Libs} {E : Env} {DL : DnsLibLaws lib_dns} (h : DnsRequestHandler).
Implicit Types (w : World).

(** ** The stored data *)

(** Nobody replaces the zone tree, nothing is evicted. *)
Definition undisturbed w : Prop :=
  (forall t, env_zones t (w_Zones w) = w_Zones w) /\ (forall t k, env_keeps t k = true).

Definition zone_cached w (zn : string) (z : Zone) : Prop :=
  w_ZoneCache w !! zn = Some z /\ forall t, Unix (env_now t) <= z_CacheTimeout z.

(** The record sets cached for the location of [q] in the zone. *)
Definition record_cached w (z : Zone) (q : string) (rs : RRSets) : Prop :=
  exists p r, snd (FindLocation z q) <> NoMatch /\
    w_RecordCache w !! (fst (FindLocation z q) +:+ "." +:+ z_Name z) = Some p /\
    w_heap w !! p = Some r /\ r_RRSets r = rs /\ forall t, Unix (env_now t) <= r_CacheTimeout r.

(** The CNAME records from [q] to [q'] inside the zone. *)
Inductive cname_chain w (zn : string) (z : Zone) : string -> list (string * RRSets) -> string -> Prop :=
  | chain_end q : cname_chain w zn z q [] q
  | chain_cname q rs cn l q' :
      FindZone (w_Zones w) q = zn -> record_cached w z q rs -> rs_CNAME rs = Some cn ->
      cname_chain w zn z (dns_Fqdn (cname_Host cn)) l q' ->
      cname_chain w zn z q ((q, rs) :: l) q'.

Definition cname_rrs (l : list (string * RRSets)) : list RR :=
  concat (map (fun '(q, rs) => h_CNAME (MaxTtl h) q rs) l).

(** Addresses that are handed out as stored: no health check, no geo filter, no
    rotation. *)
Definition static_set (a : IP_RRSet) : Prop :=
  hl_Enable (healthcheck h) = false /\ fc_GeoFilter (FilterConfig a) = "none" /\
  fc_Order (FilterConfig a) = "none" /\ fc_Count (FilterConfig a) = "multi" /\ weights_ok (ip_Data a).

(** The records of type [qtype] stored in [rs], as answers for [name]. *)
Inductive stored_answer (name : string) (rs : RRSets) : Z -> list RR -> Prop :=
  | ans_A : static_set (rs_A rs) -> rs_ANAME rs = None ->
      stored_answer name rs TypeA (h_A (MaxTtl h) name rs (map ip_Ip (ip_Data (rs_A rs))))
  | ans_AAAA : static_set (rs_AAAA rs) -> rs_ANAME rs = None ->
      stored_answer name rs TypeAAAA (h_AAAA (MaxTtl h) name rs (map ip_Ip (ip_Data (rs_AAAA rs))))
  | ans_CNAME : stored_answer name rs TypeCNAME (h_CNAME (MaxTtl h) name rs)
  | ans_TXT l : h_TXT (MaxTtl h) name rs = Done l -> stored_answer name rs TypeTXT l
  | ans_NS : stored_answer name rs TypeNS (h_NS (MaxTtl h) name rs)
  | ans_MX : stored_answer name rs TypeMX (h_MX (MaxTtl h) name rs)
  | ans_SRV : stored_answer name rs TypeSRV (h_SRV (MaxTtl h) name rs)
  | ans_PTR : stored_answer name rs TypePTR (h_PTR (MaxTtl h) name rs)
  | ans_TLSA : stored_answer name rs TypeTLSA (h_TLSA (MaxTtl h) name rs).

(** What stands at the end of a chain: answer, authority and code. *)
Inductive chain_ends w (zn : string) (z : Zone) (qtype : Z) (q : string) : list RR -> list RR -> Z -> Prop :=
  | end_outside :
      FindZone (w_Zones w) q <> zn -> chain_ends w zn z qtype q [] [] RcodeSuccess
  | end_nxdomain soa :
      FindZone (w_Zones w) q = zn -> snd (FindLocation z q) = NoMatch -> soa_rr z = Done soa ->
      chain_ends w zn z qtype q [] [soa] RcodeNameError
  | end_data rs ans soa :
      FindZone (w_Zones w) q = zn -> record_cached w z q rs ->
      (qtype = TypeCNAME \/ rs_CNAME rs = None) -> (ns_Data (rs_NS rs) = [] \/ q = z_Name z) ->
      stored_answer q rs qtype ans -> soa_rr z = Done soa ->
      chain_ends w zn z qtype q ans (if (length ans =? 0)%nat then [soa] else []) RcodeSuccess.

(** ** The steps on cached data *)

(** [w'] differs from [w] only in the tick. *)
Definition same_data w w' : Prop :=
  w_Zones w' = w_Zones w /\ w_RecordCache w' = w_RecordCache w /\ w_heap w' = w_heap w /\
  w_ZoneCache w' = w_ZoneCache w /\ w_events w' = w_events w.

#[local] Instance same_data_preorder : PreOrder same_data.
Proof.
  split; unfold same_data; [done|]. intros x y z (?&?&?&?&?) (?&?&?&?&?). split_and!; congruence.
Qed.

Lemma undisturbed_same w w' : same_data w w' -> undisturbed w -> undisturbed w'.
Proof. intros (Hz & _) [H1 H2]. split; [|done]. by rewrite Hz. Qed.

Lemma FindZone_wp q w :
  undisturbed w -> wp False (h_FindZone q) (fun zn w' => zn = FindZone (w_Zones w) q /\ same_data w w') w.
Proof.
  intros [Hz _]. unfold h_FindZone. do 3 wstep. rewrite Hz. split; [done|]. split_and!; try done.
Qed.

Lemma LoadZone_wp to zn z w :
  undisturbed w -> zone_cached w zn z ->
  wp False (LoadZone to zn) (fun o w' => o = Some z /\ same_data w w') w.
Proof.
  intros [_ Hk] [Hz Ht]. unfold LoadZone, ZoneCache_Get. do 2 wstep. simpl. rewrite Hk, Hz.
  do 2 wstep. rewrite (proj2 (Z.leb_le _ _)) by apply Ht. wstep. done.
Qed.

Lemma LoadLocation_wp to z q rs w :
  undisturbed w -> record_cached w z q rs ->
  wp False (LoadLocation to (fst (FindLocation z q)) z) (fun o w' => exists p r,
    o = Some p /\ w_heap w !! p = Some r /\ r_RRSets r = rs /\ same_data w w') w.
Proof.
  intros [_ Hk] (p & r & _ & Hc & Hh & Hr & Ht). unfold LoadLocation, RecordCache_Get. do 2 wstep.
  rewrite Hk. simpl w_RecordCache. rewrite Hc. do 4 wstep. simpl w_heap. rewrite Hh. simpl.
  rewrite (proj2 (Z.leb_le _ _)) by apply Ht. wstep. exists p, r. done.
Qed.

Lemma collect_all_white data : collect data (replicate (length data) IpMaskWhite) = map ip_Ip data.
Proof. induction data as [|d data IH]; simpl; [done|]. by rewrite IH. Qed.

Lemma Filter_static name ip a w :
  static_set a -> wp False (Filter h name ip a) (fun ips w' => ips = map ip_Ip (ip_Data a) /\ same_data w w') w.
Proof.
  intros (Hh & Hg & Ho & Hc & Hw). unfold Filter, FilterHealthcheck. rewrite Hh. cbn [negb]. do 3 wstep.
  rewrite Hg. wstep. simpl. do 3 wstep.
  rewrite OrderIps_none_stored_order; rewrite ?Ho, ?Hc, ?length_replicate; try done.
  - split; [|done]. apply collect_all_white.
  - apply Z.mod_pos_bound. done.
Qed.

Lemma answerFor_stored qtype ip name z p r rs ans w :
  w_heap w !! p = Some r -> r_RRSets r = rs -> stored_answer name rs qtype ans ->
  wp False (answerFor h qtype ip name z p) (fun o w' => o = Some (ans, RcodeSuccess) /\ same_data w w') w.
Proof.
  intros Hp Hr Hans. unfold answerFor. do 2 wstep. rewrite Hp. simpl default. rewrite Hr.
  destruct Hans as [Hs Ha|Hs Ha| |l Hl| | | | |]; cbn [Z.eqb Pos.eqb TypeA TypeAAAA TypeCNAME TypeTXT TypeNS TypeMX
    TypeSRV TypeCAA TypePTR TypeTLSA]; try (wstep; done).
  - unfold answerA. do 3 wstep. rewrite Hp. simpl default. rewrite Hr, Ha.
    destruct (ip_Data (rs_A rs)) eqn:Ed; rewrite <- Ed; wstep;
      (eapply wp_mono; [|by apply Filter_static]); intros ips w' [-> Hw]; by do 2 wstep.
  - unfold answerAAAA. do 3 wstep. rewrite Hp. simpl default. rewrite Hr, Ha.
    destruct (ip_Data (rs_AAAA rs)) eqn:Ed; rewrite <- Ed; wstep;
      (eapply wp_mono; [|by apply Filter_static]); intros ips w' [-> Hw]; by do 2 wstep.
  - do 2 wstep. rewrite Hl. by wstep.
Qed.

(** ** Following the chain *)

Lemma record_cached_same w w' z q rs : same_data w w' -> record_cached w z q rs -> record_cached w' z q rs.
Proof. intros (_ & Hc & Hh & _) (p & r & H). exists p, r. by rewrite Hc, Hh. Qed.

Lemma chain_same w w' zn z q l q' : same_data w w' -> cname_chain w zn z q l q' -> cname_chain w' zn z q l q'.
Proof.
  intros Hs. induction 1 as [|q rs cn l q' Hz Hr Hc _ IH]; [constructor|].
  econstructor; [|by eapply record_cached_same|done|done]. by destruct Hs as [-> _].
Qed.

Lemma ends_same w w' zn z t q a u rc : same_data w w' -> chain_ends w zn z t q a u rc -> chain_ends w' zn z t q a u rc.
Proof.
  intros Hs [Hz|soa Hz Hn Hsoa|rs ans soa Hz Hr Hc Hns Ha Hsoa].
  - constructor. by destruct Hs as [-> _].
  - constructor; [|done|done]. by destruct Hs as [-> _].
  - econstructor; try done; [by destruct Hs as [-> _]|by eapply record_cached_same].
Qed.

(** One step along the chain. *)
Lemma resolve_step steps raw zn z c q rs cn Q w :
  undisturbed w -> CnameFlattening (z_Config z) = false -> req_QType (c_Req c) <> TypeCNAME ->
  FindZone (w_Zones w) q = zn -> record_cached w z q rs -> rs_CNAME rs = Some cn ->
  (forall w', same_data w w' ->
     wp False (resolveLoop h steps raw zn z (with_answer (c_Answer c ++ h_CNAME (MaxTtl h) q rs) c)
                 (dns_Fqdn (cname_Host cn))) Q w') ->
  wp False (resolveLoop h (S steps) raw zn z c q) Q w.
Proof.
  intros Hu Hf Hq Hz Hr Hc Hnext. cbn [resolveLoop]. wstep. eapply wp_mono; [|by apply FindZone_wp].
  intros zn' w1 [-> Hs1]. rewrite Hz, String.eqb_refl. cbn [negb].
  pose proof (LoadLocation_wp (CacheTimeout h) z q rs w1) as Hl.
  specialize (Hl (undisturbed_same _ _ Hs1 Hu) (record_cached_same _ _ _ _ _ Hs1 Hr)).
  destruct Hr as (_ & _ & Hm & _). destruct (FindLocation z q) as [loc m]. cbn [fst snd] in *.
  destruct m; [| |done]; (wstep; eapply wp_mono; [|apply Hl]); intros o w2 (p & r & -> & Hp & Hrr & Hs2);
    do 2 wstep; destruct Hs2 as (Hs2z & Hs2c & Hs2h & Hs2o) eqn:Eq; rewrite Hs2h, Hp; simpl default;
    rewrite Hrr, (proj2 (Z.eqb_neq _ _) Hq), Hc, Hf; cbn [negb]; apply Hnext; by trans w1.
Qed.

Lemma resolve_chain steps raw zn z c q l q' Q w :
  undisturbed w -> CnameFlattening (z_Config z) = false -> req_QType (c_Req c) <> TypeCNAME ->
  cname_chain w zn z q l q' ->
  (forall w', same_data w w' ->
     wp False (resolveLoop h steps raw zn z (with_answer (c_Answer c ++ cname_rrs l) c) q') Q w') ->
  wp False (resolveLoop h (length l + steps) raw zn z c q) Q w.
Proof.
  intros Hu Hf Hq Hch. revert c Hq Q w Hu Hch.
  enough (forall c Q w0 w, same_data w0 w -> undisturbed w -> req_QType (c_Req c) <> TypeCNAME ->
    cname_chain w0 zn z q l q' ->
    (forall w', same_data w w' ->
       wp False (resolveLoop h steps raw zn z (with_answer (c_Answer c ++ cname_rrs l) c) q') Q w') ->
    wp False (resolveLoop h (length l + steps) raw zn z c q) Q w) as H
    by (intros; eapply (H c Q w w); try done; reflexivity).
  intros c Q w0 w Hs Hu Hq Hch. revert c Q w Hs Hu Hq. induction Hch as [q|q rs cn l q' Hz Hr Hc _ IH];
    intros c Q w Hs Hu Hq Hend.
  - simpl. specialize (Hend w ltac:(reflexivity)). rewrite app_nil_r in Hend. by destruct c.
  - cbn [length Nat.add]. eapply resolve_step; try done.
    + by destruct Hs as [-> _].
    + by eapply record_cached_same.
    + intros w' Hs'. apply IH; [by trans w|by eapply undisturbed_same|done|].
      intros w'' Hs''. specialize (Hend w'' ltac:(by trans w')). cbn [c_Answer with_answer].
      unfold cname_rrs in *. cbn [map concat] in Hend. rewrite app_assoc in Hend. exact Hend.
Qed.

(** What the loop has to deliver: the sections and the code. *)
Definition delivers (c : RequestContext) w (a u x : list RR) (rc : Z) (o : RequestContext * Z) w' : Prop :=
  same_data w w' /\ same_client c o.1 /\ o.2 = rc /\
  c_Answer o.1 = a /\ c_Authority o.1 = u /\ c_Additional o.1 = x.

(** The end of a chain at a location with data for the question. *)
Lemma resolve_data raw z c q rs p r ans soa w :
  CnameFlattening (z_Config z) = false -> c_Authority c = [] ->
  w_heap w !! p = Some r -> r_RRSets r = rs ->
  (req_QType (c_Req c) = TypeCNAME \/ rs_CNAME rs = None) -> (ns_Data (rs_NS rs) = [] \/ q = z_Name z) ->
  stored_answer q rs (req_QType (c_Req c)) ans -> soa_rr z = Done soa ->
  forall k,
  wp False
    (match (if req_QType (c_Req c) =? TypeCNAME then None else rs_CNAME (r_RRSets r)) with
     | Some cname => k cname
     | None =>
         if (0 <? length (ns_Data (rs_NS (r_RRSets r))))%nat && negb (String.eqb q (z_Name z)) then
           gl ← mapM (glue h (c_SourceIp c) z) (ns_Data (rs_NS (r_RRSets r)));
           mret (with_additional (c_Additional c ++ concat gl)
                   (with_authority (c_Authority c ++ h_NS (MaxTtl h) q (r_RRSets r)) c), RcodeSuccess)
         else
           a ← answerFor h (req_QType (c_Req c)) (c_SourceIp c)
                 (if CnameFlattening (z_Config z) then raw else q) z p;
           match a with
           | None =>
               s ← st_lift (soa_rr z);
               mret (with_authority [s] (with_answer [] c), RcodeNotImplemented)
           | Some (answer, res) =>
               if (length answer =? 0)%nat && (res =? RcodeSuccess) then
                 s ← st_lift (soa_rr z);
                 mret (with_authority [s] (with_answer (c_Answer c ++ answer) c), res)
               else mret (with_answer (c_Answer c ++ answer) c, res)
           end
     end)
    (delivers c w (c_Answer c ++ ans) (if (length ans =? 0)%nat then [soa] else []) (c_Additional c) RcodeSuccess) w.
Proof.
  intros Hf Hau Hp Hr Hc Hns Ha Hsoa k.
  assert ((if req_QType (c_Req c) =? TypeCNAME then None else rs_CNAME (r_RRSets r)) = None) as ->.
  { rewrite Hr. destruct Hc as [-> | ->]; [done|]. by case_match. }
  assert ((0 <? length (ns_Data (rs_NS (r_RRSets r))))%nat && negb (String.eqb q (z_Name z)) = false) as ->.
  { rewrite Hr. destruct Hns as [-> | ->]; [done|]. by rewrite String.eqb_refl, andb_false_r. }
  rewrite Hf. wstep. eapply wp_mono; [|by eapply answerFor_stored]. intros o w' [-> Hs].
  unfold delivers. destruct (Nat.eqb_spec (length ans) 0); cbn [andb].
  - change (RcodeSuccess =? RcodeSuccess) with true. cbn iota. do 2 wstep. rewrite Hsoa. wstep. done.
  - wstep. done.
Qed.

Lemma resolve_end steps raw zn z c q a u rc w :
  undisturbed w -> CnameFlattening (z_Config z) = false -> c_Authority c = [] ->
  chain_ends w zn z (req_QType (c_Req c)) q a u rc ->
  wp False (resolveLoop h (S steps) raw zn z c q) (delivers c w (c_Answer c ++ a) u (c_Additional c) rc) w.
Proof.
  intros Hu Hf Hau Hends. cbn [resolveLoop]. wstep. eapply wp_mono; [|by apply FindZone_wp].
  intros zn' w1 [-> Hs1]. destruct Hends as [Hz|soa Hz Hn Hsoa|rs ans soa Hz Hr Hc Hns Ha Hsoa].
  - rewrite (proj2 (String.eqb_neq _ _) Hz). cbn [negb]. wstep. unfold delivers. simpl. by rewrite app_nil_r.
  - rewrite Hz, String.eqb_refl. cbn [negb]. destruct (FindLocation z q) as [loc m]. cbn [snd] in Hn. subst m.
    do 2 wstep. rewrite Hsoa. wstep. unfold delivers. simpl. by rewrite app_nil_r.
  - rewrite Hz, String.eqb_refl. cbn [negb].
    pose proof (LoadLocation_wp (CacheTimeout h) z q rs w1) as Hl.
    specialize (Hl (undisturbed_same _ _ Hs1 Hu) (record_cached_same _ _ _ _ _ Hs1 Hr)).
    destruct Hr as (_ & _ & Hm & _). destruct (FindLocation z q) as [loc m]. cbn [fst snd] in *.
    destruct m; [| |done]; (wstep; eapply wp_mono; [|apply Hl]); intros o w2 (p & r & -> & Hp & Hrr & Hs2);
      do 2 wstep; (assert (w_heap w2 !! p = Some r) as Hp2 by (by destruct Hs2 as (_ & _ & -> & _)));
      rewrite Hp2; simpl default; (eapply wp_mono; [|eapply (resolve_data raw z c q rs p r ans soa); try done]);
      intros [c' rc'] w' (Hs' & Hrest); (split; [|exact Hrest]); trans w2; try done; by trans w1.
Qed.

(** ** The whole request *)

(** A request for a name of a cached zone, without DNSSEC and source logging: the
    reply is what the loop delivers. *)
Lemma HandleRequest_delivers c r w zn z a u rc :
  LogSourceLocation h = false -> c_Req c = Some r -> undisturbed w ->
  FindZone (w_Zones w) (fst (RawName c)) = zn -> zn <> "" -> zone_cached w zn z ->
  (DnsSec (z_Config z) = false \/ req_Do (c_Req c) = false) ->
  (forall c1 w1, same_data w w1 -> same_client c c1 -> c_Answer c1 = c_Answer c -> c_Authority c1 = c_Authority c ->
     c_Additional c1 = c_Additional c ->
     wp False (resolveLoop h 11 (fst (RawName c)) zn z c1 (fst (RawName c))) (delivers c1 w1 a u (c_Additional c) rc) w1) ->
  wp False (HandleRequest h c) (fun _ w' => exists m tl,
    w_events w' = w_events w ++ Wrote (c_W c) (req_Scrub (c_W c) (c_Req c) (req_SizeAndDo (c_W c) (c_Req c) m)) :: tl /\
    m_Rcode m = rc /\ m_Answer m = a /\ m_Ns m = u /\ m_Extra m = c_Additional c) w.
Proof.
  intros Hlog Hr Hu Hz Hne Hzc Hsec Hloop. unfold HandleRequest, logSource. rewrite Hlog. do 2 wstep.
  destruct (RawName_client c) as ([Hs2 _] & Ha2 & Hu2 & Hd2). destruct (RawName c) as [raw c2]. cbn [fst snd] in *.
  wstep. eapply wp_mono; [|by apply FindZone_wp]. intros zn' w1 [-> Hw1]. rewrite Hz, (proj2 (String.eqb_neq _ _) Hne).
  assert (zone_cached w1 zn z) as Hzc1 by (unfold zone_cached in *; by destruct Hw1 as (_ & _ & _ & -> & _)).
  wstep. eapply wp_mono; [|by apply (LoadZone_wp _ zn z); [eapply undisturbed_same|]]. intros o w2 [-> Hw2].
  wstep. assert (same_data w w2) as Hw by (by trans w1).
  eapply wp_mono; [|apply (Hloop (with_log _ c2) w2); try done].
  intros [c3 rc3] w3 (Hw3 & Hs3 & Hrc & Ha & Hau & Hx). cbn [fst snd] in *. subst rc3.
  assert (same_client c c3) as Hs by (by eapply same_client_trans).
  assert (wp False (secure raw z c3 rc) (fun o w' => o = (c3, rc) /\ w' = w3) w3) as Hsecure.
  { unfold secure. destruct Hs as (-> & _). assert (req_Do (c_Req c) && c_Auth c3 && DnsSec (z_Config z) = false) as ->.
    { destruct Hsec as [-> | ->]; [by rewrite andb_false_r|done]. }
    by wstep. }
  wstep. eapply wp_mono; [|apply Hsecure]. intros o w4 [-> ->]. unfold h_Response, LogRequest. do 6 wstep.
  eapply wp_mono; [|apply (Response_spec _ _ r); cbn [c_Req with_log]; destruct Hs as [-> _]; exact Hr].
  intros [] w5 (m & (Mr & Ma & Mu & Mx & _) & Hev & _). eexists m, _. destruct Hs as (Hq & Hcw & _).
  split; [|split_and!; [exact Mr|rewrite Ma; exact Ha|rewrite Mu; exact Hau|rewrite Mx; exact Hx]].
  rewrite Hev. cbn [c_W c_Req with_log]. rewrite Hq, Hcw. f_equal. change (w_events w3 = w_events w).
  destruct Hw as (_ & _ & _ & _ & <-), Hw3 as (_ & _ & _ & _ & <-). done.
Qed.


(** C17: a CNAME chain of more than ten links, a loop among them, ends the request
    with a server failure and an empty answer. *)
Theorem HandleRequest_cname_loop c r w zn z l q :
  LogSourceLocation h = false -> c_Req c = Some r -> c_Authority c = [] -> c_Additional c = [] ->
  undisturbed w -> FindZone (w_Zones w) (fst (RawName c)) = zn -> zn <> "" -> zone_cached w zn z ->
  CnameFlattening (z_Config z) = false -> (DnsSec (z_Config z) = false \/ req_Do (c_Req c) = false) ->
  req_QType (c_Req c) <> TypeCNAME ->
  cname_chain w zn z (fst (RawName c)) l q -> length l = 11%nat ->
  wp False (HandleRequest h c) (fun _ w' => exists m tl,
    w_events w' = w_events w ++ Wrote (c_W c) (req_Scrub (c_W c) (c_Req c) (req_SizeAndDo (c_W c) (c_Req c) m)) :: tl /\
    m_Rcode m = RcodeServerFailure /\ m_Answer m = [] /\ m_Ns m = [] /\ m_Extra m = []) w.
Proof.
  intros Hlog Hr Hau Hx Hu Hz Hne Hzc Hf Hsec Hq Hch Hl. rewrite <- Hx.
  eapply (HandleRequest_delivers c r w zn z); try done.
  intros c1 w1 Hs1 (Hq1 & ? & ?) Ha1 Hu1 Hx1. rewrite <- Hq1 in *. rewrite <- Hl, <- (Nat.add_0_r (length l)).
  eapply resolve_chain; try done; [by eapply undisturbed_same|by eapply chain_same|].
  intros w2 Hs2. cbn [resolveLoop]. wstep. unfold delivers. cbn. split_and!; try done; congruence.
Qed.
End Resolve.

(** ** Runs *)

(** The clock stands still; the caches hold the sample zone and its records. *)
Definition frozen_env : Env (L := serve_libs) := {|
  env_now _ := 0; env_redis _ rs := rs; env_status _ rs := rs; env_zones _ z := z; env_keeps _ _ := true;
  env_exchange _ _ _ _ := None; env_http _ _ _ _ := inr 200; env_ping _ _ _ := mkPingIO None (fun _ => None) (fun _ => None) (inr (inr 0)); env_write _ := true;
  env_drained _ := 0%nat; env_range _ A l := l; env_range_perm _ A l := reflexivity l
|}.
Definition warm_zone : Zone :=
  mkZone "example.com." (mkZoneConfig "" (Some soa_example) false false) {["www"; "alias"; "a"; "b"]} None None None 60.
Definition warm_entry (doc : string) : Record_ :=
  mkRecord (sample_records doc locationDefaults) (Some warm_zone) (doc +:+ ".example.com.") 60.
Definition warm_world : World (L := serve_libs) :=
  set_heap {[1 := warm_entry "www"; 2 := warm_entry "alias"; 3 := warm_entry "a"; 4 := warm_entry "b"]}%positive
    (set_RecordCache {["www.example.com." := 1; "alias.example.com." := 2; "a.example.com." := 3; "b.example.com." := 4]}%positive
      (set_ZoneCache {["example.com." := warm_zone]} serve_world)).

Lemma warm_zone_cached : zone_cached (E := frozen_env) warm_world "example.com." warm_zone.
Proof. split; [by_run|]. intros t. by vm_compute. Qed.

(** Records of the sample zone as they are cached. *)
Definition doc_of (q : string) : string :=
  if String.eqb q "alias.example.com." then "alias" else if String.eqb q "a.example.com." then "a"
  else if String.eqb q "b.example.com." then "b" else "www".

Lemma warm_record q :
  q ∈ ["alias.example.com."; "a.example.com."; "b.example.com."; "www.example.com."] ->
  record_cached (E := frozen_env) warm_world warm_zone q (sample_records (doc_of q) locationDefaults).
Proof.
  rewrite !elem_of_cons, elem_of_nil. intros Hq.
  destruct Hq as [->|[->|[->|[->|[]]]]]; eexists _, _; split_and!;
    try (vm_compute; reflexivity); try (by vm_compute); intros t; by vm_compute.
Qed.

Definition warm_soa : RR := match soa_rr warm_zone with Done s => s | _ => txt_example end.
Definition warm_answer : list RR :=
  h_A 300 "www.example.com." (sample_records "www" locationDefaults) (map ip_Ip (ip_Data sample_ips)).


Lemma HandleRequest_cname_loop_witness :
  wp False (HandleRequest (E := frozen_env) serve_handler (sample_context "a.example.com." TypeA))
    (fun _ w' => exists m tl, w_events w' = w_events warm_world ++ Wrote (L := serve_libs) "10.9.9.9" m :: tl /\
       m_Rcode m = RcodeServerFailure /\ m_Answer m = []) warm_world.
Proof.
  set (ab := fun q : string => (q, sample_records (doc_of q) locationDefaults)).
  eapply wp_mono; [|apply (HandleRequest_cname_loop (E := frozen_env) (DL := SampleDnsLaws) serve_handler
    (sample_context "a.example.com." TypeA) (question "a.example.com." TypeA) warm_world "example.com." warm_zone
    (map ab ["a.example.com."; "b.example.com."; "a.example.com."; "b.example.com."; "a.example.com."; "b.example.com.";
             "a.example.com."; "b.example.com."; "a.example.com."; "b.example.com."; "a.example.com."]) "b.example.com.")].
  - intros [] w' (m & tl & Hev & Hrc & Ha & _). exists m, tl. split; [exact Hev|].
    split; [exact Hrc|exact Ha].
  - reflexivity.
  - reflexivity.
  - reflexivity.
  - reflexivity.
  - split; reflexivity.
  - by_run.
  - discriminate.
  - apply warm_zone_cached.
  - by_run.
  - left. by_run.
  - discriminate.
  - unfold ab. repeat (eapply chain_cname; [by_run|apply warm_record; set_solver|reflexivity|]). constructor.
  - reflexivity.
Defined.
