(* ===== verification/Config.v ===== *)
(** The configuration of the server (redins.go, handler/handler.go) and how it is
    loaded.

    [LoadConfig] decodes the file into the value that [redinsDefaultConfig] points
    to and returns that pointer, so the configuration is one shared cell: [cell]
    is its content, threaded through the calls.  How it is written and read is given
    by the tags of its structs, as codecs on the JSON values of JsonText.v. *)
From S2P Require Import Prelude GoStrings JsonText GoNet GoCache Monad Deps OrderIps GeoIp Limiter Server World Sample Upstream Health.

(** [DnsRequestHandlerConfig] and [RedinsConfig] *)
Record DnsRequestHandlerConfig := mkHandlerConfig {
  hcfg_Upstream : list UpstreamConfig;
  hcfg_GeoIp : GeoIpConfig;
  hcfg_HealthCheck : HealthcheckConfig;
  hcfg_MaxTtl : Z;
  hcfg_CacheTimeout : Z;
  hcfg_ZoneReload : Z;
  hcfg_LogSourceLocation : bool;
  hcfg_Redis : RedisConfig;
  hcfg_Log : LogConfig
}.

Record RedinsConfig := mkRedinsConfig {
  cfg_Server : list ServerConfig;
  cfg_ErrorLog : LogConfig;
  cfg_Handler : DnsRequestHandlerConfig;
  cfg_RateLimit : RateLimiterConfig
}.

(** [time.RFC3339] *)
Definition RFC3339 : string := "2006-01-02T15:04:05Z07:00".

(** The default configuration; its last two parts first. *)
Definition defaultErrorLog : LogConfig := {|
  log_Enable := true; log_Target := "stdout"; log_Level := "info"; log_Path := "/tmp/error.log";
  log_Format := "text"; log_TimeFormat := RFC3339;
  log_Sentry := {| sentry_Enable := false; sentry_DSN := "" |};
  log_Syslog := {| syslog_Enable := false; syslog_Protocol := "tcp"; syslog_Address := "locahost:514" |};
  log_Kafka := {| kafka_Enable := false; kafka_Topic := "redins"; kafka_Brokers := ["127.0.0.1:9092"];
    kafka_Format := "json"; kafka_Compression := "none"; kafka_Timeout := 3000; kafka_BufferSize := 1000 |} |}.
Definition defaultRateLimit : RateLimiterConfig :=
  {| rlc_Enable := false; rlc_Rate := 60; rlc_Burst := 10; rlc_BlackList := []; rlc_WhiteList := [] |}.

Definition redinsDefaultConfig : RedinsConfig := {|
  cfg_Server := [
    {| sc_Ip := "127.0.0.1"; sc_Port := 1053; sc_Protocol := "udp"; sc_Count := 1;
       sc_Tls := {| tls_Enable := false; CertPath := ""; KeyPath := ""; CaPath := "" |} |}];
  cfg_Handler := {|
    hcfg_Upstream := [{| us_Ip := "1.1.1.1"; us_Port := 53; us_Protocol := "udp"; us_Timeout := 400 |}];
    hcfg_GeoIp := {| gcfg_Enable := false; gcfg_CountryDB := "geoCity.mmdb"; gcfg_ASNDB := "geoIsp.mmdb" |};
    hcfg_HealthCheck := {|
      hcc_Enable := false; hcc_MaxRequests := 10; hcc_MaxPendingRequests := 100;
      hcc_UpdateInterval := 600; hcc_CheckInterval := 600;
      hcc_RedisStatusServer := {|
        rc_Address := "127.0.0.1:6379"; rc_Net := "tcp"; rc_DB := 0; rc_Password := "";
        rc_Prefix := "redins_"; rc_Suffix := "_redins";
        rc_Connection := {| MaxIdleConnections := 10; MaxActiveConnections := 10; ConnectTimeout := 500;
          ReadTimeout := 500; IdleKeepAlive := 30; MaxKeepAlive := 0; WaitForConnection := false |} |};
      hcc_Log := {|
        log_Enable := true; log_Target := "file"; log_Level := "info"; log_Path := "/tmp/healthcheck.log";
        log_Format := "json"; log_TimeFormat := RFC3339;
        log_Sentry := {| sentry_Enable := false; sentry_DSN := "" |};
        log_Syslog := {| syslog_Enable := false; syslog_Protocol := "tcp"; syslog_Address := "localhost:514" |};
        log_Kafka := {| kafka_Enable := false; kafka_Topic := "redins"; kafka_Brokers := ["127.0.0.1:9092"];
          kafka_Format := "json"; kafka_Compression := "none"; kafka_Timeout := 3000; kafka_BufferSize := 1000 |} |} |};
    hcfg_MaxTtl := 3600; hcfg_CacheTimeout := 60; hcfg_ZoneReload := 600; hcfg_LogSourceLocation := false;
    hcfg_Redis := {|
      rc_Address := "127.0.0.1:6379"; rc_Net := "tcp"; rc_DB := 0; rc_Password := "";
      rc_Prefix := "redins_"; rc_Suffix := "_redins";
      rc_Connection := {| MaxIdleConnections := 10; MaxActiveConnections := 10; ConnectTimeout := 500;
        ReadTimeout := 500; IdleKeepAlive := 30; MaxKeepAlive := 0; WaitForConnection := false |} |};
    hcfg_Log := {|
      log_Enable := true; log_Target := "file"; log_Level := "info"; log_Path := "/tmp/redins.log";
      log_Format := "json"; log_TimeFormat := RFC3339;
      log_Sentry := {| sentry_Enable := false; sentry_DSN := "" |};
      log_Syslog := {| syslog_Enable := false; syslog_Protocol := "tcp"; syslog_Address := "localhost:514" |};
      log_Kafka := {| kafka_Enable := false; kafka_Topic := "redins"; kafka_Brokers := ["127.0.0.1:9092"];
        kafka_Format := "json"; kafka_Compression := "none"; kafka_Timeout := 3000; kafka_BufferSize := 1000 |} |} |};
  cfg_ErrorLog := defaultErrorLog;
  cfg_RateLimit := defaultRateLimit
|}.

(** ** The fields and their tags *)

Section Codecs.
(** The structs of other packages. *)
Context (c_log : Codec LogConfig) (c_redis : Codec RedisConfig).

Definition c_TlsConfig : Codec TlsConfig := c_struct [
  field "enable" c_bool tls_Enable (fun x '(mkTlsConfig _ b c d) => mkTlsConfig x b c d);
  field "cert_path" c_string CertPath (fun x '(mkTlsConfig a _ c d) => mkTlsConfig a x c d);
  field "key_path" c_string KeyPath (fun x '(mkTlsConfig a b _ d) => mkTlsConfig a b x d);
  field "ca_path" c_string CaPath (fun x '(mkTlsConfig a b c _) => mkTlsConfig a b c x)].
Definition c_ServerConfig : Codec ServerConfig := c_struct [
  field "ip" c_string sc_Ip (fun x '(mkServerConfig _ b c d e) => mkServerConfig x b c d e);
  field "port" c_int sc_Port (fun x '(mkServerConfig a _ c d e) => mkServerConfig a x c d e);
  field "protocol" c_string sc_Protocol (fun x '(mkServerConfig a b _ d e) => mkServerConfig a b x d e);
  field "count" c_int sc_Count (fun x '(mkServerConfig a b c _ e) => mkServerConfig a b c x e);
  field "tls" c_TlsConfig sc_Tls (fun x '(mkServerConfig a b c d _) => mkServerConfig a b c d x)].
Definition c_UpstreamConfig : Codec UpstreamConfig := c_struct [
  field "ip" c_string us_Ip (fun x '(mkUpstreamConfig _ b c d) => mkUpstreamConfig x b c d);
  field "port" c_int us_Port (fun x '(mkUpstreamConfig a _ c d) => mkUpstreamConfig a x c d);
  field "protocol" c_string us_Protocol (fun x '(mkUpstreamConfig a b _ d) => mkUpstreamConfig a b x d);
  field "timeout" c_int us_Timeout (fun x '(mkUpstreamConfig a b c _) => mkUpstreamConfig a b c x)].
Definition c_GeoIpConfig : Codec GeoIpConfig := c_struct [
  field "enable" c_bool gcfg_Enable (fun x '(mkGeoIpConfig _ b c) => mkGeoIpConfig x b c);
  field "country_db" c_string gcfg_CountryDB (fun x '(mkGeoIpConfig a _ c) => mkGeoIpConfig a x c);
  field "asn_db" c_string gcfg_ASNDB (fun x '(mkGeoIpConfig a b _) => mkGeoIpConfig a b x)].
Definition c_HealthcheckConfig : Codec HealthcheckConfig := c_struct [
  field "enable" c_bool hcc_Enable (fun x '(mkHealthcheckConfig _ b c d e f g) => mkHealthcheckConfig x b c d e f g);
  field "max_requests" c_int hcc_MaxRequests (fun x '(mkHealthcheckConfig a _ c d e f g) => mkHealthcheckConfig a x c d e f g);
  field "max_pending_requests" c_int hcc_MaxPendingRequests (fun x '(mkHealthcheckConfig a b _ d e f g) => mkHealthcheckConfig a b x d e f g);
  field "update_interval" c_int hcc_UpdateInterval (fun x '(mkHealthcheckConfig a b c _ e f g) => mkHealthcheckConfig a b c x e f g);
  field "check_interval" c_int hcc_CheckInterval (fun x '(mkHealthcheckConfig a b c d _ f g) => mkHealthcheckConfig a b c d x f g);
  field "redis" c_redis hcc_RedisStatusServer (fun x '(mkHealthcheckConfig a b c d e _ g) => mkHealthcheckConfig a b c d e x g);
  field "log" c_log hcc_Log (fun x '(mkHealthcheckConfig a b c d e f _) => mkHealthcheckConfig a b c d e f x)].
Definition c_RateLimiterConfig : Codec RateLimiterConfig := c_struct [
  field "enable" c_bool rlc_Enable (fun x r => {| rlc_Enable := x; rlc_Burst := rlc_Burst r; rlc_Rate := rlc_Rate r;
    rlc_WhiteList := rlc_WhiteList r; rlc_BlackList := rlc_BlackList r |});
  field "burst" c_int rlc_Burst (fun x r => {| rlc_Enable := rlc_Enable r; rlc_Burst := x; rlc_Rate := rlc_Rate r;
    rlc_WhiteList := rlc_WhiteList r; rlc_BlackList := rlc_BlackList r |});
  field "rate" c_int rlc_Rate (fun x r => {| rlc_Enable := rlc_Enable r; rlc_Burst := rlc_Burst r; rlc_Rate := x;
    rlc_WhiteList := rlc_WhiteList r; rlc_BlackList := rlc_BlackList r |});
  field "whitelist" (c_slice c_string "") rlc_WhiteList (fun x r => {| rlc_Enable := rlc_Enable r; rlc_Burst := rlc_Burst r;
    rlc_Rate := rlc_Rate r; rlc_WhiteList := x; rlc_BlackList := rlc_BlackList r |});
  field "blacklist" (c_slice c_string "") rlc_BlackList (fun x r => {| rlc_Enable := rlc_Enable r; rlc_Burst := rlc_Burst r;
    rlc_Rate := rlc_Rate r; rlc_WhiteList := rlc_WhiteList r; rlc_BlackList := x |})].
Definition c_HandlerConfig : Codec DnsRequestHandlerConfig := c_struct [
  field "upstream" (c_slice c_UpstreamConfig (mkUpstreamConfig "" 0 "" 0)) hcfg_Upstream
    (fun x '(mkHandlerConfig _ b c d e f g h i) => mkHandlerConfig x b c d e f g h i);
  field "geoip" c_GeoIpConfig hcfg_GeoIp (fun x '(mkHandlerConfig a _ c d e f g h i) => mkHandlerConfig a x c d e f g h i);
  field "healthcheck" c_HealthcheckConfig hcfg_HealthCheck (fun x '(mkHandlerConfig a b _ d e f g h i) => mkHandlerConfig a b x d e f g h i);
  field "max_ttl" c_int hcfg_MaxTtl (fun x '(mkHandlerConfig a b c _ e f g h i) => mkHandlerConfig a b c x e f g h i);
  field "cache_timeout" c_int hcfg_CacheTimeout (fun x '(mkHandlerConfig a b c d _ f g h i) => mkHandlerConfig a b c d x f g h i);
  field "zone_reload" c_int hcfg_ZoneReload (fun x '(mkHandlerConfig a b c d e _ g h i) => mkHandlerConfig a b c d e x g h i);
  field "log_source_location" c_bool hcfg_LogSourceLocation (fun x '(mkHandlerConfig a b c d e f _ h i) => mkHandlerConfig a b c d e f x h i);
  field "redis" c_redis hcfg_Redis (fun x '(mkHandlerConfig a b c d e f g _ i) => mkHandlerConfig a b c d e f g x i);
  field "log" c_log hcfg_Log (fun x '(mkHandlerConfig a b c d e f g h _) => mkHandlerConfig a b c d e f g h x)].
Definition c_RedinsConfig : Codec RedinsConfig := c_struct [
  field "server" (c_slice c_ServerConfig (mkServerConfig "" 0 "" 0 (mkTlsConfig false "" "" ""))) cfg_Server
    (fun x '(mkRedinsConfig _ b c d) => mkRedinsConfig x b c d);
  field "error_log" c_log cfg_ErrorLog (fun x '(mkRedinsConfig a _ c d) => mkRedinsConfig a x c d);
  field "handler" c_HandlerConfig cfg_Handler (fun x '(mkRedinsConfig a b _ d) => mkRedinsConfig a b x d);
  field "ratelimit" c_RateLimiterConfig cfg_RateLimit (fun x '(mkRedinsConfig a b c _) => mkRedinsConfig a b c x)].

(** The numbers of the configuration are ints, and the parts that other packages
    define can be written and read back. *)
Definition server_ints (s : ServerConfig) : Prop := in_int (sc_Port s) = true /\ in_int (sc_Count s) = true.
Definition upstream_ints (u : UpstreamConfig) : Prop := in_int (us_Port u) = true /\ in_int (us_Timeout u) = true.
Definition config_ints (c : RedinsConfig) : Prop :=
  let h := cfg_Handler c in let hc := hcfg_HealthCheck h in
  Forall server_ints (cfg_Server c) /\ Forall upstream_ints (hcfg_Upstream h) /\
  Forall (fun n => in_int n = true) [hcc_MaxRequests hc; hcc_MaxPendingRequests hc; hcc_UpdateInterval hc; hcc_CheckInterval hc;
    hcfg_MaxTtl h; hcfg_CacheTimeout h; hcfg_ZoneReload h; rlc_Burst (cfg_RateLimit c); rlc_Rate (cfg_RateLimit c)].

Lemma lawful_TlsConfig t : lawful c_TlsConfig t.
Proof. destruct t. struct_lawful. Qed.
Hint Resolve lawful_TlsConfig : json.

Lemma lawful_ServerConfig s : server_ints s -> lawful c_ServerConfig s.
Proof. destruct s. intros [Hp Hc]. struct_lawful. Qed.

Lemma lawful_UpstreamConfig u : upstream_ints u -> lawful c_UpstreamConfig u.
Proof. destruct u. intros [Hp Ht]. struct_lawful. Qed.

Lemma lawful_GeoIpConfig g : lawful c_GeoIpConfig g.
Proof. destruct g. struct_lawful. Qed.
Hint Resolve lawful_GeoIpConfig : json.

Lemma lawful_HealthcheckConfig h :
  Forall (fun n => in_int n = true) [hcc_MaxRequests h; hcc_MaxPendingRequests h; hcc_UpdateInterval h; hcc_CheckInterval h] ->
  lawful c_redis (hcc_RedisStatusServer h) -> lawful c_log (hcc_Log h) -> lawful c_HealthcheckConfig h.
Proof. destruct h. rewrite !Forall_cons. intros (H1 & H2 & H3 & H4 & _) Hr Hl. struct_lawful. Qed.

Lemma lawful_RateLimiterConfig r : in_int (rlc_Burst r) = true -> in_int (rlc_Rate r) = true -> lawful c_RateLimiterConfig r.
Proof. destruct r. intros Hb Hr. struct_lawful. Qed.

(** What is written for a configuration reads as that configuration. *)
Lemma lawful_RedinsConfig c : config_ints c ->
  lawful c_redis (hcfg_Redis (cfg_Handler c)) -> lawful c_redis (hcc_RedisStatusServer (hcfg_HealthCheck (cfg_Handler c))) ->
  lawful c_log (hcfg_Log (cfg_Handler c)) -> lawful c_log (hcc_Log (hcfg_HealthCheck (cfg_Handler c))) -> lawful c_log (cfg_ErrorLog c) ->
  lawful c_RedinsConfig c.
Proof.
  destruct c as [servers errlog [ups geo hc ttl ct zr ls redis log] rl]. unfold config_ints.
  cbn -[in_int lawful]. rewrite !Forall_cons. intros (Hs & Hu & H1 & H2 & H3 & H4 & H5 & H6 & H7 & H8 & H9 & _) Hr1 Hr2 Hl1 Hl2 Hl3.
  assert (lawful (c_slice c_ServerConfig (mkServerConfig "" 0 "" 0 (mkTlsConfig false "" "" ""))) servers).
  { apply lawful_slice. eapply Forall_impl; [exact Hs|apply lawful_ServerConfig]. }
  assert (lawful (c_slice c_UpstreamConfig (mkUpstreamConfig "" 0 "" 0)) ups).
  { apply lawful_slice. eapply Forall_impl; [exact Hu|apply lawful_UpstreamConfig]. }
  assert (lawful c_HealthcheckConfig hc) by (apply lawful_HealthcheckConfig; [rewrite !Forall_cons; split_and!; done|done..]).
  pose proof (lawful_RateLimiterConfig rl H8 H9).
  assert (lawful c_HandlerConfig (mkHandlerConfig ups geo hc ttl ct zr ls redis log)) by struct_lawful.
  struct_lawful.
Qed.
End Codecs.

(** ** Loading and generating *)

(** jsoniter on [RedinsConfig]: decoding into an existing value with
    DisallowUnknownFields, the error last; and MarshalIndent. *)
Class ConfigJson := {
  json_decode_redins : string -> RedinsConfig -> RedinsConfig * option string;
  json_encode_redins : RedinsConfig -> option string
}.

(** All strings of a configuration. *)
Definition redis_strings (c : RedisConfig) : list string :=
  [rc_Address c; rc_Net c; rc_Password c; rc_Prefix c; rc_Suffix c].
Definition log_strings (c : LogConfig) : list string :=
  [log_Target c; log_Level c; log_Path c; log_Format c; log_TimeFormat c; sentry_DSN (log_Sentry c);
   syslog_Protocol (log_Syslog c); syslog_Address (log_Syslog c); kafka_Topic (log_Kafka c);
   kafka_Format (log_Kafka c); kafka_Compression (log_Kafka c)] ++ kafka_Brokers (log_Kafka c).
Definition config_strings (c : RedinsConfig) : list string :=
  (s ← cfg_Server c; [sc_Ip s; sc_Protocol s; CertPath (sc_Tls s); KeyPath (sc_Tls s); CaPath (sc_Tls s)]) ++
  (u ← hcfg_Upstream (cfg_Handler c); [us_Ip u; us_Protocol u]) ++
  [gcfg_CountryDB (hcfg_GeoIp (cfg_Handler c)); gcfg_ASNDB (hcfg_GeoIp (cfg_Handler c))] ++
  redis_strings (hcc_RedisStatusServer (hcfg_HealthCheck (cfg_Handler c))) ++ log_strings (hcc_Log (hcfg_HealthCheck (cfg_Handler c))) ++
  redis_strings (hcfg_Redis (cfg_Handler c)) ++ log_strings (hcfg_Log (cfg_Handler c)) ++ log_strings (cfg_ErrorLog c) ++
  rlc_BlackList (cfg_RateLimit c) ++ rlc_WhiteList (cfg_RateLimit c).

Definition redis_ints (c : RedisConfig) : list Z :=
  let n := rc_Connection c in
  [rc_DB c; MaxIdleConnections n; MaxActiveConnections n; ConnectTimeout n; ReadTimeout n; IdleKeepAlive n; MaxKeepAlive n].
Definition log_ints (c : LogConfig) : list Z := [kafka_Timeout (log_Kafka c); kafka_BufferSize (log_Kafka c)].
Definition all_ints (c : RedinsConfig) : Prop :=
  let ints := Forall (fun n => in_int n = true) in let h := cfg_Handler c in
  config_ints c /\ ints (redis_ints (hcfg_Redis h)) /\ ints (redis_ints (hcc_RedisStatusServer (hcfg_HealthCheck h))) /\
  ints (log_ints (hcfg_Log h)) /\ ints (log_ints (hcc_Log (hcfg_HealthCheck h))) /\ ints (log_ints (cfg_ErrorLog c)).

(** What is assumed of jsoniter: MarshalIndent writes a JSON text of the value by
    the struct tags; decoding a JSON text assigns its members to the fields by the
    tags.  Of the structs of other packages only that what is written for them can
    be read back. *)
Class ConfigJsonLaws (J : ConfigJson) := {
  json_log : Codec LogConfig;
  json_redis : Codec RedisConfig;
  json_log_lawful : forall c, Forall (fun n => in_int n = true) (log_ints c) -> lawful json_log c;
  json_redis_lawful : forall c, Forall (fun n => in_int n = true) (redis_ints c) -> lawful json_redis c;
  json_encode_text : forall c s, Forall utf8 (config_strings c) -> json_encode_redins c = Some s ->
    parse s = Some (enc (c_RedinsConfig json_log json_redis) c);
  json_decode_text : forall s v c c', parse s = Some v -> dec (c_RedinsConfig json_log json_redis) v c = Some c' ->
    json_decode_redins s c = (c', None)
}.

Section Load.
Context {J : ConfigJson}.

(** The files: content, or the error of opening. *)
Definition Files : Type := string -> string + string.

(** [LoadConfig]: the new content of the cell and the error.  Both error returns
    hand out the same pointer. *)
Definition LoadConfig (open : Files) (path : string) (cell : RedinsConfig) : RedinsConfig * option string :=
  match open path with
  | inr err => (cell, Some err)
  | inl doc => json_decode_redins doc cell
  end.

(** The [-g] branch of [main]: the template could not be encoded, not be written
    (with the error of [ioutil.WriteFile]), or is in the file. *)
Inductive Generate :=
  | MarshalFailed
  | WriteFailed (path err : string)
  | Written (path data : string).

Definition generateConfig (writeFile : string -> string -> option string) (path : string) (cell : RedinsConfig) : Generate :=
  match json_encode_redins cell with
  | None => MarshalFailed
  | Some data =>
      match writeFile path data with
      | Some err => WriteFailed path err
      | None => Written path data
      end
  end.

(** Loading again and again, as SIGHUP does. *)
Fixpoint reloads (opens : list Files) (path : string) (cell : RedinsConfig) : RedinsConfig :=
  match opens with
  | [] => cell
  | o :: opens' => reloads opens' path (fst (LoadConfig o path cell))
  end.

Lemma default_utf8 : Forall utf8 (config_strings redinsDefaultConfig).
Proof. repeat constructor. Qed.

Context {JL : ConfigJsonLaws J}.

(** A file that sets everything gives its configuration, whatever was loaded before. *)
Lemma load_complete open path c doc cell :
  Forall utf8 (config_strings c) -> all_ints c -> json_encode_redins c = Some doc -> open path = inl doc ->
  LoadConfig open path cell = (c, None).
Proof.
  intros Hu (Hi & Hr1 & Hr2 & Hl1 & Hl2 & Hl3) He Ho. unfold LoadConfig. rewrite Ho.
  eapply json_decode_text; [by apply json_encode_text|].
  apply lawful_RedinsConfig; auto using json_log_lawful, json_redis_lawful.
Qed.

(** C33: the template is the default configuration.  The file that [-g] writes
    loads without an error, also after any number of other loads in the same
    process, and gives exactly the built-in defaults: every tag names one field, and
    every field that is written is read back. *)
Theorem template_roundtrip writeFile file path data opens :
  generateConfig writeFile file redinsDefaultConfig = Written path data ->
  path = file /\ forall open, open path = inl data ->
  LoadConfig open path (reloads opens path redinsDefaultConfig) = (redinsDefaultConfig, None).
Proof.
  unfold generateConfig. destruct (json_encode_redins _) as [s|] eqn:Es; [|done].
  destruct (writeFile file s); [done|]. intros [= <- <-]. split; [done|]. intros open Ho.
  eapply load_complete; [apply default_utf8| |exact Es|exact Ho]. repeat constructor.
Qed.

(** One that is gone or cannot be opened leaves the cell as it is. *)
Lemma reload_missing opens open path err :
  open path = inr err ->
  fst (LoadConfig open path (reloads opens path redinsDefaultConfig)) = reloads opens path redinsDefaultConfig.
Proof. unfold LoadConfig. by intros ->. Qed.
End Load.

(** ** A codec, and runs *)

#[global] Instance RedisConnectionConfig_eq_dec : EqDecision RedisConnectionConfig.
Proof. solve_decision. Defined.
#[global] Instance RedisConfig_eq_dec : EqDecision RedisConfig.
Proof. solve_decision. Defined.
#[global] Instance SentryConfig_eq_dec : EqDecision SentryConfig.
Proof. solve_decision. Defined.
#[global] Instance SyslogConfig_eq_dec : EqDecision SyslogConfig.
Proof. solve_decision. Defined.
#[global] Instance KafkaConfig_eq_dec : EqDecision KafkaConfig.
Proof. solve_decision. Defined.
#[global] Instance LogConfig_eq_dec : EqDecision LogConfig.
Proof. solve_decision. Defined.
#[global] Instance TlsConfig_eq_dec : EqDecision TlsConfig.
Proof. solve_decision. Defined.
#[global] Instance ServerConfig_eq_dec : EqDecision ServerConfig.
Proof. solve_decision. Defined.
#[global] Instance UpstreamConfig_eq_dec : EqDecision UpstreamConfig.
Proof. solve_decision. Defined.
#[global] Instance GeoIpConfig_eq_dec : EqDecision GeoIpConfig.
Proof. solve_decision. Defined.
#[global] Instance HealthcheckConfig_eq_dec : EqDecision HealthcheckConfig.
Proof. solve_decision. Defined.
#[global] Instance RateLimiterConfig_eq_dec : EqDecision RateLimiterConfig.
Proof. solve_decision. Defined.
#[global] Instance DnsRequestHandlerConfig_eq_dec : EqDecision DnsRequestHandlerConfig.
Proof. solve_decision. Defined.
#[global] Instance RedinsConfig_eq_dec : EqDecision RedinsConfig.
Proof. solve_decision. Defined.

(** The structs of the other packages, with the tags that the template in the
    repository shows. *)
Definition c_Connection : Codec RedisConnectionConfig := c_struct [
  field "max_idle_connections" c_int MaxIdleConnections (fun x '(mkRedisConnectionConfig _ b c d e f g) => mkRedisConnectionConfig x b c d e f g);
  field "max_active_connections" c_int MaxActiveConnections (fun x '(mkRedisConnectionConfig a _ c d e f g) => mkRedisConnectionConfig a x c d e f g);
  field "connect_timeout" c_int ConnectTimeout (fun x '(mkRedisConnectionConfig a b _ d e f g) => mkRedisConnectionConfig a b x d e f g);
  field "read_timeout" c_int ReadTimeout (fun x '(mkRedisConnectionConfig a b c _ e f g) => mkRedisConnectionConfig a b c x e f g);
  field "idle_keep_alive" c_int IdleKeepAlive (fun x '(mkRedisConnectionConfig a b c d _ f g) => mkRedisConnectionConfig a b c d x f g);
  field "max_keep_alive" c_int MaxKeepAlive (fun x '(mkRedisConnectionConfig a b c d e _ g) => mkRedisConnectionConfig a b c d e x g);
  field "wait_for_connection" c_bool WaitForConnection (fun x '(mkRedisConnectionConfig a b c d e f _) => mkRedisConnectionConfig a b c d e f x)].
Definition c_RedisConfig : Codec RedisConfig := c_struct [
  field "address" c_string rc_Address (fun x '(mkRedisConfig _ b c d e f g) => mkRedisConfig x b c d e f g);
  field "net" c_string rc_Net (fun x '(mkRedisConfig a _ c d e f g) => mkRedisConfig a x c d e f g);
  field "db" c_int rc_DB (fun x '(mkRedisConfig a b _ d e f g) => mkRedisConfig a b x d e f g);
  field "password" c_string rc_Password (fun x '(mkRedisConfig a b c _ e f g) => mkRedisConfig a b c x e f g);
  field "prefix" c_string rc_Prefix (fun x '(mkRedisConfig a b c d _ f g) => mkRedisConfig a b c d x f g);
  field "suffix" c_string rc_Suffix (fun x '(mkRedisConfig a b c d e _ g) => mkRedisConfig a b c d e x g);
  field "connection" c_Connection rc_Connection (fun x '(mkRedisConfig a b c d e f _) => mkRedisConfig a b c d e f x)].
Definition c_Sentry : Codec SentryConfig := c_struct [
  field "enable" c_bool sentry_Enable (fun x '(mkSentryConfig _ b) => mkSentryConfig x b);
  field "dsn" c_string sentry_DSN (fun x '(mkSentryConfig a _) => mkSentryConfig a x)].
Definition c_Syslog : Codec SyslogConfig := c_struct [
  field "enable" c_bool syslog_Enable (fun x '(mkSyslogConfig _ b c) => mkSyslogConfig x b c);
  field "protocol" c_string syslog_Protocol (fun x '(mkSyslogConfig a _ c) => mkSyslogConfig a x c);
  field "address" c_string syslog_Address (fun x '(mkSyslogConfig a b _) => mkSyslogConfig a b x)].
Definition c_Kafka : Codec KafkaConfig := c_struct [
  field "enable" c_bool kafka_Enable (fun x '(mkKafkaConfig _ b c d e f g) => mkKafkaConfig x b c d e f g);
  field "topic" c_string kafka_Topic (fun x '(mkKafkaConfig a _ c d e f g) => mkKafkaConfig a x c d e f g);
  field "brokers" (c_slice c_string "") kafka_Brokers (fun x '(mkKafkaConfig a b _ d e f g) => mkKafkaConfig a b x d e f g);
  field "format" c_string kafka_Format (fun x '(mkKafkaConfig a b c _ e f g) => mkKafkaConfig a b c x e f g);
  field "compression" c_string kafka_Compression (fun x '(mkKafkaConfig a b c d _ f g) => mkKafkaConfig a b c d x f g);
  field "timeout" c_int kafka_Timeout (fun x '(mkKafkaConfig a b c d e _ g) => mkKafkaConfig a b c d e x g);
  field "buffer_size" c_int kafka_BufferSize (fun x '(mkKafkaConfig a b c d e f _) => mkKafkaConfig a b c d e f x)].
Definition c_LogConfig : Codec LogConfig := c_struct [
  field "enable" c_bool log_Enable (fun x '(mkLogConfig _ b c d e f g h i) => mkLogConfig x b c d e f g h i);
  field "target" c_string log_Target (fun x '(mkLogConfig a _ c d e f g h i) => mkLogConfig a x c d e f g h i);
  field "level" c_string log_Level (fun x '(mkLogConfig a b _ d e f g h i) => mkLogConfig a b x d e f g h i);
  field "path" c_string log_Path (fun x '(mkLogConfig a b c _ e f g h i) => mkLogConfig a b c x e f g h i);
  field "format" c_string log_Format (fun x '(mkLogConfig a b c d _ f g h i) => mkLogConfig a b c d x f g h i);
  field "time_format" c_string log_TimeFormat (fun x '(mkLogConfig a b c d e _ g h i) => mkLogConfig a b c d e x g h i);
  field "sentry" c_Sentry log_Sentry (fun x '(mkLogConfig a b c d e f _ h i) => mkLogConfig a b c d e f x h i);
  field "syslog" c_Syslog log_Syslog (fun x '(mkLogConfig a b c d e f g _ i) => mkLogConfig a b c d e f g x i);
  field "kafka" c_Kafka log_Kafka (fun x '(mkLogConfig a b c d e f g h _) => mkLogConfig a b c d e f g h x)].

Lemma lawful_RedisConfig c : Forall (fun n => in_int n = true) (redis_ints c) -> lawful c_RedisConfig c.
Proof.
  destruct c as [ad ne db pw pre suf con]. unfold redis_ints. cbn -[in_int]. rewrite !Forall_cons.
  intros (H1 & H2 & H3 & H4 & H5 & H6 & H7 & _).
  assert (lawful c_Connection con) by (destruct con; struct_lawful). struct_lawful.
Qed.

Lemma lawful_LogConfig c : Forall (fun n => in_int n = true) (log_ints c) -> lawful c_LogConfig c.
Proof.
  destruct c as [en tg lv pa fo tf se sy ka]. unfold log_ints. cbn -[in_int]. rewrite !Forall_cons. intros (H1 & H2 & _).
  assert (lawful c_Sentry se) by (destruct se; struct_lawful). assert (lawful c_Syslog sy) by (destruct sy; struct_lawful).
  assert (lawful c_Kafka ka) by (destruct ka; struct_lawful). struct_lawful.
Qed.

(** A printer for values whose strings need no escapes. *)
Fixpoint print (v : JsonValue) : string :=
  match v with
  | JsNull => "null"
  | JsBool b => if b then "true" else "false"
  | JsInt n => Itoa n
  | JsReal l => l
  | JsStr s => quoted "'" +:+ s +:+ quoted "'"
  | JsArr vs => "[" +:+ String.concat "," (map print vs) +:+ "]"
  | JsObj ms => "{" +:+ String.concat "," (map (fun '(k, v) => quoted "'" +:+ k +:+ quoted "':" +:+ print v) ms) +:+ "}"
  end.

(** A codec that writes the template and reads every text the tags describe. *)
Definition c_sample : Codec RedinsConfig := c_RedinsConfig c_LogConfig c_RedisConfig.
Definition template : string := print (enc c_sample redinsDefaultConfig).
Definition SampleConfigJson : ConfigJson := {|
  json_decode_redins s c :=
    match parse s with
    | None => (c, Some "syntax error")
    | Some v => match dec c_sample v c with Some c' => (c', None) | None => (c, Some "decoding error") end
    end;
  json_encode_redins c := if bool_decide (c = redinsDefaultConfig) then Some template else None
|}.

Lemma parse_template : parse template = Some (enc c_sample redinsDefaultConfig).
Proof. vm_compute. reflexivity. Qed.

#[global] Instance SampleConfigJsonLaws : ConfigJsonLaws SampleConfigJson.
Proof.
  refine (Build_ConfigJsonLaws SampleConfigJson c_LogConfig c_RedisConfig lawful_LogConfig lawful_RedisConfig _ _).
  - intros c s _. cbn -[parse template enc]. case_bool_decide as Hc; [|done]. intros [= <-]. rewrite Hc. exact parse_template.
  - intros s v c c' Hp Hd. cbn [json_decode_redins SampleConfigJson]. unfold c_sample. by rewrite Hp, Hd.
Defined.

Lemma sample_generates : generateConfig (J := SampleConfigJson) (fun _ _ => None) "t.json" redinsDefaultConfig = Written "t.json" template.
Proof. unfold generateConfig. cbn -[template]. by rewrite bool_decide_true. Qed.

(** Three documents: one setting, two listeners, nothing. *)
Definition doc_max_ttl : string := quoted "{'handler': {'max_ttl': 10}}".
Definition doc_two_listeners : string := quoted
  "{'server': [{'ip': '127.0.0.1', 'port': 1053, 'protocol': 'udp', 'count': 2,
                'tls': {'enable': false, 'cert_path': '', 'key_path': '', 'ca_path': ''}}]}".
Definition doc_empty : string := "{}".

Lemma template_roundtrip_witness :
  LoadConfig (J := SampleConfigJson) (fun _ => inl template) "t.json"
    (reloads (J := SampleConfigJson) [fun _ => inl doc_max_ttl; fun _ => inr "no such file"] "t.json" redinsDefaultConfig)
  = (redinsDefaultConfig, None).
Proof.
  destruct (template_roundtrip (J := SampleConfigJson) (fun _ _ => None) "t.json" "t.json" template
    [fun _ => inl doc_max_ttl; fun _ => inr "no such file"] sample_generates) as [_ H].
  exact (H (fun _ => inl template) eq_refl).
Defined.

(** The template in the repository, but for its server, which has no count, gives
    the built-in defaults too. *)
Definition shipped_template : string := quoted
   "{'error_log': {'enable': true, 'target': 'stdout', 'level': 'info', 'path': '/tmp/error.log', 'format': 'text', 'time_format':
    '2006-01-02T15:04:05Z07:00', 'sentry': {'enable': false, 'dsn': ''}, 'syslog': {'enable': false, 'protocol': 'tcp', 'address':
    'locahost:514'}, 'kafka': {'enable': false, 'topic': 'redins', 'brokers': ['127.0.0.1:9092'], 'format': 'json', 'compression':
    'none', 'timeout': 3000, 'buffer_size': 1000}}, 'handler': {'upstream': [{'ip': '1.1.1.1', 'port': 53, 'protocol': 'udp',
    'timeout': 400}], 'geoip': {'enable': false, 'country_db': 'geoCity.mmdb', 'asn_db': 'geoIsp.mmdb'}, 'healthcheck': {'enable':
    false, 'max_requests': 10, 'max_pending_requests': 100, 'update_interval': 600, 'check_interval': 600, 'redis': {'address':
    '127.0.0.1:6379', 'net': 'tcp', 'db': 0, 'password': '', 'prefix': 'redins_', 'suffix': '_redins', 'connection':
    {'max_idle_connections': 10, 'max_active_connections': 10, 'connect_timeout': 500, 'read_timeout': 500, 'idle_keep_alive': 30,
    'max_keep_alive': 0, 'wait_for_connection': false}}, 'log': {'enable': true, 'target': 'file', 'level': 'info', 'path':
    '/tmp/healthcheck.log', 'format': 'json', 'time_format': '2006-01-02T15:04:05Z07:00', 'sentry': {'enable': false, 'dsn': ''},
    'syslog': {'enable': false, 'protocol': 'tcp', 'address': 'localhost:514'}, 'kafka': {'enable': false, 'topic': 'redins',
    'brokers': ['127.0.0.1:9092'], 'format': 'json', 'compression': 'none', 'timeout': 3000, 'buffer_size': 1000}}}, 'max_ttl': 3600,
    'cache_timeout': 60, 'zone_reload': 600, 'log_source_location': false, 'redis': {'address': '127.0.0.1:6379', 'net': 'tcp', 'db':
    0, 'password': '', 'prefix': 'redins_', 'suffix': '_redins', 'connection': {'max_idle_connections': 10, 'max_active_connections':
    10, 'connect_timeout': 500, 'read_timeout': 500, 'idle_keep_alive': 30, 'max_keep_alive': 0, 'wait_for_connection': false}},
    'log': {'enable': true, 'target': 'file', 'level': 'info', 'path': '/tmp/redins.log', 'format': 'json', 'time_format':
    '2006-01-02T15:04:05Z07:00', 'sentry': {'enable': false, 'dsn': ''}, 'syslog': {'enable': false, 'protocol': 'tcp', 'address':
    'localhost:514'}, 'kafka': {'enable': false, 'topic': 'redins', 'brokers': ['127.0.0.1:9092'], 'format': 'json', 'compression':
    'none', 'timeout': 3000, 'buffer_size': 1000}}}, 'ratelimit': {'enable': false, 'burst': 10, 'rate': 60, 'whitelist': [],
    'blacklist': []}}".
Example shipped_template_defaults :
  (v ← parse shipped_template; dec c_sample v (mkRedinsConfig (cfg_Server redinsDefaultConfig)
    (mkLogConfig false "" "" "" "" "" (mkSentryConfig true "") (mkSyslogConfig true "" "") (mkKafkaConfig true "" [] "" "" 0 0))
    (cfg_Handler redinsDefaultConfig) (mkRateLimiterConfig true 1 1 [] []))) = Some redinsDefaultConfig.
Proof. vm_compute. reflexivity. Qed.

(** A setting of an earlier file survives a reload of a file that does not have it. *)
Example reload_keeps_old_setting :
  let files2 : Files := fun _ => inl doc_empty in
  let cell := reloads (J := SampleConfigJson) [fun _ => inl doc_max_ttl] "c.json" redinsDefaultConfig in
  hcfg_MaxTtl (cfg_Handler (fst (LoadConfig (J := SampleConfigJson) files2 "c.json" cell))) = 10 /\
  hcfg_MaxTtl (cfg_Handler (fst (LoadConfig (J := SampleConfigJson) files2 "c.json" redinsDefaultConfig))) = 3600.
Proof. by vm_compute. Qed.
