(* ===== verification/NoPanic.v ===== *)
(** When the server does not panic.

    [HandlerFacts] and [Serve] hold in every environment and allow a panic.  This
    file says what data and configuration exclude it: stored zone configurations
    keep an SOA, stored keys are DNSKEY records with a private key of their
    algorithm, source logging has an AS database, and the distance filter is not
    combined with health checks. *)
From S2P Require Import Prelude GoStrings DnsTypes GoCache Monad Rely ZoneIndex Zone OrderIps GeoIp Limiter Deps World Answers Sample Dnssec Upstream Health Request Loader Handler HandlerFacts Serve.

(** ** Pure parts *)

Lemma tally_done data mask c s :
  (length mask <= length data)%nat -> exists c' s', tally data mask c s = Done (c', s').
Proof.
  revert data c s. induction mask as [|x mask IH]; intros data c s Hl; simpl; [eauto|].
  destruct data as [|d data]; simpl in *; [lia|]. destruct x; apply IH; lia.
Qed.

Lemma pickWeighted_lt data mask i s k : pickWeighted data mask i s = Some k -> (k < i + length mask)%nat.
Proof.
  revert data i s. induction mask as [|x mask IH]; intros data i s; simpl; [by destruct data|].
  destruct x, data; try (intros H%IH; lia). case_match; [intros [= ->]; lia|intros H'%IH; lia].
Qed.

Lemma pickNth_lt mask i r k : pickNth mask i r = Some k -> (k < i + length mask)%nat.
Proof.
  revert i r. induction mask as [|x mask IH]; intros i r; simpl; [done|].
  destruct x; try (intros H%IH; lia). case_match; [intros [= ->]; lia|intros H'%IH; lia].
Qed.

Lemma pickFirst_lt mask i k : pickFirst mask i = Some k -> (k < i + length mask)%nat.
Proof.
  revert i. induction mask as [|x mask IH]; intros i; simpl; [done|].
  destruct x; [intros [= ->]; lia|intros H%IH; lia..].
Qed.

Lemma pickIndex_lt ns rrset mask c s k : pickIndex ns rrset mask c s = Some k -> (k < length mask)%nat.
Proof.
  unfold pickIndex. repeat case_match.
  - apply (pickWeighted_lt _ _ 0).
  - apply (pickNth_lt _ 0).
  - apply (pickFirst_lt _ 0).
Qed.

(** Overflowing weights may make the choice unfair, but nothing panics. *)
Lemma OrderIps_done ns rrset mask :
  (length mask <= length (ip_Data rrset))%nat -> exists l, OrderIps ns rrset mask = Done l.
Proof.
  intros Hl. unfold OrderIps. destruct (tally_done (ip_Data rrset) mask 0 0 Hl) as (c & s & ->). simpl.
  destruct (c =? 0); [eauto|]. destruct (pickIndex _ _ _ _ _) as [k|] eqn:Ek; [|eauto].
  apply pickIndex_lt in Ek. destruct (lookup_lt_is_Some_2 (ip_Data rrset) k) as [d ->]; [lia|].
  case_match; eauto.
Qed.

Lemma sameFilter_done {K} `{!EqDecision K} (keys : IP_RR -> list K) zero src ips mask :
  (length mask <= length ips)%nat ->
  exists m, sameFilter keys zero src ips mask = Done m /\ length m = length mask.
Proof.
  intros Hl. unfold sameFilter. case_bool_decide; simpl.
  - destruct (keepAny_spec keys zero ips mask Hl) as (m & -> & ? & _). eauto.
  - destruct (keepSame_spec keys src ips mask Hl) as (m & p & -> & Hm & _). simpl. case_match; [eauto|].
    destruct (keepAny_spec keys zero ips m) as (m' & -> & ? & _); [lia|]. eauto with lia.
Qed.

Section GeoDone.
Context `{!MaxMind} `{!MathFns}.

(** Lookups in an open database return; they may fail. *)
Definition asn_open (g : GeoIp) : Prop :=
  forall db ip, geo_ASNDB g = Some db -> Lookup_asn (Some db) ip <> None.

Lemma GetSameCountry_done g ip ips mask :
  (length mask <= length ips)%nat -> exists m, GetSameCountry g ip ips mask = Done m /\ length m = length mask.
Proof.
  intros Hl. unfold GetSameCountry. destruct (_ || _); [eauto|]. destruct (GetCountry g ip) as [c [|]]; [eauto|].
  by apply sameFilter_done.
Qed.

Lemma GetSameASN_done g ip ips mask :
  asn_open g -> (length mask <= length ips)%nat ->
  exists m, GetSameASN g ip ips mask = Done m /\ length m = length mask.
Proof.
  intros Hg Hl. unfold GetSameASN. destruct (negb _); simpl; [eauto|]. case_bool_decide as Hdb; [eauto|].
  unfold GetASN. destruct (geo_ASNDB g) as [db|] eqn:Edb; [|done]. specialize (Hg db ip Edb).
  destruct (Lookup_asn _ _) as [[asn|]|]; simpl; [by apply sameFilter_done|eauto|done].
Qed.

Lemma GetMinimumDistance_done g ip ips mask :
  geo_Enable g = false \/ geo_CountryDB g = None \/ Forall (eq IpMaskWhite) mask ->
  (length mask <= length ips)%nat ->
  exists m, GetMinimumDistance g ip ips mask = Done m /\ length m = length mask.
Proof.
  intros Hg Hl. unfold GetMinimumDistance. destruct (_ || _) eqn:Eo; [eauto|]. apply orb_false_iff in Eo as [He Hb].
  apply negb_false_iff in He. apply bool_decide_eq_false in Hb. destruct Hg as [?|[?|Hw]]; [congruence|done|].
  destruct (GetCoordinates g ip) as [[slat slong] [|]]; [eauto|].
  assert (mask = replicate (length mask) IpMaskWhite) as Em.
  { clear -Hw. induction Hw as [|x mask <- _ IH]; simpl; [done|]. by rewrite <- IH. }
  destruct (distances_length g slat slong ips mask f1000 [] Hl) as (mn & ds & -> & Hd).
  assert (length ds = length mask) as Hds.
  { clear -Hw Hd. revert Hd. generalize (length ds). induction Hw as [|x mask <- _ IH]; simpl; intros n Hn; [lia|].
    pose proof (nwhite_nonneg mask). destruct n as [|n]; [lia|]. f_equal. apply IH. lia. }
  pose proof (keepNearest_white mn ds 0 (length mask) ltac:(lia)) as Ek. rewrite <- Em in Ek. simpl. rewrite Ek. simpl.
  case_match; eexists; (split; [done|]); rewrite ?length_map, length_take, drop_0; lia.
Qed.
End GeoDone.

(** ** Steps that leave the caches and the heap alone *)

Section NoPanic.
Context {L : Libs} {E : Env}.
Implicit Types (w : World).

Definition same_mem w w' : Prop :=
  w_heap w' = w_heap w /\ w_RecordCache w' = w_RecordCache w /\ w_ZoneCache w' = w_ZoneCache w /\
  w_events w' = w_events w /\ w_logQueue w' = w_logQueue w.

#[local] Instance same_mem_preorder : PreOrder same_mem.
Proof. split; [done|]. intros x y z (?&?&?&?&?) (?&?&?&?&?). repeat split; congruence. Qed.

(** A discipline that such steps satisfy. *)
Class Tolerant (d : Discipline inflight World) : Prop := {
  tolerant_lawful :: Lawful d;
  tolerant_silent :: Silent w_events d;
  tolerant_step w w' : same_mem w w' -> d_inv d w -> d_inv d w' /\ d_guar d w w';
  tolerant_upstream key v w : d_flight d UpstreamInflight key v w
}.

(** [m] does not panic, changes neither heap nor caches, writes and logs nothing,
    and returns a [Q], whatever others do in between; it may share upstream
    queries. *)
Definition still {A} (m : M A) (Q : A -> Prop) : Prop :=
  forall d, Tolerant d -> forall w, silently w_events d m (fun a _ => Q a) w.

Lemma still_ret {A} (a : A) (Q : A -> Prop) : Q a -> still (mret a) Q.
Proof. intros HQ d Hd w. by apply silently_ret. Qed.
Lemma still_bind {A B} (m : M A) (f : A -> M B) Q R :
  still m Q -> (forall a, Q a -> still (f a) R) -> still (m ≫= f) R.
Proof. intros Hm Hf d Hd w. eapply silently_bind; [tc_solve|by apply Hm|]. intros a w' _ Ha. by apply Hf. Qed.
Lemma still_mono {A} (m : M A) (Q R : A -> Prop) : still m Q -> (forall a, Q a -> R a) -> still m R.
Proof. intros Hm HQ d Hd w. eapply silently_mono; [|by apply Hm]. auto. Qed.
Lemma still_atom {A} (f : World -> Outcome (A * World)) (Q : A -> Prop) :
  (forall w, match f w with Done (a, w') => same_mem w w' /\ Q a | _ => False end) -> still (atom f) Q.
Proof.
  intros Hf d Hd w. apply silently_atom; [tc_solve..|]. intros w' _ Hi. specialize (Hf w').
  destruct (f w') as [[a w'']| |]; [|done|done]. destruct Hf as [Hs Ha].
  destruct (tolerant_step _ _ Hs Hi). by split_and!.
Qed.
Lemma still_lift {A} (o : Outcome A) (Q : A -> Prop) :
  match o with Done a => Q a | _ => False end -> still (st_lift o) Q.
Proof. intros Ho. apply still_atom. intros w. by destruct o. Qed.
Lemma still_tick : still tick (fun _ => True).
Proof. by apply still_atom. Qed.
Lemma still_now : still now (fun _ => True).
Proof. by apply still_atom. Qed.
Lemma still_nowUnix : still nowUnix (fun _ => True).
Proof. by apply still_atom. Qed.
Lemma still_get : still st_get (fun _ => True).
Proof. by apply still_atom. Qed.
Lemma still_redis {A} (f : RS -> A) : still (redis f) (fun a => exists t rs, a = f (env_redis t rs)).
Proof. apply still_atom. intros w. cbn. split; [done|]. eauto. Qed.
Lemma still_status {A} (f : RS -> A) : still (status f) (fun _ => True).
Proof. by apply still_atom. Qed.
Lemma still_zones : still zones (fun _ => True).
Proof. by apply still_atom. Qed.
Lemma still_modify f : (forall w, same_mem w (f w)) -> still (st_modify f) (fun _ => True).
Proof. intros Hf. by apply still_atom. Qed.
Lemma still_Do_upstream key body :
  flat body -> still body (fun _ => True) -> still (inflight_Do UpstreamInflight key body) (fun _ => True).
Proof.
  intros Hf Hb d Hd w. eapply silently_mono; [|apply (silently_flight w_events d (UpstreamInflight : Group inflight)); [exact Hf|]]; [done|].
  eapply silently_mono; [|by apply Hb]. intros v w' _. apply tolerant_upstream.
Qed.
Lemma still_mapM {A B} (f : A -> M B) l : (forall a, still (f a) (fun _ => True)) -> still (mapM f l) (fun _ => True).
Proof.
  intros Hf. induction l as [|a l IH]; simpl; [by apply still_ret|].
  eapply still_bind; [apply Hf|]. intros b _. eapply still_bind; [apply IH|]. intros k _. by apply still_ret.
Qed.

End NoPanic.

#[export] Hint Resolve still_tick still_now still_nowUnix still_get still_status still_zones : redins.

(** Walk through a computation whose result does not matter. *)
Ltac still_step :=
  match goal with
  | |- still (match ?x with _ => _ end) _ => destruct x
  | |- still (mret _) _ => by apply still_ret
  | |- still (mapM _ _) _ => apply still_mapM; intros
  | |- still (st_modify _) _ => apply still_modify; intros; repeat split
  | |- still (redis _ ≫= _) _ => eapply still_bind; [apply still_redis|intros ? _]
  | |- still ?m _ => lazymatch m with inflight_Do _ _ _ => apply still_Do_upstream; [solve [flat]|] end
  | |- still (_ ≫= _) _ => eapply (still_bind _ _ (fun _ => True)); [|intros ? _]
  | |- still _ _ => solve [auto with redins]
  end.

Section Components.
Context {L : Libs} {E : Env} (h : DnsRequestHandler).
Implicit Types (w : World).

Lemma still_loadItem key : still (loadItem key) (fun _ => True).
Proof. unfold loadItem. repeat still_step. Qed.
Lemma still_getStatus hl host ip : still (getStatus hl host ip) (fun _ => True).
Proof. unfold getStatus. repeat (apply still_loadItem || still_step). Qed.
Lemma still_maxStatus hl qname data mask min :
  (length mask <= length data)%nat -> still (maxStatus hl qname data mask min) (fun _ => True).
Proof.
  revert data min. induction mask as [|x mask IH]; intros data min Hl; simpl; [by apply still_ret|].
  destruct data as [|d data]; simpl in *; [lia|]. destruct x; try (apply IH; lia).
  eapply still_bind; [apply still_getStatus|]. intros s _. apply IH. lia.
Qed.
Lemma still_blackOut hl qname data mask min :
  (length mask <= length data)%nat ->
  still (blackOut hl qname data mask min) (fun m => length m = length mask).
Proof.
  revert data. induction mask as [|x mask IH]; intros data Hl; simpl; [by apply still_ret|].
  destruct data as [|d data]; simpl in *; [lia|].
  destruct x; [eapply still_bind; [apply still_getStatus|intros s _]|..].
  all: eapply still_bind; [apply IH; lia|]; intros rest Hr; apply still_ret; simpl in *; lia.
Qed.

Lemma still_FilterHealthcheck hl qname rrset mask :
  (length mask <= length (ip_Data rrset))%nat ->
  still (FilterHealthcheck hl qname rrset mask)
    (fun m => length m = length mask /\ (hl_Enable hl = false -> m = mask)).
Proof.
  intros Hl. unfold FilterHealthcheck. destruct (hl_Enable hl) eqn:He; simpl; [|by apply still_ret].
  eapply still_bind; [by apply still_maxStatus|]. intros mn _.
  eapply still_mono; [by apply still_blackOut|]. done.
Qed.

Lemma still_exchangeLoop key location qtype conns : still (exchangeLoop key location qtype conns) (fun _ => True).
Proof. induction conns as [|c conns IH]; simpl; repeat (apply IH || still_step). Qed.
Lemma still_Query location qtype : still (Query location qtype) (fun _ => True).
Proof. unfold Query. repeat (apply still_exchangeLoop || still_step). Qed.

Lemma still_FindZone q : still (h_FindZone q) (fun _ => True).
Proof. unfold h_FindZone. repeat still_step. Qed.

(** What the configuration must provide: an AS database where it is asked
    without a check, and no distance filter after a health filter. *)
Definition sane_handler : Prop :=
  asn_open (geoip h) /\
  (LogSourceLocation h = true -> forall ip, Lookup_asn (geo_ASNDB (geoip h)) ip <> None) /\
  (geo_Enable (geoip h) = false \/ geo_CountryDB (geoip h) = None \/ hl_Enable (healthcheck h) = false).

Context (Hh : sane_handler).

Lemma geo_filter_done ip rrset mask :
  (length mask <= length (ip_Data rrset))%nat -> (hl_Enable (healthcheck h) = false -> Forall (eq IpMaskWhite) mask) ->
  exists m, (let f := fc_GeoFilter (FilterConfig rrset) in
     if String.eqb f "asn" then GetSameASN (geoip h) ip (ip_Data rrset) mask
     else if String.eqb f "country" then GetSameCountry (geoip h) ip (ip_Data rrset) mask
     else if String.eqb f "asn+country" then
       mask ← GetSameASN (geoip h) ip (ip_Data rrset) mask;
       GetSameCountry (geoip h) ip (ip_Data rrset) mask
     else if String.eqb f "location" then GetMinimumDistance (geoip h) ip (ip_Data rrset) mask
     else mret mask) = Done m /\ length m = length mask.
Proof.
  intros Hl Hw. destruct Hh as (Hasn & _ & Hdist). cbv zeta.
  destruct (String.eqb _ "asn"); [by apply GetSameASN_done|].
  destruct (String.eqb _ "country"); [by apply GetSameCountry_done|].
  destruct (String.eqb _ "asn+country").
  { destruct (GetSameASN_done (geoip h) ip (ip_Data rrset) mask Hasn Hl) as (m & -> & Hm). simpl.
    rewrite <- Hm. apply GetSameCountry_done. lia. }
  destruct (String.eqb _ "location"); [|eauto]. apply GetMinimumDistance_done; [|done].
  destruct Hdist as [?|[?|?]]; auto.
Qed.

Lemma still_Filter name ip rrset : still (Filter h name ip rrset) (fun _ => True).
Proof.
  unfold Filter. eapply still_bind; [apply still_FilterHealthcheck; by rewrite length_replicate|]. intros mask [Hl He].
  rewrite length_replicate in Hl.
  destruct (geo_filter_done ip rrset mask) as (m & Em & Hm); [lia|..].
  { intros Hoff. rewrite (He Hoff). by apply Forall_replicate. }
  eapply (still_bind _ _ (fun m' => m' = m)); [apply still_lift; cbv zeta in Em |- *; by rewrite Em|]. intros m' ->.
  eapply still_bind; [apply still_now|]. intros n _. apply still_lift.
  destruct (OrderIps_done (n mod Second) rrset m) as [l ->]; [lia|done].
Qed.

(** ** Sane data *)

(** The value [s] may be read under the key [k]. *)
Definition reads (k s : string) : Prop := exists t rs, fst (redis_Get (env_redis t rs) k) = s.

Definition sane_key (zone kind : string) : Prop := forall pub priv,
  reads (("redins:zones:" +:+ zone) +:+ (":" +:+ kind +:+ ":pub")) pub ->
  reads (("redins:zones:" +:+ zone) +:+ (":" +:+ kind +:+ ":priv")) priv -> pub <> "" ->
  match dns_NewRR pub with
  | None => True
  | Some None => False
  | Some (Some rr) => exists k, rrData rr = DDNSKEY k /\
      forall pk i e, dns_NewPrivateKey k (unescape_newlines priv) = Some pk ->
        key_typed (mkZoneKey (rrHdr rr) k pk i e) = true
  end.

Definition sane_data : Prop :=
  (forall zone s c, reads ("redins:zones:" +:+ zone +:+ ":config") s -> is_Some (cfg_SOA c) ->
     is_Some (cfg_SOA (fst (json_decode_config s c)))) /\
  (forall zone, sane_key zone "zsk" /\ sane_key zone "ksk").

Context (Hd : sane_data).

Lemma still_NewZone name locations config :
  reads ("redins:zones:" +:+ name +:+ ":config") config ->
  still (NewZone name locations config) (fun z => z_Name z = name /\
    (exists soa hd d, cfg_SOA (z_Config z) = Some soa /\ ss_Data soa = Some (mkRR hd (DSOA d)))).
Proof.
  intros Hc. unfold NewZone. eapply still_bind; [apply still_nowUnix|]. intros serial _.
  set (cfg := mkZoneConfig _ _ _ _). assert (is_Some (cfg_SOA cfg)) as H1 by done.
  pose proof (proj1 Hd name config cfg Hc H1) as [soa H2].
  destruct (0 <? slen config)%nat; [rewrite H2|unfold cfg]; apply still_ret; simpl; eauto 6.
Qed.

Lemma still_loadKey zone kind : sane_key zone kind ->
  still (loadKey (("redins:zones:" +:+ zone) +:+ (":" +:+ kind +:+ ":pub"))
                 (("redins:zones:" +:+ zone) +:+ (":" +:+ kind +:+ ":priv")))
    (fun o => forall k, o = Some k -> key_typed k = true).
Proof.
  intros Hk. unfold loadKey. eapply still_bind; [apply still_redis|]. intros [pub e1] (t1 & rs1 & E1).
  destruct (String.eqb_spec pub "") as [->|Hne]; [by apply still_ret|].
  eapply still_bind; [apply still_redis|]. intros [priv e2] (t2 & rs2 & E2).
  destruct (String.eqb_spec priv ""); [by apply still_ret|].
  specialize (Hk pub priv). destruct (dns_NewRR pub) as [[rr|]|]; [| |by apply still_ret].
  - destruct Hk as (k & Ek & Hk); [by exists t1, rs1; rewrite <- E1|by exists t2, rs2; rewrite <- E2|done|].
    rewrite Ek. destruct (dns_NewPrivateKey k _) as [pk|] eqn:Epk; [|by apply still_ret].
    eapply still_bind; [apply still_now|]. intros tm _. apply still_ret. intros k' [= <-]. by apply Hk.
  - destruct Hk; [by exists t1, rs1; rewrite <- E1|by exists t2, rs2; rewrite <- E2|done].
Qed.

(** A zone that can be served: [zone_ok], and able to sign when DnsSec is on. *)
Definition zone_fine (z : Zone) : Prop := zone_ok z /\ (DnsSec (z_Config z) = true -> can_sign z).

Lemma still_LoadZoneKeys z :
  (exists soa hd d, cfg_SOA (z_Config z) = Some soa /\ ss_Data soa = Some (mkRR hd (DSOA d))) ->
  still (LoadZoneKeys z) zone_fine.
Proof.
  intros Hsoa. unfold LoadZoneKeys. destruct (DnsSec (z_Config z)) eqn:Hs; cbn [negb].
  2:{ apply still_ret. split; [split; [done|]|]; by rewrite Hs. }
  destruct (proj2 Hd (z_Name z)) as [Hz Hk].
  eapply still_bind; [apply (still_loadKey (z_Name z) "zsk"), Hz|]. intros [zsk|] Hzsk; [|by apply still_ret].
  eapply still_bind; [apply (still_loadKey (z_Name z) "ksk"), Hk|]. intros [ksk|] Hksk; [|by apply still_ret].
  specialize (Hzsk _ eq_refl). specialize (Hksk _ eq_refl). set (ksk' := with_flags 257 _ ksk).
  assert (key_typed ksk' = true) as Hk' by done.
  destruct (sign_total [dnskey_rr (with_flags 256 (hTtl (zk_Hdr ksk)) zsk); dnskey_rr ksk'] (z_Name z) ksk'
    (hTtl (zk_Hdr ksk)) Hk') as [o Ho].
  eapply (still_bind _ _ (fun o' => o' = o)); [apply still_lift; by rewrite Ho|]. intros o' ->.
  destruct o as [rrsig|]; apply still_ret; [|by split; split].
  apply sign_rrsig in Ho as (hd & s & ->). split.
  - split; [done|]. intros _. simpl. eauto 6.
  - intros _. split; [|by simpl; eauto]. exists (with_flags 256 (hTtl (zk_Hdr ksk)) zsk). done.
Qed.

(** ** The caches and the heap *)

(** Cached zones can be served, records know their zone, and cached pointers
    point to records. *)
Definition inv w : Prop :=
  map_Forall (fun _ z => zone_fine z) (w_ZoneCache w) /\
  map_Forall (fun _ r => is_Some (r_Zone r)) (w_heap w) /\
  map_Forall (fun _ p => is_Some (w_heap w !! p)) (w_RecordCache w).
Definition grows w w' : Prop := forall p, is_Some (w_heap w !! p) -> is_Some (w_heap w' !! p).

Definition valid (p : positive) w : Prop := is_Some (w_heap w !! p).

#[global] Instance grows_preorder : PreOrder grows.
Proof. split; [by intros w p|]. intros w1 w2 w3 H1 H2 p Hp. auto. Qed.

Lemma valid_grows p w w' : grows w w' -> valid p w -> valid p w'.
Proof. intros Hg. apply Hg. Qed.

(** What a shared call returns: a zone that can be served, a pointer to a record. *)
Definition flight_result (g : InflightGroup) : Val inflight g -> World -> Prop :=
  match g with
  | ZoneInflight => fun o _ => forall z, o = Some z -> zone_fine z
  | RecordInflight => fun o w => forall p, o = Some p -> valid p w
  | UpstreamInflight => fun _ _ => True
  end.

(** All goroutines keep [inv] and every pointer; this one writes and logs nothing
    and does not panic. *)
Definition calming : Discipline inflight World :=
  mkDiscipline inv grows
    (fun w w' => grows w w' /\ w_events w' = w_events w /\ w_logQueue w' = w_logQueue w)
    (fun (g : Group inflight) _ v w => flight_result g v w) False.

#[global] Instance calming_lawful : Lawful calming.
Proof.
  split; [apply grows_preorder| |by intros w w' []|].
  - split; [by intros w|]. intros x y z (?&?&?) (?&?&?). split_and!; [by trans y|congruence|congruence].
  - intros g key v w w' Hg. destruct g; simpl; [done| |done]. intros Hp p E'. by eapply valid_grows, Hp.
Qed.
#[global] Instance calming_silent : Silent w_events calming.
Proof. by intros w w' (_ & ? & _). Qed.
#[global] Instance calming_tolerant : Tolerant calming.
Proof.
  split; [tc_solve|tc_solve| |done]. intros w w' (Hm & Hr & Hz & He & Hl). unfold calming, inv, grows. simpl.
  by rewrite Hm, Hr, Hz.
Qed.

(** From [w], [m] does not panic, keeps [inv] and all pointers, and ends in [Q],
    whatever others do in between. *)
Definition calm {A} (m : M A) (Q : A -> World -> Prop) (w : World) : Prop := silently w_events calming m Q w.

Lemma calm_bind {A B} (m : M A) (f : A -> M B) Q R w :
  calm m Q w -> (forall a w', grows w w' -> Q a w' -> calm (f a) R w') -> calm (m ≫= f) R w.
Proof. intros Hm Hf. eapply silently_bind; [tc_solve|apply Hm|apply Hf]. Qed.

Lemma calm_mono {A} (m : M A) (Q R : A -> World -> Prop) w :
  (forall a w', Q a w' -> R a w') -> calm m Q w -> calm m R w.
Proof. apply silently_mono. Qed.

Lemma calm_ret {A} (a : A) (Q : A -> World -> Prop) w : (forall w', grows w w' -> Q a w') -> calm (mret a) Q w.
Proof. intros HQ. apply silently_ret. auto. Qed.

Lemma calm_atom {A} (f : World -> Outcome (A * World)) (Q : A -> World -> Prop) w :
  (forall w', grows w w' -> inv w' ->
     match f w' with
     | Done (a, w'') => inv w'' /\ grows w' w'' /\ w_events w'' = w_events w' /\ w_logQueue w'' = w_logQueue w' /\
                        forall w3, grows w'' w3 -> Q a w3
     | _ => False
     end) -> calm (atom f) Q w.
Proof.
  intros Hf. apply silently_atom; [tc_solve..|]. intros w' Hg Hi. specialize (Hf w' Hg Hi).
  destruct (f w') as [[a w'']| |]; [|done|done]. destruct Hf as (?&?&?&?&?). split; [done|].
  split; [by split_and!|auto].
Qed.

Lemma calm_still {A} (m : M A) Q (R : A -> World -> Prop) w :
  still m Q -> (forall a w', Q a -> R a w') -> calm m R w.
Proof. intros Hm HR. eapply silently_mono; [|by apply Hm, calming_tolerant]. auto. Qed.

Lemma calm_bind_still {A B} (m : M A) (f : A -> M B) Q R w :
  still m Q -> (forall a w', grows w w' -> Q a -> calm (f a) R w') -> calm (m ≫= f) R w.
Proof. intros Hm Hf. eapply calm_bind; [by eapply (calm_still _ _ (fun a _ => Q a))|]. auto. Qed.

Lemma calm_Do g key body w :
  flat body -> calm body (flight_result g) w -> calm (inflight_Do g key body) (flight_result g) w.
Proof. apply (silently_flight w_events calming (g : Group inflight)). Qed.

Lemma calm_ZoneCache_Get k w : calm (ZoneCache_Get k) (fun o _ => forall z, o = Some z -> zone_fine z) w.
Proof.
  apply calm_atom. intros w' _ Hw. split_and!; [exact Hw|by intros q|done|done|]. intros w3 _ z Hz. destruct (env_keeps _ _); [|done].
  by apply (proj1 Hw k).
Qed.

Lemma calm_ZoneCache_Set k z w : zone_fine z -> calm (ZoneCache_Set k z) (fun _ _ => True) w.
Proof.
  intros Hz. apply calm_atom. intros w' _ (H1 & H2 & H3). unfold inv, grows. cbn. split_and!; try done.
  by apply map_Forall_insert_2.
Qed.

Lemma calm_LoadZone to zone w : calm (LoadZone to zone) (fun o _ => forall z, o = Some z -> zone_fine z) w.
Proof.
  assert (forall w, calm (fetchZone to zone) (fun o _ => forall z, o = Some z -> zone_fine z) w) as Hfetch.
  { clear w. intros w. unfold fetchZone. eapply calm_bind_still; [apply still_redis|]. intros [locs [e|]] w1 _ _; [by apply calm_ret|].
    eapply calm_bind_still; [apply still_redis|]. intros [config e] w2 _ (t & rs & Ec).
    eapply calm_bind_still; [apply still_NewZone; exists t, rs; by rewrite <- Ec|]. intros z w3 _ [_ Hsoa].
    eapply calm_bind_still; [by apply still_LoadZoneKeys|]. intros z' w4 _ Hz'.
    eapply calm_bind_still; [apply still_nowUnix|]. intros n w5 _ _.
    eapply calm_bind; [by apply calm_ZoneCache_Set|]. intros _ w6 _ _. apply calm_ret. by intros w7 _ z'' [= <-]. }
  assert (forall stale w, (forall z, stale = Some z -> zone_fine z) ->
    calm (refreshZone to zone stale) (fun o _ => forall z, o = Some z -> zone_fine z) w) as Href.
  { intros stale w' Hs. unfold refreshZone.
    eapply calm_bind; [apply (calm_Do ZoneInflight); [auto with redins|done]|]. intros [z|] w'' _ Hz; by apply calm_ret. }
  unfold LoadZone. eapply calm_bind; [apply calm_ZoneCache_Get|]. intros [z|] w1 _ Hz; [|by apply Href].
  eapply calm_bind_still; [apply still_nowUnix|]. intros n w2 _ _. case_match; [by apply calm_ret|by apply Href].
Qed.

(** *** Locations *)

Lemma calm_RecordCache_Get k w : calm (RecordCache_Get k) (fun o w' => forall p, o = Some p -> valid p w') w.
Proof.
  apply calm_atom. intros w' _ Hw. split_and!; [exact Hw|by intros q|done|done|]. intros w3 Hg p Hp. destruct (env_keeps _ _); [|done].
  apply Hg. by apply (proj2 (proj2 Hw) k).
Qed.

Lemma calm_RecordCache_Set k p w : valid p w -> calm (RecordCache_Set k p) (fun _ w' => valid p w') w.
Proof.
  intros Hp. apply calm_atom. intros w' Hg (H1 & H2 & H3). apply (valid_grows _ _ _ Hg) in Hp.
  unfold inv, grows. cbn. split_and!; try done; [by apply map_Forall_insert_2|]. intros w3 Hg3. by apply Hg3.
Qed.

Lemma inv_store p r w : is_Some (r_Zone r) -> inv w -> inv (set_heap (<[p := r]> (w_heap w)) w).
Proof.
  intros Hr (H1 & H2 & H3). split_and!; [done|by apply map_Forall_insert_2|].
  intros k q Hq. simpl. destruct (H3 k q Hq). rewrite lookup_insert_is_Some'. eauto.
Qed.
Lemma grows_store p r w : grows w (set_heap (<[p := r]> (w_heap w)) w).
Proof. intros q Hq. simpl. rewrite lookup_insert_is_Some'. auto. Qed.

Lemma calm_alloc r w : is_Some (r_Zone r) -> calm (alloc r) (fun p w' => valid p w') w.
Proof.
  intros Hr. apply calm_atom. intros w' _ Hw. split_and!; [by apply inv_store|apply grows_store|done|done|].
  intros w3 Hg. apply Hg. simpl. rewrite lookup_insert_eq. eauto.
Qed.

Lemma calm_load p w : valid p w -> calm (load p) (fun r _ => is_Some (r_Zone r)) w.
Proof.
  intros Hp. apply calm_atom. intros w' Hg Hw. destruct (Hg p Hp) as [r Hr]. rewrite Hr. split_and!; [done|by intros q|done|done|].
  intros _ _. by apply (proj1 (proj2 Hw) p).
Qed.

Lemma calm_update p f w :
  valid p w -> (forall r, r_Zone (f r) = r_Zone r) -> calm (update p f) (fun _ _ => True) w.
Proof.
  intros Hp Hf. apply calm_atom. intros w' Hg Hw. destruct (Hg p Hp) as [r Hr]. rewrite Hr. simpl.
  assert (is_Some (r_Zone (f r))) as Hz by (rewrite Hf; by apply (proj1 (proj2 Hw) p)).
  split_and!; [by apply inv_store|apply grows_store|done|done|done].
Qed.

Lemma calm_LoadLocation to location z w :
  calm (LoadLocation to location z) (fun o w' => forall p, o = Some p -> valid p w') w.
Proof.
  assert (forall key w, calm (fetchLocation to key location z) (fun o w' => forall p, o = Some p -> valid p w') w) as Hfetch.
  { assert (forall key r w, is_Some (r_Zone r) ->
      calm (p ← alloc r; RecordCache_Set key p;; mret (Some p)) (fun o w' => forall p, o = Some p -> valid p w') w) as Hnew.
    { intros key r w0 Hr. eapply calm_bind; [by apply calm_alloc|]. intros p w1 _ Hp.
      eapply calm_bind; [by apply calm_RecordCache_Set|]. intros [] w2 _ Hp2. apply calm_ret.
      intros w3 Hg p' [= <-]. by apply Hg. }
    intros key w0. unfold fetchLocation. destruct (if String.eqb location (z_Name z) then _ else _) as [name label].
    destruct (negb _); [case_match; [by apply Hnew|by apply calm_ret]|].
    eapply calm_bind_still; [apply still_redis|]. intros [val [e|]] w1 _ _; [by apply calm_ret|].
    destruct (if String.eqb val "" then _ else _) as [rs [e|]]; [by apply calm_ret|].
    eapply calm_bind_still; [apply still_nowUnix|]. intros n w2 _ _. by apply Hnew. }
  assert (forall key stale w, (forall p, stale = Some p -> valid p w) ->
    calm (refreshLocation to key location z stale) (fun o w' => forall p, o = Some p -> valid p w') w) as Href.
  { intros key stale w0 Hs. unfold refreshLocation. eapply calm_bind; [apply (calm_Do RecordInflight); [auto with redins|done]|].
    intros [p|] w1 Hg Hp; apply calm_ret; intros w2 Hg2 p' Ep; apply Hg2; [by apply Hp|by apply Hg, Hs]. }
  unfold LoadLocation. eapply calm_bind; [apply calm_RecordCache_Get|]. intros [p|] w1 _ Hp; [|by apply Href].
  eapply calm_bind_still; [apply still_nowUnix|]. intros n w2 Hg2 _. assert (valid p w2) as Hp2 by (by apply Hg2, Hp).
  eapply calm_bind; [by apply calm_load|]. intros r w3 Hg3 _.
  case_match; [apply calm_ret; intros w4 Hg4|apply Href]; intros p' [= <-]; [by apply Hg4, Hg3|by apply Hg3].
Qed.

(** Load a location and read the record. *)
Lemma calm_location {B} to location z (f : positive -> Record_ -> M B) (none : M B) R w :
  (forall w', grows w w' -> calm none R w') ->
  (forall p r w', grows w w' -> valid p w' -> is_Some (r_Zone r) -> calm (f p r) R w') ->
  calm (p ← LoadLocation to location z; match p with None => none | Some p => r ← load p; f p r end) R w.
Proof.
  intros Hn Hf. eapply calm_bind; [apply calm_LoadLocation|]. intros [p|] w1 Hg1 Hp; [|by apply Hn].
  eapply calm_bind; [by apply calm_load, Hp|]. intros r w2 Hg2 Hr. apply Hf; [by trans w1|by apply Hg2, Hp|done].
Qed.

(** ** The handler *)

Lemma calm_caaLoop fuel zone r location w :
  (count_byte dot location < fuel)%nat -> is_Some (r_Zone r) ->
  calm (caaLoop h fuel zone r location) (fun _ _ => True) w.
Proof.
  revert r location w. induction fuel as [|fuel IH]; intros r location w Hf Hr; [lia|]. simpl.
  destruct (negb _); [by apply calm_ret|]. unfold SplitAfterN2.
  destruct (cut_after dot location) as [[a rest]|] eqn:Ec; [|by apply calm_ret].
  apply cut_after_count in Ec. pose proof (FindLocation_dots zone rest) as Hd'.
  destruct (FindLocation zone rest) as [loc m]. simpl in Hd'. destruct m; try by apply calm_ret.
  all: apply (calm_location _ loc zone (fun _ r => caaLoop h fuel zone r loc) (mret (Some None))); [intros; by apply calm_ret|].
  all: intros p r' w' _ _ Hr'; apply IH; [lia|done].
Qed.

Lemma calm_FindCAA r w : is_Some (r_Zone r) -> calm (FindCAA h r) (fun _ _ => True) w.
Proof.
  intros [zone Hz]. unfold FindCAA. rewrite Hz. eapply calm_bind; [apply calm_caaLoop; [lia|by rewrite Hz]|].
  intros [o|] w1 _ _; [by apply calm_ret|].
  apply (calm_location _ _ zone (fun _ r => mret (if negb _ then Some r else None)) (mret None)); intros; by apply calm_ret.
Qed.

Lemma calm_anameLoop steps ip qtype q w : calm (anameLoop h steps ip qtype q) (fun _ _ => True) w.
Proof.
  revert q w. induction steps as [|steps IH]; intros q w; simpl; [by apply calm_ret|].
  eapply calm_bind_still; [apply still_FindZone|]. intros zn w1 _ _. case_match.
  - eapply calm_bind_still; [apply still_Query|]. intros [ans res] w2 _ _. case_match; by apply calm_ret.
  - eapply calm_bind; [apply calm_LoadZone|]. intros [zone|] w2 _ _; [|by apply calm_ret].
    destruct (FindLocation zone q) as [loc m]. case_match; [by apply calm_ret|].
    apply (calm_location _ loc zone (fun _ r =>
      match rs_CNAME (r_RRSets r) with
      | Some c => anameLoop h steps ip qtype (cname_Host c)
      | None => _
      end) (mret ([], RcodeServerFailure, 0))); [intros; by apply calm_ret|].
    intros p r w3 _ _ _. destruct (rs_CNAME (r_RRSets r)); [apply IH|].
    repeat case_match; try (by apply calm_ret); try apply IH.
    all: eapply calm_bind_still; [apply still_Filter; done|]; intros ips w4 _ _; by apply calm_ret.
Qed.

Lemma calm_answerA ip name p w : valid p w -> calm (answerA h ip name p) (fun _ _ => True) w.
Proof.
  intros Hp. unfold answerA. eapply calm_bind; [by apply calm_load|]. intros r w1 Hg1 _.
  assert (calm (ips ← Filter h (r_Name r) ip (rs_A (r_RRSets r));
                mret (h_A (MaxTtl h) name (r_RRSets r) ips, RcodeSuccess)) (fun _ _ => True) w1) as Hf.
  { eapply calm_bind_still; [apply still_Filter; done|]. intros; by apply calm_ret. }
  repeat case_match; try done. eapply calm_bind; [apply calm_anameLoop|]. intros [[ips res] ttl] w2 Hg2 _.
  assert (valid p w2) as Hp2 by (by apply Hg2, Hg1).
  eapply calm_bind; [by apply calm_update|]. intros [] w3 Hg3 _.
  eapply calm_bind; [by apply calm_load, Hg3|]. intros; by apply calm_ret.
Qed.

Lemma calm_answerAAAA ip name p w : valid p w -> calm (answerAAAA h ip name p) (fun _ _ => True) w.
Proof.
  intros Hp. unfold answerAAAA. eapply calm_bind; [by apply calm_load|]. intros r w1 Hg1 _.
  assert (calm (ips ← Filter h (r_Name r) ip (rs_AAAA (r_RRSets r));
                mret (h_AAAA (MaxTtl h) name (r_RRSets r) ips, RcodeSuccess)) (fun _ _ => True) w1) as Hf.
  { eapply calm_bind_still; [apply still_Filter; done|]. intros; by apply calm_ret. }
  repeat case_match; try done. eapply calm_bind; [apply calm_anameLoop|]. intros [[ips res] ttl] w2 Hg2 _.
  assert (valid p w2) as Hp2 by (by apply Hg2, Hg1).
  eapply calm_bind; [by apply calm_update|]. intros [] w3 Hg3 _.
  eapply calm_bind; [by apply calm_load, Hg3|]. intros; by apply calm_ret.
Qed.

Lemma soa_rr_done z : zone_fine z -> exists s, soa_rr z = Done s.
Proof. intros [[(soa & hd & d & Hs & Ed) _] _]. unfold soa_rr. rewrite Hs, Ed. simpl. eauto. Qed.

Lemma calm_bind_soa {B} z (f : RR -> M B) R w :
  zone_fine z -> (forall s w', grows w w' -> calm (f s) R w') -> calm (s ← st_lift (soa_rr z); f s) R w.
Proof.
  intros Hz Hf. destruct (soa_rr_done z Hz) as [s Hs].
  eapply (calm_bind_still _ _ (fun _ => True)); [apply still_lift; by rewrite Hs|]. auto.
Qed.

Lemma answerDNSKEY_done z : zone_fine z -> exists l, answerDNSKEY z = Done l.
Proof.
  intros [[_ Hz] _]. unfold answerDNSKEY. destruct (DnsSec (z_Config z)); [|eauto].
  destruct Hz as ([zsk ->] & [ksk ->] & _); simpl; eauto.
Qed.

Lemma calm_answerFor qtype ip name zone p w :
  zone_fine zone -> valid p w -> calm (answerFor h qtype ip name zone p) (fun _ _ => True) w.
Proof.
  intros Hz Hp. unfold answerFor. eapply calm_bind; [by apply calm_load|]. intros r w1 Hg1 Hr.
  assert (valid p w1) as Hp1 by (by apply Hg1).
  case_match; [eapply calm_bind; [by apply calm_answerA|]; intros; by apply calm_ret|].
  case_match; [eapply calm_bind; [by apply calm_answerAAAA|]; intros; by apply calm_ret|].
  case_match; [by apply calm_ret|].
  case_match.
  { destruct (h_TXT_built (MaxTtl h) name (r_RRSets r)) as (l & El & _).
    eapply (calm_bind_still _ _ (fun _ => True)); [apply still_lift; by rewrite El|]. intros; by apply calm_ret. }
  do 3 (case_match; [by apply calm_ret|]).
  case_match; [eapply calm_bind; [by apply calm_FindCAA|]; intros; by apply calm_ret|].
  do 2 (case_match; [by apply calm_ret|]).
  case_match; [apply calm_bind_soa; [done|]; intros; by apply calm_ret|].
  case_match; [|by apply calm_ret]. destruct (answerDNSKEY_done zone Hz) as [l El].
  eapply (calm_bind_still _ _ (fun _ => True)); [apply still_lift; by rewrite El|]. intros; by apply calm_ret.
Qed.

Lemma calm_glue ip z host w : calm (glue h ip z host) (fun _ _ => True) w.
Proof.
  unfold glue. destruct (FindLocation z host) as [loc m]. destruct m; try by apply calm_ret.
  all: apply (calm_location _ loc z (fun _ r => ips ← Filter h (r_Name r) ip (rs_A (r_RRSets r)); _) (mret []));
    [intros; by apply calm_ret|].
  all: intros p r w1 _ _ _; eapply calm_bind_still; [by apply still_Filter|]; intros ips w2 _ _.
  all: eapply calm_bind_still; [by apply still_Filter|]; intros ips6 w3 _ _; by apply calm_ret.
Qed.

Lemma calm_mapM {A B} (f : A -> M B) l w :
  (forall a w, calm (f a) (fun _ _ => True) w) -> calm (mapM f l) (fun _ _ => True) w.
Proof.
  intros Hf. revert w. induction l as [|a l IH]; intros w; simpl; [by apply calm_ret|].
  eapply calm_bind; [apply Hf|]. intros b w1 _ _. eapply calm_bind; [apply IH|]. intros k w2 _ _. by apply calm_ret.
Qed.

(** What happens at a location: follow its CNAME, delegate, or answer. *)
Lemma calm_resolveLoop steps raw zn zone c q w :
  zone_fine zone -> calm (resolveLoop h steps raw zn zone c q) (fun _ _ => True) w.
Proof.
  intros Hz. revert c q w. induction steps as [|steps IH]; intros c q w; cbn [resolveLoop]; [by apply calm_ret|].
  eapply calm_bind_still; [apply still_FindZone|]. intros zn' w1 _ _. case_match; [by apply calm_ret|].
  destruct (FindLocation zone q) as [location m]. destruct m.
  3:{ apply calm_bind_soa; [done|]. intros; by apply calm_ret. }
  all: eapply calm_bind; [apply calm_LoadLocation|]; intros [p|] w2 _ Hp; [|by apply calm_ret].
  all: specialize (Hp p eq_refl); eapply calm_bind; [by apply calm_load|]; intros r w3 Hg3 Hr; cbv zeta.
  all: destruct (if req_QType (c_Req c) =? TypeCNAME then None else rs_CNAME (r_RRSets r)) as [cname|].
  1,3: case_match; [apply IH|]; eapply calm_bind_still; [apply still_FindZone|]; intros tz w4 _ _;
       case_match; [by apply calm_ret|apply IH].
  all: case_match; [eapply calm_bind; [apply calm_mapM, calm_glue|]; intros; by apply calm_ret|].
  all: eapply calm_bind; [apply calm_answerFor; [done|by apply Hg3]|]; intros [[answer res]|] w4 _ _;
    [case_match; [|by apply calm_ret]|]; (apply calm_bind_soa; [done|]; intros; by apply calm_ret).
Qed.

Lemma still_Sign rrs qname z : can_sign z -> still (Sign rrs qname z) (fun _ => True).
Proof.
  intros Hz d Hd' w. refine (still_bind tick _ (fun _ => True) (fun _ => True) still_tick _ d Hd' w). intros t _.
  apply still_lift. pose proof (Sign_ok rrs qname z (set_tick t w) Hz) as H. apply wp_bind, wp_tick, wp_lift in H.
  simpl in H. by destruct (signSets _ _ _).
Qed.

Lemma calm_secure raw zone c res w :
  zone_fine zone -> calm (secure raw zone c res) (fun _ _ => True) w.
Proof.
  intros Hz. unfold secure. case_match; [|by apply calm_ret]. bool_to_prop.
  assert (can_sign zone) as Hcan by (by apply (proj2 Hz)).
  assert (forall n, exists r, NSec n zone = Done r) as Hn.
  { intros n. unfold NSec. destruct (proj1 (proj1 Hz)) as (soa & ? & ? & -> & _). simpl. eauto. }
  assert (forall c w, calm (nsec ← st_lift (NSec raw zone);
    mret (with_authority (c_Authority c ++ [nsec]) c, RcodeSuccess)) (fun _ _ => True) w) as Hnsec.
  { intros c' w'. destruct (Hn raw) as [r Er].
    eapply (calm_bind_still _ _ (fun _ => True)); [apply still_lift; by rewrite Er|]. intros; by apply calm_ret. }
  eapply (calm_bind _ _ (fun _ _ => True)).
  - destruct (Z.eqb_spec res RcodeSuccess) as [->|]; [case_match; [apply Hnsec|by apply calm_ret]|].
    case_match; [apply Hnsec|by apply calm_ret].
  - intros [c' res'] w1 _ _. do 3 (eapply calm_bind_still; [by apply still_Sign|]; intros ? ? _ _). by apply calm_ret.
Qed.

Context {DL : DnsLibLaws lib_dns}.

(** What holds of a result in every environment holds of it here. *)
Lemma calm_safe {A} (m : M A) Q (R : A -> World -> Prop) w :
  safe m Q -> calm m R w -> calm m (fun a w' => R a w' /\ Q a) w.
Proof.
  intros Hs Hc. eapply (silently_weaken _ (both calming safely)); [|by apply silently_both].
  split; simpl; try done.
  - intros w0 (Hz & Hm & Hr). split; [done|]. eapply map_Forall_impl; [exact Hz|]. by intros k z [? _].
  - intros w0 w1 _ [? _] [? _]. done.
  - intros g key v w0. split; [|by intros [? _]]. intros Hv. split; [done|].
    destruct g; simpl in *; try done. intros z Ez. by apply (Hv z Ez).
  - by intros [? _].
Qed.

(** ** Replies *)

Section Replies.

(** All goroutines keep [inv] and every pointer, and the log queue if it was well-formed
    at the start ([q]); this one may write to clients and log. *)
Context (q : bool).
Definition serving : Discipline inflight World :=
  mkDiscipline (fun w => inv w /\ (q = true -> queue_ok w)) grows
    (fun w w' => grows w w' /\ exists es, w_events w' = w_events w ++ es)
    (fun (g : Group inflight) _ v w => flight_result g v w) False.

#[global] Instance serving_lawful : Lawful serving.
Proof.
  split; [apply grows_preorder| |by intros w w' []|apply calming_lawful].
  split; [intros w; split; [done|exists []; by rewrite app_nil_r]|].
  intros x y z [? [e1 E1]] [? [e2 E2]]. split; [by trans y|]. exists (e1 ++ e2). by rewrite E2, E1, app_assoc.
Qed.

Lemma serving_calming : weaker calming serving.
Proof.
  split; simpl; try done.
  - by intros w [].
  - intros w w' [_ Hq] (Hg & He & Hl) Hi. split_and!; [done| |done|exists []; by rewrite app_nil_r].
    intros Eq. specialize (Hq Eq). unfold queue_ok in *. by rewrite Hl.
Qed.

(** [serves m Q τ w]: from [w], after it has done [τ] to the clients, [m] does
    not panic, and ends with [Q] of its result and what it has then done to
    them, whatever others do in between. *)
Definition serves {A} (m : M A) (Q : A -> list Event -> Prop) (τ : list Event) (w : World) : Prop :=
  rg w_events serving m (fun a τ' _ => Q a τ') τ w.

Lemma serves_ret {A} (a : A) (Q : A -> list Event -> Prop) τ w : Q a τ -> serves (mret a) Q τ w.
Proof. by intros HQ w' _ _. Qed.
Lemma serves_mono {A} (m : M A) (Q R : A -> list Event -> Prop) τ w :
  (forall a τ', Q a τ' -> R a τ') -> serves m Q τ w -> serves m R τ w.
Proof. intros HQ. apply rg_mono. auto. Qed.
Lemma serves_bind {A B} (m : M A) (f : A -> M B) Q R τ w :
  serves m Q τ w -> (forall a τ' w', Q a τ' -> serves (f a) R τ' w') -> serves (m ≫= f) R τ w.
Proof. intros Hm Hf. apply rg_bind; [tc_solve|]. eapply rg_mono; [|exact Hm]. auto. Qed.
Lemma serves_calm {A B} (m : M A) (f : A -> M B) Q R τ w :
  calm m Q w -> (forall a w', grows w w' -> Q a w' -> serves (f a) R τ w') -> serves (m ≫= f) R τ w.
Proof.
  intros Hm Hf. apply rg_bind; [tc_solve|].
  eapply rg_mono; [|apply rg_reach; [tc_solve|]; eapply rg_weaken; [apply serving_calming|apply Hm]].
  intros a τ' w' (Hg & -> & Ha). by apply Hf.
Qed.
Lemma serves_still {A B} (m : M A) (f : A -> M B) Q R τ w :
  still m Q -> (forall a w', grows w w' -> Q a -> serves (f a) R τ w') -> serves (m ≫= f) R τ w.
Proof. intros Hm Hf. eapply serves_calm; [by eapply (calm_still _ _ (fun a _ => Q a))|]. auto. Qed.

Lemma serves_emit e (Q : unit -> list Event -> Prop) τ w : Q tt (τ ++ [e]) -> serves (emit e) Q τ w.
Proof.
  intros HQ. apply rg_atom. intros w' _ Hi. split; [exact Hi|]. split; [split; [by intros p|by exists [e]]|]. intros w'' _ _.
  unfold emitted. simpl. by rewrite drop_app_length.
Qed.

(** One reply to the client of [c], with the code [rc]. *)
Definition one_reply (c : RequestContext) (rc : Z) (es : list Event) : Prop :=
  exists m tl, reply_ok c rc m /\ (tl = [] \/ tl = [Closed (c_W c)]) /\
    es = Wrote (c_W c) (req_Scrub (c_W c) (c_Req c) (req_SizeAndDo (c_W c) (c_Req c) m)) :: tl.

Lemma serves_Response c rc r τ w :
  c_Req c = Some r -> serves (Response c rc) (fun _ τ' => exists es, τ' = τ ++ es /\ one_reply c rc es) τ w.
Proof.
  intros Hr. unfold Response. destruct (reply_spec c rc r Hr) as (m & Em & Hm).
  eapply (serves_still _ _ (fun m' => m' = m)); [apply still_lift; by rewrite Em|]. intros m' w1 _ ->.
  eapply serves_still; [apply still_tick|]. intros t w2 _ _.
  eapply (serves_bind _ _ (fun _ τ' => τ' = τ ++ [_])); [by apply serves_emit|]. intros [] τ' w3 ->.
  case_match; [apply serves_ret|apply serves_emit; rewrite <- app_assoc]; eexists; (split; [reflexivity|]).
  all: eexists m, _; (split; [done|]); split; [|reflexivity]; auto.
Qed.

Lemma serves_LogRequest c rc τ w :
  log_typed (c_LogData c) ->
  serves (LogRequest c rc) (fun c' τ' => τ' = τ /\ exists d, c' = with_log d c) τ w.
Proof.
  intros Hl. unfold LogRequest. eapply serves_still; [apply still_now|]. intros n w1 _ _.
  eapply (serves_bind _ _ (fun _ τ' => τ' = τ)); [|intros [] τ' w2 ->; apply serves_ret; eauto].
  apply rg_atom. intros w2 _ [Hi Hq]. split; [split; [exact Hi|]|].
  { intros Eq. eapply (queue_ok_logged c rc); [done| |exact (Hq Eq)]. by eexists _, _. }
  split; [split; [by intros p|exists []; by rewrite app_nil_r]|]. intros w3 _ _. by rewrite emitted_silent, app_nil_r.
Qed.

Lemma serves_h_Response c rc r τ w :
  c_Req c = Some r -> log_typed (c_LogData c) ->
  serves (h_Response c rc) (fun _ τ' => exists d es, τ' = τ ++ es /\ one_reply (with_log d c) rc es) τ w.
Proof.
  intros Hr Hl. unfold h_Response. eapply serves_bind; [by apply serves_LogRequest|]. intros c' τ' w1 [-> [d ->]].
  eapply serves_mono; [|by apply (serves_Response _ _ r)]. intros _ τ' (es & -> & He). eauto.
Qed.

(** Some reply to the request [r] of the client [wr]: its code and its sections are
    those of [HandleRequest], or it was refused. *)
Definition answered (wr : Writer) (r : Msg) (es : list Event) : Prop :=
  exists c rc, one_reply c rc es /\ c_W c = wr /\ c_Req c = Some r /\ ctx_ok h c /\
    rc ∈ RcodeRefused :: handler_rcodes.

Lemma calm_logSource c w : calm (logSource h c) (fun _ _ => True) w.
Proof.
  unfold logSource. destruct (LogSourceLocation h) eqn:Hl; [|by apply calm_ret].
  destruct (GetCountry _ _) as [country e]. destruct Hh as (_ & Hasn & _). specialize (Hasn Hl (c_SourceIp c)).
  eapply (calm_bind_still _ _ (fun _ => True)); [|intros [asn e'] w1 _ _; by apply calm_ret].
  apply still_lift. unfold GetASN. by destruct (Lookup_asn _ _) as [[?|]|].
Qed.

Lemma serves_HandleRequest c r τ w :
  c_Req c = Some r -> ctx_ok h c -> log_typed (c_LogData c) ->
  serves (HandleRequest h c) (fun _ τ' => exists es, τ' = τ ++ es /\ answered (c_W c) r es) τ w.
Proof.
  intros Hr Hc Hl. unfold HandleRequest.
  eapply serves_calm; [eapply calm_safe; [apply (safe_logSource h)|apply calm_logSource]|].
  intros c1 w1 _ [_ (Hs1 & Hl1 & Ha1 & Hu1 & Hd1)]. destruct (RawName_client c1) as ([Hs2 Hl2] & Ha2 & Hu2 & Hd2).
  destruct (RawName c1) as [raw c2]. cbn [fst snd] in *. rewrite <- Hl2 in Hl1.
  assert (same_client c c2) as Hs by (by eapply same_client_trans).
  assert (ctx_ok h c2) as Hc2 by (unfold ctx_ok in *; by rewrite Ha2, Hu2, Hd2, Ha1, Hu1, Hd1).
  assert (forall c' rc w', same_client c c' -> ctx_ok h c' -> rc ∈ handler_rcodes -> log_typed (c_LogData c') ->
    serves (h_Response c' rc) (fun _ τ' => exists es, τ' = τ ++ es /\ answered (c_W c) r es) τ w') as Hresp.
  { intros c' rc w' (Hq' & Hw' & _) Hc' Hrc Hl'. eapply serves_mono; [|apply (serves_h_Response c' rc r); [congruence|done]].
    intros _ τ' (d & es & -> & He). exists es. split; [done|]. exists (with_log d c'), rc.
    split_and!; [done|done|simpl; congruence|done|set_solver]. }
  eapply serves_still; [apply still_FindZone|]. intros zn w2 _ _. case_match; [apply Hresp; auto; set_solver|].
  eapply serves_calm; [apply calm_LoadZone|]. intros [zone|] w3 _ Hz; [|apply Hresp; auto; set_solver].
  specialize (Hz _ eq_refl). set (c3 := with_log _ c2). assert (ctx_ok h c3 /\ same_client c c3) as [Hc3 Hs3] by done.
  assert (log_typed (c_LogData c3)) as Hl3 by (by apply log_typed_uuid, Hl1).
  eapply serves_calm; [eapply calm_safe; [apply (safe_resolveLoop h); [apply Hz|exact Hc3]|by apply calm_resolveLoop]|].
  intros [c4 res] w4 _ [_ (Hc4 & [Hs4 Hl4] & Hr4)]. cbn [fst snd] in *.
  eapply serves_calm; [eapply calm_safe; [apply (safe_secure h); [apply Hz|by split_and!]|by apply calm_secure]|].
  intros [c5 res'] w5 _ [_ (Hc5 & [Hs5 Hl5] & Hr5)]. cbn [fst snd] in *.
  apply Hresp; [eauto using same_client_trans|done|set_solver|by rewrite Hl5, Hl4].
Qed.

Lemma calm_NewRequestContext wr r w : calm (NewRequestContext wr (Some r)) (fun _ _ => True) w.
Proof.
  unfold NewRequestContext. eapply calm_bind_still; [apply still_now|]. intros t w1 _ _.
  eapply (calm_bind_still _ _ (fun _ => True)); [by apply still_lift|]. intros ip w2 _ _.
  eapply (calm_bind_still _ _ (fun _ => True)); [by apply still_lift|]. intros subnet w3 _ _.
  destruct (RawName _) as [name c]. by apply calm_ret.
Qed.

(** From [NewRequestContext] to the reply, whatever [CanHandle] says. *)
Lemma serves_request {B} wr r (f : RequestContext -> M B) Q τ w :
  (forall c w', c_Req c = Some r -> c_W c = wr -> ctx_ok h c -> log_typed (c_LogData c) -> serves (f c) Q τ w') ->
  serves (c ← NewRequestContext wr (Some r); f c) Q τ w.
Proof.
  intros Hf. eapply serves_calm; [eapply calm_safe; [apply (safe_NewRequestContext wr r)|apply calm_NewRequestContext]|].
  intros c w1 _ [_ (Hr & Hw & _ & Ha & Hu & Hx & Hl)]. apply Hf; try done. unfold ctx_ok. by rewrite Ha, Hu, Hx.
Qed.

Lemma serves_decided (ok : bool) c r τ w :
  c_Req c = Some r -> ctx_ok h c -> log_typed (c_LogData c) ->
  serves (if ok then HandleRequest h c else Response c RcodeRefused)
    (fun _ τ' => exists es, τ' = τ ++ es /\ answered (c_W c) r es) τ w.
Proof.
  intros Hr Hc Hl. destruct ok; [by apply serves_HandleRequest|].
  eapply serves_mono; [|by apply (serves_Response c _ r)]. intros _ τ' (es & -> & He). exists es. split; [done|].
  exists c, RcodeRefused. split_and!; [done..|set_solver].
Qed.

Lemma serves_serve reqs l τ w : serves (serve h l reqs) (fun _ _ => True) τ w.
Proof.
  revert l τ w. induction reqs as [|[wr r] reqs IH]; intros l τ w; simpl; [by apply serves_ret|].
  eapply (serves_bind _ _ (fun _ _ => True)); [|intros l' τ' w' _; apply IH]. unfold handleRequest.
  apply serves_request. intros c w1 Hr _ Hc Hl.
  do 4 (eapply serves_still; [apply still_tick|]; intros ? ? _ _).
  destruct (CanHandle _ l (req_IP wr)) as [ok l'].
  eapply serves_bind; [by apply (serves_decided ok c r)|]. intros; by apply serves_ret.
Qed.
End Replies.

(** One after the other, the requests are all handled. *)
Lemma serve_returns reqs l w : inv w -> exists l' w', serve h l reqs w = Done (l', w').
Proof.
  intros Hi. assert (d_inv (serving false) w) as Hi' by (split; [done|discriminate]).
  pose proof (rg_run _ _ _ _ [] w (serves_serve false reqs l [] w) Hi') as H.
  destruct (run (serve h l reqs) w) as [[l' w']| |]; [eauto|done|done].
Qed.

(** C2: with sane data the server answers everything.  If the zone configurations
    in Redis keep their SOA, the stored keys are DNSKEY records with a private
    key of their algorithm, source logging has an AS database and the distance
    filter does not follow health checks, then serving any sequence of requests
    from empty caches terminates without a panic, and exactly one reply has
    been written to each client, in the order of the requests. *)
Theorem serve_never_panics reqs l w :
  w_ZoneCache w = ∅ -> w_RecordCache w = ∅ -> w_heap w = ∅ ->
  exists l' w', serve h l reqs w = Done (l', w') /\
    written (w_events w') = written (w_events w) ++ map fst reqs.
Proof.
  intros Hz Hrc Hm. assert (inv w) as Hi.
  { unfold inv. rewrite Hz, Hrc, Hm. split_and!; apply map_Forall_empty. }
  assert (zones_ok w) as Hw by (unfold zones_ok; rewrite Hz; apply map_Forall_empty).
  pose proof (serve_spec h reqs l w Hw) as Hs. unfold wp in Hs. destruct (serve_returns reqs l w Hi) as (l' & w' & Er).
  rewrite Er in Hs. destruct Hs as [Hs _]. eauto.
Qed.
End Components.

(** ** A sane server *)

Lemma serve_never_panics_witness :
  exists l' w', serve (E := serve_env) serve_handler serve_limiter sample_requests serve_world = Done (l', w') /\
    length (written (w_events w')) = 5%nat.
Proof.
  assert (sane_handler serve_handler) as Hh by (split_and!; [by intros [] ip|done|by left]).
  assert (sane_data (E := serve_env)) as Hd.
  { split; [by intros zone s c|]. intros zone. split; intros pub priv _ _ _.
    all: exists (mkDNSKEY 256 3 8 pub); split; [done|]; by intros pk i e [= <-]. }
  destruct (serve_never_panics (E := serve_env) serve_handler Hh Hd (DL := SampleDnsLaws) sample_requests
    serve_limiter serve_world eq_refl eq_refl eq_refl) as (l' & w' & Hs & Hw).
  exists l', w'. split; [exact Hs|]. rewrite Hw. reflexivity.
Defined.
