(* ===== verification/Concurrent.v ===== *)
(** Requests handled concurrently.

    The DNS server calls [handleRequest] in a goroutine of its own for each
    request.  Here each request is a thread of [Threads], beside the goroutines
    of the handler (the zone updater, the health check), and the threads take
    their steps in any order. *)
From S2P Require Import Prelude GoStrings DnsTypes GoNet GoCache Monad Rely Threads ZoneIndex Zone OrderIps GeoIp Limiter Deps World Answers Sample Dnssec Upstream Health Request Loader Handler HandlerFacts Serve NoPanic.

#[global] Instance InflightGroup_eq_dec : EqDecision InflightGroup.
Proof. solve_decision. Defined.

Section Concurrent.
Context {L : Libs} {E : Env} (h : DnsRequestHandler).
Implicit Types (w : World) (p : Pool inflight World unit).

(** A request, and whether the rate limiter lets it pass. *)
Record Incoming := mkIncoming { in_ok : bool; in_W : Writer; in_Req : Msg }.

(** The goroutine of one request, [handleRequest] of redins.go. *)
Definition requestThread (x : Incoming) : M unit :=
  c ← NewRequestContext (in_W x) (Some (in_Req x));
  if in_ok x then HandleRequest h c else Response c RcodeRefused.

(** What the other goroutines of the handler do, for any number of rounds: the zone
    updater reloads the tree, [Start] queues the items that are due, a worker
    probes one, [Transfer] copies the settings from the zones. *)
Definition pingable (it : HealthCheckItem) : Prop :=
  it_Protocol it = "ping" \/ it_Protocol it = "icmp" ->
  exists b0 b1 b2 b3 l, ParseIP (it_Ip it) = Some (b0 :: b1 :: b2 :: b3 :: l).

Inductive background : M unit -> Prop :=
  | bg_idle : background (mret tt)
  | bg_zones m : background m -> background (LoadZones;; m)
  | bg_round m : background m -> background (startRound (healthcheck h);; m)
  | bg_probe it m : pingable it -> background m -> background (HandleHealthCheck it;; m)
  | bg_transfer m : background m -> background (transferRound (healthcheck h);; m).

(** The goroutines of the health check are among them. *)
Lemma Healthcheck_Start_background n k : Forall background (Healthcheck_Start (healthcheck h) n k).
Proof.
  unfold Healthcheck_Start, Transfer. destruct (hl_Enable _); repeat constructor.
  - induction n; simpl; by constructor.
  - induction k; simpl; by constructor.
Qed.

(** They leave alone what requests rely on. *)

Lemma still_LoadZones : still LoadZones (fun _ => True).
Proof. unfold LoadZones. repeat still_step. Qed.

Lemma still_startRound hl : still (startRound hl) (fun _ => True).
Proof. unfold startRound. repeat (apply still_loadItem || still_step). Qed.

Lemma still_status_write f : still (status_write f) (fun _ => True).
Proof. by apply still_atom. Qed.
#[local] Hint Resolve still_status_write still_loadItem : redins.

Lemma still_storeItem it : still (storeItem it) (fun _ => True).
Proof. unfold storeItem. repeat still_step. Qed.
#[local] Hint Resolve still_storeItem : redins.

Lemma still_pingCheck it timeout : pingable it -> it_Protocol it = "ping" \/ it_Protocol it = "icmp" ->
  still (pingCheck (it_Ip it) timeout) (fun _ => True).
Proof.
  intros Hp Hi. destruct (Hp Hi) as (b0 & b1 & b2 & b3 & l & Hip). unfold pingCheck. rewrite Hip.
  repeat still_step.
Qed.

Lemma still_HandleHealthCheck it : pingable it -> still (HandleHealthCheck it) (fun _ => True).
Proof.
  intros Hp. unfold HandleHealthCheck, httpCheck, logHealthcheck.
  destruct (_ || _); [repeat still_step|]. destruct (_ || _) eqn:Hi; [|repeat still_step].
  apply orb_true_iff in Hi. rewrite !String.eqb_eq in Hi.
  eapply still_bind; [by apply still_pingCheck|]. intros err _. repeat still_step.
Qed.

Lemma still_transferRound hl : still (transferRound hl) (fun _ => True).
Proof.
  assert (forall host id rrset, still (transferSet hl host id rrset) (fun _ => True)) as Hs.
  { intros host id rrset. unfold transferSet, transferAddr. repeat still_step. }
  unfold transferRound, transferOne, getDomainId. repeat (apply Hs || still_step).
Qed.

Lemma background_still m : background m -> still m (fun _ => True).
Proof.
  induction 1; [by apply still_ret|..]; (eapply still_bind; [|intros ? _; eassumption]).
  - apply still_LoadZones.
  - apply still_startRound.
  - by apply still_HandleHealthCheck.
  - apply still_transferRound.
Qed.

(** ** The theorem *)

Context {DL : DnsLibLaws lib_dns} (Hh : sane_handler h) (Hd : sane_data).

Lemma serves_requestThread q x w :
  serves q (requestThread x) (fun _ τ => answered h (in_W x) (in_Req x) τ) [] w.
Proof.
  unfold requestThread. apply (serves_request h). intros c w' Hr Hw Hc Hl.
  eapply serves_mono; [|by apply (serves_decided h Hh Hd q (in_ok x) c (in_Req x))].
  intros _ τ (es & -> & Ha). by rewrite <- Hw.
Qed.

Lemma serves_background q m w : background m -> serves q m (fun _ τ => τ = []) [] w.
Proof.
  intros Hm. eapply rg_mono; [|eapply rg_weaken; [apply serving_calming|]].
  2:{ eapply (calm_still _ _ (fun _ _ => True)); [by apply background_still|done]. }
  by intros a τ' w' [-> _].
Qed.

(** What each thread of the pool promises to have done to the clients. *)
Definition promises (bgs : list (M unit)) (reqs : list Incoming) : list (list Event -> Prop) :=
  ((fun _ τ => τ = []) <$> bgs) ++ ((fun x => answered h (in_W x) (in_Req x)) <$> reqs).

Definition serverPool (w : World) (bgs : list (M unit)) (reqs : list Incoming) : Pool inflight World unit :=
  start w (bgs ++ (requestThread <$> reqs)).

Lemma promises_kept q w bgs reqs i (m : M unit) :
  Forall background bgs -> (bgs ++ (requestThread <$> reqs)) !! i = Some m ->
  rg w_events (serving q) m (fun _ τ _ => forall P, promises bgs reqs !! i = Some P -> P τ) [] w.
Proof.
  intros Hb Hi. unfold promises. apply lookup_app_Some in Hi as [Hi|[Hle Hi]].
  - rewrite Forall_lookup in Hb. eapply rg_mono; [|by apply (serves_background q), (Hb i)].
    intros _ τ _ -> P HP. rewrite lookup_app_l, list_lookup_fmap, Hi in HP by (rewrite length_fmap; by eapply lookup_lt_Some).
    by injection HP as <-.
  - rewrite list_lookup_fmap in Hi. destruct (reqs !! _) as [x|] eqn:Ex; [|done]. injection Hi as <-.
    eapply rg_mono; [|apply (serves_requestThread q x)]. intros ? τ ? Ha P HP.
    rewrite lookup_app_r, list_lookup_fmap, length_fmap, Ex in HP by (by rewrite length_fmap). by injection HP as <-.
Qed.

Lemma written_answered wr r es : answered h wr r es -> written es = [wr].
Proof. intros (c & rc & (m & tl & _ & Htl & ->) & <- & _). by destruct Htl as [-> | ->]. Qed.

Lemma written_perm l l' : l ≡ₚ l' -> written l ≡ₚ written l'.
Proof. intros H. unfold written. by rewrite H. Qed.

(** The replies of all threads together. *)
Lemma promises_all bgs reqs τs :
  Forall2 (fun P τ => P τ) (promises bgs reqs) τs ->
  exists ess, concat τs = concat ess /\ Forall2 (fun x es => answered h (in_W x) (in_Req x) es) reqs ess.
Proof.
  intros (τ1 & ess & H1 & H2 & ->)%Forall2_app_inv_l. apply Forall2_fmap_l in H1. apply Forall2_fmap_l in H2.
  exists ess. split; [|done]. rewrite concat_app. assert (concat τ1 = []) as ->; [|done].
  clear -H1. induction H1 as [|m τ bgs τ1 Hm _ IH]; simpl in *; [done|]. by rewrite Hm, IH.
Qed.

Lemma replies_all reqs ess :
  Forall2 (fun x es => answered h (in_W x) (in_Req x) es) reqs ess -> written (concat ess) = map in_W reqs.
Proof.
  induction 1 as [|x es reqs ess Hx _ IH]; simpl; [done|]. unfold written in *. rewrite omap_app, IH.
  change (written es ++ map in_W reqs = in_W x :: map in_W reqs). by rewrite (written_answered _ _ _ Hx).
Qed.

End Concurrent.

(** ** Runs *)

Definition pool_redis : SampleRedisState :=
  mkSRS ∅ {["redins:zones:example.com." := <["www" := "www"]> (<["alias" := "alias"]> {["a" := "a"]})]}
    {["redins:zones" := {["example.com."]}]}.
Definition pool_world : World (L := serve_libs) := sampleWorld _ _ pool_redis ["example.com."].
Definition pool_bg : list (M (L := serve_libs) unit) := [LoadZones (E := serve_env);; mret tt].
Definition pool_requests : list (Incoming (L := serve_libs)) :=
  [mkIncoming (L := serve_libs) true "10.9.9.9" (question "www.example.com." TypeA);
   mkIncoming (L := serve_libs) true "10.9.9.8" (question "WWW.example.com." TypeA);
   mkIncoming (L := serve_libs) false "10.9.9.7" (question "www.example.com." TypeA)].
Definition sample_pool : Pool inflight (World (L := serve_libs)) unit :=
  serverPool (E := serve_env) serve_handler pool_world pool_bg pool_requests.

(** In turn, each takes a step. *)
Definition round_robin : list nat := concat (replicate 60 [0; 1; 2; 3]%nat).

(** Both requests for www miss the caches; the second finds the loads of the first
    in flight and shares their results: two calls are made, and one record is
    loaded. *)
Example requests_share_loads :
  let p := runSchedule round_robin sample_pool in
  bool_decide (Forall returned (p_threads p)) = true /\ p_calls p = 2%nat /\ size (w_heap (p_state p)) = 1%nat.
Proof. split_and!; by_run. Qed.

