(* ===== verification/LogFormat.v ===== *)
(** handler/logformat: log entries as Cap'n Proto messages.

    logformat.go builds a message from an entry; request.capnp.go has the
    accessors the Cap'n Proto compiler generated from request.capnp.  The
    runtime (zombiezen.com/go/capnproto2) is an interface: structs with a data
    section of bytes and a pointer section, and the encoding of messages. *)
From S2P Require Import Prelude GoStrings Utf8 DnsTypes GoCache Monad ZoneIndex OrderIps GeoIp Deps World Limiter Sample Dnssec Upstream Health Request Loader Handler HandlerFacts Serve.

(** ** The runtime *)

Class Capnp := {
  Segment : Type;                     (* *capnp.Segment *)
  CStruct : Type;                     (* capnp.Struct: a struct of a message *)
  CPtr : Type;                        (* capnp.Ptr *)
  CBytes : Type;                      (* an encoded message *)
  cap_NewMessage : option Segment;                            (* NewMessage(SingleSegment(nil)) *)
  cap_NewStruct : Segment -> nat -> nat -> option CStruct;      (* DataSize, PointerCount *)
  cap_NewRootStruct : Segment -> nat -> nat -> option CStruct;
  cap_Uint64 : CStruct -> nat -> Z;
  cap_Uint32 : CStruct -> nat -> Z;
  cap_Uint16 : CStruct -> nat -> Z;
  cap_SetUint64 : CStruct -> nat -> Z -> CStruct;
  cap_SetUint32 : CStruct -> nat -> Z -> CStruct;
  cap_SetUint16 : CStruct -> nat -> Z -> CStruct;
  cap_Ptr : CStruct -> nat -> CPtr * option string;             (* the pointer and an error *)
  cap_SetText : CStruct -> nat -> string -> option CStruct;     (* [None] is an error *)
  ptr_Text : CPtr -> string;
  ptr_TextBytes : CPtr -> list Z;
  ptr_IsValid : CPtr -> bool;
  cap_Encode : CStruct -> option CBytes;                        (* the message of a root struct *)
  cap_Root : CBytes -> option CStruct                           (* Decode, then RootPtr().Struct() *)
}.

(** ** request.capnp.go *)

Section RequestLog.
Context {C : Capnp}.

Definition RequestLog : Type := CStruct.

Definition NewRequestLog (s : Segment) : option RequestLog := cap_NewStruct s 16 5.
Definition NewRootRequestLog (s : Segment) : option RequestLog := cap_NewRootStruct s 16 5.
Definition ReadRootRequestLog (msg : CBytes) : option RequestLog := cap_Root msg.

Definition Timestamp (s : RequestLog) : Z := cap_Uint64 s 0.
Definition SetTimestamp (s : RequestLog) (v : Z) : RequestLog := cap_SetUint64 s 0 v.

(** A text field is a pointer: its text with the error of the lookup, and
    whether it is there. *)
Definition textField (i : nat) (s : RequestLog) : string * option string :=
  let '(p, err) := cap_Ptr s i in (ptr_Text p, err).
Definition bytesField (i : nat) (s : RequestLog) : list Z * option string :=
  let '(p, err) := cap_Ptr s i in (ptr_TextBytes p, err).
Definition hasField (i : nat) (s : RequestLog) : bool :=
  let '(p, err) := cap_Ptr s i in ptr_IsValid p || bool_decide (err <> None).

Definition Uuid (s : RequestLog) : string * option string := textField 0 s.
Definition HasUuid (s : RequestLog) : bool := hasField 0 s.
Definition UuidBytes (s : RequestLog) : list Z * option string := bytesField 0 s.
Definition SetUuid (s : RequestLog) (v : string) : option RequestLog := cap_SetText s 0 v.
Definition Record (s : RequestLog) : string * option string := textField 1 s.
Definition HasRecord (s : RequestLog) : bool := hasField 1 s.
Definition RecordBytes (s : RequestLog) : list Z * option string := bytesField 1 s.
Definition SetRecord (s : RequestLog) (v : string) : option RequestLog := cap_SetText s 1 v.
Definition Type_ (s : RequestLog) : string * option string := textField 2 s.
Definition HasType (s : RequestLog) : bool := hasField 2 s.
Definition TypeBytes (s : RequestLog) : list Z * option string := bytesField 2 s.
Definition SetType (s : RequestLog) (v : string) : option RequestLog := cap_SetText s 2 v.
Definition Ip (s : RequestLog) : string * option string := textField 3 s.
Definition HasIp (s : RequestLog) : bool := hasField 3 s.
Definition IpBytes (s : RequestLog) : list Z * option string := bytesField 3 s.
Definition SetIp (s : RequestLog) (v : string) : option RequestLog := cap_SetText s 3 v.
Definition Country (s : RequestLog) : string * option string := textField 4 s.
Definition HasCountry (s : RequestLog) : bool := hasField 4 s.
Definition CountryBytes (s : RequestLog) : list Z * option string := bytesField 4 s.
Definition SetCountry (s : RequestLog) (v : string) : option RequestLog := cap_SetText s 4 v.

Definition Asn (s : RequestLog) : Z := cap_Uint32 s 8.
Definition SetAsn (s : RequestLog) (v : Z) : RequestLog := cap_SetUint32 s 8 v.
Definition Responsecode (s : RequestLog) : Z := cap_Uint16 s 12.
Definition SetResponsecode (s : RequestLog) (v : Z) : RequestLog := cap_SetUint16 s 12 v.
Definition Processtime (s : RequestLog) : Z := cap_Uint16 s 14.
Definition SetProcesstime (s : RequestLog) (v : Z) : RequestLog := cap_SetUint16 s 14 v.
End RequestLog.

(** ** logformat.go *)

(** [v.(string)], [v.(int)], [v.(int64)], [v.(uint)] on a map lookup: a missing key
    is a nil interface, and a failed assertion panics. *)
Definition as_string (v : option LogVal) : Outcome string :=
  match v with Some (LvStr s) => mret s | _ => Panic end.
Definition as_int (v : option LogVal) : Outcome Z :=
  match v with Some (LvInt z) => mret z | _ => Panic end.
Definition as_int64 (v : option LogVal) : Outcome Z :=
  match v with Some (LvInt64 z) => mret z | _ => Panic end.
Definition as_uint (v : option LogVal) : Outcome Z :=
  match v with Some (LvUint z) => mret z | _ => Panic end.

(** [if err != nil { return []byte{}, err }] *)
Definition or_return {A B} (o : option A) (k : A -> Outcome (option B)) : Outcome (option B) :=
  match o with None => mret None | Some a => k a end.

Definition u64 (z : Z) : Z := z mod 2 ^ 64.

Section Format.
Context {C : Capnp}.

(** The entry's time in seconds since 1970 and its data; [None] is an error. *)
Definition Format (time : Z) (data : LogData) : Outcome (option CBytes) :=
  or_return cap_NewMessage (fun seg =>
  or_return (NewRootRequestLog seg) (fun requestLog =>
  let requestLog := SetTimestamp requestLog (u64 time) in
  uuid ← as_string (data !! "domain_uuid");
  or_return (SetUuid requestLog uuid) (fun requestLog =>
  record ← as_string (data !! "record");
  or_return (SetRecord requestLog record) (fun requestLog =>
  type ← as_string (data !! "type");
  or_return (SetType requestLog type) (fun requestLog =>
  code ← as_int (data !! "response_code");
  let requestLog := SetResponsecode requestLog (u16 code) in
  ms ← as_int64 (data !! "process_time");
  let requestLog := SetProcesstime requestLog (u16 ms) in
  requestLog ← match data !! "client_subnet" with
               | None => mret (Some requestLog)
               | Some v => subnet ← as_string (Some v); mret (SetIp requestLog subnet)
               end;
  or_return requestLog (fun requestLog =>
  requestLog ← match data !! "source_country" with
               | None => mret (Some requestLog)
               | Some v => country ← as_string (Some v); mret (SetCountry requestLog country)
               end;
  or_return requestLog (fun requestLog =>
  requestLog ← match data !! "source_asn" with
               | None => mret requestLog
               | Some v => asn ← as_uint (Some v); mret (SetAsn requestLog (u32 asn))
               end;
  mret (cap_Encode requestLog)))))))).
End Format.

(** ** Bytes *)

(** The [n] lowest bytes of [v], lowest first, and back. *)
Fixpoint le_bytes (n : nat) (v : Z) : list Z :=
  match n with O => [] | S n' => v mod 256 :: le_bytes n' (v / 256) end.
Fixpoint le_value (l : list Z) : Z :=
  match l with [] => 0 | b :: l' => b + 256 * le_value l' end.
Definition slice (off n : nat) (l : list Z) : list Z := take n (drop off l).
Definition overwrite (off : nat) (bs l : list Z) : list Z := take off l ++ bs ++ drop (off + length bs) l.

Lemma length_le_bytes n v : length (le_bytes n v) = n.
Proof. revert v. induction n as [|n IH]; intros v; simpl; [done|]. by rewrite IH. Qed.

Lemma le_value_bytes n v : le_value (le_bytes n v) = v mod 2 ^ (8 * Z.of_nat n).
Proof.
  revert v. induction n as [|n IH]; intros v; [simpl; by rewrite Z.mod_1_r|].
  cbn [le_bytes le_value]. rewrite IH. replace (8 * Z.of_nat (S n)) with (8 + 8 * Z.of_nat n) by lia.
  rewrite Z.pow_add_r by lia. change (2 ^ 8) with 256. rewrite Z.rem_mul_r by lia. done.
Qed.

Lemma length_overwrite off bs l : (off + length bs <= length l)%nat -> length (overwrite off bs l) = length l.
Proof. intros H. unfold overwrite. rewrite !length_app, length_take, length_drop. lia. Qed.

Lemma slice_overwrite_eq off bs l : (off + length bs <= length l)%nat -> slice off (length bs) (overwrite off bs l) = bs.
Proof.
  intros H. unfold slice, overwrite. rewrite drop_app_length' by (rewrite length_take; lia).
  by rewrite take_app_length.
Qed.

Lemma slice_overwrite_ne off bs l o n :
  (off + length bs <= length l)%nat -> (o + n <= off \/ off + length bs <= o)%nat ->
  slice o n (overwrite off bs l) = slice o n l.
Proof.
  intros H Hd. apply list_eq. intros i. unfold slice.
  destruct (decide (i < n)%nat) as [Hi|Hi]; [|by rewrite !lookup_take_ge by lia].
  rewrite !lookup_take_lt, !lookup_drop by lia. unfold overwrite. destruct Hd as [Hd|Hd].
  - rewrite lookup_app_l by (rewrite length_take; lia). by rewrite lookup_take_lt by lia.
  - rewrite lookup_app_r, length_take by (rewrite length_take; lia).
    rewrite lookup_app_r by lia. rewrite lookup_drop. f_equal. lia.
Qed.

(** ** What the runtime promises *)

(** Struct setters write little-endian bytes into the data section and leave the
    rest alone, [SetText] makes one text pointer, and a message read back has the
    same data and texts. *)
Class CapnpLaws (C : Capnp) := {
  cap_data : CStruct -> list Z;
  cap_text (s : CStruct) (i : nat) : string * option string := let '(p, err) := cap_Ptr s i in (ptr_Text p, err);
  cap_new : forall seg d p s, cap_NewRootStruct seg d p = Some s ->
    cap_data s = replicate d 0 /\ forall i, (i < p)%nat -> cap_text s i = ("", None);
  cap_Uint64_data : forall s off, (off + 8 <= length (cap_data s))%nat -> cap_Uint64 s off = le_value (slice off 8 (cap_data s));
  cap_Uint32_data : forall s off, (off + 4 <= length (cap_data s))%nat -> cap_Uint32 s off = le_value (slice off 4 (cap_data s));
  cap_Uint16_data : forall s off, (off + 2 <= length (cap_data s))%nat -> cap_Uint16 s off = le_value (slice off 2 (cap_data s));
  cap_SetUint64_data : forall s off v, (off + 8 <= length (cap_data s))%nat ->
    cap_data (cap_SetUint64 s off v) = overwrite off (le_bytes 8 v) (cap_data s) /\
    forall i, cap_text (cap_SetUint64 s off v) i = cap_text s i;
  cap_SetUint32_data : forall s off v, (off + 4 <= length (cap_data s))%nat ->
    cap_data (cap_SetUint32 s off v) = overwrite off (le_bytes 4 v) (cap_data s) /\
    forall i, cap_text (cap_SetUint32 s off v) i = cap_text s i;
  cap_SetUint16_data : forall s off v, (off + 2 <= length (cap_data s))%nat ->
    cap_data (cap_SetUint16 s off v) = overwrite off (le_bytes 2 v) (cap_data s) /\
    forall i, cap_text (cap_SetUint16 s off v) i = cap_text s i;
  cap_SetText_text : forall s i v s', cap_SetText s i v = Some s' ->
    cap_data s' = cap_data s /\ cap_text s' i = (v, None) /\ forall j, j <> i -> cap_text s' j = cap_text s j;
  cap_Encode_Root : forall s b, cap_Encode s = Some b -> exists s', cap_Root b = Some s' /\
    cap_data s' = cap_data s /\ forall i, cap_text s' i = cap_text s i
}.

(** No operation on a message in memory fails. *)
Definition cap_works (C : Capnp) : Prop :=
  is_Some cap_NewMessage /\ (forall seg d p, is_Some (cap_NewRootStruct seg d p)) /\
  (forall s i v, is_Some (cap_SetText s i v)) /\ (forall s, is_Some (cap_Encode s)).

Section FormatFacts.
Context {C : Capnp} {CL : CapnpLaws C}.

(** The fields of a log record, as the accessors of request.capnp.go give them. *)
Definition numbers (s : RequestLog) : Z * Z * Z * Z := (Timestamp s, Asn s, Responsecode s, Processtime s).
Definition texts (s : RequestLog) := (Uuid s, Record s, Type_ s, Ip s, Country s).
Definition sized (s : RequestLog) : Prop := length (cap_data s) = 16%nat.

Lemma fields_at s : sized s ->
  numbers s = (le_value (slice 0 8 (cap_data s)), le_value (slice 8 4 (cap_data s)),
               le_value (slice 12 2 (cap_data s)), le_value (slice 14 2 (cap_data s))).
Proof.
  unfold sized, numbers, Timestamp, Asn, Responsecode, Processtime. intros H.
  by rewrite cap_Uint64_data, cap_Uint32_data, !cap_Uint16_data by lia.
Qed.

Lemma texts_at s : texts s = (cap_text s 0, cap_text s 1, cap_text s 2, cap_text s 3, cap_text s 4).
Proof. done. Qed.

(** Same data and texts, same fields. *)
Lemma fields_ext s s' : sized s -> cap_data s' = cap_data s -> (forall i, cap_text s' i = cap_text s i) ->
  sized s' /\ numbers s' = numbers s /\ texts s' = texts s.
Proof.
  intros Hs Hd Ht. assert (sized s') as Hs' by (unfold sized; congruence). split; [done|].
  by rewrite !fields_at, !texts_at, Hd, !Ht.
Qed.

(** A setter that writes [n] bytes at [off]. *)
Lemma overwrite_fields s s' off n v :
  sized s -> (off + n <= 16)%nat -> cap_data s' = overwrite off (le_bytes n v) (cap_data s) ->
  (forall i, cap_text s' i = cap_text s i) ->
  sized s' /\ texts s' = texts s /\ le_value (slice off n (cap_data s')) = v mod 2 ^ (8 * Z.of_nat n) /\
  forall o k, (o + k <= off \/ off + n <= o)%nat -> slice o k (cap_data s') = slice o k (cap_data s).
Proof.
  unfold sized. intros Hs Hl Hd Ht.
  assert (off + length (le_bytes n v) <= length (cap_data s))%nat as Hle by (rewrite length_le_bytes; lia).
  rewrite !texts_at, !Ht, Hd, length_overwrite by done. split_and!; [done|done| |].
  - rewrite <- (length_le_bytes n v) at 1. by rewrite slice_overwrite_eq, le_value_bytes.
  - intros o k Ho. apply slice_overwrite_ne; [done|]. by rewrite length_le_bytes.
Qed.

Ltac field_setter Hs law s s' off n v :=
  let Hd := fresh in let Ht := fresh in
  destruct (law s off v) as [Hd Ht]; [unfold sized in Hs; lia|];
  destruct (overwrite_fields s s' off n v Hs) as (Hsz & Htx & Hv & Hne); [lia|exact Hd|exact Ht|];
  split; [exact Hsz|]; split; [|exact Htx]; rewrite fields_at by exact Hsz.

(** Each numeric setter changes its own field. *)
Lemma SetTimestamp_fields s v t a c p : sized s -> numbers s = (t, a, c, p) ->
  sized (SetTimestamp s v) /\ numbers (SetTimestamp s v) = (u64 v, a, c, p) /\ texts (SetTimestamp s v) = texts s.
Proof.
  intros Hs Hn. rewrite fields_at in Hn by done. field_setter Hs cap_SetUint64_data s (SetTimestamp s v) 0%nat 8%nat v.
  rewrite !(Hne 8%nat), !(Hne 12%nat), !(Hne 14%nat), Hv by lia. injection Hn as <- <- <- <-. reflexivity.
Qed.
Lemma SetAsn_fields s v t a c p : sized s -> numbers s = (t, a, c, p) ->
  sized (SetAsn s v) /\ numbers (SetAsn s v) = (t, u32 v, c, p) /\ texts (SetAsn s v) = texts s.
Proof.
  intros Hs Hn. rewrite fields_at in Hn by done. field_setter Hs cap_SetUint32_data s (SetAsn s v) 8%nat 4%nat v.
  rewrite !(Hne 0%nat), !(Hne 12%nat), !(Hne 14%nat), Hv by lia. injection Hn as <- <- <- <-. reflexivity.
Qed.
Lemma SetResponsecode_fields s v t a c p : sized s -> numbers s = (t, a, c, p) ->
  sized (SetResponsecode s v) /\ numbers (SetResponsecode s v) = (t, a, u16 v, p) /\ texts (SetResponsecode s v) = texts s.
Proof.
  intros Hs Hn. rewrite fields_at in Hn by done. field_setter Hs cap_SetUint16_data s (SetResponsecode s v) 12%nat 2%nat v.
  rewrite !(Hne 0%nat), !(Hne 8%nat), !(Hne 14%nat), Hv by lia. injection Hn as <- <- <- <-. reflexivity.
Qed.
Lemma SetProcesstime_fields s v t a c p : sized s -> numbers s = (t, a, c, p) ->
  sized (SetProcesstime s v) /\ numbers (SetProcesstime s v) = (t, a, c, u16 v) /\ texts (SetProcesstime s v) = texts s.
Proof.
  intros Hs Hn. rewrite fields_at in Hn by done. field_setter Hs cap_SetUint16_data s (SetProcesstime s v) 14%nat 2%nat v.
  rewrite !(Hne 0%nat), !(Hne 8%nat), !(Hne 12%nat), Hv by lia. injection Hn as <- <- <- <-. reflexivity.
Qed.

(** A text setter changes one text. *)
Lemma SetText_fields s i v s' : sized s -> cap_SetText s i v = Some s' ->
  sized s' /\ numbers s' = numbers s /\ cap_text s' i = (v, None) /\ forall j, j <> i -> cap_text s' j = cap_text s j.
Proof.
  intros Hs (Hd & Ht & Hne)%cap_SetText_text. assert (sized s') as Hs' by (unfold sized; congruence).
  by rewrite !fields_at, Hd.
Qed.

(** The record that stands for an entry. *)
Definition field (d : LogData) (k : string) : string * option string :=
  (match d !! k with Some (LvStr s) => s | _ => "" end, None).
Definition number (d : LogData) (k : string) : Z :=
  match d !! k with Some (LvInt z | LvInt64 z | LvUint z) => z | _ => 0 end.
Definition describes (time : Z) (d : LogData) (s : RequestLog) : Prop :=
  numbers s = (u64 time, u32 (number d "source_asn"), u16 (number d "response_code"), u16 (number d "process_time")) /\
  texts s = (field d "domain_uuid", field d "record", field d "type", field d "client_subnet", field d "source_country").

Lemma u16_idem z : u16 (u16 z) = u16 z.
Proof. unfold u16. apply Z.mod_mod. lia. Qed.
Lemma u32_idem z : u32 (u32 z) = u32 z.
Proof. unfold u32. apply Z.mod_mod. lia. Qed.
Lemma u64_idem z : u64 (u64 z) = u64 z.
Proof. unfold u64. apply Z.mod_mod. lia. Qed.

(** The three parts of [Format]: a fresh record, the fields every entry has, and
    the optional ones. *)
Definition encodes (time : Z) (d : LogData) (o : option CBytes) : Prop :=
  (cap_works C -> is_Some o) /\
  forall b, o = Some b -> exists s, ReadRootRequestLog b = Some s /\ describes time d s.

Lemma encodes_none time d : ~ cap_works C -> encodes time d None.
Proof. by split. Qed.

Lemma encode_encodes time d s : sized s -> describes time d s -> encodes time d (cap_Encode s).
Proof.
  intros Hs [Hn Ht]. split; [by intros (_ & _ & _ & Hw)|]. intros b Hb.
  destruct (cap_Encode_Root s b Hb) as (s' & Hr & Hd' & Ht'). exists s'. split; [done|].
  destruct (fields_ext s s' Hs Hd' Ht') as (_ & Hn' & Htx). split; congruence.
Qed.

Lemma SetText_fails s i v : cap_SetText s i v = None -> ~ cap_works C.
Proof. intros H (_ & _ & Hw & _). destruct (Hw s i v). congruence. Qed.

(** The tail of [Format], from the country on. *)
Lemma format_tail time d s t :
  (forall v, d !! "source_country" = Some v -> exists s, v = LvStr s) ->
  (forall v, d !! "source_asn" = Some v -> exists n, v = LvUint n) ->
  sized s ->
  numbers s = (u64 time, 0, u16 (number d "response_code"), u16 (number d "process_time")) ->
  texts s = (t, ("", None)) -> t = (field d "domain_uuid", field d "record", field d "type", field d "client_subnet") ->
  exists o, (
    requestLog ← match d !! "source_country" with
                 | None => mret (Some s)
                 | Some v => country ← as_string (Some v); mret (SetCountry s country)
                 end;
    or_return requestLog (fun requestLog =>
    requestLog ← match d !! "source_asn" with
                 | None => mret requestLog
                 | Some v => asn ← as_uint (Some v); mret (SetAsn requestLog (u32 asn))
                 end;
    mret (cap_Encode requestLog))) = Done o /\ encodes time d o.
Proof.
  intros Hc Ha Hs Hn Ht Et.
  assert (forall s', sized s' -> numbers s' = numbers s -> texts s' = (t, field d "source_country") ->
    exists o, (requestLog ← match d !! "source_asn" with
                 | None => mret s'
                 | Some v => asn ← as_uint (Some v); mret (SetAsn s' (u32 asn))
                 end;
               mret (cap_Encode requestLog)) = Done o /\ encodes time d o) as Hlast.
  { intros s' Hs' Hn' Ht'. destruct (d !! "source_asn") as [v|] eqn:Ev.
    - destruct (Ha v eq_refl) as [asn ->]. simpl. eexists. split; [reflexivity|].
      destruct (SetAsn_fields s' (u32 asn) _ _ _ _ Hs' (eq_trans Hn' Hn)) as (H1 & H2 & H3).
      apply encode_encodes; [done|]. unfold describes, number at 1. rewrite Ev, H2, H3, u32_idem. by subst t.
    - simpl. eexists. split; [reflexivity|]. apply encode_encodes; [done|].
      unfold describes, number at 1. rewrite Ev, Hn', Hn. by subst t. }
  destruct (d !! "source_country") as [v|] eqn:Ev.
  - destruct (Hc v eq_refl) as [country ->]. simpl. destruct (SetCountry s country) as [s'|] eqn:Es; simpl.
    + destruct (SetText_fields _ _ _ _ Hs Es) as (H1 & H2 & H3 & H4). apply Hlast; [done|done|].
      rewrite texts_at, H3, !H4 by lia. unfold field. rewrite Ev. rewrite texts_at in Ht. congruence.
    + exists None. split; [done|]. apply encodes_none. by eapply SetText_fails.
  - simpl. apply Hlast; [done|done|]. unfold field. by rewrite Ev.
Qed.

(** A step that sets a required text. *)
Lemma or_return_SetText {B} s i v (k : RequestLog -> Outcome (option B)) (P : option B -> Prop) :
  sized s -> (~ cap_works C -> P None) ->
  (forall s', sized s' -> numbers s' = numbers s -> cap_text s' i = (v, None) ->
     (forall j, j <> i -> cap_text s' j = cap_text s j) -> exists o, k s' = Done o /\ P o) ->
  exists o, or_return (cap_SetText s i v) k = Done o /\ P o.
Proof.
  intros Hs Hn Hk. destruct (cap_SetText s i v) as [s'|] eqn:Es; simpl.
  - destruct (SetText_fields _ _ _ _ Hs Es) as (? & ? & ? & ?). by apply Hk.
  - exists None. split; [done|]. by eapply Hn, SetText_fails.
Qed.

Lemma Format_spec time d : entry_ok d -> exists o, Format time d = Done o /\ encodes time d o.
Proof.
  intros (((uuid & Eu) & (record & Er) & (type & Et) & (subnet & Es) & Hc & Ha) & (rc & Erc) & (ms & Ems) & _).
  unfold Format, NewRootRequestLog. destruct cap_NewMessage as [seg|] eqn:Em; simpl.
  2:{ exists None. split; [done|]. apply encodes_none. intros [[? ?] _]. congruence. }
  destruct (cap_NewRootStruct seg 16 5) as [s0|] eqn:E0; simpl.
  2:{ exists None. split; [done|]. apply encodes_none. intros (_ & Hw & _). destruct (Hw seg 16%nat 5%nat). congruence. }
  apply cap_new in E0 as [Hd0 Ht0]. assert (sized s0) as Hs0 by (unfold sized; by rewrite Hd0).
  assert (numbers s0 = (0, 0, 0, 0)) as Hn0 by (rewrite fields_at, Hd0 by done; reflexivity).
  destruct (SetTimestamp_fields s0 (u64 time) _ _ _ _ Hs0 Hn0) as (Hs1 & Hn1 & Htx1). rewrite u64_idem in Hn1.
  rewrite Eu, Er, Et, Erc, Ems, Es. simpl. rewrite !texts_at, !Ht0 in Htx1 by lia.
  apply or_return_SetText; [done|apply encodes_none|]. intros s2 Hs2 Hn2 Hu2 Hx2.
  apply or_return_SetText; [done|apply encodes_none|]. intros s3 Hs3 Hn3 Hu3 Hx3.
  apply or_return_SetText; [done|apply encodes_none|]. intros s4 Hs4 Hn4 Hu4 Hx4. simpl.
  rewrite Hn1 in Hn2. rewrite Hn2 in Hn3. rewrite Hn3 in Hn4.
  destruct (SetResponsecode_fields s4 (u16 rc) _ _ _ _ Hs4 Hn4) as (Hs5 & Hn5 & Htx5).
  destruct (SetProcesstime_fields _ (u16 ms) _ _ _ _ Hs5 Hn5) as (Hs6 & Hn6 & Htx6). rewrite !u16_idem in Hn6.
  rewrite Htx5, !texts_at in Htx6. apply or_return_SetText; [done|apply encodes_none|]. intros s7 Hs7 Hn7 Hu7 Hx7.
  apply (format_tail time d s7 ((uuid, None), (record, None), (type, None), (subnet, None))); try done.
  - rewrite Hn7, Hn6. unfold number. by rewrite Erc, Ems.
  - rewrite texts_at, Hu7, !Hx7 by lia. injection Htx6 as -> -> -> _ ->. injection Htx1 as H0 H1 H2 H3 H4.
    rewrite Hu4, !(Hx4 0%nat), !(Hx4 1%nat), !(Hx4 4%nat), Hu3, !(Hx3 0%nat), !(Hx3 4%nat), Hu2, !(Hx2 4%nat) by lia.
    rewrite H4. reflexivity.
  - unfold field. by rewrite Eu, Er, Et, Es.
Qed.

(** C19: log entries as messages.  An entry of the log queue has what the formatter
    asserts, so formatting it does not panic; if the runtime reports no error
    there is a message, and reading it back gives the entry: its texts as they
    are, its time, AS number, reply code and duration reduced to the width of
    their fields (64, 32, 16 and 16 bits), and empty or zero for what the entry
    lacks. *)
Theorem Format_roundtrip time d :
  entry_ok d ->
  exists o, Format time d = Done o /\ (cap_works C -> is_Some o) /\
    forall b, o = Some b -> exists s, ReadRootRequestLog b = Some s /\
      (Timestamp s, Asn s, Responsecode s, Processtime s)
      = (u64 time, u32 (number d "source_asn"), u16 (number d "response_code"), u16 (number d "process_time")) /\
      (Uuid s, Record s, Type_ s, Ip s, Country s)
      = (field d "domain_uuid", field d "record", field d "type", field d "client_subnet", field d "source_country").
Proof. apply Format_spec. Qed.

(** The entry a closed log queue delivers, a nil map, makes the formatter panic. *)
Lemma Format_nil_panics time : cap_works C -> Format time ∅ = Panic.
Proof.
  intros ([seg Hm] & Hr & _). unfold Format, NewRootRequestLog. rewrite Hm. simpl.
  destruct (Hr seg 16%nat 5%nat) as [s ->]. done.
Qed.
End FormatFacts.

(** ** The entries of the queue *)

Section Queue.
Context {L : Libs} {E : Env} {DL : DnsLibLaws lib_dns} {C : Capnp} {CL : CapnpLaws C}.

(** C20: what the handler logs, the formatter can take.  Starting from an empty log
    queue and an empty zone cache, after any sequence of requests the queue has
    at most 1000 entries (its capacity), and each of them is formatted without a
    panic. *)
Theorem serve_log_formats h reqs l w :
  w_ZoneCache w = ∅ -> w_logQueue w = [] ->
  wp True (serve h l reqs) (fun _ w' =>
    (length (w_logQueue w') <= 1000)%nat /\
    forall d time, d ∈ w_logQueue w' -> exists o, Format time d = Done o) w.
Proof.
  intros Hz Hq. assert (zones_ok w) as Hw by (unfold zones_ok; rewrite Hz; apply map_Forall_empty).
  eapply wp_mono; [|by apply serve_spec]. intros l' w' [_ Hok]. destruct Hok as [Hf Hl].
  { unfold queue_ok. rewrite Hq. by split; [|simpl; lia]. }
  split; [done|]. intros d time Hd. rewrite Forall_forall in Hf. destruct (Format_spec time d (Hf d Hd)) as (o & Ho & _).
  eauto.
Qed.
End Queue.

(** ** A runtime, and runs *)

(** Structs as their bytes and texts; a message is its root. *)
Definition SampleCapnp : Capnp := {|
  Segment := unit; CStruct := list Z * gmap nat string; CPtr := string; CBytes := list Z * gmap nat string;
  cap_NewMessage := Some tt;
  cap_NewStruct _ d p := Some (replicate d 0, ∅);
  cap_NewRootStruct _ d p := Some (replicate d 0, ∅);
  cap_Uint64 s off := le_value (slice off 8 s.1);
  cap_Uint32 s off := le_value (slice off 4 s.1);
  cap_Uint16 s off := le_value (slice off 2 s.1);
  cap_SetUint64 s off v := (overwrite off (le_bytes 8 v) s.1, s.2);
  cap_SetUint32 s off v := (overwrite off (le_bytes 4 v) s.1, s.2);
  cap_SetUint16 s off v := (overwrite off (le_bytes 2 v) s.1, s.2);
  cap_Ptr s i := (default "" (s.2 !! i), None);
  cap_SetText s i v := Some (s.1, <[i := v]> s.2);
  ptr_Text p := p; ptr_TextBytes p := bytes_of p;
  ptr_IsValid p := negb (String.eqb p "");
  cap_Encode s := Some s; cap_Root b := Some b
|}.

#[global] Instance SampleCapnpLaws : CapnpLaws SampleCapnp.
Proof.
  refine {| cap_data := (fun s : @CStruct SampleCapnp => fst s) |}; try done; simpl.
  - by intros _ d p s [= <-].
  - intros s i v s' [= <-]. simpl. rewrite lookup_insert_eq. split_and!; [done|done|].
    intros j Hj. by rewrite lookup_insert_ne.
  - intros s b [= <-]. eauto.
Defined.

Definition sample_entry : LogData :=
  list_to_map [("domain_uuid", LvStr "id-1"); ("record", LvStr "www.example.com."); ("type", LvStr "A");
    ("client_subnet", LvStr ""); ("source_asn", LvUint 43754); ("response_code", LvInt 3);
    ("process_time", LvInt64 65537); ("log_type", LvStr "request")].

Lemma sample_entry_ok : entry_ok sample_entry.
Proof.
  unfold entry_ok, log_typed, sample_entry. split_and!; try (eexists; reflexivity); try reflexivity.
  all: intros v Hv; vm_compute in Hv; simplify_eq; eauto.
Qed.

(** A duration of 65537 ms is logged as one of 1 ms. *)
Lemma Format_roundtrip_witness :
  exists b s, Format (C := SampleCapnp) 1600000000 sample_entry = Done (Some b) /\
    ReadRootRequestLog (C := SampleCapnp) b = Some s /\
    Responsecode (C := SampleCapnp) s = 3 /\ Processtime (C := SampleCapnp) s = 1 /\
    Record (C := SampleCapnp) s = ("www.example.com.", None) /\ Country (C := SampleCapnp) s = ("", None).
Proof.
  destruct (Format_roundtrip (C := SampleCapnp) 1600000000 sample_entry sample_entry_ok) as (o & Ho & Hw & Hr).
  destruct Hw as [b ->]; [by split_and!; eauto|]. destruct (Hr b eq_refl) as (s & Hs & Hn & Ht).
  exists b, s. split_and!; [exact Ho|exact Hs|..].
  - exact (f_equal (fun x => x.1.2) Hn).
  - exact (f_equal snd Hn).
  - exact (f_equal (fun x => x.1.1.1.2) Ht).
  - exact (f_equal snd Ht).
Defined.

Lemma serve_log_formats_witness :
  wp True (serve (E := serve_env) serve_handler serve_limiter sample_requests)
    (fun _ w' => (length (w_logQueue w') <= 1000)%nat /\
       forall d time, d ∈ w_logQueue w' -> exists o, Format (C := SampleCapnp) time d = Done o) serve_world.
Proof. apply (serve_log_formats (E := serve_env) (DL := SampleDnsLaws) (C := SampleCapnp)); reflexivity. Defined.
