(* ===== verification/LogList.v ===== *)
(** The rest of handler/logformat/request.capnp.go: lists and promises of log
    records, their text form, and the schema it registers.  redins itself only
    writes single records ([Format]); readers of the log may use these. *)
From S2P Require Import Prelude GoStrings Utf8 LogFormat.

(** ** More of the runtime *)

(** [List.Struct] and [List.SetStruct] panic outside the list.  A [Pipeline] gives
    the struct once its call has returned.  The text encoding looks a type's schema
    up in a registry. *)
Class CapnpLists {C : Capnp} := {
  CList : Type;                                        (* capnp.List *)
  Pipeline : Type;                                     (* *capnp.Pipeline *)
  Registry : Type;                                     (* schemas.DefaultRegistry *)
  cap_NewCompositeList : Segment -> nat -> nat -> Z -> option CList;
  list_Len : CList -> Z;
  list_Struct : CList -> Z -> Outcome CStruct;
  list_SetStruct : CList -> Z -> CStruct -> Outcome (CList * option string);
  pipeline_Struct : Pipeline -> CStruct * option string;
  text_Marshal : Registry -> Z -> CStruct -> string * option string;
  text_MarshalList : Registry -> Z -> CList -> string * option string;
  schemas_Register : Registry -> list Z -> list Z -> Registry
}.

Section RequestLogList.
Context {C : Capnp} {CX : CapnpLists}.

Definition RequestLog_TypeID : Z := 0xc3dd579d38a573e0.

(** The error of the encoding is dropped. *)
Definition RequestLog_String (reg : Registry) (s : RequestLog) : string :=
  fst (text_Marshal reg 0xc3dd579d38a573e0 s).

Definition RequestLog_List : Type := CList.
Definition NewRequestLog_List (s : Segment) (sz : Z) : option RequestLog_List := cap_NewCompositeList s 16 5 sz.
Definition At (s : RequestLog_List) (i : Z) : Outcome RequestLog := list_Struct s i.
Definition Set_ (s : RequestLog_List) (i : Z) (v : RequestLog) : Outcome (RequestLog_List * option string) :=
  list_SetStruct s i v.
Definition RequestLog_List_String (reg : Registry) (s : RequestLog_List) : string :=
  fst (text_MarshalList reg 0xc3dd579d38a573e0 s).

Definition RequestLog_Promise : Type := Pipeline.
Definition Promise_Struct (p : RequestLog_Promise) : RequestLog * option string := pipeline_Struct p.

(** The compiled schema: a compressed Cap'n Proto message, byte by byte. *)
Definition schema_8d8d9fbdbf80710e : list Z :=
   [120; 218; 60; 202; 177; 202; 211; 80; 0; 197; 241; 115; 238; 77; 114; 83] ++
   [136; 109; 67; 174; 32; 78; 34; 78; 130; 66; 55; 233; 162; 56; 59; 120] ++
   [147; 193; 185; 166; 23; 137; 208; 36; 205; 77; 134; 78; 250; 2; 125; 4] ++
   [113; 242; 49; 164; 131; 184; 40; 14; 62; 128; 224; 3; 40; 56; 40; 84] ++
   [168; 68; 46; 31; 237; 118; 254; 63; 206; 252; 243; 35; 177; 8; 15; 4] ++
   [140; 14; 163; 241; 187; 123; 247; 224; 205; 179; 111; 31; 96; 166; 20; 227] ++
   [116; 251; 250; 240; 254; 237; 126; 143; 48; 84; 64; 250; 241; 83; 250; 85] ++
   [1; 139; 47; 35; 113; 111; 236; 236; 118; 176; 174; 191; 47; 202; 85; 91] ++
   [183; 203; 252; 42; 159; 52; 47; 128; 167; 164; 185; 35; 3; 32; 32; 144] ++
   [254; 204; 1; 243; 67; 210; 28; 5; 73; 77; 111; 127; 238; 2; 230; 151] ++
   [164; 57; 9; 166; 130; 154; 2; 72; 255; 46; 1; 243; 91; 50; 167; 96] ++
   [42; 133; 166; 4; 210; 127; 254; 121; 148; 44; 2; 175; 129; 212; 12; 128] ++
   [140; 188; 9; 152; 147; 100; 17; 123; 14; 3; 205; 16; 200; 66; 62; 6] ++
   [114; 74; 22; 137; 231; 72; 104; 70; 64; 54; 225; 109; 160; 8; 188; 207] ++
   [189; 171; 72; 83; 1; 217; 53; 190; 4; 138; 196; 251; 13; 239; 177; 210] ++
   [140; 129; 236; 58; 159; 3; 133; 246; 126; 139; 130; 99; 95; 109; 172; 235] ++
   [87; 27; 176; 229; 4; 130; 19; 112; 54; 12; 213; 154; 9; 4; 19; 240] ++
   [97; 103; 203; 166; 187; 228; 172; 223; 181; 246; 28; 178; 106; 207; 243; 85] ++
   [217; 12; 117; 223; 237; 206; 173; 86; 174; 102; 12; 193; 24; 28; 59; 235] ++
   [218; 166; 118; 22; 179; 178; 89; 91; 42; 8; 42; 112; 108; 187; 166; 180] ++
   [206; 245; 80; 213; 230; 162; 255; 3; 0; 0; 255; 255; 83; 38; 81; 59].

(** [func init()] *)
Definition init_schema (reg : Registry) : Registry :=
  schemas_Register reg schema_8d8d9fbdbf80710e [0xc3dd579d38a573e0].
End RequestLogList.

(** ** Lists of records *)

(** What the runtime promises of composite lists: [sz] empty structs; [SetStruct]
    copies a struct into one place; and within the list nothing panics. *)
Class CapnpListLaws {C : Capnp} (CL : CapnpLaws C) (CX : CapnpLists) := {
  list_new seg d p sz l : cap_NewCompositeList seg d p sz = Some l ->
    list_Len l = sz /\ forall i s, list_Struct l i = Done s ->
      cap_data s = replicate d 0 /\ forall j, (j < p)%nat -> cap_text s j = ("", None);
  list_at l i : 0 <= i < list_Len l -> exists s, list_Struct l i = Done s;
  list_at_out l i : ~ 0 <= i < list_Len l -> list_Struct l i = Panic;
  list_set l i v : 0 <= i < list_Len l -> exists l' err, list_SetStruct l i v = Done (l', err) /\ list_Len l' = list_Len l /\
    (err = None -> exists s, list_Struct l' i = Done s /\ cap_data s = cap_data v /\ forall j, cap_text s j = cap_text v j) /\
    forall j, j <> i -> list_Struct l' j = list_Struct l j
}.

Section ListFacts.
Context {C : Capnp} {CL : CapnpLaws C} {CX : CapnpLists} {CXL : CapnpListLaws CL CX}.

(** A record written into a list is read back with all its fields, and the others
    keep theirs. *)
Theorem List_Set_At (l : RequestLog_List) i v :
  0 <= i < list_Len l -> sized v ->
  exists l' err, Set_ l i v = Done (l', err) /\
    (err = None -> exists s, At l' i = Done s /\ numbers s = numbers v /\ texts s = texts v) /\
    forall j, j <> i -> At l' j = At l j.
Proof.
  intros Hi Hv. destruct (list_set l i v Hi) as (l' & err & Hs & _ & Hat & Hne). exists l', err.
  split; [done|]. split; [|done]. intros He. destruct (Hat He) as (s & Hs' & Hd & Ht). exists s. split; [done|].
  by destruct (fields_ext v s Hv Hd Ht).
Qed.

(** A new list has [sz] empty records and panics beyond them. *)
Theorem NewRequestLog_List_empty seg sz l i :
  NewRequestLog_List seg sz = Some l ->
  (0 <= i < sz -> exists s, At l i = Done s /\ numbers s = (0, 0, 0, 0) /\ fst (Record s) = "") /\
  (~ 0 <= i < sz -> At l i = Panic).
Proof.
  intros Hl. destruct (list_new _ _ _ _ _ Hl) as [Hlen Hz]. rewrite <- Hlen. split; [|apply list_at_out].
  intros Hi. destruct (list_at l i Hi) as [s Hs]. destruct (Hz i s Hs) as [Hd Ht]. exists s. split; [done|].
  split; [|by pose proof (Ht 1%nat ltac:(lia)) as H; unfold cap_text in H; unfold Record, textField; destruct (cap_Ptr s 1); simplify_eq/=].
  rewrite fields_at by (unfold sized; by rewrite Hd). by rewrite Hd.
Qed.
End ListFacts.

(** ** A runtime *)

(** Lists of structs; the registry is the list of what was registered. *)
Definition SampleLists : CapnpLists (C := SampleCapnp) := {|
  CList := list (@CStruct SampleCapnp); Pipeline := @CStruct SampleCapnp; Registry := list (list Z * list Z);
  cap_NewCompositeList _ d p sz := if sz <? 0 then None else Some (replicate (Z.to_nat sz) (replicate d 0, ∅));
  list_Len l := Z.of_nat (length l);
  list_Struct l i := if i <? 0 then Panic else match l !! Z.to_nat i with Some s => Done s | None => Panic end;
  list_SetStruct l i v :=
    if (i <? 0) || (Z.of_nat (length l) <=? i) then Panic else Done (<[Z.to_nat i := v]> l, None);
  pipeline_Struct s := (s, None);
  text_Marshal _ _ s := (fst (textField (C := SampleCapnp) 0 s), None);
  text_MarshalList _ _ _ := ("", None);
  schemas_Register reg schema ids := reg ++ [(schema, ids)]
|}.

#[global] Instance SampleListLaws : CapnpListLaws SampleCapnpLaws SampleLists.
Proof.
  split; simpl.
  - intros _ d p sz l. destruct (Z.ltb_spec sz 0); [done|]. intros [= <-]. rewrite length_replicate. split; [lia|].
    intros i s. destruct (i <? 0); [done|]. destruct (_ !! _) as [s'|] eqn:Es; [|done]. intros [= <-].
    apply lookup_replicate in Es as [-> _]. done.
  - intros l i Hi. rewrite (proj2 (Z.ltb_ge i 0)) by lia. destruct (lookup_lt_is_Some_2 l (Z.to_nat i)) as [s ->]; [lia|eauto].
  - intros l i Hi. destruct (Z.ltb_spec i 0); [done|]. rewrite lookup_ge_None_2 by lia. done.
  - intros l i v Hi. rewrite (proj2 (Z.ltb_ge i 0)), (proj2 (Z.leb_gt _ i)) by lia. simpl. eexists _, None.
    split; [reflexivity|]. rewrite length_insert, list_lookup_insert_eq by lia. split; [done|]. split; [by eexists|].
    intros j Hj. destruct (Z.ltb_spec j 0); [done|]. rewrite list_lookup_insert_ne by lia. done.
Qed.

(** The AS number of the [i]-th record. *)
Definition asn_at (l : @RequestLog_List SampleCapnp SampleLists) (i : Z) : Outcome Z :=
  s ← At (CX := SampleLists) l i; mret (Asn (C := SampleCapnp) s).

Example list_run :
  let v := (SetAsn (C := SampleCapnp) (replicate 16 0, {[1%nat := "www.example.com."]}) 43754 : @RequestLog SampleCapnp) in
  match NewRequestLog_List (CX := SampleLists) tt 3 with
  | Some l => match Set_ (CX := SampleLists) l 2 v with
              | Done (l', _) => (asn_at l' 2, asn_at l' 1, asn_at l' 3)
              | _ => (Panic, Panic, Panic)
              end
  | None => (Panic, Panic, Panic)
  end = (Done 43754, Done 0, Panic).
Proof. reflexivity. Qed.
