(* ===== verification/Boot.v ===== *)
(** Starting and stopping the handler: [NewHandler] and [ShutDown] of
    handler/handler.go, [NewHealthcheck] and [ShutDown] of
    handler/healthcheck.go.

    Starting is a function from the configuration to the handler and the state it
    starts with.  Stopping is a protocol between goroutines, modelled as a
    transition system. *)
From S2P Require Import Prelude GoStrings DnsTypes GoCache Monad ZoneIndex OrderIps GeoIp Limiter Server Deps World Sample Dnssec Upstream Health Request Loader Updater Handler HandlerFacts Serve NoPanic Config LogFormat.

(** ** [NewHandler] *)

Inductive Formatter :=
  | CapnpRequestLogFormatter
  | JSONFormatter (timestampFormat : string)
  | TextFormatter (timestampFormat : string).

Definition getFormatter (config : DnsRequestHandlerConfig) (name : string) : Formatter :=
  let tf := log_TimeFormat (hcfg_Log config) in
  if String.eqb name "capnp_request" then CapnpRequestLogFormatter
  else if String.eqb name "json" then JSONFormatter tf
  else if String.eqb name "text" then TextFormatter tf
  else TextFormatter tf.

Section Boot.
Context {L : Libs} {E : Env}.
(** [maxminddb.Open], and the two Redis servers as they are at the start. *)
Context (open : string -> option Reader) (rs rstatus : RS).

Definition newHandler (config : DnsRequestHandlerConfig) : DnsRequestHandler :=
  mkHandler (hcfg_MaxTtl config) (hcfg_CacheTimeout config) (hcfg_LogSourceLocation config)
    (NewGeoIp open (hcfg_GeoIp config)) (NewHealthcheck (hcfg_HealthCheck config)).

(** The state before [h.LoadZones()]: an empty tree, empty caches and queues. *)
Definition bootWorld (config : DnsRequestHandlerConfig) : World :=
  let '(ucache, conns) := NewUpstream (hcfg_Upstream config) in
  mkWorld 0 rs rstatus radix_New 0 ∅ ∅ ∅
    (gc_new (updateInterval (NewHealthcheck (hcfg_HealthCheck config)))) ucache conns [] [] [] [].

Definition NewHandler (config : DnsRequestHandlerConfig) : Outcome (DnsRequestHandler * World) :=
  match LoadZones (bootWorld config) with
  | Done (_, w) => Done (newHandler config, w)
  | Panic => Panic
  | Diverge => Diverge
  end.

Lemma NewHandler_spec config :
  exists w, NewHandler config = Done (newHandler config, w) /\
    w_Zones w = match redis_SMembers (env_redis 1 rs) "redins:zones" with
                | (zs, None) => buildZones zs
                | (_, Some _) => radix_New
                end /\
    w_ZoneCache w = ∅ /\ w_RecordCache w = ∅ /\ w_heap w = ∅ /\ w_events w = [] /\ w_logQueue w = [].
Proof.
  assert (wp False LoadZones (fun _ w =>
    w_Zones w = match redis_SMembers (env_redis 1 rs) "redins:zones" with
                | (zs, None) => buildZones zs
                | (_, Some _) => radix_New
                end /\
    w_ZoneCache w = ∅ /\ w_RecordCache w = ∅ /\ w_heap w = ∅ /\ w_events w = [] /\ w_logQueue w = [])
    (bootWorld config)) as H.
  { unfold LoadZones, bootWorld. do 6 wstep. simpl. destruct (redis_SMembers _ _) as [zs [e|]]; wstep; done. }
  unfold NewHandler, wp in *. destruct (LoadZones (bootWorld config)) as [[[] w]| |]; [|done|done]. eauto.
Qed.

Context {DL : DnsLibLaws lib_dns}.

End Boot.

(** ** [ShutDown] *)

(** Where the caller of [ShutDown] is. *)
Inductive MainPc :=
  | AtHealth        (* before h.healthcheck.ShutDown() *)
  | AtDispStop      (* in its h.dispatcher.Stop() *)
  | AtAdd2          (* before its h.quitWG.Add(2) *)
  | AtCloseHcQuit   (* before its close(h.quit) *)
  | HealthWait      (* in its h.quitWG.Wait() *)
  | AtCloseLog      (* before close(h.logQueue) *)
  | AtCloseQuit     (* before close(h.quit) *)
  | AtWait          (* in h.quitWG.Wait() *)
  | Returned.

(** [Healthcheck.Start]: before or in [h.dispatcher.Run()]; in its loop, with [items] that
    are due still to be handed to [h.dispatcher.Queue], at the select when there are none;
    returned. *)
Inductive StartPc := SFresh | SLoop (items : nat) | SDone.

(** [Healthcheck.Transfer]: not started yet by [Start], in its loop, returned. *)
Inductive TransferPc := TNone | TLoop | TDone.

(** A goroutine before its [h.quitWG.Add(1)], in its loop, and after it. *)
Inductive Phase := Fresh | Looping | Finished.

Record Sys := mkSys {
  s_pc : MainPc;
  s_hcQuit : bool;       (* healthcheck's quit is closed *)
  s_hcWG : Z;            (* healthcheck's wait group *)
  s_start : StartPc;
  s_transfer : TransferPc;
  s_run : bool;          (* dispatcher.Run() has returned *)
  s_stopped : bool;      (* dispatcher.Stop() has returned *)
  s_logClosed : bool;    (* h.logQueue is closed *)
  s_quit : bool;         (* h.quit is closed *)
  s_wg : Z;              (* h.quitWG *)
  s_log : Phase;         (* the log goroutine *)
  s_upd : Phase;         (* the zone updater *)
  s_sub : bool;          (* the subscription has been given &h.quitWG and has not called Done *)
  s_nils : nat           (* nil entries given to the logger *)
}.

Definition set_pc (pc : MainPc) (s : Sys) : Sys :=
  mkSys pc (s_hcQuit s) (s_hcWG s) (s_start s) (s_transfer s) (s_run s) (s_stopped s) (s_logClosed s) (s_quit s) (s_wg s)
    (s_log s) (s_upd s) (s_sub s) (s_nils s).
Definition set_hc (q : bool) (wg : Z) (st : StartPc) (tr : TransferPc) (s : Sys) : Sys :=
  mkSys (s_pc s) q wg st tr (s_run s) (s_stopped s) (s_logClosed s) (s_quit s) (s_wg s)
    (s_log s) (s_upd s) (s_sub s) (s_nils s).
Definition set_disp (run stopped : bool) (s : Sys) : Sys :=
  mkSys (s_pc s) (s_hcQuit s) (s_hcWG s) (s_start s) (s_transfer s) run stopped (s_logClosed s) (s_quit s) (s_wg s)
    (s_log s) (s_upd s) (s_sub s) (s_nils s).
Definition set_closed (lc q : bool) (s : Sys) : Sys :=
  mkSys (s_pc s) (s_hcQuit s) (s_hcWG s) (s_start s) (s_transfer s) (s_run s) (s_stopped s) lc q (s_wg s)
    (s_log s) (s_upd s) (s_sub s) (s_nils s).
Definition set_wg (wg : Z) (lg up : Phase) (sub : bool) (s : Sys) : Sys :=
  mkSys (s_pc s) (s_hcQuit s) (s_hcWG s) (s_start s) (s_transfer s) (s_run s) (s_stopped s) (s_logClosed s) (s_quit s) wg
    lg up sub (s_nils s).
Definition set_nils (n : nat) (s : Sys) : Sys :=
  mkSys (s_pc s) (s_hcQuit s) (s_hcWG s) (s_start s) (s_transfer s) (s_run s) (s_stopped s) (s_logClosed s) (s_quit s) (s_wg s)
    (s_log s) (s_upd s) (s_sub s) n.

(** Calls into other packages: workerpool's dispatcher, and the call of [Done] by
    uperdis' [SubscribeEvent] once it was told to quit. *)
Inductive ExtCall := DispatcherRun | DispatcherStop | DispatcherQueue | SubscriptionDone.

(** Who takes the next step.  [Tick k]: the ticker of [Start] fires with [k] items due;
    [LogNil]: the log goroutine receives from the closed queue. *)
Inductive SLabel := Main | StartG | Tick (due : nat) | TransferG | LogG | LogNil | UpdG | SubG.

#[global] Instance MainPc_eq_dec : EqDecision MainPc.
Proof. solve_decision. Defined.
#[global] Instance StartPc_eq_dec : EqDecision StartPc.
Proof. solve_decision. Defined.
#[global] Instance TransferPc_eq_dec : EqDecision TransferPc.
Proof. solve_decision. Defined.
#[global] Instance SLabel_eq_dec : EqDecision SLabel.
Proof. solve_decision. Defined.

Section Shutdown.
(** Whether health checks are enabled; whether the zones have any record: the loop of
    [Transfer] looks at [h.quit] once per record; and whether a call into another package
    returns when the system is in a state. *)
Context (enabled has_records : bool) (returns : ExtCall -> Sys -> bool).

(** The steps of each goroutine; [None]: it is blocked, or has ended. *)
Definition mainStep (s : Sys) : option Sys :=
  match s_pc s with
  | AtHealth => Some (set_pc (if enabled then AtDispStop else AtCloseLog) s)
  | AtDispStop => if returns DispatcherStop s then Some (set_pc AtAdd2 (set_disp (s_run s) true s)) else None
  | AtAdd2 => Some (set_pc AtCloseHcQuit (set_hc (s_hcQuit s) (s_hcWG s + 2) (s_start s) (s_transfer s) s))
  | AtCloseHcQuit => Some (set_pc HealthWait (set_hc true (s_hcWG s) (s_start s) (s_transfer s) s))
  | HealthWait => if s_hcWG s =? 0 then Some (set_pc AtCloseLog s) else None
  | AtCloseLog => Some (set_pc AtCloseQuit (set_closed true (s_quit s) s))
  | AtCloseQuit => Some (set_pc AtWait (set_closed (s_logClosed s) true s))
  | AtWait => if s_wg s =? 0 then Some (set_pc Returned s) else None
  | Returned => None
  end.

Definition startStep (s : Sys) : option Sys :=
  match s_start s with
  | SFresh =>
      if enabled
      then if returns DispatcherRun s
           then Some (set_disp true (s_stopped s) (set_hc (s_hcQuit s) (s_hcWG s) (SLoop 0) TLoop s)) else None
      else Some (set_hc (s_hcQuit s) (s_hcWG s) SDone (s_transfer s) s)
  | SLoop O => if s_hcQuit s then Some (set_hc true (s_hcWG s - 1) SDone (s_transfer s) s) else None
  | SLoop (S k) =>
      if returns DispatcherQueue s then Some (set_hc (s_hcQuit s) (s_hcWG s) (SLoop k) (s_transfer s) s) else None
  | SDone => None
  end.

(** The ticker's case of the select of [Start]. *)
Definition tickStep (due : nat) (s : Sys) : option Sys :=
  match s_start s with
  | SLoop O => Some (set_hc (s_hcQuit s) (s_hcWG s) (SLoop due) (s_transfer s) s)
  | _ => None
  end.

Definition transferStep (s : Sys) : option Sys :=
  match s_transfer s with
  | TLoop => if has_records && s_hcQuit s then Some (set_hc true (s_hcWG s - 1) (s_start s) TDone s) else None
  | _ => None
  end.

Definition logStep (s : Sys) : option Sys :=
  match s_log s with
  | Fresh => Some (set_wg (s_wg s + 1) Looping (s_upd s) (s_sub s) s)
  | Looping => if s_quit s then Some (set_wg (s_wg s - 1) Finished (s_upd s) (s_sub s) s) else None
  | Finished => None
  end.

(** [data := <-h.logQueue] on the closed queue. *)
Definition logNilStep (s : Sys) : option Sys :=
  match s_log s with
  | Looping => if s_logClosed s then Some (set_nils (S (s_nils s)) s) else None
  | _ => None
  end.

Definition updaterStep (s : Sys) : option Sys :=
  match s_upd s with
  | Fresh => Some (set_wg (s_wg s + 1) (s_log s) Looping (s_sub s) s)
  | Looping => if s_quit s then Some (set_wg (s_wg s) (s_log s) Finished true s) else None
  | Finished => None
  end.

Definition sstep (a : SLabel) (s : Sys) : option Sys :=
  match a with
  | Main => mainStep s
  | StartG => startStep s
  | Tick due => tickStep due s
  | TransferG => transferStep s
  | LogG => logStep s
  | LogNil => logNilStep s
  | UpdG => updaterStep s
  | SubG => if s_sub s && returns SubscriptionDone s then Some (set_wg (s_wg s - 1) (s_log s) (s_upd s) false s) else None
  end.

(** A run: the steps in the order they were taken. *)
Definition srun (l : list SLabel) (s : Sys) : option Sys := foldl (fun o a => o ≫= sstep a) (Some s) l.

(** [NewHandler] has returned: [Start] has not been scheduled yet, or is in its loop and
    has started [Transfer]. *)
Definition running_system (st : option nat) (lg up : Phase) : Sys :=
  mkSys AtHealth false 0
    (match st with Some k => if enabled then SLoop k else SDone | None => SFresh end)
    (match st with Some _ => if enabled then TLoop else TNone | None => TNone end)
    (match st with Some _ => enabled | None => false end) false false false
    ((match lg with Looping => 1 | _ => 0 end) + (match up with Looping => 1 | _ => 0 end)) lg up false 0.

Definition b2z (b : bool) : Z := if b then 1 else 0.
Definition looping (p : Phase) : Z := match p with Looping => 1 | _ => 0 end.
Definition start_left (st : StartPc) : Z := match st with SDone => 0 | _ => 1 end.
Definition transfer_left (tr : TransferPc) : Z := match tr with TDone => 0 | _ => 1 end.

(** The handler's wait group counts what still has to finish. *)
Definition wg_counts (s : Sys) : Prop :=
  s_wg s = looping (s_log s) + looping (s_upd s) + b2z (s_sub s) /\ (s_upd s <> Finished -> s_sub s = false) /\
  s_quit s = (match s_pc s with AtWait | Returned => true | _ => false end).

(** So does the health check's, once [ShutDown] has added the two. *)
Definition hc_counts (s : Sys) : Prop :=
  if enabled then
    (s_transfer s = TNone <-> s_start s = SFresh) /\
    match s_pc s with
    | AtHealth | AtDispStop | AtAdd2 => s_hcQuit s = false /\ s_hcWG s = 0 /\ s_start s <> SDone /\ s_transfer s <> TDone
    | AtCloseHcQuit => s_hcQuit s = false /\ s_hcWG s = 2 /\ s_start s <> SDone /\ s_transfer s <> TDone
    | HealthWait => s_hcQuit s = true /\ s_hcWG s = start_left (s_start s) + transfer_left (s_transfer s)
    | _ => s_hcQuit s = true /\ s_hcWG s = 0 /\ s_start s = SDone /\ s_transfer s = TDone
    end
  else
    s_transfer s = TNone /\ s_hcQuit s = false /\ s_hcWG s = 0 /\ (s_start s = SFresh \/ s_start s = SDone) /\
    match s_pc s with AtDispStop | AtAdd2 | AtCloseHcQuit | HealthWait => False | _ => True end.

Definition counts (s : Sys) : Prop := wg_counts s /\ hc_counts s.

(** Take a step apart. *)
Ltac open_step H := unfold sstep, mainStep, startStep, tickStep, transferStep, logStep, logNilStep, updaterStep in H; cbn in H.
Ltac step_cases :=
  repeat match goal with
  | H : Some _ = Some _ |- _ => injection H as <-
  | H : None = Some _ |- _ => discriminate H
  | H : context [match ?x with _ => _ end] |- _ => destruct x eqn:?
  end.

Lemma wg_counts_step a s s' : sstep a s = Some s' -> wg_counts s -> wg_counts s'.
Proof.
  destruct s as [pc hq hw st tr rn sp lc q wg lg up sb n]. unfold wg_counts. cbn. intros Hs (Hwg & Hsub & Hq).
  destruct a; open_step Hs; step_cases; subst; cbn in *; split_and!; try done; try (rewrite ?(Hsub ltac:(done)) in * ); cbn in *; try lia.
  all: first [by destruct enabled|destruct sb; cbn in *; (done || lia)].
Qed.

Lemma hc_counts_step a s s' : sstep a s = Some s' -> hc_counts s -> hc_counts s'.
Proof.
  destruct s as [pc hq hw st tr rn sp lc q wg lg up sb n]. unfold hc_counts. cbn.
  destruct enabled eqn:He; intros Hs Hc; destruct a; open_step Hs; rewrite ?He in Hs; step_cases; subst; cbn in *; try tauto;
    destruct_and? Hc; bool_to_prop; try done; try (destruct pc); destruct_and?; simplify_eq; split_and!;
    try done; try lia; try naive_solver.
  all: destruct st, tr; cbn in *; (done || lia).
Qed.

Lemma srun_snoc l a s : srun (l ++ [a]) s = srun l s ≫= sstep a.
Proof. unfold srun. by rewrite foldl_app. Qed.

(** What every step keeps holds after every run. *)
Lemma srun_invariant (I : Sys -> Prop) l s s' :
  (forall a s s', sstep a s = Some s' -> I s -> I s') -> srun l s = Some s' -> I s -> I s'.
Proof.
  intros Hstep. revert s'. induction l as [|a l IH] using rev_ind; intros s' Hr Hi; [by injection Hr as <-|].
  rewrite srun_snoc in Hr. destruct (srun l s) as [s1|] eqn:E; [|done]. eapply Hstep; [exact Hr|auto].
Qed.

Lemma counts_srun l st lg up s : lg <> Finished -> up <> Finished -> srun l (running_system st lg up) = Some s -> counts s.
Proof.
  intros Hl Hu Hr. split.
  - apply (srun_invariant wg_counts _ _ _ wg_counts_step Hr). unfold wg_counts, running_system. cbn. by destruct lg, up.
  - apply (srun_invariant hc_counts _ _ _ hc_counts_step Hr). unfold hc_counts, running_system. cbn.
    destruct enabled, st; cbn; naive_solver.
Qed.

(** Steps that change nothing for the end: a tick, and a nil entry for the log. *)
Definition idle (a : SLabel) : bool := match a with Tick _ | LogNil => true | _ => false end.

(** The items that ticks have made due. *)
Definition due_items (l : list SLabel) : nat := sum_list_with (fun a => match a with Tick k => k | _ => 0%nat end) l.

(** How many steps are left at most, apart from the idle ones. *)
Definition left_steps (s : Sys) : nat :=
  match s_pc s with
  | AtHealth => 8 | AtDispStop => 7 | AtAdd2 => 6 | AtCloseHcQuit => 5 | HealthWait => 4 | AtCloseLog => 3 | AtCloseQuit => 2
  | AtWait => 1 | Returned => 0
  end +
  match s_start s with SFresh => 3 | SLoop k => 1 + k | SDone => 0 end + (match s_transfer s with TLoop => 1 | _ => 0 end) +
  match s_log s with Fresh => 2 | Looping => 1 | Finished => 0 end +
  match s_upd s with Fresh => 3 | Looping => 2 | Finished => 0 end + (if s_sub s then 1 else 0).

Lemma left_step a s s' : sstep a s = Some s' ->
  ((if idle a then 0 else 1) + left_steps s' <= left_steps s + due_items [a])%nat.
Proof.
  destruct s as [pc hq hw st tr rn sp lc q wg lg up sb n]. unfold left_steps, due_items. cbn. intros Hs.
  destruct a; open_step Hs; step_cases; subst; cbn in *; try lia; repeat case_match; simplify_eq; lia.
Qed.

Lemma steps_bounded l s s' : srun l s = Some s' ->
  (length (filter (fun a => idle a = false) l) + left_steps s' <= left_steps s + due_items l)%nat.
Proof.
  revert s'. induction l as [|a l IH] using rev_ind; intros s' Hr; [injection Hr as <-; cbn; lia|].
  rewrite srun_snoc in Hr. destruct (srun l s) as [s1|] eqn:E; [|done]. specialize (IH _ eq_refl). apply left_step in Hr.
  unfold due_items in *. rewrite sum_list_with_app, filter_app, length_app, filter_cons, filter_nil.
  destruct (idle a) eqn:Ei; [rewrite decide_False by done|rewrite decide_True by done]; cbn in *; lia.
Qed.

(** Unless it has returned, something can happen, if the calls into other packages
    return. *)
Lemma shutdown_progress s :
  counts s -> (enabled = true -> has_records = true) -> (forall c s, returns c s = true) -> s_pc s <> Returned ->
  exists a s', idle a = false /\ sstep a s = Some s'.
Proof.
  intros [(Hwg & Hsub & Hq) Hc] Hrec Hret Hpc. unfold hc_counts in Hc.
  destruct s as [pc hq hw st tr rn sp lc q wg lg up sb n]. cbn in *.
  destruct pc; cbn in *; try done; try (by (eexists Main, _; split; [done|cbn; rewrite ?Hret; done])).
  - destruct enabled eqn:He; [|by destruct Hc as (_ & _ & _ & _ & [])]. destruct Hc as (Hl & -> & ->). specialize (Hrec eq_refl).
    destruct st as [|[|k]|]; [eexists StartG, _; split; [done|cbn; rewrite He, Hret; done]|
      by eexists StartG, _|eexists StartG, _; split; [done|cbn; rewrite Hret; done]|].
    destruct tr; [by pose proof (proj1 Hl eq_refl)|eexists TransferG, _; split; [done|cbn; rewrite Hrec; done]|by eexists Main, _].
  - subst q. destruct lg; [by eexists LogG, _|by eexists LogG, _|]. destruct up; [by eexists UpdG, _|by eexists UpdG, _|].
    destruct sb; [eexists SubG, _; split; [done|cbn; rewrite Hret; done]|]. subst wg. by eexists Main, _.
Qed.


(** Once [ShutDown] has returned, both goroutines of the health check have ended. *)
Lemma returned_ended l st lg up s : lg <> Finished -> up <> Finished -> enabled = true ->
  srun l (running_system st lg up) = Some s -> s_pc s = Returned -> s_start s = SDone /\ s_transfer s = TDone.
Proof.
  intros Hl Hu He Hr Hp. destruct (counts_srun _ _ _ _ _ Hl Hu Hr) as [_ Hc]. unfold hc_counts in Hc. rewrite He, Hp in Hc. tauto.
Qed.

(** Shutting down can hang.  With health checks on and no record in any zone,
    [Transfer] never reaches the select in which it would see that it has to
    stop, so [ShutDown] waits for it forever. *)
Theorem shutdown_hangs st lg up l s :
  lg <> Finished -> up <> Finished -> enabled = true -> has_records = false ->
  srun l (running_system st lg up) = Some s -> s_pc s <> Returned.
Proof.
  intros Hl Hu He Hno Hr Hp. destruct (returned_ended _ _ _ _ _ Hl Hu He Hr Hp) as [_ Ht]. revert Ht.
  apply (srun_invariant (fun s => s_transfer s <> TDone) _ _ _) with (2 := Hr).
  - intros a s1 s2 Hs Hn. destruct a; open_step Hs; rewrite ?Hno, ?He in Hs; cbn in Hs; step_cases; cbn; congruence.
  - unfold running_system. cbn. rewrite He. by destruct st.
Qed.

(** The same happens if [Start] is handing out items when the dispatcher is stopped,
    and [Queue] does not return on a stopped dispatcher. *)
Theorem shutdown_hangs_in_queue st lg up l s l' s' k :
  lg <> Finished -> up <> Finished -> enabled = true -> (forall s, s_stopped s = true -> returns DispatcherQueue s = false) ->
  srun l (running_system st lg up) = Some s -> s_stopped s = true -> s_start s = SLoop (S k) ->
  srun l' s = Some s' -> s_pc s' <> Returned.
Proof.
  intros Hl Hu He Hq Hr Hst Hk Hr' Hp.
  assert (s_stopped s' = true /\ s_start s' = SLoop (S k)) as [_ Hk'].
  { apply (srun_invariant (fun s => s_stopped s = true /\ s_start s = SLoop (S k)) _ _ _) with (2 := Hr'); [|done].
    intros a s1 s2 Hs [H1 H2]. destruct a; open_step Hs; rewrite ?H2, ?He, ?(Hq _ H1) in Hs; step_cases; done. }
  assert (srun (l ++ l') (running_system st lg up) = Some s') as Hall by (unfold srun in *; by rewrite foldl_app, Hr).
  destruct (returned_ended _ _ _ _ _ Hl Hu He Hall Hp). congruence.
Qed.

(** After [close(h.logQueue)] the log goroutine may wake up any number of times
    with a nil entry before it sees that [h.quit] is closed. *)
Lemma nil_entries n : enabled = false ->
  exists l s, srun l (running_system None Looping Looping) = Some s /\ s_nils s = n.
Proof.
  intros He. enough (exists l s, srun l (running_system None Looping Looping) = Some s /\ s_nils s = n /\ s_log s = Looping /\ s_logClosed s = true)
    as (l & s & H1 & H2 & _) by eauto.
  induction n as [|n (l & s & H1 & H2 & H3 & H4)].
  - eexists [Main; Main], _. unfold srun. cbn. rewrite He. cbn. split_and!; done.
  - eexists (l ++ [LogNil]), _. rewrite srun_snoc, H1. cbn. unfold logNilStep. rewrite H3, H4. split; [reflexivity|]. cbn. by rewrite H2.
Qed.
End Shutdown.

(** A whole run, with an item that is due when the shutdown begins. *)
Definition shutdown_run : list SLabel :=
  [StartG; Tick 1; Main; Main; Main; LogG; Main; StartG; StartG; TransferG; UpdG; Main; Main; LogNil; Main; LogG; UpdG; SubG; Main].


Lemma shutdown_hangs_witness :
  exists s, srun true false (fun _ _ => true) [Main; Main; Main; Main] (running_system true (Some 0%nat) Looping Looping) = Some s /\
    s_pc s = HealthWait /\ s_pc s <> Returned.
Proof.
  eexists. split; [reflexivity|]. split; [reflexivity|].
  apply (shutdown_hangs true false (fun _ _ => true) (Some 0%nat) Looping Looping [Main; Main; Main; Main]); done.
Defined.

