(* ===== verification/Process.v ===== *)
(** redins.go: [Start], [Stop] and [main], the life of the process.

    The listeners run in goroutines that index the global slice [s] when they are
    scheduled, so [Start] leaves indices in [p_pending] and each of them is a
    later step. *)
From S2P Require Import Prelude GoStrings GoCache Monad OrderIps GeoIp Limiter Server Deps World Sample Upstream Health Config.

(** What the process does to its listeners and handlers, by generation: [Start]
    makes a new one. *)
Inductive Call :=
  | ListenAndServe (gen i : nat)
  | Shutdown (gen i : nat)
  | NewHandlerCall (gen : nat)
  | HandlerShutDown (gen : nat).

#[global] Instance Call_eq_dec : EqDecision Call.
Proof. solve_decision. Defined.

Inductive Status := Running | Exited | Crashed.

#[global] Instance Status_eq_dec : EqDecision Status.
Proof. solve_decision. Defined.

Record Proc := mkProc {
  p_cell : RedinsConfig;      (* what redinsDefaultConfig points to *)
  p_gen : nat;
  p_servers : nat;            (* len(s) *)
  p_pending : list nat;       (* goroutines of Start that have not run yet *)
  p_calls : list Call;        (* oldest first *)
  p_status : Status
}.

Section Process.
Context {J : ConfigJson} {GC : GoCache} (configFile : string).
(** The TLS side of [NewServer]. *)
Context (CertPool Certificate : Type) (ReadFile : string -> option string)
  (AppendCertsFromPEM : string -> option CertPool) (LoadX509KeyPair : string -> string -> option Certificate).

(** [Start], reading the files as they are; the error of [LoadConfig] is dropped.
    [NewRateLimiter] comes after the handler and may panic. *)
Definition Start (open : Files) (p : Proc) : Proc :=
  let cfg := fst (LoadConfig open configFile (p_cell p)) in
  let s := NewServer CertPool Certificate ReadFile AppendCertsFromPEM LoadX509KeyPair (cfg_Server cfg) in
  let gen := S (p_gen p) in
  let calls := p_calls p ++ [NewHandlerCall gen] in
  match NewRateLimiter (cfg_RateLimit cfg) with
  | Done _ => mkProc cfg gen (length s) (p_pending p ++ seq 0 (length s)) calls Running
  | _ => mkProc cfg gen (length s) (p_pending p) calls Crashed
  end.

Definition Stop (p : Proc) : Proc :=
  mkProc (p_cell p) (p_gen p) (p_servers p) (p_pending p)
    (p_calls p ++ map (Shutdown (p_gen p)) (seq 0 (p_servers p)) ++ [HandlerShutDown (p_gen p)]) (p_status p).

(** What drives the process: a signal, with the files it will find, or the
    scheduler running the [k]-th waiting goroutine. *)
Inductive Ev := SIGINT | SIGHUP (open : Files) | Sched (k : nat).

(** [s[i].ListenAndServe()]: an index past the slice panics. *)
Definition runGoroutine (k : nat) (p : Proc) : Proc :=
  match p_pending p !! k with
  | None => p
  | Some i =>
      let pending := delete k (p_pending p) in
      if (i <? p_servers p)%nat
      then mkProc (p_cell p) (p_gen p) (p_servers p) pending (p_calls p ++ [ListenAndServe (p_gen p) i]) (p_status p)
      else mkProc (p_cell p) (p_gen p) (p_servers p) pending (p_calls p) Crashed
  end.

(** The signal loop of [main]; nothing happens after the process has ended. *)
Definition pstep (e : Ev) (p : Proc) : Proc :=
  match p_status p with
  | Running =>
      match e with
      | SIGINT => let p := Stop p in mkProc (p_cell p) (p_gen p) (p_servers p) (p_pending p) (p_calls p) Exited
      | SIGHUP open => Start open (Stop p)
      | Sched k => runGoroutine k p
      end
  | _ => p
  end.

Definition prun (evs : list Ev) (p : Proc) : Proc := foldl (fun p e => pstep e p) p evs.

Definition initial : Proc := mkProc redinsDefaultConfig 0 0 [] [] Running.

(** [main] after the flags, which are in CommandLine.v. *)
Definition main (open : Files) (evs : list Ev) : Proc := prun evs (Start open initial).

(** ** Orderly runs *)

(** Every signal finds all the goroutines of [Start] scheduled. *)
Fixpoint orderly (evs : list Ev) (p : Proc) : Prop :=
  match evs with
  | [] => True
  | e :: evs' => (match e with Sched _ => True | _ => p_pending p = [] end) /\ orderly evs' (pstep e p)
  end.

Definition count_call (c : Call) (p : Proc) : nat := length (filter (eq c) (p_calls p)).

(** Listeners of older generations have been shut down as often as they were
    started; those of the current one are started or waiting, each once. *)
Definition paired (p : Proc) : Prop :=
  (forall g i, (g < p_gen p)%nat -> count_call (ListenAndServe g i) p = count_call (Shutdown g i) p /\
                               (count_call (ListenAndServe g i) p <= 1)%nat) /\
  (forall g i, (p_gen p < g)%nat -> count_call (ListenAndServe g i) p = 0%nat /\ count_call (Shutdown g i) p = 0%nat) /\
  (forall i, (count_call (ListenAndServe (p_gen p) i) p + length (filter (eq i) (p_pending p)))%nat
             = if decide (i < p_servers p)%nat then 1%nat else 0%nat) /\
  (forall i, count_call (Shutdown (p_gen p) i) p = 0%nat).

Lemma count_seq i n : length (filter (eq i) (seq 0 n)) = if decide (i < n)%nat then 1%nat else 0%nat.
Proof.
  induction n as [|n IH]; [by destruct (decide _); [lia|]|]. rewrite seq_S, filter_app, length_app, IH.
  rewrite filter_cons, filter_nil. simpl. repeat case_decide; simpl; lia.
Qed.

Lemma count_map (f : nat -> Call) c i n : (forall a b, f a = f b -> a = b) -> c = f i ->
  length (filter (eq c) (map f (seq 0 n))) = if decide (i < n)%nat then 1%nat else 0%nat.
Proof.
  intros Hf ->. rewrite <- count_seq. generalize (seq 0 n) as l. induction l as [|a l IH]; simpl; [done|].
  rewrite !filter_cons. destruct (decide (f i = f a)) as [E|E], (decide (i = a)) as [E'|E']; simpl; auto; naive_solver.
Qed.

Lemma count_map_ne (f : nat -> Call) c n : (forall a, c <> f a) -> length (filter (eq c) (map f (seq 0 n))) = 0%nat.
Proof.
  intros Hf. generalize (seq 0 n) as l. induction l as [|a l IH]; simpl; [done|].
  rewrite filter_cons. case_decide; [naive_solver|done].
Qed.

Lemma filter_delete_count (l : list nat) k a i : l !! k = Some a ->
  length (filter (eq i) l) = ((if decide (i = a) then 1 else 0) + length (filter (eq i) (delete k l)))%nat.
Proof.
  intros Hk. rewrite (delete_Permutation l k a Hk) at 1. rewrite filter_cons. by case_decide.
Qed.

(** After [Stop] with nothing waiting. *)
Definition stopped (p : Proc) : Prop :=
  (forall g i, count_call (ListenAndServe g i) p = count_call (Shutdown g i) p /\
               (count_call (ListenAndServe g i) p <= 1)%nat) /\
  (forall g i, (p_gen p < g)%nat -> count_call (ListenAndServe g i) p = 0%nat) /\ p_pending p = [].

Lemma Stop_stopped p : paired p -> p_pending p = [] -> stopped (Stop p).
Proof.
  intros (Hold & Hnew & Hcur & Hsh) Hp. unfold stopped, count_call, Stop. simpl. split_and!; [|intros g i Hg|done].
  - intros g i. rewrite !filter_app, !length_app, !filter_cons, !filter_nil. simpl. rewrite !Nat.add_0_r.
    rewrite (count_map_ne _ (ListenAndServe g i)) by done. rewrite Nat.add_0_r.
    destruct (decide (g = p_gen p)) as [->|Hg].
    + rewrite (count_map _ _ i) by naive_solver. specialize (Hcur i). specialize (Hsh i). rewrite Hp in Hcur.
      unfold count_call in *. simpl in Hcur. rewrite Hsh. case_decide; lia.
    + rewrite (count_map_ne _ (Shutdown g i)) by congruence. rewrite Nat.add_0_r.
      destruct (decide (g < p_gen p)%nat); [by apply Hold|]. destruct (Hnew g i) as [E1 E2]; [lia|].
      unfold count_call in *. lia.
  - rewrite !filter_app, !length_app, filter_cons, filter_nil. simpl. rewrite (count_map_ne _ (ListenAndServe g i)) by done.
    destruct (Hnew g i Hg) as [E _]. unfold count_call in E. lia.
Qed.

Lemma Start_paired open p : stopped p -> p_status (Start open p) = Running -> paired (Start open p).
Proof.
  intros (Hbal & Hnew & Hp). unfold Start. destruct (NewRateLimiter _) as [rl| |]; simpl; try done. intros _.
  rewrite Hp. unfold paired, count_call. simpl.
  assert (forall c, (forall g, c <> NewHandlerCall g) -> filter (eq c) (p_calls p ++ [NewHandlerCall (S (p_gen p))]) = filter (eq c) (p_calls p)) as Hc.
  { intros c Hne. rewrite filter_app, filter_cons_False, filter_nil by apply Hne. by rewrite app_nil_r. }
  split_and!.
  - intros g i _. rewrite !Hc by done. apply Hbal.
  - intros g i Hg. rewrite !Hc by done. destruct (Hbal g i) as [E _]. specialize (Hnew g i). unfold count_call in *. lia.
  - intros i. rewrite Hc by done. rewrite count_seq. pose proof (Hnew (S (p_gen p)) i) as E. unfold count_call in E. lia.
  - intros i. rewrite Hc by done. destruct (Hbal (S (p_gen p)) i) as [E _]. specialize (Hnew (S (p_gen p)) i). unfold count_call in *. lia.
Qed.

Lemma runGoroutine_paired k p : paired p -> p_status p = Running ->
  paired (runGoroutine k p) /\ p_status (runGoroutine k p) = Running.
Proof.
  intros Hpair Hst. unfold runGoroutine. destruct (p_pending p !! k) as [a|] eqn:Ek; [|done].
  destruct Hpair as (Hold & Hnew & Hcur & Hsh). pose proof (Hcur a) as Ha. rewrite (filter_delete_count _ _ _ a Ek) in Ha.
  destruct (Nat.ltb_spec a (p_servers p)); [|do 2 case_decide; simpl in Ha; lia]. split; [|done].
  assert (forall c, (forall g i, c <> ListenAndServe g i) ->
    filter (eq c) (p_calls p ++ [ListenAndServe (p_gen p) a]) = filter (eq c) (p_calls p)) as Hc.
  { intros c Hne. rewrite filter_app, filter_cons_False, filter_nil by apply Hne. by rewrite app_nil_r. }
  assert (forall g i, length (filter (eq (ListenAndServe g i)) (p_calls p ++ [ListenAndServe (p_gen p) a]))
    = (length (filter (eq (ListenAndServe g i)) (p_calls p)) + if decide (g = p_gen p /\ i = a) then 1 else 0)%nat) as Hl.
  { clear. intros g i. rewrite filter_app, length_app, filter_cons, filter_nil. repeat case_decide; simpl; naive_solver. }
  unfold paired, count_call. simpl. split_and!.
  - intros g i Hg. rewrite Hl, Hc by done. rewrite decide_False by lia. rewrite Nat.add_0_r. by apply Hold.
  - intros g i Hg. rewrite Hl, Hc by done. rewrite decide_False by lia. rewrite Nat.add_0_r. by apply Hnew.
  - intros i. rewrite Hl. specialize (Hcur i). rewrite (filter_delete_count _ _ _ i Ek) in Hcur. unfold count_call in Hcur.
    rewrite <- Hcur. clear. repeat case_decide; naive_solver lia.
  - intros i. rewrite Hc by done. apply Hsh.
Qed.

(** What holds after every step of an orderly run. *)
Definition tidy (p : Proc) : Prop :=
  match p_status p with
  | Running => paired p
  | Exited => stopped p
  | Crashed => rlc_Rate (cfg_RateLimit (p_cell p)) = 0
  end.

Lemma Start_tidy open p : stopped p -> tidy (Start open p).
Proof.
  intros Hs. pose proof (Start_paired open p Hs) as Hp. unfold tidy, Start in *.
  unfold NewRateLimiter in *. destruct (Z.eqb_spec (rlc_Rate (cfg_RateLimit (fst (LoadConfig open configFile (p_cell p))))) 0); simpl in *; [done|].
  by apply Hp.
Qed.

Lemma pstep_tidy e p : tidy p -> (match e with Sched _ => True | _ => p_pending p = [] end) -> tidy (pstep e p).
Proof.
  intros Ht He. unfold pstep. destruct (p_status p) eqn:Es; try (unfold tidy in *; by rewrite Es in *).
  assert (paired p) as Hp by (unfold tidy in Ht; by rewrite Es in Ht). destruct e as [|open|k].
  - unfold tidy. simpl. by apply Stop_stopped.
  - by apply Start_tidy, Stop_stopped.
  - destruct (runGoroutine_paired k p Hp Es) as [H1 H2]. unfold tidy. by rewrite H2.
Qed.

Lemma prun_tidy evs p : tidy p -> orderly evs p -> tidy (prun evs p).
Proof.
  revert p. induction evs as [|e evs IH]; intros p Ht; simpl; [done|]. intros [He Ho]. apply IH; [by apply pstep_tidy|done].
Qed.

(** ** Handlers *)

(** One handler per generation, shut down before the next; [down] says whether the
    last one has been shut down too. *)
Definition handled (down : bool) (p : Proc) : Prop := forall g,
  count_call (NewHandlerCall g) p = (if decide (1 <= g <= p_gen p)%nat then 1%nat else 0%nat) /\
  count_call (HandlerShutDown g) p = (if decide (1 <= g /\ (g < p_gen p \/ (g = p_gen p /\ down = true)))%nat then 1%nat else 0%nat).

Lemma count_snoc (c : Call) l c' : length (filter (eq c) (l ++ [c'])) = (length (filter (eq c) l) + if decide (c = c') then 1 else 0)%nat.
Proof. rewrite filter_app, length_app, filter_cons, filter_nil. by case_decide. Qed.

Lemma Stop_handled p : (1 <= p_gen p)%nat -> handled false p -> handled true (Stop p).
Proof.
  intros Hg H g. destruct (H g) as [Hn Hs]. unfold count_call, Stop in *. simpl.
  rewrite !app_assoc, !count_snoc, !filter_app, !length_app, Hn, Hs, !count_map_ne by done. rewrite !Nat.add_0_r. split; [done|].
  rewrite (decide_ext (HandlerShutDown g = HandlerShutDown (p_gen p)) (g = p_gen p)) by naive_solver.
  clear -Hg. repeat case_decide; intuition (done || lia).
Qed.

Lemma Start_handled open p : handled true p -> handled false (Start open p) /\ p_gen (Start open p) = S (p_gen p) /\ p_status (Start open p) <> Exited.
Proof.
  intros H. assert (forall q, p_calls q = p_calls p ++ [NewHandlerCall (S (p_gen p))] -> p_gen q = S (p_gen p) -> handled false q) as Hq.
  { intros q Hc Hg g. destruct (H g) as [Hn Hs]. unfold count_call in *. rewrite Hc, Hg, !count_snoc, Hn, Hs.
    rewrite (decide_ext (NewHandlerCall g = NewHandlerCall (S (p_gen p))) (g = S (p_gen p))), (decide_False (P := HandlerShutDown g = _)) by naive_solver.
    clear. split; repeat case_decide; intuition (done || lia). }
  unfold Start. destruct (NewRateLimiter _); split; [apply Hq; done|done|apply Hq; done|done|apply Hq; done|done].
Qed.

Lemma handled_calls d p q : p_gen q = p_gen p -> (forall g, count_call (NewHandlerCall g) q = count_call (NewHandlerCall g) p /\
  count_call (HandlerShutDown g) q = count_call (HandlerShutDown g) p) -> handled d p -> handled d q.
Proof. intros Hg Hc H g. destruct (Hc g) as [-> ->]. rewrite Hg. apply H. Qed.

Lemma pstep_handled e p : let ok p := handled (bool_decide (p_status p = Exited)) p /\ (1 <= p_gen p)%nat in
  ok p -> ok (pstep e p).
Proof.
  intros ok [H Hg]. unfold ok, pstep. destruct (p_status p) eqn:Es; [|by rewrite Es in *..].
  destruct e as [|open|k].
  - simpl. split; [|done]. eapply handled_calls; [| |apply Stop_handled; [exact Hg|exact H]]; done.
  - destruct (Start_handled open (Stop p)) as (H1 & H2 & H3); [by apply Stop_handled|]. rewrite bool_decide_false by done.
    split; [done|]. rewrite H2. lia.
  - unfold runGoroutine. destruct (p_pending p !! k); [|by rewrite Es]. destruct (_ <? _)%nat; simpl; rewrite ?Es; (split; [|done]);
      (eapply handled_calls; [| |exact H]; [done|]); intros g; unfold count_call; simpl; [by rewrite !count_snoc, !decide_False, !Nat.add_0_r|done].
Qed.

Lemma main_handled open evs : let p := main open evs in handled (bool_decide (p_status p = Exited)) p /\ (1 <= p_gen p)%nat.
Proof.
  unfold main, prun. assert (forall p, handled (bool_decide (p_status p = Exited)) p /\ (1 <= p_gen p)%nat ->
    let q := foldl (fun p e => pstep e p) p evs in handled (bool_decide (p_status q = Exited)) q /\ (1 <= p_gen q)%nat) as Hrun.
  { induction evs as [|e evs IH]; intros p Hp; simpl; [done|]. apply IH. by apply pstep_handled. }
  apply Hrun. destruct (Start_handled open initial) as (H1 & H2 & H3).
  { intros g. unfold count_call. simpl. split; case_decide; naive_solver lia. }
  rewrite bool_decide_false by done. split; [done|]. rewrite H2. lia.
Qed.

End Process.

(** ** Runs *)

Definition sample_main (open : Files) (evs : list Ev) : Proc :=
  main (J := SampleConfigJson) (GC := MapCache) "config.json" unit unit (fun _ => None) (fun _ => None)
    (fun _ _ => None) open evs.
Definition sample_events : list Ev := [Sched 1; Sched 0; SIGHUP (fun _ => inl template); Sched 0; SIGINT].


(** A goroutine that is scheduled only after a reload to fewer listeners indexes
    past the new slice. *)
Example reload_race_crashes :
  p_status (sample_main (fun _ => inl doc_two_listeners) [SIGHUP (fun _ => inl template); Sched 1]) = Crashed /\
  rlc_Rate (cfg_RateLimit (p_cell (sample_main (fun _ => inl doc_two_listeners) [SIGHUP (fun _ => inl template); Sched 1]))) = 60.
Proof. by vm_compute. Qed.
