(* ===== verification/Verify.v ===== *)
(** redins.go: [Verify], the check of a configuration ([redins -t]).

    What it looks at outside the process is an environment of probes; what it
    prints is a list of lines, the result of each check. *)
From S2P Require Import Prelude GoStrings JsonText GoNet DnsTypes GoCache Monad OrderIps GeoIp Limiter Server Deps World Sample Upstream Health Config.
From Stdlib Require Import Ascii.

(** The probes; an error is its message. *)
Record Probes := mkProbes {
  Time : Type;
  time_Parse : string -> string -> Time * option string;      (* layout, value *)
  time_Format : Time -> string -> string;
  time_eqb : Time -> Time -> bool;
  redis_Ping : RedisConfig -> option string;
  redis_GetConfig : RedisConfig -> string -> string * option string;
  os_OpenFile : string -> option string;
  os_Stat : string -> option string;
  net_ResolveUDPAddr : string -> option string;
  net_DialUDP : string -> option string;
  net_ListenPacket : string -> string -> option string;       (* protocol, address *)
  net_Listen : string -> string -> option string;
  kafka_NewSyncProducer : KafkaConfig -> option string;
  kafka_SendMessages : KafkaConfig -> option string;
  sentry_New : string -> option string;
  sentry_Capture : string -> string * option string;          (* the event id, what the channel delivers *)
  syslog_Dial : string -> string -> option string;
  syslog_Err : string -> string -> option string;
  dns_Exchange : UpstreamConfig -> string -> Msg + string;    (* the question for dns.msftncsi.com. *)
  mmdb_Open : string -> option string;
  mmdb_Lookup : string -> nat -> option string                (* file, record *)
}.

(** A printed line: plain text, or a message with [ OK ], [FAIL] or [WARN]. *)
Inductive Line :=
  | Text (s : string)
  | LineOk (msg : string)
  | LineFail (msg err : string)
  | LineWarn (msg warning : string).

Definition printResult (msg : string) (err : option string) : Line :=
  match err with None => LineOk msg | Some e => LineFail msg e end.
Definition printWarning (msg warning : string) : Line := LineWarn msg warning.

(** [strings.Contains(s, c)] for one byte *)
Definition contains (c : ascii) (s : string) : bool := (0 <? count_byte c s)%nat.

(** [if b { err = errors.New(e) }] *)
Definition fail_if (b : bool) (e : string) : option string := if b then Some e else None.

Definition checkAddress (protocol ip : string) (port : Z) : list Line :=
  [printResult ("checking protocol : " +:+ protocol)
     (fail_if (negb (String.eqb protocol "tcp") && negb (String.eqb protocol "udp")) "invalid protocol");
   printResult ("checking ip address : " +:+ ip)
     (fail_if (bool_decide (ParseIP ip = None)) "invalid ip address");
   printResult ("checking port number : " +:+ Itoa port)
     (fail_if ((65535 <? port) || (port <? 1)) "invalid port number")].

Section Verify.
Context (P : Probes).

Definition checkRedis (config : RedisConfig) : list Line :=
  [Text "checking redis...";
   printResult ("checking whether " +:+ rc_Net config +:+ "://" +:+ rc_Address config +:+ " is available") (redis_Ping P config);
   printResult "checking notify-keyspace-events"
     (match redis_GetConfig P config "notify-keyspace-events" with
      | (nkse, None) =>
          if negb (contains "K" nkse) then Some "keyspace in not active"
          else if negb (contains "A" nkse) && negb (contains "s" nkse) then Some "A or s should be active"
          else None
      | (_, Some e) => Some e
      end)].

Definition mem (s : string) (l : list string) : bool := existsb (String.eqb s) l.

(** The file that is opened is named by the target, not by the path. *)
Definition checkTarget (config : LogConfig) : list Line :=
  (if String.eqb (log_Target config) "file" then
     [printResult ("checking file target : " +:+ log_Path config) (os_OpenFile P (log_Target config))]
   else []) ++
  (if String.eqb (log_Target config) "udp" then
     [printResult ("checking udp target : " +:+ log_Target config)
        (match net_ResolveUDPAddr P (log_Path config) with
         | Some e => Some e
         | None => net_DialUDP P (log_Path config)
         end)]
   else []).

Definition checkTimeFormat (format : string) : option string :=
  let t1 := fst (time_Parse P RFC3339 RFC3339) in
  let '(t2, err) := time_Parse P format (time_Format P t1 format) in
  match err with
  | Some e => Some e
  | None => fail_if (negb (time_eqb P t2 t1)) "invalid time format"
  end.

Definition checkKafka (config : KafkaConfig) : list Line :=
  if kafka_Enable config then
    [Text ("checking kafka at  [" +:+ String.concat " " (kafka_Brokers config) +:+ "]");
     printResult "checking kafka"
       (match kafka_NewSyncProducer P config with Some e => Some e | None => kafka_SendMessages P config end)]
  else [].

Definition checkSentry (config : SentryConfig) : list Line :=
  if sentry_Enable config then
    [printResult ("checking sentry at " +:+ sentry_DSN config)
       (match sentry_New P (sentry_DSN config) with
        | Some e => Some e
        | None =>
            let '(eventID, ch) := sentry_Capture P (sentry_DSN config) in
            let err := if negb (String.eqb eventID "") then ch else None in
            match err with
            | Some e => Some e
            | None => fail_if (String.eqb eventID "") "sentry test failed"
            end
        end)]
  else [].

Definition checkSyslog (config : SyslogConfig) : list Line :=
  if syslog_Enable config then
    [printResult ("checking syslog at " +:+ syslog_Address config)
       (match syslog_Dial P (syslog_Protocol config) (syslog_Address config) with
        | Some e => Some e
        | None => syslog_Err P (syslog_Protocol config) (syslog_Address config)
        end)]
  else [].

Definition checkLog (config : LogConfig) : list Line :=
  [Text "checking log...";
   printResult ("checking target : " +:+ log_Path config)
     (fail_if (negb (mem (log_Target config) ["stdout"; "stderr"; "file"; "udp"])) ("invalid target : " +:+ log_Target config))] ++
  checkTarget config ++
  [printResult ("checking log level : " +:+ log_Level config)
     (fail_if (negb (mem (log_Level config) ["debug"; "info"; "warning"; "error"])) ("invalid log level : " +:+ log_Level config));
   printResult ("checking format : " +:+ log_Format config)
     (fail_if (negb (mem (log_Format config) ["text"; "json"; "capnp_request"])) ("invalid log format : " +:+ log_Format config));
   printResult ("checking time format : " +:+ log_TimeFormat config) (checkTimeFormat (log_TimeFormat config))] ++
  checkKafka (log_Kafka config) ++ checkSentry (log_Sentry config) ++ checkSyslog (log_Syslog config).

Definition checkListener (server : ServerConfig) : list Line :=
  let address := sc_Ip server +:+ ":" +:+ Itoa (sc_Port server) in
  checkAddress (sc_Protocol server) (sc_Ip server) (sc_Port server) ++
  [(let msg := "checking port number : " +:+ Itoa (sc_Port server) in
    if negb (sc_Port server =? 53) then printWarning msg "using non-standard port" else printResult msg None);
   printResult ("checking whether " +:+ sc_Protocol server +:+ "://" +:+ address +:+ " is available")
     (if String.eqb (sc_Protocol server) "udp" then net_ListenPacket P (sc_Protocol server) address
      else net_Listen P (sc_Protocol server) address)].

Definition checkUpstream (upstream : UpstreamConfig) : list Line :=
  let address := us_Ip upstream +:+ ":" +:+ Itoa (us_Port upstream) in
  checkAddress (us_Protocol upstream) (us_Ip upstream) (us_Port upstream) ++
  [printResult ("checking whether " +:+ us_Protocol upstream +:+ "://" +:+ address +:+ " is available")
     (match dns_Exchange P upstream address with
      | inr e => Some e
      | inl resp =>
          match m_Answer resp with
          | [] => Some "empty response"
          | r :: _ =>
              match rrData r with
              | DA a => fail_if (negb (String.eqb (IP_String a) "131.107.255.255")) "incorrect response"
              | _ => Some "bad response"
              end
          end
      end)].

Definition checkDb (i : nat) (dbFile : string) : list Line :=
  printResult ("checking file stat : " +:+ dbFile) (os_Stat P dbFile) ::
  match os_Stat P dbFile with
  | Some _ => []
  | None =>
      printResult ("checking db : " +:+ dbFile) (mmdb_Open P dbFile) ::
      match mmdb_Open P dbFile with
      | Some _ => []
      | None => [printResult "checking db query results" (mmdb_Lookup P dbFile i)]
      end
  end.

Definition checkGeoIp (config : GeoIpConfig) : list Line :=
  if gcfg_Enable config then
    Text "checking geoip..." :: concat (imap checkDb [gcfg_CountryDB config; gcfg_ASNDB config])
  else [].

Definition Verify {J : ConfigJson} (open : Files) (configFile : string) : list Line :=
  let '(config, err) := LoadConfig open configFile redinsDefaultConfig in
  [Text "Starting Config Verification"; printResult ("loading config file : " +:+ configFile) err] ++
  Text "checking listeners..." :: concat (map checkListener (cfg_Server config)) ++
  Text "checking upstreams..." :: concat (map checkUpstream (hcfg_Upstream (cfg_Handler config))) ++
  checkRedis (hcfg_Redis (cfg_Handler config)) ++
  checkGeoIp (hcfg_GeoIp (cfg_Handler config)) ++
  (if log_Enable (cfg_ErrorLog config) then checkLog (cfg_ErrorLog config) else []) ++
  (if log_Enable (hcfg_Log (cfg_Handler config)) then checkLog (hcfg_Log (cfg_Handler config)) else []).
End Verify.

(** ** What a verified configuration is *)

Definition failed (l : Line) : Prop := match l with LineFail _ _ => True | _ => False end.
Definition clean (ls : list Line) : Prop := Forall (fun l => ~ failed l) ls.

Lemma clean_nil : clean [] <-> True.
Proof. split; [done|constructor]. Qed.
Lemma clean_cons l ls : clean (l :: ls) <-> ~ failed l /\ clean ls.
Proof. apply (Forall_cons (fun l => ~ failed l)). Qed.
Lemma clean_app l1 l2 : clean (l1 ++ l2) <-> clean l1 /\ clean l2.
Proof. apply (Forall_app (fun l => ~ failed l)). Qed.
Lemma clean_concat_map {A} (f : A -> list Line) l : clean (concat (map f l)) <-> Forall (fun a => clean (f a)) l.
Proof. induction l as [|a l IH]; simpl; [by rewrite clean_nil, Forall_nil|]. by rewrite clean_app, Forall_cons, IH. Qed.
Lemma clean_if (b : bool) ls : clean (if b then ls else []) <-> (b = true -> clean ls).
Proof. destruct b; [naive_solver|]. by rewrite clean_nil. Qed.
Lemma failed_result msg err : ~ failed (printResult msg err) <-> err = None.
Proof. destruct err; simpl; naive_solver. Qed.
Lemma failed_text s : ~ failed (Text s) <-> True.
Proof. simpl. naive_solver. Qed.
Lemma fail_if_none b e : fail_if b e = None <-> b = false.
Proof. by destruct b. Qed.
Lemma contains_spec c s : contains c s = true <-> (0 < count_byte c s)%nat.
Proof. apply Nat.ltb_lt. Qed.
Lemma mem_spec s l : negb (mem s l) = false <-> s ∈ l.
Proof.
  unfold mem. rewrite negb_false_iff, existsb_exists, list_elem_of_In. split.
  - by intros (x & Hx & ->%String.eqb_eq).
  - intros H. exists s. by rewrite String.eqb_refl.
Qed.

(** First one, then the other. *)
Lemma both_none (a b : option string) : match a with Some e => Some e | None => b end = None <-> a = None /\ b = None.
Proof. destruct a; naive_solver. Qed.

#[global] Hint Rewrite clean_nil clean_cons clean_app @clean_concat_map clean_if failed_result failed_text fail_if_none
  mem_spec both_none : verify.

Section VerifyFacts.
Context (P : Probes).

Definition address_valid (protocol ip : string) (port : Z) : Prop :=
  protocol ∈ ["tcp"; "udp"] /\ ParseIP ip <> None /\ 1 <= port <= 65535.

Definition listener_valid (s : ServerConfig) : Prop :=
  address_valid (sc_Protocol s) (sc_Ip s) (sc_Port s) /\
  let address := sc_Ip s +:+ ":" +:+ Itoa (sc_Port s) in
  (if String.eqb (sc_Protocol s) "udp" then net_ListenPacket P (sc_Protocol s) address
   else net_Listen P (sc_Protocol s) address) = None.

Definition upstream_valid (u : UpstreamConfig) : Prop :=
  address_valid (us_Protocol u) (us_Ip u) (us_Port u) /\
  exists resp h ip rest, dns_Exchange P u (us_Ip u +:+ ":" +:+ Itoa (us_Port u)) = inl resp /\
    m_Answer resp = mkRR h (DA ip) :: rest /\ IP_String ip = "131.107.255.255".

Definition redis_valid (c : RedisConfig) : Prop :=
  redis_Ping P c = None /\ exists nkse, redis_GetConfig P c "notify-keyspace-events" = (nkse, None) /\
    (0 < count_byte "K" nkse)%nat /\ (0 < count_byte "A" nkse \/ 0 < count_byte "s" nkse)%nat.

Definition db_valid (i : nat) (f : string) : Prop :=
  os_Stat P f = None /\ mmdb_Open P f = None /\ mmdb_Lookup P f i = None.

Definition time_format_valid (f : string) : Prop :=
  let t1 := fst (time_Parse P RFC3339 RFC3339) in
  exists t2, time_Parse P f (time_Format P t1 f) = (t2, None) /\ time_eqb P t2 t1 = true.

(** The settings of one logger, when [file] is the file that a file target is to
    write to; it is the file of the path. *)
Definition log_valid_with (file : string) (c : LogConfig) : Prop :=
  log_Target c ∈ ["stdout"; "stderr"; "file"; "udp"] /\
  (log_Target c = "file" -> os_OpenFile P file = None) /\
  (log_Target c = "udp" -> net_ResolveUDPAddr P (log_Path c) = None /\ net_DialUDP P (log_Path c) = None) /\
  log_Level c ∈ ["debug"; "info"; "warning"; "error"] /\ log_Format c ∈ ["text"; "json"; "capnp_request"] /\
  time_format_valid (log_TimeFormat c) /\
  (kafka_Enable (log_Kafka c) = true -> kafka_NewSyncProducer P (log_Kafka c) = None /\ kafka_SendMessages P (log_Kafka c) = None) /\
  (sentry_Enable (log_Sentry c) = true -> sentry_New P (sentry_DSN (log_Sentry c)) = None /\
     exists id, id <> "" /\ sentry_Capture P (sentry_DSN (log_Sentry c)) = (id, None)) /\
  (syslog_Enable (log_Syslog c) = true ->
     syslog_Dial P (syslog_Protocol (log_Syslog c)) (syslog_Address (log_Syslog c)) = None /\
     syslog_Err P (syslog_Protocol (log_Syslog c)) (syslog_Address (log_Syslog c)) = None).
Definition log_valid (c : LogConfig) : Prop := log_valid_with (log_Path c) c.

Definition config_valid (c : RedinsConfig) : Prop :=
  Forall listener_valid (cfg_Server c) /\ Forall upstream_valid (hcfg_Upstream (cfg_Handler c)) /\
  redis_valid (hcfg_Redis (cfg_Handler c)) /\
  (gcfg_Enable (hcfg_GeoIp (cfg_Handler c)) = true ->
     db_valid 0 (gcfg_CountryDB (hcfg_GeoIp (cfg_Handler c))) /\ db_valid 1 (gcfg_ASNDB (hcfg_GeoIp (cfg_Handler c)))) /\
  (log_Enable (cfg_ErrorLog c) = true -> log_valid (cfg_ErrorLog c)) /\
  (log_Enable (hcfg_Log (cfg_Handler c)) = true -> log_valid (hcfg_Log (cfg_Handler c))).

Lemma checkAddress_clean protocol ip port : clean (checkAddress protocol ip port) <-> address_valid protocol ip port.
Proof.
  unfold checkAddress, address_valid. autorewrite with verify. rewrite bool_decide_eq_false, !elem_of_cons, elem_of_nil.
  rewrite andb_false_iff, orb_false_iff, !negb_false_iff, !String.eqb_eq, Z.ltb_ge, Z.ltb_ge. naive_solver lia.
Qed.

Lemma checkListener_clean s : clean (checkListener P s) <-> listener_valid s.
Proof.
  unfold checkListener, listener_valid. cbv zeta. autorewrite with verify. rewrite checkAddress_clean.
  assert (~ failed (if negb (sc_Port s =? 53) then printWarning ("checking port number : " +:+ Itoa (sc_Port s)) "using non-standard port"
    else printResult ("checking port number : " +:+ Itoa (sc_Port s)) None)) by (destruct (negb _); by intros []). tauto.
Qed.

Lemma checkUpstream_clean u : clean (checkUpstream P u) <-> upstream_valid u.
Proof.
  unfold checkUpstream, upstream_valid. cbv zeta. autorewrite with verify. rewrite checkAddress_clean.
  set (o := match dns_Exchange P u _ with inl _ => _ | inr _ => _ end).
  enough (o = None <-> exists resp h ip rest, dns_Exchange P u (us_Ip u +:+ ":" +:+ Itoa (us_Port u)) = inl resp /\
    m_Answer resp = mkRR h (DA ip) :: rest /\ IP_String ip = "131.107.255.255") by tauto.
  unfold o. destruct (dns_Exchange _ _ _) as [resp|e].
  2:{ split; [done|]. by intros (? & ? & ? & ? & ? & _). }
  split.
  - destruct (m_Answer resp) as [|[h d] rest] eqn:Ea; [done|]. destruct d; try done.
    cbn [rrData]. rewrite fail_if_none, negb_false_iff, String.eqb_eq. intros Hip. simpl in Hip. eauto 10.
  - intros (resp' & h & ip & rest & [= <-] & -> & Hip). cbn. by rewrite Hip.
Qed.

Lemma keyspace_none (k a b : bool) e1 e2 :
  (if negb k then Some e1 else if negb a && negb b then Some e2 else None : option string) = None <->
  k = true /\ (a = true \/ b = true).
Proof. destruct k, a, b; simpl; intuition discriminate. Qed.

Lemma checkRedis_clean c : clean (checkRedis P c) <-> redis_valid c.
Proof.
  unfold checkRedis, redis_valid. autorewrite with verify.
  destruct (redis_GetConfig P c _) as [nkse [e|]].
  { split; [by intros (_ & _ & ? & _)|by intros (_ & ? & ? & _)]. }
  rewrite keyspace_none, !contains_spec. split.
  - intros (_ & Hp & Hk & _). split; [done|]. exists nkse. tauto.
  - intros (Hp & n & [= <-] & Hk). tauto.
Qed.

Lemma checkTimeFormat_none f : checkTimeFormat P f = None <-> time_format_valid f.
Proof.
  unfold checkTimeFormat, time_format_valid. cbv zeta. destruct (time_Parse P f _) as [t2 [e|]]; [naive_solver|].
  rewrite fail_if_none, negb_false_iff. naive_solver.
Qed.

Lemma checkTarget_clean c : clean (checkTarget P c) <->
  (log_Target c = "file" -> os_OpenFile P "file" = None) /\
  (log_Target c = "udp" -> net_ResolveUDPAddr P (log_Path c) = None /\ net_DialUDP P (log_Path c) = None).
Proof.
  unfold checkTarget. autorewrite with verify. rewrite !String.eqb_eq.
  destruct (decide (log_Target c = "file")) as [->|]; naive_solver.
Qed.

Lemma checkSentry_clean c : clean (checkSentry P c) <->
  (sentry_Enable c = true -> sentry_New P (sentry_DSN c) = None /\
     exists id, id <> "" /\ sentry_Capture P (sentry_DSN c) = (id, None)).
Proof.
  unfold checkSentry. autorewrite with verify. destruct (sentry_Capture P _) as [id ch].
  destruct (String.eqb_spec id "") as [->|]; simpl; autorewrite with verify; [naive_solver|]. destruct ch; naive_solver.
Qed.

(** The file that is tried is named by the target. *)
Lemma checkLog_clean c : clean (checkLog P c) <-> log_valid_with "file" c.
Proof.
  unfold checkLog, log_valid_with, checkKafka, checkSyslog. rewrite !clean_app, checkTarget_clean, checkSentry_clean.
  autorewrite with verify. rewrite checkTimeFormat_none. tauto.
Qed.

Lemma checkLog_no_file c : log_Target c <> "file" -> clean (checkLog P c) <-> log_valid c.
Proof. intros Ht. rewrite checkLog_clean. unfold log_valid, log_valid_with. naive_solver. Qed.

Lemma checkGeoIp_clean c : clean (checkGeoIp P c) <->
  (gcfg_Enable c = true -> db_valid 0 (gcfg_CountryDB c) /\ db_valid 1 (gcfg_ASNDB c)).
Proof.
  assert (forall i f, clean (checkDb P i f) <-> db_valid i f) as Hdb.
  { intros i f. unfold checkDb, db_valid. autorewrite with verify.
    destruct (os_Stat P f); autorewrite with verify; [naive_solver|].
    destruct (mmdb_Open P f); autorewrite with verify; naive_solver. }
  unfold checkGeoIp.
  change (concat (imap (checkDb P) [gcfg_CountryDB c; gcfg_ASNDB c]))
    with (checkDb P 0 (gcfg_CountryDB c) ++ checkDb P 1 (gcfg_ASNDB c) ++ []).
  autorewrite with verify. rewrite !Hdb. tauto.
Qed.

(** Whether a check of a logger is made, and what it then says. *)
Lemma checkLog_enabled c : (log_Enable c = true -> log_Target c <> "file") ->
  clean (if log_Enable c then checkLog P c else []) <-> (log_Enable c = true -> log_valid c).
Proof. intros Ht. rewrite clean_if. destruct (log_Enable c); [|done]. rewrite checkLog_no_file by auto. done. Qed.

End VerifyFacts.

(** The path of a log file is never tried: the lines are free of failures whatever
    the path, as soon as a file named "file" can be opened. *)
Lemma log_path_unchecked P c p : log_Target c = "file" -> clean (checkLog P c) ->
  clean (checkLog P (mkLogConfig (log_Enable c) (log_Target c) (log_Level c) p (log_Format c) (log_TimeFormat c)
                 (log_Sentry c) (log_Syslog c) (log_Kafka c))).
Proof. rewrite !checkLog_clean. unfold log_valid_with. simpl. intros ->. naive_solver. Qed.

(** ** A run *)

(** A machine on which everything answers, but no file "/root/redins.log" can be
    opened. *)
Definition sample_probes : Probes := {|
  Time := string; time_Parse layout v := (v, None); time_Format t layout := t; time_eqb := String.eqb;
  redis_Ping _ := None; redis_GetConfig _ _ := ("KA", None);
  os_OpenFile f := if String.eqb f "/root/redins.log" then Some "permission denied" else None; os_Stat _ := None;
  net_ResolveUDPAddr _ := None; net_DialUDP _ := None; net_ListenPacket _ _ := None; net_Listen _ _ := None;
  kafka_NewSyncProducer _ := None; kafka_SendMessages _ := None; sentry_New _ := None; sentry_Capture _ := ("id", None);
  syslog_Dial _ _ := None; syslog_Err _ _ := None;
  dns_Exchange _ _ := inl (mkMsg 1 false true false RcodeSuccess []
    [mkRR (mkHdr "dns.msftncsi.com." TypeA ClassINET 60) (DA (Some [131; 107; 255; 255]))] [] []);
  mmdb_Open _ := None; mmdb_Lookup _ _ := None |}.

Definition doc_log (target path port : string) : string := quoted (
  "{'handler': {'log': {'target': '" +:+ target +:+ "', 'path': '" +:+ path +:+ "'}}, 'server': [{'ip': '127.0.0.1', 'port': " +:+ port +:+
  ", 'protocol': 'udp', 'count': 1, 'tls': {'enable': false, 'cert_path': '', 'key_path': '', 'ca_path': ''}}]}").

Definition loaded (doc : string) : RedinsConfig := fst (LoadConfig (J := SampleConfigJson) (fun _ => inl doc) "c.json" redinsDefaultConfig).

Lemma sample_valid : config_valid sample_probes (loaded (doc_log "stdout" "" "53")).
Proof.
  unfold config_valid. split_and!.
  - apply (Forall_cons_2 _ (mkServerConfig "127.0.0.1" 53 "udp" 1 (mkTlsConfig false "" "" ""))); [|apply Forall_nil_2].
    split; [|done]. split; [set_solver|]. split; [vm_compute; discriminate|simpl; lia].
  - apply (Forall_cons_2 _ (mkUpstreamConfig "1.1.1.1" 53 "udp" 400)); [|apply Forall_nil_2].
    split; [split; [set_solver|split; [vm_compute; discriminate|simpl; lia]]|].
    do 4 eexists. split; [reflexivity|]. split; [reflexivity|]. by vm_compute.
  - split; [done|]. exists "KA". split; [done|]. vm_compute. lia.
  - intros H. vm_compute in H. discriminate H.
  - intros _. change (cfg_ErrorLog _) with defaultErrorLog. split_and!; try done; try set_solver.
    eexists. split; [reflexivity|]. by vm_compute.
  - intros _. assert (hcfg_Log (cfg_Handler (loaded (doc_log "stdout" "" "53"))) =
      mkLogConfig true "stdout" "info" "" "json" RFC3339 (mkSentryConfig false "") (mkSyslogConfig false "tcp" "localhost:514")
        (mkKafkaConfig false "redins" ["127.0.0.1:9092"] "json" "none" 3000 1000)) as -> by by_run.
    split_and!; try done; try set_solver. eexists. split; [reflexivity|]. by vm_compute.
Qed.


(** With a log file that cannot be opened, a configuration is accepted that is not
    valid. *)
Example Verify_accepts_unwritable_log :
  let open := fun _ => inl (doc_log "file" "/root/redins.log" "53") in
  clean (Verify (J := SampleConfigJson) sample_probes open "c.json") /\
  ~ config_valid sample_probes (loaded (doc_log "file" "/root/redins.log" "53")).
Proof.
  split; [vm_compute; repeat constructor; by intros []|]. intros (_ & _ & _ & _ & _ & H). specialize (H eq_refl). destruct H as (_ & H & _).
  specialize (H eq_refl). discriminate H.
Qed.
