(* ===== verification/TestHelpers.v ===== *)
(** test/helpers.go, test/recorder.go and test/responsewriter.go: the library the
    tests of redins and the compare tool check replies with.  The theorems say
    which replies [SortAndCheck] accepts, what [CNAMEOrder] rejects, and that a
    resolved CNAME chain passes it. *)
From stdpp Require Import sorting.
From S2P Require Import Prelude GoStrings DnsTypes GoNet GoCache Monad ZoneIndex Zone Deps World Answers Sample Request Loader Handler HandlerFacts Serve Resolve.

(** ** Libraries *)

(** The part of miekg/dns the helpers use.  The size and the DO bit of an OPT
    record live in its header. *)
Class DnsTest := {
  rr_String : RR -> string;
  msg_Len : Msg -> Z;
  RcodeToString : Z -> string;
  msg_SetQuestion : string -> Z -> Msg -> Msg;
  opt_SetDo : RR_Header -> RR_Header;
  opt_SetUDPSize : Z -> RR_Header -> RR_Header;
  opt_SetVersion : Z -> RR_Header -> RR_Header;
  opt_UDPSize : RR_Header -> Z;
  opt_Do : RR_Header -> bool
}.

(** The fields of an OPT header do not disturb each other. *)
Class DnsTestLaws (T : DnsTest) := {
  UDPSize_set (n : Z) h : 0 <= n < 2^16 -> opt_UDPSize (opt_SetUDPSize n h) = n;
  UDPSize_do h : opt_UDPSize (opt_SetDo h) = opt_UDPSize h;
  Do_set h : opt_Do (opt_SetDo h) = true;
  Do_size (n : Z) h : opt_Do (opt_SetUDPSize n h) = opt_Do h;
  Do_version (n : Z) h : opt_Do (opt_SetVersion n h) = opt_Do h;
  Do_new (n : string) t : opt_Do (mkHdr n t 0 0) = false
}.

(** [sort.Sort] of the Go library: not stable, so elements that compare equal may
    come out in any order. *)
Class GoSort := sort_Sort : forall {A}, (A -> A -> bool) -> list A -> list A.

Class GoSortLaws (S : GoSort) := {
  Sort_perm {A} (less : A -> A -> bool) l : sort_Sort less l ≡ₚ l;
  Sort_sorted {A} (key : A -> string) l :
    StronglySorted (fun a b => String.le (key a) (key b))
      (sort_Sort (fun a b => String.ltb (key a) (key b)) l)
}.

(** ** Cases and records *)

Module Test.

Definition sect := Z.
Definition Answer : sect := 0.
Definition Ns : sect := 1.
Definition Extra : sect := 2.

(** The errors of the helpers, with the values their messages show. *)
Inductive FieldVal := FStr (s : string) | FInt (z : Z) | FBool (b : bool).
Inductive TestError :=
  | ErrRcode (got want : string)
  | ErrCount (section qname : string) (got want : nat)
  | ErrField (i : option nat) (what : string) (want got : FieldVal)
  | ErrCNAMEOrder.

#[global] Instance FieldVal_eq_dec : EqDecision FieldVal.
Proof. solve_decision. Defined.

Record Case := mkCase {
  t_Qname : string; t_Qtype : Z; t_Rcode : Z; t_Do : bool;
  t_Answer : list RR; t_Ns : list RR; t_Extra : list RR; t_Error : option string }.

Section Helpers.
Context {D : DnsLib} {T : DnsTest} {S : GoSort}.

(** The [Less] of [RRSet], and [sort.Sort(RRSet(l))]. *)
Definition Less (a b : RR) : bool := String.ltb (rr_String a) (rr_String b).
Definition RRSet_sort (l : list RR) : list RR := sort_Sort Less l.

Definition with_extra (x : list RR) (m : Msg) : Msg :=
  mkMsg (m_Id m) (m_Authoritative m) (m_RecursionAvailable m) (m_Compress m) (m_Rcode m)
    (m_Question m) (m_Answer m) (m_Ns m) x.

Definition newOPT (f : RR_Header -> RR_Header) : RR := mkRR (f (mkHdr "." TypeOPT 0 0)) (DOPT []).

(** [Case.Msg] *)
Definition Case_Msg (c : Case) : Msg :=
  let m := msg_SetQuestion (dns_Fqdn (t_Qname c)) (t_Qtype c) newMsg in
  if t_Do c then with_extra [newOPT (fun h => opt_SetUDPSize 4096 (opt_SetDo h))] m else m.

(** [dns.NewRR] and a type assertion to the record type: an error leaves a nil record, on
    which the assertion panics. *)
Definition newRR (isT : RRData -> bool) (rr : string) : Outcome RR :=
  match dns_NewRR rr with
  | Some (Some r) => if isT (rrData r) then Done r else Panic
  | _ => Panic
  end.

Definition A := newRR (fun d => match d with DA _ => true | _ => false end).
Definition AAAA := newRR (fun d => match d with DAAAA _ => true | _ => false end).
Definition CNAME := newRR (fun d => match d with DCNAME _ => true | _ => false end).
Definition DNAME := newRR (fun d => match d with DDNAME _ => true | _ => false end).
Definition SRV := newRR (fun d => match d with DSRV _ _ _ _ => true | _ => false end).
Definition SOA := newRR (fun d => match d with DSOA _ => true | _ => false end).
Definition NS := newRR (fun d => match d with DNS _ => true | _ => false end).
Definition PTR := newRR (fun d => match d with DPTR _ => true | _ => false end).
Definition TXT := newRR (fun d => match d with DTXT _ => true | _ => false end).
Definition HINFO := newRR (fun d => match d with DHINFO _ _ => true | _ => false end).
Definition MX := newRR (fun d => match d with DMX _ _ => true | _ => false end).
Definition RRSIG := newRR (fun d => match d with DRRSIG _ => true | _ => false end).
Definition NSEC := newRR (fun d => match d with DNSEC _ _ => true | _ => false end).
Definition DNSKEY := newRR (fun d => match d with DDNSKEY _ => true | _ => false end).
Definition DS := newRR (fun d => match d with DDS _ _ _ _ => true | _ => false end).
Definition CAA := newRR (fun d => match d with DCAA _ _ _ => true | _ => false end).
Definition TLSA := newRR (fun d => match d with DTLSA _ _ _ _ => true | _ => false end).

Definition OPT (bufsize : Z) (do : bool) : RR :=
  newOPT (fun h => let h := opt_SetUDPSize (u16 bufsize) (opt_SetVersion 0 h) in
                   if do then opt_SetDo h else h).

(** ** The checks *)

Definition Header (tc : Case) (resp : Msg) : option TestError :=
  if negb (m_Rcode resp =? t_Rcode tc) then
    Some (ErrRcode (RcodeToString (m_Rcode resp)) (RcodeToString (t_Rcode tc)))
  else if negb (length (m_Answer resp) =? length (t_Answer tc))%nat then
    Some (ErrCount "answer" (t_Qname tc) (length (m_Answer resp)) (length (t_Answer tc)))
  else if negb (length (m_Ns resp) =? length (t_Ns tc))%nat then
    Some (ErrCount "authority" (t_Qname tc) (length (m_Ns resp)) (length (t_Ns tc)))
  else if negb (length (m_Extra resp) =? length (t_Extra tc))%nat then
    Some (ErrCount "additional" (t_Qname tc) (length (m_Extra resp)) (length (t_Extra tc)))
  else None.

(** The first pair of values, wanted and found, that differ. *)
Fixpoint mismatch (i : option nat) (fs : list (string * FieldVal * FieldVal)) : option TestError :=
  match fs with
  | [] => None
  | (what, want, got) :: fs' =>
      if bool_decide (got = want) then mismatch i fs' else Some (ErrField i what want got)
  end.

(** The loop over the strings of a TXT record. *)
Fixpoint checkTxt (i j : nat) (txts : list string) (t : RRData) : Outcome (option TestError) :=
  match txts with
  | [] => Done None
  | txt :: txts' =>
      match t with
      | DTXT want =>
          match want !! j with
          | None => Panic
          | Some w => if String.eqb txt w then checkTxt i (j + 1) txts' t
                      else Done (Some (ErrField (Some i) "Txt" (FStr w) (FStr txt)))
          end
      | _ => Panic
      end
  end.

(** The type switch of [Section]; [t] is [section[i]]. *)
Definition checkData (i : nat) (a t : RR) : Outcome (option TestError) :=
  match rrData a with
  | DSRV priority weight port target =>
      match rrData t with
      | DSRV priority' weight' port' target' => Done (mismatch (Some i)
          [("Priority", FInt priority', FInt priority); ("Weight", FInt weight', FInt weight);
           ("Port", FInt port', FInt port); ("Target", FStr target', FStr target)])
      | _ => Panic
      end
  | DRRSIG x =>
      match rrData t with
      | DRRSIG y => Done (mismatch (Some i)
          [("TypeCovered", FInt (sig_TypeCovered y), FInt (sig_TypeCovered x));
           ("Labels", FInt (sig_Labels y), FInt (sig_Labels x));
           ("SignerName", FStr (sig_SignerName y), FStr (sig_SignerName x))])
      | _ => Panic
      end
  | DNSEC nextDomain _ =>
      match rrData t with
      | DNSEC nextDomain' _ => Done (mismatch (Some i) [("NextDomain", FStr nextDomain', FStr nextDomain)])
      | _ => Panic
      end
  | DA ip =>
      match rrData t with
      | DA ip' => Done (mismatch (Some i) [("Address", FStr (IP_String ip'), FStr (IP_String ip))])
      | _ => Panic
      end
  | DAAAA ip =>
      match rrData t with
      | DAAAA ip' => Done (mismatch (Some i) [("Address", FStr (IP_String ip'), FStr (IP_String ip))])
      | _ => Panic
      end
  | DTXT txt => checkTxt i 0 txt (rrData t)
  | DHINFO cpu os =>
      match rrData t with
      | DHINFO cpu' os' => Done (mismatch (Some i) [("Cpu", FStr cpu', FStr cpu); ("Os", FStr os', FStr os)])
      | _ => Panic
      end
  | DSOA x =>
      match rrData t with
      | DSOA y => Done (mismatch None [("SOA nameserver", FStr (soa_Ns y), FStr (soa_Ns x))])
      | _ => Panic
      end
  | DPTR ptr =>
      match rrData t with
      | DPTR ptr' => Done (mismatch None [("PTR ptr", FStr ptr', FStr ptr)])
      | _ => Panic
      end
  | DCNAME target =>
      match rrData t with
      | DCNAME target' => Done (mismatch None [("CNAME target", FStr target', FStr target)])
      | _ => Panic
      end
  | DMX preference mx =>
      match rrData t with
      | DMX preference' mx' => Done (mismatch None
          [("MX Mx", FStr mx', FStr mx); ("MX Preference", FInt preference', FInt preference)])
      | _ => Panic
      end
  | DNS ns =>
      match rrData t with
      | DNS ns' => Done (mismatch None [("NS nameserver", FStr ns', FStr ns)])
      | _ => Panic
      end
  | DOPT _ =>
      match rrData t with
      | DOPT _ => Done (mismatch None
          [("OPT UDPSize", FInt (opt_UDPSize (rrHdr t)), FInt (opt_UDPSize (rrHdr a)));
           ("OPT DO", FBool (opt_Do (rrHdr t)), FBool (opt_Do (rrHdr a)))])
      | _ => Panic
      end
  | DCAA flag tag value =>
      match rrData t with
      | DCAA flag' tag' value' => Done (mismatch None
          [("CAA Value", FStr value', FStr value); ("CAA Tag", FStr tag', FStr tag); ("CAA Flag", FInt flag', FInt flag)])
      | _ => Panic
      end
  | DTLSA usage selector matchingType certificate =>
      match rrData t with
      | DTLSA usage' selector' matchingType' certificate' => Done (mismatch None
          [("TLSA Usage", FInt usage', FInt usage); ("TLSA Selector", FInt selector', FInt selector);
           ("TLSA Matching Type", FInt matchingType', FInt matchingType);
           ("TLSA Certificate", FStr certificate', FStr certificate)])
      | _ => Panic
      end
  | DDNSKEY _ | DDNAME _ | DDS _ _ _ _ | DOther _ => Done None
  end.

Definition is_OPT (r : RR) : bool := match rrData r with DOPT _ => true | _ => false end.

(** The loop of [Section]; [section[i]] panics past the end. *)
Fixpoint sectionLoop (section : list RR) (i : nat) (rr : list RR) : Outcome (option TestError) :=
  match rr with
  | [] => Done None
  | a :: rr' =>
      match section !! i with
      | None => Panic
      | Some t =>
          if negb (String.eqb (hName (rrHdr a)) (hName (rrHdr t))) then
            Done (Some (ErrField (Some i) "Header Name" (FStr (hName (rrHdr t))) (FStr (hName (rrHdr a)))))
          else if negb (hTtl (rrHdr t) =? 303) && negb (hTtl (rrHdr a) =? hTtl (rrHdr t)) && negb (is_OPT t) then
            Done (Some (ErrField (Some i) "Header TTL" (FInt (hTtl (rrHdr t))) (FInt (hTtl (rrHdr a)))))
          else if negb (hRrtype (rrHdr a) =? hRrtype (rrHdr t)) then
            Done (Some (ErrField (Some i) "header rr type" (FInt (hRrtype (rrHdr t))) (FInt (hRrtype (rrHdr a)))))
          else
            match checkData i a t with
            | Done None => sectionLoop section (i + 1) rr'
            | e => e
            end
      end
  end.

Definition Section_ (tc : Case) (sec : sect) (rr : list RR) : Outcome (option TestError) :=
  let section := if sec =? 0 then t_Answer tc else if sec =? 1 then t_Ns tc
                 else if sec =? 2 then t_Extra tc else [] in
  sectionLoop section 0 rr.

(** [CNAMEOrder]: the inner loop over the records before a CNAME [c]. *)
Fixpoint before (c : RR) (rs : list RR) : Outcome (option TestError) :=
  match rs with
  | [] => Done None
  | a :: rs' =>
      match rrData c with
      | DCNAME target =>
          if negb (String.eqb (hName (rrHdr a)) target) then before c rs' else Done (Some ErrCNAMEOrder)
      | _ => Panic
      end
  end.

Fixpoint orderLoop (answer : list RR) (i : nat) (rest : list RR) : Outcome (option TestError) :=
  match rest with
  | [] => Done None
  | c :: rest' =>
      if negb (hRrtype (rrHdr c) =? TypeCNAME) then orderLoop answer (i + 1) rest'
      else match before c (take i answer) with
           | Done None => orderLoop answer (i + 1) rest'
           | e => e
           end
  end.

Definition CNAMEOrder (res : Msg) : Outcome (option TestError) := orderLoop (m_Answer res) 0 (m_Answer res).

Definition sorted_sections (m : Msg) : Msg :=
  mkMsg (m_Id m) (m_Authoritative m) (m_RecursionAvailable m) (m_Compress m) (m_Rcode m) (m_Question m)
    (RRSet_sort (m_Answer m)) (RRSet_sort (m_Ns m)) (RRSet_sort (m_Extra m)).

(** [SortAndCheck] sorts the sections of [resp] in place. *)
Definition SortAndCheck (resp : Msg) (tc : Case) : Outcome (Msg * option TestError) :=
  let resp := sorted_sections resp in
  match Header tc resp with
  | Some err => Done (resp, Some err)
  | None =>
      e ← Section_ tc Answer (m_Answer resp);
      match e with
      | Some err => Done (resp, Some err)
      | None =>
          e ← Section_ tc Ns (m_Ns resp);
          match e with
          | Some err => Done (resp, Some err)
          | None => e ← Section_ tc Extra (m_Extra resp); Done (resp, e)
          end
      end
  end.

(** [ErrorHandler] and [NextHandler]: what their [ServeDNS] does with the writer,
    the messages it writes, and returns. *)
Definition ErrorHandler (r : option Msg) : Outcome (list Msg * (Z * option string)) :=
  m ← dns_SetRcode newMsg r RcodeServerFailure; Done ([m], (RcodeServerFailure, None)).
Definition NextHandler (rcode : Z) (err : option string) (r : option Msg) : Outcome (list Msg * (Z * option string)) :=
  Done ([], (rcode, err)).
End Helpers.

(** ** What the checks accept *)

(** The values of a record that are compared. *)
Definition compared {T : DnsTest} (r : RR) : list FieldVal :=
  match rrData r with
  | DA ip | DAAAA ip => [FStr (IP_String ip)]
  | DCNAME s | DNS s | DPTR s | DNSEC s _ => [FStr s]
  | DTXT l => map FStr l
  | DMX p s => [FStr s; FInt p]
  | DSRV p w q s => [FInt p; FInt w; FInt q; FStr s]
  | DCAA f t v => [FStr v; FStr t; FInt f]
  | DTLSA u s m c => [FInt u; FInt s; FInt m; FStr c]
  | DSOA s => [FStr (soa_Ns s)]
  | DRRSIG s => [FInt (sig_TypeCovered s); FInt (sig_Labels s); FStr (sig_SignerName s)]
  | DHINFO c o => [FStr c; FStr o]
  | DOPT _ => [FInt (opt_UDPSize (rrHdr r)); FBool (opt_Do (rrHdr r))]
  | DDNSKEY _ | DDNAME _ | DDS _ _ _ _ | DOther _ => []
  end.

(** The record [a] is what the case expects with [t]: name and type agree; so do
    the TTL, unless the case says 303 or expects an OPT record, and the values
    compared. *)
Definition agrees {T : DnsTest} (t a : RR) : Prop :=
  hName (rrHdr a) = hName (rrHdr t) /\ hRrtype (rrHdr a) = hRrtype (rrHdr t) /\
  (hTtl (rrHdr t) = 303 \/ hTtl (rrHdr a) = hTtl (rrHdr t) \/ is_OPT t = true) /\
  compared a = compared t.

(** What the loop looks at: of a TXT record only the strings that came. *)
Definition agrees_prefix {T : DnsTest} (t a : RR) : Prop :=
  hName (rrHdr a) = hName (rrHdr t) /\ hRrtype (rrHdr a) = hRrtype (rrHdr t) /\
  (hTtl (rrHdr t) = 303 \/ hTtl (rrHdr a) = hTtl (rrHdr t) \/ is_OPT t = true) /\
  compared a `prefix_of` compared t.

(** A TXT record has [n] strings. *)
Definition strings (n : nat) (r : RR) : Prop := match rrData r with DTXT l => length l = n | _ => True end.

(** The type in the header is the type of the data. *)
Definition typed (r : RR) : Prop :=
  match type_of_data (rrData r) with
  | Some t => hRrtype (rrHdr r) = t
  | None => forall d, type_of_data d <> Some (hRrtype (rrHdr r))
  end.

Section Accepts.
Context {D : DnsLib} {T : DnsTest} {S : GoSort}.

Lemma prefix_cons_iff (x y : FieldVal) l k : x :: l `prefix_of` y :: k <-> x = y /\ l `prefix_of` k.
Proof.
  split; [|by intros [-> ?]; apply prefix_cons].
  intros H. split; [by eapply prefix_cons_inv_1|by eapply prefix_cons_inv_2].
Qed.

Lemma mismatch_none i fs : mismatch i fs = None <-> Forall (fun f => f.2 = f.1.2) fs.
Proof.
  induction fs as [|[[what want] got] fs IH]; simpl; [done|]. rewrite Forall_cons, <- IH. simpl.
  case_bool_decide; naive_solver.
Qed.

Lemma Done_none (o : option TestError) : Done o = Done None <-> o = None.
Proof. split; congruence. Qed.

Lemma checkTxt_none i j txts l : checkTxt i j txts (DTXT l) = Done None <-> txts `prefix_of` drop j l.
Proof.
  revert j. induction txts as [|txt txts IH]; intros j; simpl; [split; [intros _; apply prefix_nil|done]|].
  destruct (l !! j) as [w|] eqn:El.
  - rewrite (drop_S l w j El). destruct (String.eqb_spec txt w) as [->|Hne].
    + rewrite IH, Nat.add_1_r. split; [apply prefix_cons|apply prefix_cons_inv_2].
    + split; [done|]. intros H. by apply prefix_cons_inv_1 in H.
  - apply lookup_ge_None in El. rewrite drop_ge by done. split; [done|]. intros H. by apply prefix_nil_not in H.
Qed.

Lemma prefix_map_FStr l k : map FStr l `prefix_of` map FStr k <-> l `prefix_of` k.
Proof.
  revert k. induction l as [|x l IH]; intros [|y k]; simpl; rewrite ?prefix_cons_iff, ?IH;
    try (split; intros; apply prefix_nil).
  - split; intros H; by apply prefix_nil_not in H.
  - split; [intros [[= ->] H]; by apply prefix_cons|].
    intros H. split; [f_equal; by eapply prefix_cons_inv_1|by eapply prefix_cons_inv_2].
Qed.

Lemma typed_same a t : typed a -> typed t -> hRrtype (rrHdr a) = hRrtype (rrHdr t) ->
  type_of_data (rrData a) = type_of_data (rrData t).
Proof.
  unfold typed. destruct (type_of_data (rrData a)) eqn:Ea, (type_of_data (rrData t)) eqn:Et; intros Ha Ht He.
  - congruence.
  - destruct (Ht (rrData a)). congruence.
  - destruct (Ha (rrData t)). congruence.
  - done.
Qed.

Lemma checkData_none i a t : type_of_data (rrData a) = type_of_data (rrData t) ->
  checkData i a t = Done None <-> compared a `prefix_of` compared t.
Proof.
  intros Ht. unfold checkData, compared.
  destruct (rrData a), (rrData t); try discriminate Ht; clear Ht;
    try (rewrite checkTxt_none, drop_0, prefix_map_FStr; done);
    rewrite ?prefix_cons_iff; try (split; [intros _; apply prefix_nil|done]);
    rewrite Done_none, mismatch_none, ?Forall_cons, Forall_nil; simpl; split; intros H; destruct_and?; split_and?;
    auto using prefix_nil.
Qed.

Lemma ttl_check t a :
  negb (hTtl (rrHdr t) =? 303) && negb (hTtl (rrHdr a) =? hTtl (rrHdr t)) && negb (is_OPT t) = false <->
  hTtl (rrHdr t) = 303 \/ hTtl (rrHdr a) = hTtl (rrHdr t) \/ is_OPT t = true.
Proof. rewrite !andb_false_iff, !negb_false_iff, !Z.eqb_eq. tauto. Qed.

Lemma sectionLoop_none section i rr :
  Forall typed section -> Forall typed rr -> length (drop i section) = length rr ->
  sectionLoop section i rr = Done None <-> Forall2 agrees_prefix (drop i section) rr.
Proof.
  intros Hs Hr. revert i. induction Hr as [|a rr Ha Hr IH]; intros i Hl; simpl in Hl.
  { apply nil_length_inv in Hl. rewrite Hl. simpl. split; [constructor|done]. }
  destruct (section !! i) as [t|] eqn:Et; [|by apply lookup_ge_None in Et; rewrite length_drop in Hl; lia].
  assert (typed t) as Ht by exact (Forall_lookup_1 _ _ _ _ Hs Et).
  cbn [sectionLoop]. rewrite Et, (drop_S _ _ _ Et). rewrite (drop_S _ _ _ Et) in Hl. simpl in Hl.
  rewrite Forall2_cons. rewrite Nat.add_1_r.
  specialize (IH (Datatypes.S i) ltac:(lia)). rewrite <- IH. unfold agrees_prefix. clear IH.
  destruct (String.eqb_spec (hName (rrHdr a)) (hName (rrHdr t))) as [Hn|Hn]; cbn [negb]; [|split; [done|]; tauto].
  pose proof (ttl_check t a) as Httl. destruct (_ && _ && negb (is_OPT t)); [split; [done|]; intuition congruence|].
  destruct (Z.eqb_spec (hRrtype (rrHdr a)) (hRrtype (rrHdr t))) as [He|He]; cbn [negb]; [|split; [done|]; tauto].
  pose proof (checkData_none i a t (typed_same a t Ha Ht He)) as Hc.
  destruct (checkData i a t) as [[?|]| |]; intuition congruence.
Qed.

(** A section as [SortAndCheck] hands it to [Section_]. *)
Lemma sectionLoop_sorted `{!GoSortLaws S} sec l : Forall typed sec -> Forall typed l -> length l = length sec ->
  sectionLoop sec 0 (RRSet_sort l) = Done None <-> Forall2 agrees_prefix sec (RRSet_sort l).
Proof.
  intros Hs Hl Hlen. apply (sectionLoop_none sec 0); [done|..]; unfold RRSet_sort; rewrite Sort_perm; [done|].
  by rewrite drop_0.
Qed.

Lemma SortAndCheck_sections `{!GoSortLaws S} resp tc :
  SortAndCheck resp tc = Done (sorted_sections resp, None) <->
  m_Rcode resp = t_Rcode tc /\
  (length (m_Answer resp) = length (t_Answer tc) /\ sectionLoop (t_Answer tc) 0 (RRSet_sort (m_Answer resp)) = Done None) /\
  (length (m_Ns resp) = length (t_Ns tc) /\ sectionLoop (t_Ns tc) 0 (RRSet_sort (m_Ns resp)) = Done None) /\
  (length (m_Extra resp) = length (t_Extra tc) /\ sectionLoop (t_Extra tc) 0 (RRSet_sort (m_Extra resp)) = Done None).
Proof.
  unfold SortAndCheck, Header, Section_. cbn [m_Rcode m_Answer m_Ns m_Extra sorted_sections].
  assert (forall l, length (RRSet_sort l) = length l) as Hlen by (intros l; unfold RRSet_sort; by rewrite Sort_perm).
  rewrite !Hlen. destruct (Z.eqb_spec (m_Rcode resp) (t_Rcode tc)) as [Hr|Hr]; cbn [negb]; [|split; [done|tauto]].
  do 3 (match goal with |- context [if negb (?x =? ?y)%nat then _ else _] => destruct (Nat.eqb_spec x y) end;
    cbn [negb]; [|split; [done|tauto]]).
  cbn [Z.eqb Answer Ns Extra].
  destruct (sectionLoop (t_Answer tc) 0 _) as [[?|]| |]; simpl; [naive_solver| |naive_solver..].
  destruct (sectionLoop (t_Ns tc) 0 _) as [[?|]| |]; simpl; [naive_solver| |naive_solver..].
  destruct (sectionLoop (t_Extra tc) 0 _) as [[?|]| |]; simpl; naive_solver.
Qed.

(** Records of the same type with equally many strings have equally many values. *)
Lemma compared_length n a t : type_of_data (rrData a) = type_of_data (rrData t) -> strings n a -> strings n t ->
  length (compared a) = length (compared t).
Proof.
  unfold compared, strings. intros He Ha Ht. destruct (rrData a), (rrData t); try discriminate He; try done. rewrite !length_map. congruence.
Qed.

Lemma agrees_strings n a t : typed a -> typed t -> strings n a -> strings n t -> agrees_prefix t a <-> agrees t a.
Proof.
  intros Ha Ht Na Nt. unfold agrees_prefix, agrees.
  split; intros (Hn & He & Httl & Hc); (split_and!; [done..|]); [|by rewrite Hc].
  apply prefix_length_eq; [done|]. by rewrite (compared_length n a t) by (done || by apply typed_same).
Qed.

Lemma agrees_strings_all n ts l : Forall typed ts -> Forall typed l -> Forall (strings n) ts -> Forall (strings n) l ->
  Forall2 agrees_prefix ts l <-> Forall2 agrees ts l.
Proof.
  intros Ht Hl Nt Nl. split; intros H; induction H; repeat match goal with H : Forall _ (_ :: _) |- _ => apply Forall_cons in H as [? ?] end;
    constructor; auto; eapply (agrees_strings n); done.
Qed.

(** On such records nothing panics. *)
Lemma checkTxt_done i j txts l : (j + length txts <= length l)%nat -> exists e, checkTxt i j txts (DTXT l) = Done e.
Proof.
  revert j. induction txts as [|txt txts IH]; intros j Hj; simpl in *; [eauto|].
  destruct (lookup_lt_is_Some_2 l j) as [w ->]; [lia|]. case_match; [|eauto]. apply IH. lia.
Qed.

Lemma checkData_done n i a t : type_of_data (rrData a) = type_of_data (rrData t) -> strings n a -> strings n t ->
  exists e, checkData i a t = Done e.
Proof.
  intros He Ha Ht. unfold checkData, strings in *. destruct (rrData a), (rrData t); try discriminate He; eauto.
  apply checkTxt_done. simpl. lia.
Qed.

Lemma sectionLoop_done n section i rr : Forall typed section -> Forall typed rr -> Forall (strings n) section -> Forall (strings n) rr ->
  (i + length rr <= length section)%nat -> exists e, sectionLoop section i rr = Done e.
Proof.
  intros Hs Hr Ns Nr. revert i. induction rr as [|a rr IH]; intros i Hl; simpl in *; [eauto|].
  apply Forall_cons in Hr as [Ha Hr], Nr as [Na Nr]. destruct (lookup_lt_is_Some_2 section i) as [t Ht]; [lia|]. rewrite Ht.
  destruct (negb _); [eauto|]. destruct (_ && _); [eauto|]. destruct (Z.eqb_spec (hRrtype (rrHdr a)) (hRrtype (rrHdr t))) as [He|]; simpl; [|eauto].
  destruct (checkData_done n i a t) as [[e|] ->]; [|exact Na|exact (Forall_lookup_1 _ _ _ _ Ns Ht)|eauto|apply IH; auto; lia].
  apply typed_same; [done|exact (Forall_lookup_1 _ _ _ _ Hs Ht)|done].
Qed.

Lemma SortAndCheck_done `{!GoSortLaws S} n resp tc :
  Forall typed (m_Answer resp ++ m_Ns resp ++ m_Extra resp) -> Forall typed (t_Answer tc ++ t_Ns tc ++ t_Extra tc) ->
  Forall (strings n) (m_Answer resp ++ m_Ns resp ++ m_Extra resp) -> Forall (strings n) (t_Answer tc ++ t_Ns tc ++ t_Extra tc) ->
  exists e, SortAndCheck resp tc = Done (sorted_sections resp, e).
Proof.
  rewrite !Forall_app. intros (Ra & Rn & Rx) (Ta & Tn & Tx) (Sa & Sn & Sx) (Ua & Un & Ux).
  unfold SortAndCheck, Header, Section_. cbn [m_Rcode m_Answer m_Ns m_Extra sorted_sections].
  assert (forall l, RRSet_sort l ≡ₚ l) as Hp by (intros l; unfold RRSet_sort; by rewrite Sort_perm).
  destruct (negb _); [eauto|].
  do 3 (match goal with |- context [if negb (?x =? ?y)%nat then _ else _] => destruct (Nat.eqb_spec x y) end; cbn [negb]; [|eauto]).
  cbn [Z.eqb Answer Ns Extra].
  assert (forall sec l, Forall typed sec -> Forall typed l -> Forall (strings n) sec -> Forall (strings n) l ->
    length (RRSet_sort l) = length sec -> exists e, sectionLoop sec 0 (RRSet_sort l) = Done e) as Hsec.
  { intros sec l H1 H2 H3 H4 H5. apply (sectionLoop_done n); [done|by rewrite Hp|done|by rewrite Hp|lia]. }
  destruct (Hsec (t_Answer tc) (m_Answer resp)) as [[err1|] ->]; try done; simpl; [eauto|].
  destruct (Hsec (t_Ns tc) (m_Ns resp)) as [[err2|] ->]; try done; simpl; [eauto|].
  destruct (Hsec (t_Extra tc) (m_Extra resp)) as [err3 ->]; try done; simpl; eauto.
Qed.

(** C37: [SortAndCheck] returns, and accepts a reply exactly if it has the code of
    the case and each of its sections, sorted by the text of the records, agrees
    with the section of the case record by record, with nothing missing or left
    over: name, type, TTL and the values the helper compares.  The types in the
    headers must be those of the records, and the TXT records on both sides must
    have equally many strings. *)
Theorem SortAndCheck_accepts `{!GoSortLaws S} n resp tc :
  Forall typed (m_Answer resp ++ m_Ns resp ++ m_Extra resp) -> Forall typed (t_Answer tc ++ t_Ns tc ++ t_Extra tc) ->
  Forall (strings n) (m_Answer resp ++ m_Ns resp ++ m_Extra resp) -> Forall (strings n) (t_Answer tc ++ t_Ns tc ++ t_Extra tc) ->
  exists e, SortAndCheck resp tc = Done (sorted_sections resp, e) /\
    (e = None <->
     m_Rcode resp = t_Rcode tc /\
     Forall2 agrees (t_Answer tc) (RRSet_sort (m_Answer resp)) /\
     Forall2 agrees (t_Ns tc) (RRSet_sort (m_Ns resp)) /\
     Forall2 agrees (t_Extra tc) (RRSet_sort (m_Extra resp))).
Proof.
  intros R T' N U. destruct (SortAndCheck_done n resp tc R T' N U) as [e He]. exists e. split; [done|].
  trans (SortAndCheck resp tc = Done (sorted_sections resp, None)); [rewrite He; split; congruence|]. clear e He.
  rewrite !Forall_app in R, T', N, U. destruct R as (Ra & Rn & Rx), T' as (Ta & Tn & Tx), N as (Sa & Sn & Sx), U as (Ua & Un & Ux).
  rewrite SortAndCheck_sections.
  assert (forall sec l, Forall typed sec -> Forall typed l -> Forall (strings n) sec -> Forall (strings n) l ->
    length l = length sec /\ sectionLoop sec 0 (RRSet_sort l) = Done None <-> Forall2 agrees sec (RRSet_sort l)) as Hsec.
  { intros sec l Hs Hl H1 H2. assert (RRSet_sort l ≡ₚ l) as Hp by (unfold RRSet_sort; by rewrite Sort_perm).
    rewrite <- (agrees_strings_all n) by (try done; by rewrite Hp).
    split; [intros [? ?]; by apply sectionLoop_sorted|]. intros H.
    assert (length l = length sec); [|split; [done|by apply sectionLoop_sorted]].
    apply Forall2_length in H. rewrite Hp in H. done. }
  by rewrite !Hsec.
Qed.

(** The order the records came in does not matter, if no two differ without
    differing in their text. *)
Lemma RRSet_sort_perm `{!GoSortLaws S} l l' :
  (forall a b, a ∈ l -> b ∈ l -> rr_String a = rr_String b -> a = b) ->
  l ≡ₚ l' -> RRSet_sort l = RRSet_sort l'.
Proof.
  intros Hinj Hp. apply (StronglySorted_unique_strong (fun a b => String.le (rr_String a) (rr_String b)));
    [|apply Sort_sorted..|by unfold RRSet_sort; rewrite !Sort_perm].
  intros a b Ha Hb Hab Hba. unfold RRSet_sort in Ha, Hb. rewrite Sort_perm in Ha, Hb. rewrite <- Hp in Hb.
  apply Hinj; try done. by apply (anti_symm String.le).
Qed.

Lemma agrees_refl l : Forall2 agrees_prefix l l.
Proof. apply Forall_Forall2_diag, Forall_true. intros a. split_and!; auto. Qed.

(** ** CNAME order *)

Lemma orderLoop_skip answer i rest :
  Forall (fun r => hRrtype (rrHdr r) <> TypeCNAME) rest -> orderLoop answer i rest = Done None.
Proof.
  intros H. revert i. induction H as [|c rest Hc _ IH]; intros i; simpl; [done|].
  rewrite (proj2 (Z.eqb_neq _ _) Hc). apply IH.
Qed.

Lemma before_none c target rs : rrData c = DCNAME target ->
  before c rs = Done None <-> Forall (fun a => hName (rrHdr a) <> target) rs.
Proof.
  intros Hc. induction rs as [|a rs IH]; simpl; [done|]. rewrite Hc, Forall_cons, <- IH.
  destruct (String.eqb_spec (hName (rrHdr a)) target); cbn [negb]; naive_solver.
Qed.

Lemma orderLoop_step pre c target rest :
  rrData c = DCNAME target -> Forall (fun a => hName (rrHdr a) <> target) pre ->
  orderLoop ((pre ++ [c]) ++ rest) (length (pre ++ [c])) rest = Done None ->
  orderLoop (pre ++ c :: rest) (length pre) (c :: rest) = Done None.
Proof.
  intros Hc Hp. rewrite <- app_assoc, length_app. simpl. intros H. case_match; [done|].
  rewrite take_app_length. by rewrite (proj2 (before_none c target pre Hc) Hp).
Qed.
End Accepts.

Section Order.
Context {L : Libs} {E : Env} (h : DnsRequestHandler).

Lemma chain_order w zn z q l q' pre a :
  cname_chain w zn z q l q' -> NoDup (map fst l ++ [q']) ->
  Forall (fun r => hName (rrHdr r) ∉ map fst l ++ [q']) pre ->
  Forall (fun r => hRrtype (rrHdr r) <> TypeCNAME) a ->
  orderLoop (pre ++ cname_rrs h l ++ a) (length pre) (cname_rrs h l ++ a) = Done None.
Proof.
  intros Hch. revert pre. induction Hch as [q|q rs cn l q' Hz Hr Hc Hch IH]; intros pre Hnd Hpre Ha.
  { by apply orderLoop_skip. }
  unfold cname_rrs. cbn [map concat]. unfold h_CNAME. rewrite Hc. cbn [app].
  assert (dns_Fqdn (cname_Host cn) ∈ map fst l ++ [q']) as Hnext by (inversion Hch; subst; simpl; set_solver).
  cbn [map fst app] in Hnd, Hpre. apply NoDup_cons in Hnd as [Hq Hnd].
  eapply orderLoop_step; [done| |].
  - eapply Forall_impl; [exact Hpre|]. cbv beta. intros r Hr' E'. apply Hr'. rewrite E'. set_solver.
  - apply IH; [done| |done]. apply Forall_app. split; [|by repeat constructor].
    eapply Forall_impl; [exact Hpre|]. set_solver.
Qed.

Lemma stored_answer_type name rs t ans : stored_answer h name rs t ans -> Forall (fun r => hRrtype (rrHdr r) = t) ans.
Proof.
  intros H. apply (Forall_impl (built (MaxTtl h) name t)); [|by intros r (_ & ? & _)].
  destruct H as [| | |l Hl| | | | |];
    auto using h_A_built, h_AAAA_built, h_CNAME_built, h_NS_built, h_MX_built, h_SRV_built, h_PTR_built, h_TLSA_built.
  destruct (h_TXT_built (MaxTtl h) name rs) as (l' & Hl' & ?). congruence.
Qed.

(** C18: the answers redins builds along a CNAME chain pass [CNAMEOrder].  If the
    names on the chain are distinct, no CNAME of the answer comes after a record
    it points to, whatever stands at the end of the chain. *)
Theorem chain_in_order w zn z qtype name l q a u rc m :
  cname_chain w zn z name l q -> chain_ends h w zn z qtype q a u rc ->
  qtype <> TypeCNAME \/ l = [] -> NoDup (map fst l ++ [q]) ->
  m_Answer m = cname_rrs h l ++ a -> CNAMEOrder m = Done None.
Proof.
  intros Hch Hends Hq Hnd Hm. unfold CNAMEOrder. rewrite Hm.
  destruct (decide (qtype = TypeCNAME)) as [->|Hne].
  - destruct Hq as [Hq| ->]; [done|]. destruct Hends as [|soa|rs ans soa _ _ _ _ Hans]; [done..|].
    inversion Hans; subst. simpl. unfold h_CNAME. by destruct (rs_CNAME rs).
  - apply (chain_order w zn z name l q []); [done..|]. destruct Hends; [constructor..|].
    eapply Forall_impl; [by eapply stored_answer_type|]. by intros r ->.
Qed.
End Order.

(** ** Recorder and response writers *)

(** The part of [dns.ResponseWriter] a [Recorder] passes on. *)
Class DnsWriter (W : Type) := {
  w_WriteMsg : W -> Msg -> W * option string;
  w_Write : W -> string -> W * (Z * option string)
}.

Record Recorder (W : Type) := mkRecorder {
  rec_ResponseWriter : W; rec_Rcode : Z; rec_Len : Z; rec_Msg : option Msg; rec_Start : Z }.
Arguments mkRecorder {W}.
Arguments rec_ResponseWriter {W}.
Arguments rec_Rcode {W}.
Arguments rec_Len {W}.
Arguments rec_Msg {W}.
Arguments rec_Start {W}.

Section Recorder.
Context {T : DnsTest} {W : Type} {DW : DnsWriter W}.

Definition NewRecorder (now : Z) (w : W) : Recorder W := mkRecorder w 0 0 None now.

Definition WriteMsg (r : Recorder W) (res : Msg) : Recorder W * option string :=
  let (w, err) := w_WriteMsg (rec_ResponseWriter r) res in
  (mkRecorder w (m_Rcode res) (i64 (rec_Len r + msg_Len res)) (Some res) (rec_Start r), err).

Definition Write (r : Recorder W) (buf : string) : Recorder W * (Z * option string) :=
  let '(w, (n, err)) := w_Write (rec_ResponseWriter r) buf in
  (mkRecorder w (rec_Rcode r) (match err with None => i64 (rec_Len r + n) | Some _ => rec_Len r end)
     (rec_Msg r) (rec_Start r), (n, err)).

Lemma WriteMsg_fields r m : let r' := fst (WriteMsg r m) in
  rec_Len r' = i64 (rec_Len r + msg_Len m) /\ rec_Start r' = rec_Start r /\ rec_Msg r' = Some m /\ rec_Rcode r' = m_Rcode m.
Proof. unfold WriteMsg. by destruct (w_WriteMsg _ m). Qed.

Definition write_all (r : Recorder W) (ms : list Msg) : Recorder W := foldl (fun r m => fst (WriteMsg r m)) r ms.

Definition total_Len : list Msg -> Z := foldr (fun m n => msg_Len m + n) 0.

(** A recorder shows the last message and the size of all of them. *)
Lemma write_all_spec now w ms m :
  let r := write_all (NewRecorder now w) (ms ++ [m]) in
  rec_Msg r = Some m /\ rec_Rcode r = m_Rcode m /\ rec_Len r = i64 (total_Len (ms ++ [m])) /\ rec_Start r = now.
Proof.
  unfold write_all. rewrite foldl_app.
  assert (forall l r, rec_Start (foldl (fun r m => fst (WriteMsg r m)) r l) = rec_Start r) as Hstart.
  { induction l as [|x l IH]; intros r; [done|]. simpl. rewrite IH. apply WriteMsg_fields. }
  assert (forall l r, i64 (rec_Len (foldl (fun r m => fst (WriteMsg r m)) r l)) = i64 (rec_Len r + total_Len l)) as Hlen.
  { induction l as [|x l IH]; intros r; simpl; [by rewrite Z.add_0_r|]. rewrite IH.
    destruct (WriteMsg_fields r x) as (-> & _). rewrite i64_add_l. f_equal. unfold total_Len. lia. }
  specialize (Hlen ms (NewRecorder now w)). cbn [foldl].
  destruct (WriteMsg_fields (foldl (fun r m => fst (WriteMsg r m)) (NewRecorder now w) ms) m) as (-> & -> & -> & ->).
  rewrite Hstart, <- i64_add_l, Hlen, i64_add_l. split_and!; try done. f_equal. unfold total_Len.
  rewrite foldr_app. simpl. clear. induction ms as [|x ms IH]; simpl; lia.
Qed.
End Recorder.

Inductive Addr :=
  | TCPAddr (ip : IP) (port : Z) (zone : string)
  | UDPAddr (ip : IP) (port : Z) (zone : string).

Record ResponseWriter := mkResponseWriter { TCP : bool }.

Definition LocalAddr (t : ResponseWriter) : Addr :=
  let ip := ParseIP "127.0.0.1" in
  if TCP t then TCPAddr ip 53 "" else UDPAddr ip 53 "".
Definition RemoteAddr (t : ResponseWriter) : Addr :=
  let ip := ParseIP "10.240.0.1" in
  if TCP t then TCPAddr ip 40212 "" else UDPAddr ip 40212 "".
Definition LocalAddr6 (t : ResponseWriter) : Addr :=
  if TCP t then TCPAddr (ParseIP "::1") 53 "" else UDPAddr (ParseIP "::1") 53 "".
Definition RemoteAddr6 (t : ResponseWriter) : Addr :=
  if TCP t then TCPAddr (ParseIP "fe80::42:ff:feca:4c65") 40212 ""
  else UDPAddr (ParseIP "fe80::42:ff:feca:4c65") 40212 "".

#[global] Instance ResponseWriter_writer : DnsWriter ResponseWriter := {|
  w_WriteMsg t m := (t, None);
  w_Write t buf := (t, (Z.of_nat (slen buf), None))
|}.

(** The fixed addresses are addresses. *)
Example writer_addresses :
  (LocalAddr (mkResponseWriter false), RemoteAddr (mkResponseWriter true)) =
  (UDPAddr (Some (v4InV6 [127; 0; 0; 1])) 53 "", TCPAddr (Some (v4InV6 [10; 240; 0; 1])) 40212 "") /\
  (LocalAddr6 (mkResponseWriter true), RemoteAddr6 (mkResponseWriter false)) =
  (TCPAddr (Some [0;0;0;0;0;0;0;0;0;0;0;0;0;0;0;1]) 53 "",
   UDPAddr (Some [254;128;0;0;0;0;0;0;0;66;0;255;254;202;76;101]) 40212 "").
Proof. by vm_compute. Qed.

(** A record made with [OPT] has the size, cut to 16 bits, and the DO bit asked for. *)
Lemma OPT_spec `{!DnsTestLaws T} bufsize do :
  opt_UDPSize (rrHdr (OPT bufsize do)) = u16 bufsize /\ opt_Do (rrHdr (OPT bufsize do)) = do.
Proof.
  assert (0 <= u16 bufsize < 2^16) by (apply Z.mod_pos_bound; lia).
  unfold OPT, newOPT. cbn [rrHdr]. destruct do; rewrite ?UDPSize_do, ?Do_set, UDPSize_set by done;
    split; try done. by rewrite Do_size, Do_version, Do_new.
Qed.

(** ** Runs *)

(** A sorter that satisfies the laws. *)
Definition not_above {A} (less : A -> A -> bool) (a b : A) : Prop := less b a = false.
#[local] Instance not_above_dec {A} (less : A -> A -> bool) : RelDecision (not_above less) :=
  fun a b => decide (less b a = false).
#[global] Instance merge_GoSort : GoSort := fun A less => merge_sort (not_above less).

#[global] Instance merge_GoSortLaws : GoSortLaws merge_GoSort.
Proof.
  split; [intros; apply merge_sort_Permutation|]. intros A key l.
  set (less := fun a b => String.ltb (key a) (key b)).
  assert (forall a b, not_above less a b <-> String.le (key a) (key b)) as Hle.
  { intros a b. unfold not_above, less, String.le, String.ltb, String.leb. rewrite (String.compare_antisym (key a)).
    by destruct (String.compare (key b) (key a)). }
  assert (StronglySorted (not_above less) (sort_Sort less l)) as Hs.
  { apply StronglySorted_merge_sort.
    - intros a b c. rewrite !Hle. apply transitivity.
    - intros a b. rewrite !Hle. apply total, _. }
  induction Hs as [|a k _ IH Hf]; constructor; [done|]. eapply Forall_impl; [exact Hf|]. intros b. apply Hle.
Qed.

(** The OPT fields of miekg/dns: the size is the class, the DO bit is bit 15 of the
    TTL, the version its third byte. *)
Definition map_ttl (f : Z -> Z) (h : RR_Header) : RR_Header := mkHdr (hName h) (hRrtype h) (hClass h) (f (hTtl h)).
#[global] Instance SampleDnsTest : DnsTest := {|
  rr_String r := hName (rrHdr r) +:+ match rrData r with
    | DA ip => " A " +:+ IP_String ip | DAAAA ip => " AAAA " +:+ IP_String ip | DCNAME t => " CNAME " +:+ t
    | DTXT l => " TXT " +:+ String.concat " " l | _ => "" end;
  msg_Len m := 12 + 40 * Z.of_nat (length (m_Answer m));
  RcodeToString rc := if rc =? 0 then "NOERROR" else if rc =? 3 then "NXDOMAIN" else Itoa rc;
  msg_SetQuestion z t m := mkMsg 7 (m_Authoritative m) (m_RecursionAvailable m) (m_Compress m) (m_Rcode m)
    [mkQuestion z t ClassINET] (m_Answer m) (m_Ns m) (m_Extra m);
  opt_SetDo := map_ttl (fun t => Z.lor t (2^15));
  opt_SetUDPSize n h := mkHdr (hName h) (hRrtype h) n (hTtl h);
  opt_SetVersion n := map_ttl (fun t => Z.lor (Z.land t 0xFF00FFFF) (Z.shiftl n 16));
  opt_UDPSize := hClass;
  opt_Do h := Z.testbit (hTtl h) 15
|}.

#[global] Instance SampleDnsTestLaws : DnsTestLaws SampleDnsTest.
Proof.
  split; try done.
  - intros h. change (Z.testbit (Z.lor (hTtl h) (2^15)) 15 = true). rewrite Z.lor_spec. by rewrite orb_true_r.
  - intros n h. change (Z.testbit (Z.lor (Z.land (hTtl h) 0xFF00FFFF) (Z.shiftl n 16)) 15 = Z.testbit (hTtl h) 15).
    rewrite Z.lor_spec, Z.land_spec, Z.shiftl_spec_low by done. by rewrite orb_false_r, andb_true_r.
Qed.

Definition alias_rr := mkRR (mkHdr "alias.example.com." TypeCNAME ClassINET 300) (DCNAME "www.example.com.").
Definition www_rr := mkRR (mkHdr "www.example.com." TypeA ClassINET 300) (DA (Some [1; 2; 3; 4])).
Definition reply_of (l : list RR) : Msg := mkMsg 7 true false false RcodeSuccess [] l [] [].
Definition case_of (l : list RR) : Case := mkCase "alias.example.com." TypeA RcodeSuccess false l [] [] None.

(** Accepted with the TTL left open, not with another address. *)
Lemma SortAndCheck_accepts_witness :
  (exists e, SortAndCheck (reply_of [www_rr; alias_rr]) (case_of [set_rr_ttl 303 alias_rr; www_rr])
    = Done (sorted_sections (reply_of [www_rr; alias_rr]), e) /\ e = None) /\
  (exists e, SortAndCheck (reply_of [www_rr; alias_rr]) (case_of [alias_rr; mkRR (rrHdr www_rr) (DA (Some [1; 2; 3; 5]))])
    = Done (sorted_sections (reply_of [www_rr; alias_rr]), e) /\ e <> None).
Proof.
  split.
  - destruct (SortAndCheck_accepts 1 (reply_of [www_rr; alias_rr]) (case_of [set_rr_ttl 303 alias_rr; www_rr])) as (e & He & Hiff);
      [repeat constructor..|].
    exists e. split; [exact He|]. apply Hiff. split; [reflexivity|]. split; [|split; constructor].
    change (RRSet_sort _) with [alias_rr; www_rr]. constructor; [|constructor; [|constructor]]; split_and!; auto.
  - destruct (SortAndCheck_accepts 1 (reply_of [www_rr; alias_rr]) (case_of [alias_rr; mkRR (rrHdr www_rr) (DA (Some [1; 2; 3; 5]))]))
      as (e & He & Hiff); [repeat constructor..|].
    exists e. split; [exact He|]. rewrite Hiff. intros (_ & H & _). change (RRSet_sort _) with [alias_rr; www_rr] in H.
    apply Forall2_cons in H as [_ H]. apply Forall2_cons in H as [(_ & _ & _ & H) _]. vm_compute in H. discriminate H.
Defined.

(** The first strings of a TXT record are enough; more strings than expected end
    the test with an index out of range. *)
Definition txt_rr (l : list string) := mkRR (mkHdr "t.example.com." TypeTXT ClassINET 300) (DTXT l).
Example TXT_prefix_accepted :
  SortAndCheck (reply_of [txt_rr ["v=1"]]) (case_of [txt_rr ["v=1"; "-all"]])
  = Done (sorted_sections (reply_of [txt_rr ["v=1"]]), None) /\
  SortAndCheck (reply_of [txt_rr ["v=1"; "-all"]]) (case_of [txt_rr ["v=1"]]) = Panic.
Proof. split; reflexivity. Qed.

Lemma chain_in_order_witness : exists m,
  map (fun r => hName (rrHdr r)) (m_Answer m) = ["alias.example.com."; "www.example.com."; "www.example.com."] /\
  CNAMEOrder m = Done None.
Proof.
  exists (reply_of (cname_rrs (L := serve_libs) serve_handler [("alias.example.com.", sample_records "alias" locationDefaults)] ++ warm_answer)).
  split; [by_run|].
  apply (chain_in_order (E := frozen_env) serve_handler warm_world "example.com." warm_zone TypeA "alias.example.com."
    [("alias.example.com.", sample_records "alias" locationDefaults)] "www.example.com." warm_answer
    (if (length warm_answer =? 0)%nat then [warm_soa] else []) RcodeSuccess).
  - eapply chain_cname; [by_run|apply (warm_record "alias.example.com."); set_solver|reflexivity|constructor].
  - apply (end_data serve_handler _ _ _ _ _ (sample_records "www" locationDefaults) warm_answer warm_soa).
    + by_run.
    + apply (warm_record "www.example.com."). set_solver.
    + right. reflexivity.
    + left. reflexivity.
    + apply (ans_A serve_handler); [|reflexivity]. split_and!; try reflexivity.
      split; [repeat constructor; simpl; lia|reflexivity].
    + by_run.
  - left. discriminate.
  - apply NoDup_cons. split; [simpl; set_solver|]. apply NoDup_singleton.
  - reflexivity.
Defined.
End Test.
