(* ===== verification/PerfGen.v ===== *)
(** tools/perf/gen/gen.go, which fills Redis with random zones and writes the
    queries for them, and the part of tools/perf/bulk/bulk.go that reads the
    queries back.  The theorems say what [RandomString] draws and that every
    query that comes back finds what it expects in the database that the commands
    leave, its texts read by the parser of JsonText.v. *)
From Stdlib Require Import Ascii.
From S2P Require Import Prelude GoStrings Utf8 JsonText GoScan GoNet Monad DnsTypes.

Definition letterBytes : list ascii := String.list_ascii_of_string "abcdefghijklmnopqrstuvwxyz".
Definition letterIdxBits : Z := 6.
Definition letterIdxMask : Z := Z.shiftl 1 letterIdxBits - 1.
Definition letterIdxMax : Z := 63 / letterIdxBits.
Definition suffix : string := ".tst.".

Definition letter (idx : Z) : ascii := nth (Z.to_nat idx) letterBytes zero.

(** ** The model *)

(** What the program has written: the commands sent to Redis, the text for
    query.txt, the zone files. *)
Record GenState := mkGenState {
  g_src : nat;                          (* words drawn from [src] *)
  g_rand : nat;                         (* numbers drawn with [rand.Intn(256)] *)
  g_redis : list (list string);
  g_wq : string;
  g_zones : list (string * string)
}.

Record GenFlags := mkGenFlags { fl_zones : Z; fl_entries : Z; fl_type : string }.

(** The outside: the two random sources, and which calls succeed. *)
Record GenEnv := mkGenEnv {
  Int63 : nat -> Z;
  Intn256 : nat -> Z;
  redis_Dial : bool;
  create_query : bool;
  create_zone : string -> bool
}.

Section Gen.
Context (env : GenEnv).

(** The loop of [RandomString]; [m] is [i + 1], [k] the words drawn. *)
Fixpoint randomLoop (fuel m : nat) (cache remain : Z) (b : list ascii) (k : nat) : Outcome (string * nat) :=
  match m with
  | O => Done (String.string_of_list_ascii b, k)
  | S i =>
      match fuel with
      | O => Diverge
      | S fuel' =>
          let '(cache, remain, k) := if remain =? 0 then (Int63 env k, letterIdxMax, S k) else (cache, remain, k) in
          let idx := Z.land cache letterIdxMask in
          let '(b, m) := if idx <? Z.of_nat (length letterBytes) then (<[i := letter idx]> b, i) else (b, m) in
          randomLoop fuel' m (Z.shiftr cache letterIdxBits) (remain - 1) b k
      end
  end.

Definition RandomString (fuel n k : nat) : Outcome (string * nat) :=
  randomLoop fuel n (Int63 env k) letterIdxMax (replicate n zero) (S k).

(** ** [main] *)

Definition draw (fuel n : nat) : ST noFlights GenState string := atom (fun s =>
  match RandomString fuel n (g_src s) with
  | Done (str, k) => Done (str, mkGenState k (g_rand s) (g_redis s) (g_wq s) (g_zones s))
  | Panic => Panic
  | Diverge => Diverge
  end).

Definition intn : ST noFlights GenState Z := atom (fun s =>
  Done (Intn256 env (g_rand s), mkGenState (g_src s) (S (g_rand s)) (g_redis s) (g_wq s) (g_zones s))).

Definition con_Do (cmd : list string) : ST noFlights GenState unit :=
  st_modify (fun s => mkGenState (g_src s) (g_rand s) (g_redis s ++ [cmd]) (g_wq s) (g_zones s)).

Definition wq_WriteString (t : string) : ST noFlights GenState unit :=
  st_modify (fun s => mkGenState (g_src s) (g_rand s) (g_redis s) (g_wq s +:+ t) (g_zones s)).

(** A zone file, complete once it is flushed and closed. *)
Definition close_zone (name text : string) : ST noFlights GenState unit :=
  st_modify (fun s => mkGenState (g_src s) (g_rand s) (g_redis s) (g_wq s) (g_zones s ++ [(name, text)])).

Definition nl : string := String NL "".
Definition quote : string := String "034"%char "".

(** [fmt.Sprintf("%d.%d.%d.%d", ...)] of four random numbers *)
Definition randomIp : ST noFlights GenState string :=
  a ← intn; b ← intn; c ← intn; d ← intn;
  mret (Itoa a +:+ "." +:+ Itoa b +:+ "." +:+ Itoa c +:+ "." +:+ Itoa d).

Definition a_json (ip : string) : string :=
  "{" +:+ quote +:+ "a" +:+ quote +:+ ":{" +:+ quote +:+ "ttl" +:+ quote +:+ ":300, " +:+ quote +:+ "records" +:+ quote +:+
  ":[{" +:+ quote +:+ "ip" +:+ quote +:+ ":" +:+ quote +:+ ip +:+ quote +:+ "}]}}".
Definition cname_json (host : string) : string :=
  "{" +:+ quote +:+ "cname" +:+ quote +:+ ":{" +:+ quote +:+ "ttl" +:+ quote +:+ ":300, " +:+ quote +:+ "host" +:+ quote +:+
  ":" +:+ quote +:+ host +:+ "." +:+ quote +:+ "}}".
Definition txt_json (txt : string) : string :=
  "{" +:+ quote +:+ "txt" +:+ quote +:+ ":{" +:+ quote +:+ "ttl" +:+ quote +:+ ":300, " +:+ quote +:+ "records:{" +:+ quote +:+
  "text" +:+ quote +:+ ":" +:+ quote +:+ txt +:+ quote +:+ "}" +:+ quote +:+ "}}".

(** [fmt.Sprintf("%s.%s %d %d %s\n", ...)], and without the result *)
Definition queryLine (location zone : string) (t rc : Z) (result : string) : string :=
  location +:+ "." +:+ zone +:+ " " +:+ Itoa t +:+ " " +:+ Itoa rc +:+ " " +:+ result +:+ nl.
Definition queryLine0 (location zone : string) (t rc : Z) : string :=
  location +:+ "." +:+ zone +:+ " " +:+ Itoa t +:+ " " +:+ Itoa rc +:+ nl.

Definition hset (zone location json : string) : list string := ["HSET"; "redins:zones:" +:+ zone; location; json].

(** One entry of a zone; the result is what it adds to the zone file. *)
Definition genEntry (fuel : nat) (typ zone : string) : ST noFlights GenState string :=
  if String.eqb typ "cname" then
    location1 ← draw fuel 15; location2 ← draw fuel 15;
    con_Do (hset zone location1 (cname_json (location2 +:+ "." +:+ zone)));;
    ip ← randomIp;
    con_Do (hset zone location2 (a_json ip));;
    wq_WriteString (queryLine location1 zone TypeA RcodeSuccess ip);;
    mret (location1 +:+ " CNAME " +:+ location2 +:+ nl +:+ location2 +:+ " A " +:+ ip +:+ nl)
  else if String.eqb typ "txt" then
    location ← draw fuel 15; txt ← draw fuel 200;
    con_Do (hset zone location (txt_json txt));;
    wq_WriteString (queryLine location zone TypeTXT RcodeSuccess txt);;
    mret (location +:+ " TXT " +:+ quote +:+ txt +:+ quote)
  else if String.eqb typ "nxdomain" then
    location ← draw fuel 15;
    wq_WriteString (queryLine0 location zone TypeA RcodeNameError);;
    mret ""
  else
    location ← draw fuel 15;
    ip ← randomIp;
    con_Do (hset zone location (a_json ip));;
    wq_WriteString (queryLine location zone TypeA RcodeSuccess ip);;
    mret (location +:+ " A " +:+ ip +:+ nl).

Definition zoneHeader (zone : string) : string :=
  "$ORIGIN " +:+ zone +:+ nl +:+ "$TTL 300" +:+ nl +:+ nl +:+ "@       SOA ns1 hostmaster (" +:+ nl +:+
  "1      ; serial" +:+ nl +:+ "7200   ; refresh" +:+ nl +:+ "30M    ; retry" +:+ nl +:+ "3D     ; expire" +:+ nl +:+
  "900    ; ncache" +:+ nl +:+ ")" +:+ nl +:+ "@ NS ns1." +:+ zone +:+ nl +:+ "ns1 A 1.2.3.4" +:+ nl +:+ nl.

(** One zone; [false] when its file cannot be created, which ends the program. *)
Definition genZone (fuel : nat) (fl : GenFlags) : ST noFlights GenState bool :=
  r ← draw fuel 15;
  let zone := r +:+ suffix in
  if negb (create_zone env zone) then mret false
  else
    con_Do ["SADD"; "redins:zones"; zone];;
    es ← mapM (fun _ => genEntry fuel (fl_type fl) zone) (seq 0 (Z.to_nat (fl_entries fl)));
    close_zone zone (zoneHeader zone +:+ String.concat "" es);;
    mret true.

Fixpoint genZones (fuel : nat) (fl : GenFlags) (zones : nat) : ST noFlights GenState bool :=
  match zones with
  | O => mret true
  | S zones' => ok ← genZone fuel fl; if ok : bool then genZones fuel fl zones' else mret false
  end.

Definition flush_cmd : list string :=
  ["EVAL"; "return redis.call('del', unpack(redis.call('keys', ARGV[1])))"; "0"; "*"].

(** What a [bufio.Writer] that is never flushed has passed on of [t]. *)
Definition spilled (t : string) : string := stake (4096 * ((slen t - 1) / 4096)) t.

(** The whole program: the final state, and query.txt if it exists. *)
Definition gen_main (fuel : nat) (fl : GenFlags) : Outcome (GenState * option string) :=
  let s0 := mkGenState 0 0 [] "" [] in
  if negb (redis_Dial env) then Done (s0, None)
  else if negb (create_query env) then Done (mkGenState 0 0 [flush_cmd] "" [], None)
  else
    match genZones fuel fl (Z.to_nat (fl_zones fl)) (mkGenState 0 0 [flush_cmd] "" []) with
    | Done (ok, s) => Done (s, Some (if ok : bool then g_wq s else spilled (g_wq s)))
    | Panic => Panic
    | Diverge => Diverge
    end.
End Gen.

(** ** Reading query.txt (bulk.go) *)

Record query := mkQuery { queryAddr : string; queryType : Z; resultCode : Z; queryResult : string }.

(** [fmt.Sscan(line, &q.queryAddr, &q.queryType, &q.resultCode, &q.queryResult)] *)
Definition scanQuery (line : string) : query :=
  match Sscan line [DstString; DstInt; DstInt; DstString] with
  | [ScString a; ScInt t; ScInt c; ScString r] => mkQuery a t c r
  | [ScString a; ScInt t; ScInt c] => mkQuery a t c ""
  | [ScString a; ScInt t] => mkQuery a t 0 ""
  | [ScString a] => mkQuery a 0 0 ""
  | _ => mkQuery "" 0 0 ""
  end.
Definition readQueries (file : string) : list query := map scanQuery (ReadStrings file).

(** ** What [RandomString] draws *)

Section RandomString.
Context (env : GenEnv).

(** The groups of six bits the source delivers from word [k0] on, ten per word. *)
Definition group (k0 t : nat) : Z := Z.land (Z.shiftr (Int63 env (k0 + t / 10)) (6 * Z.of_nat (t mod 10))) 63.

(** Those of the groups [t], [t+1], ... that are letters. *)
Definition letters (k0 t fuel : nat) : list Z := filter (fun idx => idx < 26) (map (group k0) (seq t fuel)).

Definition text (ls : list Z) : list ascii := map letter ls.

Lemma letters_S k0 t fuel :
  letters k0 t (S fuel) = if decide (group k0 t < 26) then group k0 t :: letters k0 (S t) fuel else letters k0 (S t) fuel.
Proof. unfold letters. simpl. by rewrite filter_cons. Qed.

Lemma group_at k0 q r : (r < 10)%nat ->
  group k0 (10 * q + r) = Z.land (Z.shiftr (Int63 env (k0 + q)) (6 * Z.of_nat r)) letterIdxMask.
Proof.
  intros Hr. unfold group.
  assert ((10 * q + r) / 10 = q)%nat as -> by (symmetry; apply (Nat.div_unique _ 10 q r); lia).
  assert ((10 * q + r) mod 10 = r)%nat as -> by (symmetry; apply (Nat.mod_unique _ 10 q r); lia). done.
Qed.

(** The loop with a word in the cache that still holds the group asked for. *)
Lemma randomLoop_fresh fuel m q r k0 b : (r < 10)%nat ->
  randomLoop env (S fuel) (S m) (Z.shiftr (Int63 env (k0 + q)) (6 * Z.of_nat r)) (10 - Z.of_nat r) b (S (k0 + q)) =
  let t := (10 * q + r)%nat in
  let '(b, m) := if decide (group k0 t < 26) then (<[m := letter (group k0 t)]> b, m) else (b, S m) in
  randomLoop env fuel m (Z.shiftr (Int63 env (k0 + q)) (6 * Z.of_nat (S r))) (10 - Z.of_nat (S r)) b (S (k0 + q)).
Proof.
  intros Hr. cbn [randomLoop]. rewrite (proj2 (Z.eqb_neq (10 - Z.of_nat r) 0)) by lia. cbv zeta.
  rewrite (group_at k0 q r Hr). change (Z.of_nat (length letterBytes)) with 26.
  rewrite Z.shiftr_shiftr by done. replace (6 * Z.of_nat r + letterIdxBits) with (6 * Z.of_nat (S r)) by (unfold letterIdxBits; lia).
  replace (10 - Z.of_nat r - 1) with (10 - Z.of_nat (S r)) by lia.
  destruct (Z.ltb_spec (Z.land (Z.shiftr (Int63 env (k0 + q)) (6 * Z.of_nat r)) letterIdxMask) 26).
  - by rewrite decide_True by done.
  - by rewrite decide_False by lia.
Qed.

Lemma randomLoop_refill fuel m q k0 b cache :
  randomLoop env (S fuel) (S m) cache 0 b (S (k0 + q)) =
  randomLoop env (S fuel) (S m) (Z.shiftr (Int63 env (k0 + S q)) (6 * Z.of_nat 0)) (10 - Z.of_nat 0) b (S (k0 + S q)).
Proof. rewrite Z.shiftr_0_r, (Nat.add_succ_r k0 q). reflexivity. Qed.

Lemma randomLoop_spec k0 fuel : forall m q r b, (r <= 10)%nat -> (m <= length b)%nat ->
  let ls := letters k0 (10 * q + r) fuel in
  let o := randomLoop env fuel m (Z.shiftr (Int63 env (k0 + q)) (6 * Z.of_nat r)) (10 - Z.of_nat r) b (S (k0 + q)) in
  if (m <=? length ls)%nat then exists k, o = Done (String.string_of_list_ascii (reverse (text (take m ls)) ++ drop m b), k)
  else o = Diverge.
Proof.
  induction fuel as [|fuel IH]; intros m q r b Hr Hb; cbv zeta.
  { destruct m as [|m]; simpl; [rewrite drop_0; eauto|done]. }
  destruct m as [|m]; [simpl; rewrite drop_0; eauto|].
  assert (exists q' r', (r' < 10)%nat /\ (10 * q' + r' = 10 * q + r)%nat /\
    randomLoop env (S fuel) (S m) (Z.shiftr (Int63 env (k0 + q)) (6 * Z.of_nat r)) (10 - Z.of_nat r) b (S (k0 + q)) =
    randomLoop env (S fuel) (S m) (Z.shiftr (Int63 env (k0 + q')) (6 * Z.of_nat r')) (10 - Z.of_nat r') b (S (k0 + q')))
    as (q' & r' & Hr' & <- & ->).
  { destruct (decide (r = 10%nat)) as [->|]; [|exists q, r; split_and!; auto; lia].
    exists (S q), 0%nat. split_and!; [lia|lia|]. apply randomLoop_refill. }
  rewrite randomLoop_fresh, letters_S by done. cbv zeta.
  replace (S (10 * q' + r')) with (10 * q' + S r')%nat by lia.
  case_decide as Hg.
  - specialize (IH m q' (S r') (<[m:=letter (group k0 (10 * q' + r'))]> b) ltac:(lia) ltac:(rewrite length_insert; lia)).
    cbv zeta in IH. cbn [length Nat.leb]. destruct (m <=? _)%nat; [|done]. destruct IH as [k IH]. exists k. rewrite IH.
    do 3 f_equal. simpl. unfold text. rewrite reverse_cons, <- app_assoc. f_equal.
    rewrite (drop_S _ (letter (group k0 (10 * q' + r'))) m) by (apply list_lookup_insert_eq; lia).
    by rewrite drop_insert_lt by lia.
  - apply (IH (S m) q' (S r') b); lia.
Qed.

Lemma letters_snoc k0 t f : letters k0 t (f + 1) = letters k0 t f ++ (if decide (group k0 (t + f) < 26) then [group k0 (t + f)] else []).
Proof. unfold letters. by rewrite seq_app, map_app, filter_app. Qed.

Lemma letters_app k0 t f g : letters k0 t f `prefix_of` letters k0 t (f + g).
Proof. unfold letters. rewrite seq_app, map_app, filter_app. by eexists. Qed.

(** A source that keeps delivering words with a letter in them. *)
Definition keeps_letters : Prop := forall k, exists k' j, (k <= k')%nat /\ (j < 10)%nat /\
  Z.land (Z.shiftr (Int63 env k') (6 * Z.of_nat j)) 63 < 26.

Lemma letters_unbounded k0 n : keeps_letters -> exists f, (n <= length (letters k0 0 f))%nat.
Proof.
  intros Hk. induction n as [|n [f Hf]]; [exists 0%nat; simpl; lia|].
  destruct (Hk (k0 + S (f / 10))%nat) as (k' & j & Hle & Hj & Hl).
  set (t := (10 * (k' - k0) + j)%nat). exists (t + 1)%nat. rewrite letters_snoc, length_app. simpl.
  unfold t. rewrite (group_at k0 (k' - k0) j Hj), <- Nat.le_add_sub by lia.
  change letterIdxMask with 63. rewrite decide_True by done. fold t.
  assert (f <= t)%nat as Hft by (unfold t; pose proof (Nat.div_mod_eq f 10); pose proof (Nat.mod_upper_bound f 10); lia).
  replace t with (f + (t - f))%nat by lia. pose proof (prefix_length _ _ (letters_app k0 0 f (t - f))). simpl. lia.
Qed.

(** [n] letters that the source delivers, last one first. *)
Definition drawn (k0 f n : nat) : string := String.string_of_list_ascii (reverse (text (take n (letters k0 0 f)))).

Lemma drawn_mono k0 f f' n : (f <= f')%nat -> (n <= length (letters k0 0 f))%nat -> drawn k0 f' n = drawn k0 f n.
Proof.
  intros Hle Hn. replace f' with (f + (f' - f))%nat by lia. destruct (letters_app k0 0 f (f' - f)) as [l Hl].
  unfold drawn. rewrite Hl, take_app_le by done. done.
Qed.

Lemma RandomString_drawn k0 f n :
  if (n <=? length (letters k0 0 f))%nat then exists k, RandomString env f n k0 = Done (drawn k0 f n, k)
  else RandomString env f n k0 = Diverge.
Proof.
  pose proof (randomLoop_spec k0 f n 0 0 (replicate n zero) ltac:(lia) ltac:(rewrite length_replicate; lia)) as H.
  cbv zeta in H. rewrite Z.shiftr_0_r, !Nat.add_0_r, Nat.mul_0_r in H. unfold RandomString, drawn.
  change (10 - Z.of_nat 0) with letterIdxMax in H.
  destruct (n <=? _)%nat; [|done]. destruct H as [k H]. exists k. rewrite H.
  rewrite drop_ge, app_nil_r by (rewrite length_replicate; lia). done.
Qed.

Lemma randomLoop_mono fuel : forall fuel' m cache remain b k r, (fuel <= fuel')%nat ->
  randomLoop env fuel m cache remain b k = Done r -> randomLoop env fuel' m cache remain b k = Done r.
Proof.
  induction fuel as [|fuel IH]; intros [|fuel'] [|m] cache remain b k r Hle; try done; try lia.
  cbn [randomLoop]. destruct (if remain =? 0 then _ else _) as [[c r'] k'].
  destruct (if Z.land c letterIdxMask <? _ then _ else _) as [b' m']. apply IH. lia.
Qed.

Lemma letter_az idx : idx < 26 -> 0 <= idx -> exists c, letter idx = c /\ 97 <= Z.of_N (N_of_ascii c) <= 122.
Proof.
  intros H1 H2. exists (letter idx). split; [done|].
  assert (Forall (fun i => 97 <= Z.of_N (N_of_ascii (letter i)) <= 122) (seqZ 0 26)) as Hall
    by (repeat constructor; vm_compute; done).
  rewrite Forall_forall in Hall. apply Hall, elem_of_seqZ. lia.
Qed.

Lemma bytes_of_list l : bytes_of (String.string_of_list_ascii l) = map (fun c => Z.of_N (N_of_ascii c)) l.
Proof. induction l as [|c l IH]; simpl; [done|]. by rewrite IH. Qed.

(** Lower-case letters. *)
Definition lowercase (s : string) : Prop := Forall (fun b => 97 <= b <= 122) (bytes_of s).

Lemma drawn_ok k0 f n : (n <= length (letters k0 0 f))%nat -> slen (drawn k0 f n) = n /\ lowercase (drawn k0 f n).
Proof.
  intros Hn. unfold lowercase. rewrite <- length_bytes_of. unfold drawn. rewrite bytes_of_list, length_map, length_reverse.
  unfold text. rewrite length_map, length_take. split; [lia|]. apply Forall_map, Forall_reverse, Forall_map, Forall_take.
  unfold letters. apply Forall_forall. intros idx [Hlt Hin]%list_elem_of_filter.
  apply list_elem_of_fmap in Hin as (t & -> & _).
  destruct (letter_az (group k0 t)) as (c & -> & Hc); [done| |done]. apply Z.land_nonneg. right. done.
Qed.

(** [RandomString] on a source that keeps delivering words with a letter among
    their ten groups of six bits: with enough steps it returns [n] lower-case
    letters, which are the first [n] groups of the source below 26, last one
    first; the result and the number of words it used do not depend on the
    number of steps allowed. *)
Theorem RandomString_spec n k0 : keeps_letters -> exists f k, forall f', (f <= f')%nat ->
  RandomString env f' n k0 = Done (drawn k0 f' n, k) /\ drawn k0 f' n = drawn k0 f n /\
  slen (drawn k0 f' n) = n /\ lowercase (drawn k0 f' n).
Proof.
  intros Hk. destruct (letters_unbounded k0 n Hk) as [f Hf]. pose proof (RandomString_drawn k0 f n) as Hd.
  rewrite (proj2 (Nat.leb_le _ _) Hf) in Hd. destruct Hd as [k Hd]. exists f, k. intros f' Hle.
  rewrite (drawn_mono k0 f f' n Hle Hf). destruct (drawn_ok k0 f n Hf). split_and!; try done.
  by eapply randomLoop_mono.
Qed.
End RandomString.

(** ** The lines of query.txt *)

Lemma word_app s t : word s -> Forall (fun b => word_byte b = true) (bytes_of t) -> word (s +:+ t).
Proof.
  intros [Hne Hs] Ht. split; [by destruct s|]. rewrite bytes_of_app. by apply Forall_app.
Qed.

Lemma lowercase_word s : lowercase s -> Forall (fun b => word_byte b = true) (bytes_of s).
Proof. intros H. eapply Forall_impl; [exact H|]. intros b Hb. unfold word_byte. apply andb_true_iff. split; bool_to_prop; simpl in Hb; lia. Qed.

Lemma word_ascii s : Forall (fun b => word_byte b = true) (bytes_of s) -> ascii_bytes (bytes_of s).
Proof. intros H. eapply Forall_impl; [exact H|]. unfold word_byte. intros b Hb. bool_to_prop. lia. Qed.

Lemma word_one_line s : Forall (fun b => word_byte b = true) (bytes_of s) -> count_byte NL s = 0%nat.
Proof.
  induction s as [|c s IH]; simpl; intros H; [done|]. inversion H as [|? ? Hc Hs]; subst.
  destruct (Ascii.eqb_spec c NL) as [->|]; [done|]. by rewrite IH.
Qed.

Definition octet_word (n : Z) : bool := negb (String.eqb (Itoa n) "") && forallb word_byte (bytes_of (Itoa n)).
Lemma octet_words n : 0 <= n < 256 -> word (Itoa n).
Proof.
  intros Hn. assert (forallb octet_word (seqZ 0 256) = true) as Hall by (vm_compute; reflexivity).
  rewrite forallb_forall in Hall. specialize (Hall n ltac:(apply list_elem_of_In, elem_of_seqZ; lia)).
  unfold octet_word in Hall. apply andb_true_iff in Hall as [H1 H2]. split.
  - intros E. by rewrite E in H1.
  - by apply Forall_forall; intros b Hb; rewrite forallb_forall in H2; apply H2, list_elem_of_In.
Qed.

(** A name the program makes up: letters, a dot, letters and [.tst.]. *)
Lemma name_word location r : lowercase location -> location <> "" -> lowercase r -> word (location +:+ "." +:+ (r +:+ suffix)).
Proof.
  intros Hl Hne Hr. apply word_app; [split; [done|by apply lowercase_word]|].
  rewrite bytes_of_app, bytes_of_app. repeat (apply Forall_app; split); [by repeat constructor|by apply lowercase_word|by repeat constructor].
Qed.

Lemma quad_word a b c d : 0 <= a < 256 -> 0 <= b < 256 -> 0 <= c < 256 -> 0 <= d < 256 ->
  word (Itoa a +:+ "." +:+ Itoa b +:+ "." +:+ Itoa c +:+ "." +:+ Itoa d).
Proof.
  intros Ha Hb Hc Hd. apply word_app; [by apply octet_words|]. rewrite !bytes_of_app.
  repeat (apply Forall_app; split); try (by repeat constructor); by apply octet_words.
Qed.

(** A dotted quad, as it goes into a line and into a JSON string. *)
Definition good_ip (ip : string) : Prop := word ip /\ plain ip /\ ParseIP ip <> None.

Lemma quad_good a b c d : 0 <= a < 256 -> 0 <= b < 256 -> 0 <= c < 256 -> 0 <= d < 256 ->
  good_ip (Itoa a +:+ "." +:+ Itoa b +:+ "." +:+ Itoa c +:+ "." +:+ Itoa d).
Proof.
  intros Ha Hb Hc Hd. split; [by apply quad_word|]. split.
  - assert (forall n, 0 <= n < 256 -> plain (Itoa n)) as Hp.
    { intros n Hn. assert (forallb (fun n => forallb (fun b => (48 <=? b) && (b <=? 57)) (bytes_of (Itoa n))) (seqZ 0 256) = true) as Hall
        by (vm_compute; reflexivity).
      rewrite forallb_forall in Hall. specialize (Hall n ltac:(apply list_elem_of_In, elem_of_seqZ; lia)). rewrite forallb_forall in Hall.
      apply Forall_forall. intros x Hx. specialize (Hall x ltac:(by apply list_elem_of_In)). bool_to_prop. lia. }
    unfold plain in *. rewrite !bytes_of_app. repeat (apply Forall_app; split); try (by apply Hp); by repeat constructor.
  - pose proof (ParseIP_String_v4 a b c d Ha Hb Hc Hd) as H. unfold IP_String in H. rewrite To4_quad in H. by rewrite H.
Qed.

(** The types and codes that occur, before a space or a newline. *)
Definition scannable (t : Z) : Prop :=
  Forall (fun b => word_byte b = true) (bytes_of (Itoa t)) /\
  forall c rest, c ∈ [32; 10] -> scanInt (32 :: bytes_of (Itoa t) ++ c :: rest) = Some (t, c :: rest).
Lemma scannable_codes : Forall scannable [RcodeSuccess; TypeA; RcodeNameError; TypeTXT].
Proof.
  repeat constructor; intros c rest; rewrite !elem_of_cons, elem_of_nil; intros [->|[->|[]]]; reflexivity.
Qed.

Lemma scanQuery_line location zone t rc result :
  word (location +:+ "." +:+ zone) -> scannable t -> scannable rc -> word result ->
  scanQuery (queryLine location zone t rc result) = mkQuery (location +:+ "." +:+ zone) t rc result /\
  one_line (queryLine location zone t rc result).
Proof.
  intros Ha [Ht Hts] [Hc Hcs] Hr. set (addr := location +:+ "." +:+ zone) in *.
  assert (queryLine location zone t rc result =
    (addr +:+ " " +:+ Itoa t +:+ " " +:+ Itoa rc +:+ " " +:+ result) +:+ nl) as ->
    by (unfold queryLine, addr; by rewrite !sapp_assoc).
  split.
  - unfold scanQuery, Sscan, runes. rewrite runes_of_ascii.
    2: { rewrite !bytes_of_app. repeat (apply Forall_app; split); try (by repeat constructor);
         apply word_ascii; try done; [apply Ha|apply Hr]. }
    rewrite !sapp_assoc, !bytes_of_app. change (bytes_of " ") with [32]. change (bytes_of nl) with [10]. cbn [app].
    cbn [SscanRunes]. rewrite scanString_word by done. rewrite Hts by set_solver. rewrite Hcs by set_solver.
    rewrite scanString_space, scanString_word by done. done.
  - eexists. split; [done|]. rewrite !count_byte_app. simpl.
    rewrite !word_one_line; [done|apply Hr|done|done|apply Ha].
Qed.

Lemma scanQuery_line0 location zone t rc :
  word (location +:+ "." +:+ zone) -> scannable t -> scannable rc ->
  scanQuery (queryLine0 location zone t rc) = mkQuery (location +:+ "." +:+ zone) t rc "" /\
  one_line (queryLine0 location zone t rc).
Proof.
  intros Ha [Ht Hts] [Hc Hcs]. set (addr := location +:+ "." +:+ zone) in *.
  assert (queryLine0 location zone t rc = (addr +:+ " " +:+ Itoa t +:+ " " +:+ Itoa rc) +:+ nl) as ->
    by (unfold queryLine0, addr; by rewrite !sapp_assoc).
  split.
  - unfold scanQuery, Sscan, runes. rewrite runes_of_ascii.
    2: { rewrite !bytes_of_app. repeat (apply Forall_app; split); try (by repeat constructor); apply word_ascii; try done; apply Ha. }
    rewrite !sapp_assoc, !bytes_of_app. change (bytes_of " ") with [32]. change (bytes_of nl) with [10]. cbn [app].
    cbn [SscanRunes]. rewrite scanString_word by done. rewrite Hts by set_solver. rewrite Hcs by set_solver. done.
  - eexists. split; [done|]. rewrite !count_byte_app. simpl. rewrite !word_one_line; [done|done|done|apply Ha].
Qed.

(** ** The whole program *)

(** [c] returns, with the same result for all large enough numbers of steps. *)
Definition eventually {A} (c : nat -> ST noFlights GenState A) (Q : A -> GenState -> Prop) (s : GenState) : Prop :=
  exists F a s', (forall f, (F <= f)%nat -> c f s = Done (a, s')) /\ Q a s'.

Lemma ev_det {A} (m : ST noFlights GenState A) a s' Q s : m s = Done (a, s') -> Q a s' -> eventually (fun _ => m) Q s.
Proof. intros Hm HQ. by exists 0%nat, a, s'. Qed.

Lemma ev_mono {A} (c : nat -> ST noFlights GenState A) (Q Q' : A -> GenState -> Prop) s :
  (forall a s', Q a s' -> Q' a s') -> eventually c Q s -> eventually c Q' s.
Proof. intros H (F & a & s' & Hc & HQ). exists F, a, s'. auto. Qed.

Lemma ev_bind {A B} (c : nat -> ST noFlights GenState A) (k : nat -> A -> ST noFlights GenState B) Q s :
  eventually c (fun a s' => eventually (fun f => k f a) Q s') s -> eventually (fun f => c f ≫= k f) Q s.
Proof.
  intros (F & a & s' & Hc & F' & b & s'' & Hk & HQ). exists (F `max` F')%nat, b, s''. split; [|done].
  intros f Hf. rewrite run_bind, Hc by lia. apply Hk. lia.
Qed.

Lemma ev_mapM {A B} (c : nat -> A -> ST noFlights GenState B) (I : nat -> GenState -> Prop) l n s :
  I n s -> (forall m a s', I m s' -> eventually (fun f => c f a) (fun _ => I (S m)) s') ->
  eventually (fun f => mapM (c f) l) (fun _ => I (length l + n)%nat) s.
Proof.
  intros Hn Hc. revert n s Hn. induction l as [|a l IH]; intros n s Hn; simpl; [by eapply ev_det|].
  apply ev_bind. eapply ev_mono; [|apply (Hc n a s Hn)]. intros b s' Hs'. apply ev_bind.
  eapply ev_mono; [|apply (IH (S n) s' Hs')]. intros bs s'' Hs''. simpl in Hs''. eapply ev_det; [done|]. by rewrite <- Nat.add_succ_r.
Qed.

(** ** What Redis holds afterwards *)

Record RedisDB := mkRedisDB { db_sets : gmap string (gset string); db_hashes : gmap string (gmap string string) }.
Definition emptyDB : RedisDB := mkRedisDB ∅ ∅.

(** The three commands the program sends, as Redis documents them; the script deletes
    all keys. *)
Definition redis_exec (db : RedisDB) (cmd : list string) : RedisDB :=
  match cmd with
  | [c; k; m] =>
      if String.eqb c "SADD" then mkRedisDB (<[k := {[m]} ∪ default ∅ (db_sets db !! k)]> (db_sets db)) (db_hashes db) else db
  | [c; k; f; v] =>
      if String.eqb c "HSET" then mkRedisDB (db_sets db) (<[k := <[f := v]> (default ∅ (db_hashes db !! k))]> (db_hashes db))
      else if String.eqb c "EVAL" then emptyDB else db
  | _ => db
  end.
Definition replay (db : RedisDB) (cmds : list (list string)) : RedisDB := foldl redis_exec db cmds.

Definition hget (db : RedisDB) (k f : string) : option string := db_hashes db !! k ≫= fun h => h !! f.
Definition in_set (db : RedisDB) (k m : string) : Prop := m ∈ default ∅ (db_sets db !! k).

(** What a query asks is what the database answers: its name is that of a location in
    a zone that is listed; with the result code of success the location has an A
    record, stored as a JSON text with one address, and the query expects that address;
    with NXDOMAIN nothing is stored there. *)
Definition backed (db : RedisDB) (q : query) : Prop := exists location zone,
  queryAddr q = location +:+ "." +:+ zone /\ queryType q = TypeA /\ in_set db "redins:zones" zone /\
  ((resultCode q = RcodeSuccess /\ ParseIP (queryResult q) <> None /\
    hget db ("redins:zones:" +:+ zone) location ≫= parse =
      Some (JsObj [("a", JsObj [("ttl", JsInt 300); ("records", JsArr [JsObj [("ip", JsStr (queryResult q))]])])])) \/
   (resultCode q = RcodeNameError /\ queryResult q = "" /\ hget db ("redins:zones:" +:+ zone) location = None)).

(** A zone that was listed stays listed. *)
Lemma replay_sets cmds db z : Forall (fun c => hd "" c <> "EVAL") cmds ->
  in_set db "redins:zones" z \/ ["SADD"; "redins:zones"; z] ∈ cmds -> in_set (replay db cmds) "redins:zones" z.
Proof.
  revert db. induction cmds as [|c cmds IH]; intros db Hne Hz; [by destruct Hz as [?|?%elem_of_nil]|].
  apply Forall_cons in Hne as [Hc Hne]. apply IH; [done|]. destruct Hz as [Hz|[<-|Hz]%elem_of_cons]; [|left|by right].
  - left. unfold in_set, redis_exec in *. destruct c as [|c1 [|c2 [|c3 [|c4 [|]]]]]; try done; simpl in Hc.
    + case_match; [|done]. simpl. destruct (decide (c2 = "redins:zones")) as [->|]; [rewrite lookup_insert_eq; simpl; set_solver|].
      by rewrite lookup_insert_ne.
    + destruct (String.eqb c1 "HSET"); [done|]. destruct (String.eqb_spec c1 "EVAL"); done.
  - unfold in_set. simpl. rewrite lookup_insert_eq. simpl. set_solver.
Qed.

Lemma hget_hset db c k f v : redis_exec db ["HSET"; k; f; v] = c -> hget c k f = Some v.
Proof. intros <-. unfold hget. simpl. rewrite lookup_insert_eq. simpl. by rewrite lookup_insert_eq. Qed.

(** A value stays until another is stored under the same key and field. *)
Lemma hget_exec db c k f : hd "" c <> "EVAL" -> (forall v, c <> ["HSET"; k; f; v]) -> hget (redis_exec db c) k f = hget db k f.
Proof.
  intros Hne Hc. unfold hget, redis_exec. destruct c as [|c1 [|c2 [|c3 [|c4 [|]]]]]; try done; simpl in Hne; [by case_match|].
  destruct (String.eqb_spec c1 "HSET") as [->|]; [|destruct (String.eqb_spec c1 "EVAL"); done]. simpl.
  destruct (decide (c2 = k)) as [->|]; [|by rewrite lookup_insert_ne]. rewrite lookup_insert_eq. simpl.
  rewrite lookup_insert_ne by (intros ->; by apply (Hc c4)). by destruct (db_hashes db !! k).
Qed.

Lemma replay_hget cmds db k f v : Forall (fun c => hd "" c <> "EVAL") cmds ->
  (forall v', ["HSET"; k; f; v'] ∈ cmds -> v' = v) -> hget db k f = Some v \/ ["HSET"; k; f; v] ∈ cmds ->
  hget (replay db cmds) k f = Some v.
Proof.
  revert db. induction cmds as [|c cmds IH]; intros db Hne Hu Hv; [by destruct Hv as [?|?%elem_of_nil]|].
  apply Forall_cons in Hne as [Hc Hne]. apply IH; [done|set_solver|].
  destruct Hv as [Hv|[<-|Hv]%elem_of_cons]; [|left; by eapply hget_hset|by right]. left.
  destruct (decide (c = ["HSET"; k; f; v])) as [->|Hd]; [by eapply hget_hset|]. rewrite hget_exec; [done|done|].
  intros v' ->. apply Hd. by rewrite (Hu v') by set_solver.
Qed.

Lemma replay_hget_none cmds db k f : Forall (fun c => hd "" c <> "EVAL") cmds ->
  (forall v, ["HSET"; k; f; v] ∉ cmds) -> hget db k f = None -> hget (replay db cmds) k f = None.
Proof.
  revert db. induction cmds as [|c cmds IH]; intros db Hne Hu Hv; [done|]. apply Forall_cons in Hne as [Hc Hne].
  apply IH; [done|set_solver|]. rewrite hget_exec; [done|done|]. intros v ->. apply (Hu v). set_solver.
Qed.

Lemma parse_a_json ip : plain ip ->
  parse (a_json ip) = Some (JsObj [("a", JsObj [("ttl", JsInt 300); ("records", JsArr [JsObj [("ip", JsStr ip)]])])]).
Proof.
  intros Hp. assert (exists m, S (slen (a_json ip)) = (12 + m)%nat) as [m Em] by (eexists; reflexivity).
  unfold parse. rewrite Em. clear Em. change (skip_ws (a_json ip)) with (a_json ip).
  assert (value (12 + m) (a_json ip)
    = Some (JsObj [("a", JsObj [("ttl", JsInt 300); ("records", JsArr [JsObj [("ip", JsStr ip)]])])], "")) as ->; [|done].
  apply value_object; [reflexivity|]. eapply members_last; [reflexivity|reflexivity|idtac..].
  1: apply value_object; [reflexivity|]. 1: eapply members_more; [reflexivity|reflexivity|reflexivity|reflexivity|].
  1: eapply members_last; [reflexivity|reflexivity|idtac..]. 1: eapply value_array1; [reflexivity|idtac..].
  1: apply value_object; [reflexivity|]. 1: eapply members_last; [reflexivity|reflexivity|idtac..].
  1: apply value_string; by apply str_body_plain. all: reflexivity.
Qed.

Section Main.
Context (env : GenEnv) (typ : string).
Context (Hletters : keeps_letters env) (Hoctets : forall k, 0 <= Intn256 env k < 256).
(** The record types for which the program stores what it means to. *)
Context (Hcname : typ <> "cname") (Htxt : typ <> "txt").

Definition nx : bool := String.eqb typ "nxdomain".

(** An entry, its line, what is read back from it and the command that stores it. *)
Record entry := mkEntry { e_zone : string; e_location : string; e_ip : string }.
Definition entry_line (e : entry) : string :=
  if nx then queryLine0 (e_location e) (e_zone e) TypeA RcodeNameError
  else queryLine (e_location e) (e_zone e) TypeA RcodeSuccess (e_ip e).
Definition entry_query (e : entry) : query :=
  if nx then mkQuery (e_location e +:+ "." +:+ e_zone e) TypeA RcodeNameError ""
  else mkQuery (e_location e +:+ "." +:+ e_zone e) TypeA RcodeSuccess (e_ip e).
Definition sadd (zone : string) : list string := ["SADD"; "redins:zones"; zone].
Definition entry_cmd (e : entry) : list string := hset (e_zone e) (e_location e) (a_json (e_ip e)).

(** After the deletion, only zones and the entries have been stored, and all of them. *)
Definition sent (cmds : list (list string)) (es : list entry) : Prop :=
  (forall c, c ∈ cmds -> (exists z, c = sadd z) \/ (nx = false /\ exists e, e ∈ es /\ c = entry_cmd e)) /\
  (forall e, e ∈ es -> sadd (e_zone e) ∈ cmds /\ (nx = false -> entry_cmd e ∈ cmds)).

Definition readable (e : entry) : Prop :=
  scanQuery (entry_line e) = entry_query e /\ one_line (entry_line e) /\ (nx = false -> good_ip (e_ip e)).

(** [n] entries have been written and stored. *)
Definition written (n : nat) (s : GenState) : Prop := exists es cmds,
  length es = n /\ g_redis s = flush_cmd :: cmds /\ g_wq s = unlines (map entry_line es) "" /\ Forall readable es /\ sent cmds es.

Lemma unique_names es e e' : NoDup (map (fun e => queryAddr (entry_query e)) es) -> e ∈ es -> e' ∈ es ->
  e_zone e = e_zone e' -> e_location e = e_location e' -> e = e'.
Proof.
  intros Hn [i Hi]%list_elem_of_lookup [j Hj]%list_elem_of_lookup Hz Hl.
  assert (i = j) as ->; [|congruence]. eapply (NoDup_lookup _ i j (queryAddr (entry_query e)) Hn); rewrite list_lookup_fmap;
    [by rewrite Hi|rewrite Hj; simpl; f_equal]. unfold entry_query. rewrite Hz, Hl. by destruct nx.
Qed.

(** With distinct names, the database backs every entry. *)
Lemma sent_backed cmds es : sent cmds es -> Forall readable es -> NoDup (map (fun e => queryAddr (entry_query e)) es) ->
  Forall (fun e => backed (replay emptyDB (flush_cmd :: cmds)) (entry_query e)) es.
Proof.
  intros [Hc He] Hr Hn. change (replay emptyDB (flush_cmd :: cmds)) with (replay emptyDB cmds).
  assert (Forall (fun c => hd "" c <> "EVAL") cmds) as Hev.
  { apply Forall_forall. intros c Hin. by destruct (Hc c Hin) as [(z & ->)|(_ & e & _ & ->)]. }
  apply Forall_forall. intros e Hin. destruct (He e Hin) as [Hz Hs]. rewrite Forall_forall in Hr. destruct (Hr e Hin) as (_ & _ & Hip).
  exists (e_location e), (e_zone e). unfold entry_query in *. destruct nx eqn:Enx; simpl; (split; [done|]); (split; [done|]);
    (split; [apply replay_sets; [done|by right]|]).
  - right. split; [done|]. split; [done|]. apply replay_hget_none; [done| |done].
    intros v Hv. destruct (Hc _ Hv) as [(z & Hd)|[? _]]; [discriminate Hd|congruence].
  - left. destruct (Hip eq_refl) as (_ & Hp & Hparse). split; [done|]. split; [done|].
    rewrite (replay_hget _ _ _ _ (a_json (e_ip e))); [simpl; by apply parse_a_json|done| |right; by apply Hs].
    intros v' Hv. destruct (Hc _ Hv) as [(z & Hd)|(_ & e' & Hin' & Heq)]; [discriminate Hd|]. unfold entry_cmd, hset in Heq. simplify_eq/=.
    rewrite (unique_names es e e'); unfold entry_query; rewrite ?Enx; done.
Qed.

Lemma written_zone n s s' z : written n s -> g_redis s' = g_redis s ++ [sadd z] -> g_wq s' = g_wq s -> written n s'.
Proof.
  intros (es & cmds & Hn & Hr & Hw & Hre & Hc & He) Hr' Hw'. exists es, (cmds ++ [sadd z]). rewrite Hr', Hw', Hr, Hw.
  split_and!; try done. split.
  - intros c [Hin| ->%list_elem_of_singleton]%elem_of_app; [auto|left; eauto].
  - intros e Hin. destruct (He e Hin). split; [|intros Enx]; apply elem_of_app; left; auto.
Qed.

Definition listed (s : GenState) (zone : string) : Prop := sadd zone ∈ g_redis s.

Lemma written_entry n s s' e : written n s -> listed s (e_zone e) -> readable e ->
  g_redis s' = g_redis s ++ (if nx then [] else [entry_cmd e]) -> g_wq s' = g_wq s +:+ entry_line e -> written (S n) s'.
Proof.
  intros (es & cmds & <- & Hr & Hw & Hre & Hc & He) Hz Hread Hr' Hw'.
  exists (es ++ [e]), (cmds ++ (if nx then [] else [entry_cmd e])). rewrite Hr', Hw', Hr, Hw, length_app, map_app, Nat.add_1_r.
  split_and!; [done|done| | |split].
  - change (map entry_line [e]) with [entry_line e]. rewrite unlines_app, sapp_nil_r. by rewrite <- unlines_end.
  - apply Forall_app. split; [done|by constructor].
  - intros c [Hin|Hin]%elem_of_app; [destruct (Hc c Hin) as [?|(? & e' & ? & ?)]; [by left|right; set_solver]|].
    right. destruct nx; [by apply elem_of_nil in Hin|]. apply list_elem_of_singleton in Hin as ->. set_solver.
  - intros e' [Hin| ->%list_elem_of_singleton]%elem_of_app; [destruct (He e' Hin); split; [|intros Enx]; apply elem_of_app; left; auto|].
    split.
    + unfold listed in Hz. rewrite Hr in Hz. apply elem_of_cons in Hz as [[=]|Hz]. apply elem_of_app. by left.
    + intros ->. set_solver.
Qed.

Lemma ev_draw n Q s :
  (forall str k, slen str = n -> lowercase str -> Q str (mkGenState k (g_rand s) (g_redis s) (g_wq s) (g_zones s))) ->
  eventually (fun f => draw env f n) Q s.
Proof.
  intros HQ. destruct (letters_unbounded env (g_src s) n Hletters) as [F HF].
  pose proof (RandomString_drawn env (g_src s) F n) as Hd. rewrite (proj2 (Nat.leb_le _ _) HF) in Hd. destruct Hd as [k Hd].
  destruct (drawn_ok env (g_src s) F n HF) as [Hlen Hlow]. eexists F, _, _. split; [|apply (HQ _ k Hlen Hlow)].
  intros f Hf. unfold draw, RandomString. rewrite run_atom. by erewrite randomLoop_mono by done.
Qed.

Lemma ev_randomIp Q s :
  (forall ip k, good_ip ip -> Q ip (mkGenState (g_src s) k (g_redis s) (g_wq s) (g_zones s))) ->
  eventually (fun _ => randomIp env) Q s.
Proof. intros HQ. eapply ev_det; [reflexivity|]. apply HQ, quad_good; apply Hoctets. Qed.

(** Take the next random string or address; run an effect. *)
Ltac ev_string str Hlen Hlow := apply ev_bind, ev_draw; intros str ? Hlen Hlow.
Ltac ev_effect := apply (ev_bind (fun _ => _)); eapply ev_det; [reflexivity|].

Lemma nonempty_15 s : slen s = 15%nat -> s <> "".
Proof. intros H ->. done. Qed.

Lemma readable_entry r l ip : lowercase r -> lowercase l -> slen l = 15%nat -> (nx = false -> good_ip ip) -> readable (mkEntry (r +:+ suffix) l ip).
Proof.
  intros Hr Hl Hlen Hip. pose proof scannable_codes as Hsc. rewrite !Forall_cons in Hsc. destruct Hsc as (H0 & HA & H3 & _).
  unfold readable, entry_line, entry_query. simpl. destruct nx.
  - destruct (scanQuery_line0 l (r +:+ suffix) TypeA RcodeNameError); auto using name_word, nonempty_15.
  - destruct (scanQuery_line l (r +:+ suffix) TypeA RcodeSuccess ip); auto using name_word, nonempty_15. by apply Hip.
Qed.

Lemma genEntry_ok r n s : lowercase r -> written n s -> listed s (r +:+ suffix) ->
  eventually (fun f => genEntry env f typ (r +:+ suffix)) (fun _ s' => written (S n) s' /\ listed s' (r +:+ suffix)) s.
Proof.
  intros Hr Hw Hz. unfold genEntry. destruct (String.eqb_spec typ "cname") as [|_]; [done|]. destruct (String.eqb_spec typ "txt") as [|_]; [done|].
  fold nx. destruct nx eqn:Enx.
  - ev_string l Hl Hlw. ev_effect. eapply ev_det; [reflexivity|]. split; [|done].
    eapply (written_entry n s _ (mkEntry (r +:+ suffix) l "")); [done|done|apply readable_entry; [done..|intros ?; congruence]| |].
    + rewrite Enx. symmetry. apply app_nil_r.
    + unfold entry_line. by rewrite Enx.
  - ev_string l Hl Hlw. apply (ev_bind (fun _ => _)), ev_randomIp. intros ip ? Hip.
    do 2 ev_effect. eapply ev_det; [reflexivity|]. split; [|unfold listed in *; cbn -[hset sadd]; set_solver].
    eapply (written_entry n s _ (mkEntry (r +:+ suffix) l ip)); [done|done|by apply readable_entry| |].
    + by rewrite Enx.
    + unfold entry_line. by rewrite Enx.
Qed.

Lemma genZone_ok fl n s : fl_type fl = typ -> written n s ->
  eventually (fun f => genZone env f fl)
    (fun ok s' => written (if ok : bool then Z.to_nat (fl_entries fl) + n else n)%nat s' /\
                  ((forall z, create_zone env z = true) -> ok = true)) s.
Proof.
  intros Ht Hw. unfold genZone. ev_string r Hlen Hr. cbv zeta. destruct (create_zone env (r +:+ suffix)) eqn:Ez; cbn [negb].
  - ev_effect. apply ev_bind. rewrite Ht.
    eapply ev_mono; [|apply (ev_mapM (fun f _ => genEntry env f typ (r +:+ suffix))
      (fun n s => written n s /\ listed s (r +:+ suffix)) _ n)].
    + intros es s' [Hs' _]. rewrite length_seq in Hs'. ev_effect. by eapply ev_det; [reflexivity|].
    + split; [by eapply (written_zone n s)|]. unfold listed. cbn -[sadd]. set_solver.
    + intros m a s' [Hm Hz]. by apply genEntry_ok.
  - eapply ev_det; [reflexivity|]. split; [done|]. intros H. by rewrite H in Ez.
Qed.

Lemma genZones_ok fl zones n s : fl_type fl = typ -> written n s ->
  eventually (fun f => genZones env f fl zones)
    (fun ok s' => exists m, written m s' /\ ((forall z, create_zone env z = true) ->
       ok = true /\ m = (zones * Z.to_nat (fl_entries fl) + n)%nat)) s.
Proof.
  intros Ht. revert n s. induction zones as [|zones IH]; intros n s Hw; cbn [genZones].
  { eapply ev_det; [reflexivity|]. by exists n. }
  apply ev_bind. eapply ev_mono; [|by apply genZone_ok]. intros ok s' [Hs' Hok]. destruct ok.
  - eapply ev_mono; [|by apply IH]. intros ok s'' (m & Hm & Hall). exists m. split; [done|]. intros Hz.
    destruct (Hall Hz). split; [done|]. simpl. lia.
  - eapply ev_det; [reflexivity|]. exists n. split; [done|]. intros Hz. by specialize (Hok Hz).
Qed.

(** What is read back from the whole file, and from any beginning of it. *)
Lemma written_read n s k : written n s -> exists es cmds m, length es = n /\ g_redis s = flush_cmd :: cmds /\ sent cmds es /\ Forall readable es /\
  readQueries (g_wq s) = map entry_query es /\ readQueries (stake k (g_wq s)) = map entry_query (take m es).
Proof.
  intros (es & cmds & Hn & Hr & -> & Hre & Hs). assert (Forall one_line (map entry_line es)) as Ho.
  { apply Forall_map. eapply Forall_impl; [exact Hre|]. by intros e (_ & ? & _). }
  destruct (stake_unlines k _ Ho) as (j & p & Ep & Hp). exists es, cmds, j. split_and!; try done.
  - unfold readQueries. rewrite ReadStrings_unlines by done. rewrite map_map. apply map_ext_in. intros e Hin.
    rewrite Forall_forall in Hre. apply (Hre e). by apply list_elem_of_In.
  - rewrite Ep. unfold readQueries. rewrite ReadStrings_unlines by (try done; by apply Forall_take). rewrite <- fmap_take, map_map.
    apply map_ext_in. intros e Hin. rewrite Forall_forall in Hre. apply (Hre e). apply list_elem_of_In in Hin.
    by eapply subseteq_take.
Qed.
End Main.

(** C38: the queries [bulk] reads back are backed by what [gen] left in Redis, for the
    type "nxdomain" and for A records (the default).  Whatever the random numbers, [gen]
    comes to its end; there is one query per entry if all files could be created; and if no
    two entries drew the same name, every query that is read from query.txt, also from one
    that was cut off, has its zone listed and finds, under its location, a JSON text that is an
    A record with the very address the query expects, or nothing if it expects NXDOMAIN, when
    all the commands sent have been executed in order. *)
Theorem gen_queries_backed env fl :
  keeps_letters env -> (forall k, 0 <= Intn256 env k < 256) -> fl_type fl <> "cname" -> fl_type fl <> "txt" ->
  exists F s file, (forall f, (F <= f)%nat -> gen_main env f fl = Done (s, file)) /\
    forall t, file = Some t ->
      ((forall z, create_zone env z = true) ->
        length (readQueries t) = (Z.to_nat (fl_zones fl) * Z.to_nat (fl_entries fl))%nat) /\
      (NoDup (map queryAddr (readQueries (g_wq s))) -> Forall (backed (replay emptyDB (g_redis s))) (readQueries t)).
Proof.
  intros Hk Ho Hc Ht. unfold gen_main. destruct (redis_Dial env); cbn [negb]; [|by eexists 0%nat, _, None].
  destruct (create_query env); cbn [negb]; [|by eexists 0%nat, _, None].
  assert (written (fl_type fl) 0 (mkGenState 0 0 [flush_cmd] "" [])) as Hw.
  { exists [], []. split_and!; try done. split; intros c Hin; by apply elem_of_nil in Hin. }
  destruct (genZones_ok env (fl_type fl) Hk Ho Hc Ht fl (Z.to_nat (fl_zones fl)) 0 _ eq_refl Hw)
    as (F & ok & s & Hrun & m & Hm & Hall).
  eexists F, s, _. split; [intros f Hf; by rewrite Hrun|]. intros t [= <-].
  destruct (written_read _ _ _ (4096 * ((slen (g_wq s) - 1) / 4096)) Hm) as (es & cmds & j & Hl & Hr & Hs & Hre & Eall & Epart). split.
  - intros Hz. destruct (Hall Hz) as [-> Em]. rewrite Eall, length_map. lia.
  - rewrite Eall, map_map. intros Hn. pose proof (sent_backed _ _ _ Hs Hre Hn) as Hb. rewrite Hr.
    destruct ok; [rewrite Eall; by apply Forall_map|]. unfold spilled. rewrite Epart. apply Forall_map. by apply Forall_take.
Qed.

(** ** Runs *)

(** Words with the groups 0, 1, ..., 9; the numbers count up. *)
Definition sample_word : Z := foldr (fun d w => d + 64 * w) 0 (seqZ 0 10).
Definition sample_env : GenEnv := mkGenEnv (fun _ => sample_word) (fun k => Z.of_nat k mod 256) true true (fun _ => true).

Lemma sample_keeps : keeps_letters sample_env.
Proof. intros k. exists k, 0%nat. split_and!; [lia|lia|done]. Qed.

Example RandomString_run : RandomString sample_env 15 12 0 = Done ("bajihgfedcba", 2%nat).
Proof. reflexivity. Qed.

Lemma RandomString_spec_witness : exists f k, RandomString sample_env f 12 0 = Done (drawn sample_env 0 f 12, k) /\
  slen (drawn sample_env 0 f 12) = 12%nat.
Proof.
  destruct (RandomString_spec sample_env 12 0 sample_keeps) as (f & k & H). exists f, k.
  destruct (H f ltac:(lia)) as (H1 & _ & H2 & _). done.
Defined.

Definition sample_flags (typ : string) : GenFlags := mkGenFlags 2 3 typ.

(** A source in which each word repeats a letter of its own, so that no two strings are
    equal. *)
Definition distinct_env : GenEnv :=
  mkGenEnv (fun k => foldr (fun _ w => Z.of_nat k mod 26 + 64 * w) 0 (seqZ 0 10)) (fun k => Z.of_nat k mod 256) true true (fun _ => true).

Lemma distinct_keeps : keeps_letters distinct_env.
Proof.
  intros k. exists k, 0%nat. split_and!; [lia|lia|]. unfold distinct_env. cbn -[Z.mul Z.modulo Z.add Z.land].
  rewrite Z.shiftr_0_r. change 63 with (Z.ones 6). rewrite Z.land_ones by lia. change (2 ^ 6) with 64.
  change (seqZ 0 10) with (0 :: seqZ 1 9). cbn [foldr]. rewrite (Z.mul_comm 64), Z.mod_add by lia. pose proof (Z.mod_pos_bound (Z.of_nat k) 26 ltac:(lia)). rewrite Z.mod_small; lia.
Qed.

Definition distinct_run (f : nat) : GenState * string :=
  match gen_main distinct_env f (sample_flags "a") with
  | Done (s, Some t) => (s, t)
  | _ => (mkGenState 0 0 [] "" [], "")
  end.

(** Six entries in two zones, each found again in the database. *)
Lemma gen_queries_backed_witness :
  let '(s, t) := distinct_run 100 in
  gen_main distinct_env 100 (sample_flags "a") = Done (s, Some t) /\
  length (readQueries t) = 6%nat /\ Forall (backed (replay emptyDB (g_redis s))) (readQueries t).
Proof.
  destruct (gen_queries_backed distinct_env (sample_flags "a") distinct_keeps) as (F & s & file & Hrun & H).
  { intros k. apply Z.mod_pos_bound. lia. }
  { discriminate. }
  { discriminate. }
  assert (gen_main distinct_env (100 + F) (sample_flags "a") = Done (fst (distinct_run 100), Some (snd (distinct_run 100)))) as E by (vm_compute; reflexivity).
  assert (gen_main distinct_env 100 (sample_flags "a") = Done (fst (distinct_run 100), Some (snd (distinct_run 100)))) as E100
    by (vm_compute; reflexivity).
  assert (bool_decide (NoDup (map queryAddr (readQueries (g_wq (fst (distinct_run 100)))))) = true) as Hn by (vm_compute; reflexivity).
  apply bool_decide_eq_true in Hn. destruct (distinct_run 100) as [s0 t0]. cbn [fst snd] in *.
  rewrite (Hrun (100 + F)%nat (Nat.le_add_l _ _)) in E. clear Hrun. injection E as -> ->.
  destruct (H t0 eq_refl) as [H1 H2]. split; [exact E100|]. split; [exact (H1 (fun _ => eq_refl))|exact (H2 Hn)].
Defined.

(** What is stored for the other two types: the document of a text is no JSON, since the
    name [records] is not closed; and the target of a CNAME ends in two dots, since the
    zone name already has one. *)
Example txt_json_unparsable : parse (txt_json "hello") = None.
Proof. vm_compute. reflexivity. Qed.
Example cname_host_two_dots :
  parse (cname_json ("b" +:+ "." +:+ ("zone" +:+ suffix))) =
  Some (JsObj [("cname", JsObj [("ttl", JsInt 300); ("host", JsStr "b.zone.tst..")])]).
Proof. vm_compute. reflexivity. Qed.

(** Two entries that draw the same name: the second address overwrites the first, and the
    first query no longer finds what it expects. *)
Example collision_not_backed :
  let cmds := [flush_cmd; sadd "z.tst."; hset "z.tst." "a" (a_json "1.1.1.1"); hset "z.tst." "a" (a_json "2.2.2.2")] in
  hget (replay emptyDB cmds) "redins:zones:z.tst." "a" = Some (a_json "2.2.2.2").
Proof. vm_compute. reflexivity. Qed.
