(* ===== verification/PerfBulk.v ===== *)
(** tools/perf/bulk/bulk.go: sending the queries of query.txt to a server and
    checking the answers.  The theorem says when a run has nothing to complain
    about; a CNAME in front of an address ends the program. *)
From Stdlib Require Import Ascii.
From S2P Require Import Prelude GoStrings Utf8 GoScan GoNet DnsTypes Deps Answers PerfGen.

(** What the program prints. *)
Inductive Print :=
  | PNoFile
  | PNum (n : Z)
  | PCount (i : Z)
  | PError (err addr : string)
  | PBadResponse (rcode : Z)
  | PEmptyResponse
  | PIncorrect (expected got : string)
  | PDuration (d : Z).

(** The outside: [rand.Int()], and what [client.Exchange] returns for the [i]-th
    query: a reply, the round-trip time and the error. *)
Record BulkEnv := mkBulkEnv {
  rand_Int : Z -> Z;
  bulk_Exchange : Z -> string -> Z -> option Msg * Z * option string
}.

Section Bulk.
Context (env : BulkEnv).

(** The comparison of the first answer; the type assertions panic. *)
Definition checkAnswer (q : query) (a : RR) : Outcome (list Print) :=
  if u16 (queryType q) =? TypeA then
    match rrData a with
    | DA ip => Done (if negb (String.eqb (IP_String ip) (queryResult q)) then [PIncorrect (queryResult q) (IP_String ip)] else [])
    | _ => Panic
    end
  else if u16 (queryType q) =? TypeTXT then
    match rrData a with
    | DTXT (txt :: _) => Done (if negb (String.eqb txt (queryResult q)) then [PIncorrect (queryResult q) txt] else [])
    | _ => Panic
    end
  else Done [].

(** [queries[rand.Int()%len(queries)]] *)
Definition pick (queries : list query) (i : Z) : option query :=
  queries !! Z.to_nat (rand_Int env i mod Z.of_nat (length queries)).

(** The loop over the queries: what it prints, and the time of the answered ones.
    An empty list is a division by zero. *)
Fixpoint bulkLoop (left : nat) (i : Z) (queries : list query) (duration : Z) : Outcome (list Print * Z) :=
  match left with
  | O => Done ([], duration)
  | S left' =>
      let count := if i mod 1000000 =? 0 then [PCount i] else [] in
      let continue ps duration :=
        rest ← bulkLoop left' (i + 1) queries duration; Done (count ++ ps ++ rest.1, rest.2) in
      match pick queries i with
      | None => Panic
      | Some q =>
          let '(r, rtt, err) := bulk_Exchange env i (queryAddr q) (u16 (queryType q)) in
          match err, r with
          | Some e, _ => continue [PError e (queryAddr q)] duration
          | None, None => Panic
          | None, Some r =>
              if negb (m_Rcode r =? resultCode q) then Done (count ++ [PBadResponse (m_Rcode r)], duration)
              else if resultCode q =? RcodeSuccess then
                match m_Answer r with
                | [] => Done (count ++ [PEmptyResponse], duration)
                | a :: _ => ps ← checkAnswer q a; continue ps (i64 (duration + rtt))
                end
              else continue [] duration
          end
      end
  end.

(** [file] is what opening ../query.txt gives. *)
Definition bulk_main (file : option string) (num : Z) : Outcome (list Print) :=
  match file with
  | None => Done [PNoFile]
  | Some t =>
      o ← bulkLoop (Z.to_nat num) 0 (readQueries t) 0;
      Done (PNum num :: o.1 ++ [PDuration o.2])
  end.

(** ** When there is nothing to complain about *)

Definition quiet (p : Print) : bool :=
  match p with PNum _ | PCount _ | PDuration _ => true | _ => false end.

(** The reply that a query expects. *)
Definition right_answer (q : query) (a : RR) : Prop :=
  (u16 (queryType q) = TypeA -> exists ip, rrData a = DA ip /\ IP_String ip = queryResult q) /\
  (u16 (queryType q) = TypeTXT -> exists ts, rrData a = DTXT (queryResult q :: ts)).
Definition right_reply (q : query) (r : Msg) : Prop :=
  m_Rcode r = resultCode q /\
  (resultCode q = RcodeSuccess -> exists a rest, m_Answer r = a :: rest /\ right_answer q a).

(** The [i]-th query is answered as it expects. *)
Definition answered (queries : list query) (i : Z) : Prop := exists q r rtt,
  pick queries i = Some q /\ bulk_Exchange env i (queryAddr q) (u16 (queryType q)) = (Some r, rtt, None) /\ right_reply q r.

Lemma checkAnswer_quiet q a : (exists ps, checkAnswer q a = Done ps /\ Forall (fun p => quiet p = true) ps) <-> right_answer q a.
Proof.
  unfold checkAnswer, right_answer. destruct (Z.eqb_spec (u16 (queryType q)) TypeA) as [->|HA].
  - split.
    + intros (ps & Hp & Hq). destruct (rrData a) as [ip| | | | | | | | | | | | | | | | | |]; try done.
      destruct (String.eqb_spec (IP_String ip) (queryResult q)); [|by injection Hp as <-; inversion Hq].
      split; [by exists ip|done].
    + intros [(ip & -> & ->) _]; [done|]. rewrite String.eqb_refl. by exists [].
  - destruct (Z.eqb_spec (u16 (queryType q)) TypeTXT) as [->|HT].
    + split.
      * intros (ps & Hp & Hq). destruct (rrData a) as [| | |txts| | | | | | | | | | | | | | |]; try done. destruct txts as [|txt txts]; [done|].
        destruct (String.eqb_spec txt (queryResult q)) as [->|]; [|by injection Hp as <-; inversion Hq].
        split; [done|by exists txts].
      * intros [_ (ts & ->)]; [done|]. rewrite String.eqb_refl. by exists [].
    + split; [done|]. by exists [].
Qed.

Lemma count_quiet i : Forall (fun p => quiet p = true) (if i mod 1000000 =? 0 then [PCount i] else []).
Proof. case_match; by repeat constructor. Qed.

Definition clean_run (o : Outcome (list Print * Z)) : Prop :=
  exists ps d, o = Done (ps, d) /\ Forall (fun p => quiet p = true) ps.

Lemma clean_continue i ps (o : Outcome (list Print * Z)) :
  clean_run (rest ← o; Done ((if i mod 1000000 =? 0 then [PCount i] else []) ++ ps ++ rest.1, rest.2)) <->
  Forall (fun p => quiet p = true) ps /\ clean_run o.
Proof.
  unfold clean_run. destruct o as [[qs d]| |]; simpl; [|split; [by intros (? & ? & ? & _)|by intros (_ & ? & ? & ? & _)]..].
  pose proof (count_quiet i) as Hc. split.
  - intros (? & ? & [= <- <-] & H). rewrite !Forall_app in H. destruct H as (_ & ? & ?). eauto.
  - intros (Hp & ? & ? & [= <- <-] & H). eexists _, _. split; [reflexivity|]. by rewrite !Forall_app.
Qed.

Lemma not_clean i p d : quiet p = false ->
  ~ clean_run (Done ((if i mod 1000000 =? 0 then [PCount i] else []) ++ [p], d)).
Proof. intros Hp (? & ? & [= <- <-] & H). rewrite Forall_app, Forall_singleton in H. destruct H. congruence. Qed.

(** One round of the loop. *)
Lemma bulkLoop_S left i queries d (P : Prop) :
  (forall d', clean_run (bulkLoop left (i + 1) queries d') <-> P) ->
  clean_run (bulkLoop (S left) i queries d) <-> answered queries i /\ P.
Proof.
  intros IH. cbn [bulkLoop]. cbv zeta. unfold answered, right_reply.
  destruct (pick queries i) as [q|]; [|split; [by intros (? & ? & ? & _)|by intros [(? & ? & ? & ? & _) _]]].
  destruct (bulk_Exchange env i _ _) as [[r rtt] [e|]] eqn:Ex; [|destruct r as [r|]].
  - rewrite clean_continue, Forall_singleton. split; [by intros [? _]|].
    intros [(q' & ? & ? & [= <-] & H & _) _]. congruence.
  - assert (forall Q : query -> Msg -> Prop, (exists q' r' rtt', Some q = Some q' /\
      bulk_Exchange env i (queryAddr q') (u16 (queryType q')) = (Some r', rtt', None) /\ Q q' r') <-> Q q r) as ->.
    { intros Q. split; [|by exists q, r, rtt]. intros (q' & r' & rtt' & [= <-] & H & HQ). rewrite Ex in H. by injection H as <- _. }
    destruct (Z.eqb_spec (m_Rcode r) (resultCode q)) as [Hr|Hr]; cbn [negb]; [|split; [by intros ?%not_clean|by intros [[? _] _]]].
    destruct (Z.eqb_spec (resultCode q) RcodeSuccess) as [Hs|Hs].
    + destruct (m_Answer r) as [|a rest].
      { split; [by intros ?%not_clean|]. by intros [[_ (? & ? & ? & _)] _]. }
      assert ((m_Rcode r = resultCode q /\ (resultCode q = RcodeSuccess -> exists a' rest', a :: rest = a' :: rest' /\
        right_answer q a')) <-> right_answer q a) as ->.
      { split; [intros [_ (? & ? & [= <- <-] & ?)]; done|]. split; [done|]. eauto. }
      rewrite <- checkAnswer_quiet, <- (IH (i64 (d + rtt))). destruct (checkAnswer q a) as [ps| |]; simpl.
      * rewrite clean_continue. split; [by intros [? ?]; split; [exists ps|]|]. by intros [(? & [= <-] & ?) ?].
      * split; [by intros (? & ? & ? & _)|by intros [(? & ? & _) _]].
      * split; [by intros (? & ? & ? & _)|by intros [(? & ? & _) _]].
    + rewrite clean_continue, IH. split; [by intros [_ ?]|by intros [_ ?]].
  - split; [by intros (? & ? & ? & _)|]. intros [(q' & ? & ? & [= <-] & H & _) _]. congruence.
Qed.

(** C39: a run of [bulk] has nothing to complain about exactly if every query it sends
    is answered as the query expects: no error, the expected code, and, for a
    success, a first answer with the expected address or text.  In particular it
    then does not panic. *)
Theorem bulk_quiet file num : (exists ps, bulk_main (Some file) num = Done ps /\ Forall (fun p => quiet p = true) ps) <->
  forall j, 0 <= j < num -> answered (readQueries file) j.
Proof.
  assert (forall n i d, clean_run (bulkLoop n i (readQueries file) d) <->
    forall j, i <= j < i + Z.of_nat n -> answered (readQueries file) j) as Hloop.
  { induction n as [|n IH]; intros i d.
    - split; [intros _ j Hj; lia|]. intros _. by exists [], d.
    - rewrite (bulkLoop_S n i _ d (forall j, i + 1 <= j < i + 1 + Z.of_nat n -> answered (readQueries file) j)) by (intros; apply IH).
      split.
      + intros [H1 H2] j Hj. destruct (decide (j = i)) as [->|]; [done|]. apply H2. lia.
      + intros H. split; [apply H; lia|]. intros j Hj. apply H. lia. }
  trans (clean_run (bulkLoop (Z.to_nat num) 0 (readQueries file) 0)).
  - unfold clean_run. cbn [bulk_main]. destruct (bulkLoop _ _ _ _) as [[ps d]| |]; simpl.
    + split; [|intros (? & ? & [= <- <-] & H); eexists; split; [done|]; constructor; [done|]; apply Forall_app; by split; [|repeat constructor]].
      intros (? & [= <-] & H). inversion H as [|? ? _ H']; subst. apply Forall_app in H' as [H' _]. eauto.
    + split; [by intros (? & ? & _)|by intros (? & ? & ? & _)].
    + split; [by intros (? & ? & _)|by intros (? & ? & ? & _)].
  - rewrite Hloop. split; intros H j Hj; apply H; lia.
Qed.

(** A success reply to a question for an address that starts with a CNAME, as
    redins sends it, ends the program. *)
Lemma bulk_cname_panics q r a left i queries d rtt :
  pick queries i = Some q -> bulk_Exchange env i (queryAddr q) (u16 (queryType q)) = (Some r, rtt, None) ->
  u16 (queryType q) = TypeA -> resultCode q = RcodeSuccess -> m_Rcode r = RcodeSuccess ->
  head (m_Answer r) = Some a -> (exists target, rrData a = DCNAME target) ->
  bulkLoop (S left) i queries d = Panic.
Proof.
  intros Hp Hx Ht Hc Hr Ha [target Htg]. cbn [bulkLoop]. cbv zeta. rewrite Hp, Hx, Hr, Hc. cbn [negb Z.eqb RcodeSuccess].
  destruct (m_Answer r) as [|a' rest]; [done|]. injection Ha as ->. unfold checkAnswer. by rewrite Ht, Htg.
Qed.
End Bulk.

(** ** Runs *)

Definition bulk_file : string := queryLine "aaa" "zone.tst." TypeA RcodeSuccess "1.2.3.4".
Definition bulk_reply (l : list RR) : Msg := mkMsg 7 true false false RcodeSuccess [] l [] [].
Definition bulk_rr (d : RRData) : RR := mkRR (mkHdr "aaa.zone.tst." TypeA ClassINET 300) d.
Definition bulk_env (l : list RR) : BulkEnv := mkBulkEnv (fun i => 3 * i) (fun _ _ _ => (Some (bulk_reply l), 1000, None)).

Example bulk_runs :
  bulk_main (bulk_env [bulk_rr (DA (Some [1; 2; 3; 4]))]) (Some bulk_file) 2 = Done [PNum 2; PCount 0; PDuration 2000] /\
  bulk_main (bulk_env [bulk_rr (DCNAME "b.")]) (Some bulk_file) 2 = Panic /\
  bulk_main (bulk_env []) (Some bulk_file) 2 = Done [PNum 2; PCount 0; PEmptyResponse; PDuration 0].
Proof. split_and!; reflexivity. Qed.

(** After an incorrect answer the run goes on and counts its time: the [break] leaves
    the switch only. *)
Example bulk_incorrect_goes_on :
  bulk_main (bulk_env [bulk_rr (DA (Some [1; 2; 3; 5]))]) (Some bulk_file) 2
  = Done [PNum 2; PCount 0; PIncorrect "1.2.3.4" "1.2.3.5"; PIncorrect "1.2.3.4" "1.2.3.5"; PDuration 2000].
Proof. reflexivity. Qed.
