(* ===== verification/QueryTool.v ===== *)
(** tools/query: a tool that sends the names of a Redis database or of a file to
    one server, to measure it, or to two, to compare them.  The theorems say which
    queries a database gives, that the comparison is silent about servers that
    answer alike, what the measurement adds up to, and that the count the main
    program waits for runs ahead of the measurement. *)
From S2P Require Import Prelude GoStrings Utf8 GoScan DnsTypes Float64 Deps Answers Sample Upstream TestHelpers.
Import Test.

(** ** query/query.go, source/source.go and tool/tool.go *)

Record Query := mkQuery { QName : string; QType : string }.

(** The interface of the sources; [GetQuery] moves on. *)
Class QueryGenerator (G : Type) := {
  Init : G -> G;
  Count : G -> Z;
  GetQuery : G -> Outcome (Query * G)
}.

(** The interface of the tools: what [Act] and [Result] print is a list of lines, and
    [Act] changes the tool. *)
Class QueryTool (T Line : Type) := {
  Act : T -> Query -> Outcome (T * list Line);
  Result : T -> list Line
}.

(** A tool in the hands of one worker: the queries in order, then the result. *)
Fixpoint useTool {T Line} `{QueryTool T Line} (t : T) (qs : list Query) : Outcome (list Line) :=
  match qs with
  | [] => Done (Result t)
  | q :: qs' => o ← Act t q; ls ← useTool o.1 qs'; Done (o.2 ++ ls)
  end.

(** ** source/redis.go *)

Definition dumpRedisConfig (redisAddress : string) : RedisConfig :=
  mkRedisConfig redisAddress "tcp" 0 "" "" "_dns2" (mkRedisConnectionConfig 10 10 500 500 30 0 false).

Record RedisDumpQueryGenerator := mkDump { d_redisAddress : string; d_queries : list Query; d_pos : nat }.

Definition dumpTypes : list string :=
  ["A"; "AAAA"; "CNAME"; "NS"; "MX"; "SRV"; "TXT"; "PTR"; "CAA"; "TLSA"; "SOA"; "DNSKEY"].

Definition locationName (zone location : string) : string :=
  if String.eqb location "@" then zone else location +:+ "." +:+ zone.

(** [connect] is [uperdis.NewRedis]: the database the settings lead to. *)
Definition NewRedisDumpQueryGenerator {R : Redis} (connect : RedisConfig -> RS) (redisAddress : string)
  : RedisDumpQueryGenerator :=
  let rs := connect (dumpRedisConfig redisAddress) in
  mkDump ""
    (concat (map (fun zone =>
       concat (map (fun location => map (mkQuery (locationName zone location)) dumpTypes)
                 (fst (redis_GetHKeys rs ("redins:zones:" +:+ zone)))))
       (fst (redis_SMembers rs "redins:zones")))) 0.

#[global] Instance dump_generator : QueryGenerator RedisDumpQueryGenerator := {|
  Init g := g;
  Count g := Z.of_nat (length (d_queries g));
  GetQuery g := match d_queries g !! d_pos g with
                | Some q => Done (q, mkDump (d_redisAddress g) (d_queries g) (d_pos g + 1))
                | None => Panic
                end
|}.

(** ** source/file.go *)

(** [zipf] delivers the numbers of [rand.Zipf]; [z_imax] is its bound. *)
Record FileQueryGenerator := mkFile { f_queries : list Query; f_count : Z; z_imax : Z; z_pos : nat }.

Definition lineQuery (line : string) : Query := let '(n, t, _) := Sscanf_ss line in mkQuery n t.

(** [file] is what the path holds; a file that cannot be opened has no lines. *)
Definition NewFileQueryGenerator (file : option string) (count : Z) : FileQueryGenerator :=
  let queries := map lineQuery (match file with Some t => ScanLines t | None => [] end) in
  mkFile queries count ((Z.of_nat (length queries) - 1) mod 2^64) 0.

(** [zipf.Uint64], as a function of the bound and of how often it was called. *)
Definition file_generator (zipf : Z -> nat -> Z) : QueryGenerator FileQueryGenerator := {|
  Init g := g;
  Count := f_count;
  GetQuery g := match f_queries g !! Z.to_nat (zipf (z_imax g) (z_pos g)) with
                | Some q => Done (q, mkFile (f_queries g) (f_count g) (z_imax g) (z_pos g + 1))
                | None => Panic
                end
|}.

(** All the queries [main] takes from a source. *)
Fixpoint takeQueries {G} `{QueryGenerator G} (n : nat) (g : G) : Outcome (list Query) :=
  match n with
  | O => Done []
  | S n' => o ← GetQuery g; qs ← takeQueries n' o.2; Done (o.1 :: qs)
  end.

(** ** tool/bench.go *)

Section Tools.
Context {T : DnsTest} {S : GoSort}.
(** [dns.StringToType], and [client.Exchange]: reply, round-trip time and the
    identity of the error. *)
Context (StringToType : string -> Z) (Exchange : Msg -> string -> option Msg * Z * option positive).

Record BenchTool := mkBench {
  b_count : Z; b_totalTime : Z; b_min : Z; b_max : Z; b_mean : float64; b_stdev : float64; b_serverAddress : string }.

Definition NewBenchTool (serverAddress : string) : BenchTool :=
  mkBench 0 0 1000 0 (fof 0 0) (fof 0 0) serverAddress.

Definition questionOf (q : Query) : Msg := msg_SetQuestion (QName q) (StringToType (QType q)) newMsg.

(** The measurement of one query, which an error does not stop. *)
Definition Bench_record (t : BenchTool) (rtt : Z) : BenchTool :=
  let count := i64 (b_count t + 1) in
  let x := Seconds rtt in
  let mean := fadd (b_mean t) (fdiv (fsub x (b_mean t)) (fof count 0)) in
  let stdev := fadd (b_stdev t) (fmul (fsub x mean) (fsub x (b_mean t))) in
  mkBench count (i64 (b_totalTime t + rtt)) (if rtt <? b_min t then rtt else b_min t)
    (if b_max t <? rtt then rtt else b_max t) mean stdev (b_serverAddress t).

Inductive BenchLine :=
  | BError (err : positive)
  | BResult (total min max : Z) (mean_us stdev_ms : float64).

(** An error is printed. *)
Definition Bench_Act (t : BenchTool) (q : Query) : BenchTool * list BenchLine :=
  let '(_, rtt, err) := Exchange (questionOf q) (b_serverAddress t) in
  (Bench_record t rtt, match err with Some e => [BError e] | None => [] end).

(** The numbers [Result] prints. *)
Definition Bench_Result (t : BenchTool) : list BenchLine :=
  [BResult (b_totalTime t) (b_min t) (b_max t) (fmul (b_mean t) (fof 1000000 0)) (fmul (b_stdev t) (fof 1000 0))].

#[global] Instance bench_tool : QueryTool BenchTool BenchLine := {|
  Act t q := Done (Bench_Act t q);
  Result := Bench_Result
|}.

(** ** tool/compare.go *)

Record CompareTool := mkCompare { server1Address : string; server2Address : string }.
Definition NewCompareTool (s1 s2 : string) : CompareTool := mkCompare s1 s2.

Inductive CompareLine :=
  | CErrors (qname qtype : string) (err1 err2 : option positive)
  | CDiffers (qname qtype : string) (err : TestError).

(** Two errors are equal if they are the same value. *)
Definition Compare_Act (t : CompareTool) (q : Query) : Outcome (list CompareLine) :=
  let m := questionOf q in
  let '(resp1, _, err1) := Exchange m (server1Address t) in
  let '(resp2, _, err2) := Exchange m (server2Address t) in
  if negb (bool_decide (err1 = err2)) then Done [CErrors (QName q) (QType q) err1 err2]
  else
    match err1, resp1, resp2 with
    | Some _, _, _ => Done []
    | None, Some resp1, Some resp2 =>
        let resp1 := sorted_sections resp1 in
        match m_Question resp1 with
        | [] => Panic
        | qu :: _ =>
            let tc := mkCase (q_Name qu) (q_Qtype qu) (m_Rcode resp1) false (m_Answer resp1) (m_Ns resp1) (m_Extra resp1) None in
            o ← SortAndCheck resp2 tc;
            Done (match o.2 with Some err => [CDiffers (QName q) (QType q) err] | None => [] end)
        end
    | None, _, _ => Panic
    end.
Definition Compare_Result (t : CompareTool) : list CompareLine := [].

#[global] Instance compare_tool : QueryTool CompareTool CompareLine := {|
  Act t q := ls ← Compare_Act t q; Done (t, ls);
  Result := Compare_Result
|}.
End Tools.

(** ** What the sources deliver *)

Lemma elem_of_concat {A} (x : A) ls : x ∈ concat ls <-> exists l, x ∈ l /\ l ∈ ls.
Proof. induction ls as [|l ls IH]; simpl; [set_solver|]. rewrite elem_of_app, IH. set_solver. Qed.

Lemma takeQueries_dump a qs pos n : (pos + n = length qs)%nat -> takeQueries n (mkDump a qs pos) = Done (drop pos qs).
Proof.
  revert pos. induction n as [|n IH]; intros pos Hn; cbn [takeQueries].
  - by rewrite drop_ge by lia.
  - destruct (lookup_lt_is_Some_2 qs pos ltac:(lia)) as [q Hq]. simpl. rewrite Hq. simpl.
    rewrite IH by lia. simpl. by rewrite (drop_S _ _ _ Hq), Nat.add_1_r.
Qed.

(** The dump of a database asks every stored name for every type.  Taking as many
    queries as the source counts gives its whole list without a panic, and the
    list holds exactly the names of the locations of the listed zones, each with
    each of the twelve types. *)
Theorem dump_complete {R : Redis} connect addr :
  let rs := connect (dumpRedisConfig addr) in
  let g := NewRedisDumpQueryGenerator connect addr in
  takeQueries (Z.to_nat (Count g)) g = Done (d_queries g) /\
  forall n t, mkQuery n t ∈ d_queries g <->
    exists zone location, zone ∈ fst (redis_SMembers rs "redins:zones") /\
      location ∈ fst (redis_GetHKeys rs ("redins:zones:" +:+ zone)) /\
      n = locationName zone location /\ t ∈ dumpTypes.
Proof.
  split.
  - unfold NewRedisDumpQueryGenerator. cbn [Count dump_generator d_queries]. rewrite Nat2Z.id. by rewrite takeQueries_dump.
  - intros n t. cbn [NewRedisDumpQueryGenerator d_queries]. rewrite elem_of_concat.
    setoid_rewrite list_elem_of_fmap. split.
    + intros (qs & Hq & zone & -> & Hz). apply elem_of_concat in Hq as (ts & Ht & Hl).
      apply list_elem_of_fmap in Hl as (location & -> & Hloc). apply list_elem_of_fmap in Ht as (t' & [= -> ->] & Ht). eauto 10.
    + intros (zone & location & Hz & Hl & -> & Ht). eexists. split; [|by exists zone]. apply elem_of_concat.
      eexists. split; [|apply list_elem_of_fmap; by exists location]. apply list_elem_of_fmap. by exists t.
Qed.

(** A file with a line never makes its source panic; one without always does. *)
Lemma file_GetQuery_ok zipf file count pos :
  (forall imax k, 0 <= imax -> 0 <= zipf imax k <= imax) ->
  let g := NewFileQueryGenerator file count in
  let g := mkFile (f_queries g) (f_count g) (z_imax g) pos in
  Z.of_nat (length (f_queries g)) < 2^64 ->
  GetQuery (QueryGenerator := file_generator zipf) g <> Panic <-> f_queries g <> [].
Proof.
  intros Hz. cbv zeta. unfold NewFileQueryGenerator. cbn [f_queries f_count z_imax z_pos].
  set (qs := map lineQuery _). intros Hlen. cbn [GetQuery file_generator f_queries f_count z_imax z_pos].
  destruct (decide (qs = [])) as [->|Hne]; [by rewrite lookup_nil|].
  assert (0 < Z.of_nat (length qs)) by (destruct qs; [done|simpl; lia]).
  rewrite Z.mod_small by lia. pose proof (Hz (Z.of_nat (length qs) - 1) pos ltac:(lia)).
  destruct (lookup_lt_is_Some_2 qs (Z.to_nat (zipf (Z.of_nat (length qs) - 1) pos)) ltac:(lia)) as [q ->]. done.
Qed.

(** ** The tools *)

Section ToolFacts.
Context {T : DnsTest} {S : GoSort} `{!GoSortLaws S} {D : DnsLib}.
Context (StringToType : string -> Z) (Exchange : Msg -> string -> option Msg * Z * option positive).

(** The comparison is silent about servers that answer alike: replies with the
    same code and the same records, in whatever order, give no output and no
    panic.  Records must carry the type of their data and be told apart by their
    text. *)
Theorem Compare_silent t q r1 r2 rtt1 rtt2 :
  Exchange (questionOf StringToType q) (server1Address t) = (Some r1, rtt1, None) ->
  Exchange (questionOf StringToType q) (server2Address t) = (Some r2, rtt2, None) ->
  m_Question r1 <> [] -> m_Rcode r2 = m_Rcode r1 ->
  m_Answer r1 ≡ₚ m_Answer r2 -> m_Ns r1 ≡ₚ m_Ns r2 -> m_Extra r1 ≡ₚ m_Extra r2 ->
  Forall typed (m_Answer r1 ++ m_Ns r1 ++ m_Extra r1) ->
  (forall a b, a ∈ m_Answer r1 ++ m_Ns r1 ++ m_Extra r1 -> b ∈ m_Answer r1 ++ m_Ns r1 ++ m_Extra r1 ->
     rr_String a = rr_String b -> a = b) ->
  Compare_Act StringToType Exchange t q = Done [].
Proof.
  intros H1 H2 Hq Hr Ha Hn Hx Ht Hinj. unfold Compare_Act. rewrite H1, H2. rewrite bool_decide_true by done. cbn [negb].
  destruct (m_Question r1) as [|qu qs] eqn:Eq; [done|]. cbn [m_Question sorted_sections]. rewrite Eq.
  rewrite !Forall_app in Ht. destruct Ht as (Ta & Tn & Tx).
  match goal with |- context [SortAndCheck r2 ?tc] =>
    assert (SortAndCheck r2 tc = Done (sorted_sections r2, None)) as -> end; [|done].
  apply SortAndCheck_sections. cbn [m_Rcode m_Answer m_Ns m_Extra sorted_sections t_Rcode t_Answer t_Ns t_Extra].
  assert (forall l l', l ≡ₚ l' -> Forall typed l -> (forall a b, a ∈ l -> b ∈ l -> rr_String a = rr_String b -> a = b) ->
    length l' = length (RRSet_sort l) /\ sectionLoop (RRSet_sort l) 0 (RRSet_sort l') = Done None) as Hsec.
  { intros l l' Hp Hl Hi. assert (RRSet_sort l ≡ₚ l) as Hs by (unfold RRSet_sort; by rewrite Sort_perm).
    split; [by rewrite Hs, Hp|]. apply sectionLoop_sorted; [by rewrite Hs|by rewrite <- Hp|by rewrite Hs, Hp|].
    rewrite <- (RRSet_sort_perm l l') by done. apply agrees_refl. }
  split_and!; try done; apply Hsec; try done; intros a b Ha' Hb'; apply Hinj; set_solver.
Qed.

(** Servers that fail in the same way, but each with an error of its own, are
    reported as different. *)
Lemma Compare_two_errors t q e1 e2 rtt1 rtt2 :
  Exchange (questionOf StringToType q) (server1Address t) = (None, rtt1, Some e1) ->
  Exchange (questionOf StringToType q) (server2Address t) = (None, rtt2, Some e2) -> e1 <> e2 ->
  Compare_Act StringToType Exchange t q = Done [CErrors (QName q) (QType q) (Some e1) (Some e2)].
Proof. intros H1 H2 He. unfold Compare_Act. rewrite H1, H2, bool_decide_false by congruence. done. Qed.

(** What the measurement adds up to; the minimum starts at 1000 ns, so it is never
    above a microsecond. *)
Lemma Bench_totals addr rtts :
  let t := foldl Bench_record (NewBenchTool addr) rtts in
  b_count t = i64 (Z.of_nat (length rtts)) /\ b_totalTime t = i64 (foldr Z.add 0 rtts) /\
  b_min t = foldr Z.min 1000 rtts /\ b_max t = foldr Z.max 0 rtts.
Proof.
  cbv zeta. induction rtts as [|rtt rtts IH] using rev_ind; [done|]. rewrite foldl_app. simpl.
  destruct IH as (-> & -> & -> & ->). rewrite length_app, !foldr_app. simpl. split_and!.
  - rewrite i64_add_l. f_equal. lia.
  - rewrite i64_add_l. f_equal. clear. induction rtts; simpl; lia.
  - transitivity (Z.min rtt (foldr Z.min 1000 rtts)); [destruct (Z.ltb_spec rtt (foldr Z.min 1000 rtts)); lia|].
    clear. induction rtts; simpl; lia.
  - transitivity (Z.max rtt (foldr Z.max 0 rtts)); [destruct (Z.ltb_spec (foldr Z.max 0 rtts) rtt); lia|].
    clear. induction rtts; simpl; lia.
Qed.

(** What the measuring tool prints: the errors in order, then the totals over the
    round trips of all queries, failed ones included. *)
Lemma bench_run qs : forall t, useTool (H := bench_tool StringToType Exchange) t qs =
  let answers := map (fun q => Exchange (questionOf StringToType q) (b_serverAddress t)) qs in
  Done (map BError (omap snd answers) ++ Bench_Result (foldl Bench_record t (map (fun a => a.1.2) answers))).
Proof.
  induction qs as [|q qs IH]; intros t; [done|]. simpl. unfold Bench_Act.
  destruct (Exchange _ (b_serverAddress t)) as [[r rtt] err] eqn:Ex. simpl. rewrite IH. simpl. by destruct err.
Qed.

(** The comparing tool is silent on a run if it is on each query. *)
Lemma compare_run t qs : Forall (fun q => Compare_Act StringToType Exchange t q = Done []) qs ->
  useTool (H := compare_tool StringToType Exchange) t qs = Done [].
Proof. induction 1 as [|q qs Hq _ IH]; [done|]. simpl. rewrite Hq. simpl. by rewrite IH. Qed.
End ToolFacts.

(** Welford's sum of squares is printed as the standard deviation: for round trips of
    1 s and 3 s it is 2, not 1. *)
Example Bench_stdev_is_a_sum :
  feqb (b_stdev (foldl Bench_record (NewBenchTool "") [Second; 3 * Second])) (fof 2 0) = true.
Proof. by vm_compute. Qed.

(** ** query.go *)

Inductive SourceKind := RedisSource | FileSource.
Inductive ToolKind := CompareKind | BenchKind.

(** The choice of source and tool; [inr] is the message the program ends with. *)
Definition chooseSource (s : string) : SourceKind + string :=
  if String.eqb s "redis" then inl RedisSource else if String.eqb s "file" then inl FileSource
  else inr ("invalid query source :  " +:+ s).
Definition chooseTool (s : string) : ToolKind + string :=
  if String.eqb s "compare" then inl CompareKind else if String.eqb s "bench" then inl BenchKind
  else inr ("invalid tool :  " +:+ s).
Definition chooseBoth (source tool : string) : (SourceKind * ToolKind) + string :=
  match chooseSource source with
  | inr e => inr e
  | inl s => match chooseTool tool with inr e => inr e | inl t => inl (s, t) end
  end.

(** The running program: queries [main] has not queued yet, queries in the queue,
    the counter of each worker and whether it is inside [Act], the queries [Act]
    is done with, and, once [Result] has printed, how many it covered. *)
Record QuerySys := mkSys {
  q_todo : nat; q_queue : nat; q_count : list nat; q_acting : list bool; q_done : nat; q_result : option nat }.

Definition startSys (n maxWorkers : nat) : QuerySys :=
  mkSys n 0 (replicate maxWorkers 0%nat) (replicate maxWorkers false) 0 None.

(** The handler counts a job before it calls [Act]; [main] prints when the counters
    add up to [n] after it has queued everything. *)
Inductive qstep (n : nat) : QuerySys -> QuerySys -> Prop :=
  | q_queues t q c a d : qstep n (mkSys (S t) q c a d None) (mkSys t (S q) c a d None)
  | q_starts t q c a d r w k : a !! w = Some false -> c !! w = Some k ->
      qstep n (mkSys t (S q) c a d r) (mkSys t q (<[w := S k]> c) (<[w := true]> a) d r)
  | q_acts t q c a d r w : a !! w = Some true ->
      qstep n (mkSys t q c a d r) (mkSys t q c (<[w := false]> a) (S d) r)
  | q_prints q c a d : sum_list c = n -> qstep n (mkSys 0 q c a d None) (mkSys 0 q c a d (Some d)).

Definition busy (a : list bool) : nat := length (filter (fun b => b = true) a).

Definition sys_inv (n workers : nat) (s : QuerySys) : Prop :=
  (q_todo s + q_queue s + sum_list (q_count s) = n)%nat /\ (sum_list (q_count s) = q_done s + busy (q_acting s))%nat /\
  length (q_acting s) = workers /\ length (q_count s) = workers /\
  (forall k, q_result s = Some k -> k <= q_done s /\ n <= k + workers)%nat.

Lemma sum_list_insert (c : list nat) w k k' : c !! w = Some k ->
  (sum_list (<[w := k']> c) + k = sum_list c + k')%nat.
Proof. revert w. induction c as [|x c IH]; intros [|w] H; simpl in *; simplify_eq; [lia|]. specialize (IH _ H). lia. Qed.

Lemma busy_insert a w (b b' : bool) : a !! w = Some b ->
  (busy (<[w := b']> a) + (if b then 1 else 0) = busy a + (if b' then 1 else 0))%nat.
Proof.
  unfold busy. revert w. induction a as [|x a IH]; intros [|w] H; simpl in *; simplify_eq; rewrite !filter_cons.
  - destruct b, b'; simpl; lia.
  - specialize (IH _ H). destruct x; simpl; lia.
Qed.

Lemma busy_le a : (busy a <= length a)%nat.
Proof. unfold busy. apply length_filter. Qed.

Lemma qstep_inv n workers s s' : qstep n s s' -> sys_inv n workers s -> sys_inv n workers s'.
Proof.
  unfold sys_inv. intros [t q c a d|t q c a d r w k Ha Hc|t q c a d r w Ha|q c a d Hs];
    cbn [q_todo q_queue q_count q_acting q_done q_result]; intros (Hsum & Hdone & Hla & Hlc & Hr).
  - split_and!; try done; lia.
  - pose proof (sum_list_insert c w k (S k) Hc). pose proof (busy_insert a w false true Ha). cbn in *.
    rewrite !length_insert. split_and!; try done; lia.
  - pose proof (busy_insert a w true false Ha). cbn in *. rewrite length_insert. split_and!; try done; try lia.
    intros k Hk. specialize (Hr k Hk). lia.
  - split_and!; try done; try lia. intros k [= <-]. pose proof (busy_le a). lia.
Qed.

(** C40: the result of a run covers all queries but those still on their way.  When
    [main] prints, every query has been taken by a worker, but up to one per
    worker may not have been measured yet: a worker counts a query before it
    sends it. *)
Theorem query_main_result n workers s k :
  rtc (qstep n) (startSys n workers) s -> q_result s = Some k -> (n - workers <= k <= n)%nat.
Proof.
  intros Hrun Hk.
  assert (sys_inv n workers s) as (Hsum & Hdone & _ & _ & Hr).
  { assert (sys_inv n workers (startSys n workers)) as Hstart.
    { unfold sys_inv, startSys, busy. cbn [q_todo q_queue q_count q_acting q_done q_result]. rewrite !length_replicate.
      assert (sum_list (replicate workers 0%nat) = 0)%nat as -> by (clear; induction workers; simpl; lia).
      assert (filter (fun b => b = true) (replicate workers false) = []) as -> by (clear; induction workers; simpl; auto).
      simpl. split_and!; try done; lia. }
    clear k Hk. induction Hrun; [done|]. eauto using qstep_inv. }
  specialize (Hr k Hk). lia.
Qed.

(** The bound is reached: with one worker the result may miss the last query, whose
    [Act] can take longer than the pause before the result. *)
Lemma query_main_result_witness : (2 - 1 <= 1 <= 2)%nat /\
  exists s, rtc (qstep 2) (startSys 2 1) s /\ q_result s = Some 1%nat.
Proof.
  assert (rtc (qstep 2) (startSys 2 1) (mkSys 0 0 [2%nat] [true] 1 (Some 1%nat))) as Hrun.
  { unfold startSys. eapply rtc_l; [apply q_queues|]. eapply rtc_l; [apply q_queues|].
    eapply rtc_l; [by apply (q_starts 2 0 1 _ _ _ _ 0)|]. eapply rtc_l; [by apply (q_acts 2 _ _ _ _ _ _ 0)|].
    eapply rtc_l; [by apply (q_starts 2 0 0 _ _ _ _ 0)|]. eapply rtc_l; [by apply q_prints|]. apply rtc_refl. }
  split; [apply (query_main_result 2 1 _ 1 Hrun); reflexivity|eauto].
Defined.

(** With a worker, a run that has not printed can go on, and it cannot go on for
    ever: each step uses up some of the work left. *)
Definition work_left (s : QuerySys) : nat :=
  (4 * q_todo s + 3 * q_queue s + busy (q_acting s) + match q_result s with None => 1 | Some _ => 0 end)%nat.

Lemma qstep_decreases n s s' : qstep n s s' -> (work_left s' < work_left s)%nat.
Proof.
  unfold work_left. intros [t q c a d|t q c a d r w k Ha Hc|t q c a d r w Ha|q c a d Hs];
    cbn [q_todo q_queue q_acting q_result].
  - lia.
  - pose proof (busy_insert a w false true Ha). cbv iota in *. lia.
  - pose proof (busy_insert a w true false Ha). cbv iota in *. lia.
  - lia.
Qed.

Lemma qstep_progress n workers s : (0 < workers)%nat -> sys_inv n workers s -> q_result s = None -> exists s', qstep n s s'.
Proof.
  destruct s as [t q c a d r]. intros Hw (Hsum & Hdone & Hla & Hlc & _) Hr. cbn in *. subst r.
  destruct t as [|t]; [|eexists; apply q_queues].
  destruct (lookup_lt_is_Some_2 a 0 ltac:(lia)) as [b Hb]. destruct (lookup_lt_is_Some_2 c 0 ltac:(lia)) as [k Hk].
  destruct b; [eexists; by eapply q_acts|]. destruct q as [|q]; [|eexists; by eapply q_starts].
  eexists. apply q_prints. lia.
Qed.

(** ** A run of the comparison *)

Definition sample_exchange (m : Msg) (addr : string) : option Msg * Z * option positive :=
  let answer := if String.eqb addr "s1" then [www_rr; alias_rr] else [alias_rr; www_rr] in
  (Some (mkMsg 7 true false false RcodeSuccess [mkQuestion "alias.example.com." TypeA ClassINET] answer [] []), 1000, None).

Lemma Compare_silent_witness :
  Compare_Act (fun _ => TypeA) sample_exchange (NewCompareTool "s1" "s2") (mkQuery "alias.example.com." "A") = Done [].
Proof.
  eapply (Compare_silent (fun _ => TypeA) sample_exchange); [reflexivity|reflexivity|discriminate|reflexivity|apply perm_swap|..].
  - reflexivity.
  - reflexivity.
  - repeat constructor.
  - intros a b Ha Hb. simpl in Ha, Hb. rewrite !elem_of_cons, elem_of_nil in Ha, Hb.
    destruct Ha as [->|[->|[]]], Hb as [->|[->|[]]]; intros E; first [reflexivity|discriminate E].
Defined.
