(* ===== verification/CommandLine.v ===== *)
(** The four [main] functions from their command lines: redins.go, and the tools
    gen.go, bulk.go and query.go.  The theorems say which settings each accepts and
    which run they lead to. *)
From S2P Require Import Prelude GoStrings GoFlag GoCache DnsTypes Monad Server Deps Sample Upstream Config Process Verify PerfGen PerfBulk QueryTool.

(** A command line is rejected exactly if it is not written settings. *)
Lemma Parse_cases args f :
  match Parse args f with
  | inl (f', _) => exists ss rest, Forall (legal f) ss /\ command_line args ss rest /\ f' = applySettings f ss
  | inr _ => ~ exists ss rest, Forall (legal f) ss /\ command_line args ss rest
  end.
Proof.
  destruct (Parse args f) as [[f' rest]|e] eqn:E.
  - apply Parse_spec in E as (ss & H). by exists ss, rest.
  - intros (ss & rest & Hss & Hc). enough (Parse args f = inl (applySettings f ss, rest)) by congruence.
    apply Parse_spec. by exists ss.
Qed.

(** ** redins.go *)

Section Redins.
Context {J : ConfigJson} {GC : GoCache} (P : Probes) (writeFile : string -> string -> option string).
Context (CertPool Certificate : Type) (ReadFile : string -> option string)
  (AppendCertsFromPEM : string -> option CertPool) (LoadX509KeyPair : string -> string -> option Certificate).

Definition redinsFlags : FlagSet :=
  NewFlagSet [("c", VString "config.json"); ("t", VBool false); ("g", VString "template-config.json")].

(** What a run of the program is. *)
Inductive Run :=
  | UsageError (e : FlagError)
  | Verified (ls : list Line)
  | Generated (out : Generate)
  | Served (p : Proc).

Definition redins_main (args : list string) (open : Files) (evs : list Ev) : Run :=
  match Parse args redinsFlags with
  | inr e => UsageError e
  | inl (f, _) =>
      let configFile := stringFlag f "c" in
      if boolFlag f "t" then Verified (Verify P open configFile)
      else if bool_decide ("g" ∈ actual f) then Generated (generateConfig writeFile (stringFlag f "g") redinsDefaultConfig)
      else Served (main configFile CertPool Certificate ReadFile AppendCertsFromPEM LoadX509KeyPair open evs)
  end.

(** The run that the settings ask for. *)
Definition intended (ss : list Setting) (open : Files) (evs : list Ev) : Run :=
  let configFile := textOf "c" "config.json" ss in
  match lastText "t" ss ≫= ParseBool, lastText "g" ss with
  | Some true, _ => Verified (Verify P open configFile)
  | _, Some path => Generated (generateConfig writeFile path redinsDefaultConfig)
  | _, None => Served (main configFile CertPool Certificate ReadFile AppendCertsFromPEM LoadX509KeyPair open evs)
  end.

Lemma redins_main_settings args ss rest open evs : Forall (legal redinsFlags) ss -> command_line args ss rest ->
  redins_main args open evs = intended ss open evs.
Proof.
  intros Hss Hc. unfold redins_main. assert (Parse args redinsFlags = inl (applySettings redinsFlags ss, rest)) as ->.
  { apply Parse_spec. by exists ss. }
  rewrite (stringFlag_last _ _ Hss "c" "config.json"), (stringFlag_last _ _ Hss "g" "template-config.json"),
    (boolFlag_last _ _ Hss "t" false) by done.
  rewrite (bool_decide_ext _ _ (actual_last _ _ Hss "g" _ eq_refl eq_refl)). unfold intended, textOf.
  destruct (lastText "t" ss) as [t|], (lastText "g" ss) as [g|]; simpl; try destruct (ParseBool t) as [[]|]; done.
Qed.

(** C34: which run a command line leads to.  The program refuses exactly the
    arguments that are not settings of -c, -t and -g, in Go's spellings, followed by
    other arguments; -t, unless it is last set to false, makes it verify the last
    configuration named, without it any -g makes it write the template to the last
    path given, and without both it serves. *)
Theorem redins_modes args open evs :
  match redins_main args open evs with
  | UsageError _ => ~ exists ss rest, Forall (legal redinsFlags) ss /\ command_line args ss rest
  | run => exists ss rest, Forall (legal redinsFlags) ss /\ command_line args ss rest /\ run = intended ss open evs
  end.
Proof.
  pose proof (Parse_cases args redinsFlags) as H. destruct (Parse args redinsFlags) as [[f rest']|e] eqn:E.
  - destruct H as (ss & rest & Hss & Hc & ->). pose proof (redins_main_settings args ss rest open evs Hss Hc) as Hr.
    destruct (redins_main args open evs) eqn:Em; eauto.
    exfalso. unfold redins_main in Em. rewrite E in Em. repeat case_match; done.
  - unfold redins_main. by rewrite E.
Qed.
End Redins.

(** ** tools/perf/gen/gen.go *)

Definition genFlags : FlagSet :=
  NewFlagSet [("zones", VInt 10); ("entries", VInt 100); ("type", VString "a"); ("addr", VString "localhost:6379")].

(** [env addr] is the outside with the Redis at [addr]. *)
Definition gen_run (env : string -> GenEnv) (fuel : nat) (args : list string) : FlagError + Outcome (GenState * option string) :=
  match Parse args genFlags with
  | inr e => inl e
  | inl (f, _) => inr (gen_main (env (stringFlag f "addr")) fuel (mkGenFlags (intFlag f "zones") (intFlag f "entries") (stringFlag f "type")))
  end.

(** ** tools/perf/bulk/bulk.go *)

Definition bulkFlags : FlagSet := NewFlagSet [("num", VInt 10000)].

Definition bulk_run (env : BulkEnv) (file : option string) (args : list string) : FlagError + Outcome (list Print) :=
  match Parse args bulkFlags with
  | inr e => inl e
  | inl (f, _) => inr (bulk_main env file (intFlag f "num"))
  end.

(** ** tools/query/query.go *)

Definition queryFlags : FlagSet :=
  NewFlagSet [("source", VString "redis"); ("tool", VString "bench"); ("s1", VString "localhost:1053"); ("s2", VString "localhost:2053");
    ("source-address", VString "localhost:6379"); ("threads", VInt 10); ("max-queries", VInt 1000000)].

(** The source and the tool behind their interfaces, with the number of workers. *)
Inductive QueryStart :=
  | QUsage (e : FlagError)
  | QInvalid (msg : string)
  | QStart (g : RedisDumpQueryGenerator + FileQueryGenerator) (t : CompareTool + BenchTool) (maxWorkers : Z).

Section Query.
(** The databases and the files the addresses lead to. *)
Context {R : Redis} (connect : RedisConfig -> RS) (readFile : string -> option string).

Definition query_start (args : list string) : QueryStart :=
  match Parse args queryFlags with
  | inr e => QUsage e
  | inl (f, _) =>
      match chooseBoth (stringFlag f "source") (stringFlag f "tool") with
      | inr msg => QInvalid msg
      | inl (s, t) =>
          QStart
            match s with
            | RedisSource => inl (NewRedisDumpQueryGenerator connect (stringFlag f "source-address"))
            | FileSource => inr (NewFileQueryGenerator (readFile (stringFlag f "source-address")) (intFlag f "max-queries"))
            end
            match t with
            | CompareKind => inl (NewCompareTool (stringFlag f "s1") (stringFlag f "s2"))
            | BenchKind => inr (NewBenchTool (stringFlag f "s1"))
            end
            (intFlag f "threads")
      end
  end.

(** Names of sources and tools are checked before anything is opened; -s2 matters
    for the comparison and -max-queries for a file only. *)
Lemma query_start_settings args ss rest : Forall (legal queryFlags) ss -> command_line args ss rest ->
  query_start args =
    match chooseBoth (textOf "source" "redis" ss) (textOf "tool" "bench" ss) with
    | inr msg => QInvalid msg
    | inl (s, t) =>
        QStart
          match s with
          | RedisSource => inl (NewRedisDumpQueryGenerator connect (textOf "source-address" "localhost:6379" ss))
          | FileSource => inr (NewFileQueryGenerator (readFile (textOf "source-address" "localhost:6379" ss))
                            match lastText "max-queries" ss with Some t => default 0 (ParseInt t) | None => 1000000 end)
          end
          match t with
          | CompareKind => inl (NewCompareTool (textOf "s1" "localhost:1053" ss) (textOf "s2" "localhost:2053" ss))
          | BenchKind => inr (NewBenchTool (textOf "s1" "localhost:1053" ss))
          end
          match lastText "threads" ss with Some t => default 0 (ParseInt t) | None => 10 end
    end.
Proof.
  intros Hss Hc. unfold query_start. assert (Parse args queryFlags = inl (applySettings queryFlags ss, rest)) as ->.
  { apply Parse_spec. by exists ss. }
  rewrite (stringFlag_last _ _ Hss "source" "redis"), (stringFlag_last _ _ Hss "tool" "bench"),
    (stringFlag_last _ _ Hss "source-address" "localhost:6379"), (stringFlag_last _ _ Hss "s1" "localhost:1053"),
    (stringFlag_last _ _ Hss "s2" "localhost:2053"), (intFlag_last _ _ Hss "max-queries" 1000000),
    (intFlag_last _ _ Hss "threads" 10) by done. done.
Qed.
End Query.

(** ** Runs *)

Example bulk_run_flags :
  bulk_run (bulk_env [bulk_rr (DA (Some [1; 2; 3; 4]))]) (Some bulk_file) ["-num"; "2"] = inr (Done [PNum 2; PCount 0; PDuration 2000]) /\
  bulk_run (bulk_env []) None ["-n=2"] = inl (ErrUndefined "n").
Proof. by vm_compute. Qed.

Definition sample_run (P : Probes) (args : list string) : Run :=
  redins_main (J := SampleConfigJson) (GC := MapCache) P (fun path _ => if String.eqb path "/" then Some "is a directory" else None) unit unit (fun _ => None) (fun _ => None) (fun _ _ => None)
    args (fun _ => inl doc_two_listeners) [SIGINT].

(** -t wins over -g, and -t=false takes it back. *)
Example redins_runs P :
  (exists ls, sample_run P ["-g"; "x"; "-t"] = Verified ls) /\
  (exists d, sample_run P ["-g"; "x"; "-t"; "-t=false"; "--g=y"; "z"] = Generated (Written "y" d)) /\
  sample_run P ["-g"; "/"] = Generated (WriteFailed "/" "is a directory") /\
  sample_run P ["-x"] = UsageError (ErrUndefined "x").
Proof. split_and!; [eexists; reflexivity|eexists; reflexivity|reflexivity|reflexivity]. Qed.
